(** * bankdeposit_FRA: registry document downloaders

    A shallow embedding of the Python scripts that list, filter and download
    company filings (main_pdf.py, main_pdf_2.py, main_pdf_json.py) and of the
    pagination and file-selection helpers of qard_bulk_download.py, followed
    by the properties established about them.

    Conventions of the embedding:
    - a Python [str] is a list of code points ([ustring]);
    - a decoded JSON document is a value of [json]; a dict keeps its items in
      order and is read with first-match lookup;
    - Python floats that measure time are exact rationals ([Q]);
    - code that can raise returns [res]; code that talks to the network, the
      clock, the random source or the disk runs in the monad [M] over an
      explicit [World];
    - [print] calls, time-outs and HTTP header literals have no effect on any
      value computed here and are left out. *)

From Stdlib Require Import List String Ascii ZArith NArith QArith Qminmax Lia Lqa Bool.
From Stdlib.Strings Require Import Byte.
From Stdlib Require DecimalString.
Import ListNotations.

Set Implicit Arguments.
Set Warnings "-register-all".
Local Open Scope list_scope.

(* ===================================================================== *)
(** * Python values                                                       *)
(* ===================================================================== *)

Module Py.

(** A Python [str]: the sequence of its code points. *)
Definition ustring := list N.

(** An ASCII literal of the source, as a [ustring]. *)
Definition lit (s : string) : ustring :=
  List.map N_of_ascii (list_ascii_of_string s).

Fixpoint ustring_eqb (a b : ustring) : bool :=
  match a, b with
  | [], [] => true
  | x :: a', y :: b' => (x =? y)%N && ustring_eqb a' b'
  | _, _ => false
  end.

(** Exceptions the embedded code can raise and never catches itself. *)
Inductive exn :=
| AttributeError | TypeError | ValueError | ZeroDivisionError | RecursionError.

(** The result of code that has no effect but can raise. *)
Inductive res (A : Type) :=
| Ok (a : A)
| Fail (e : exn).
Arguments Ok {A} a.
Arguments Fail {A} e.

Definition res_bind {A B} (r : res A) (k : A -> res B) : res B :=
  match r with Ok a => k a | Fail e => Fail e end.

Fixpoint res_map {A B} (f : A -> res B) (l : list A) : res (list B) :=
  match l with
  | [] => Ok []
  | x :: l' =>
      res_bind (f x) (fun y => res_bind (res_map f l') (fun ys => Ok (y :: ys)))
  end.

(** Decoded JSON, as [json.loads] / [Response.json()] produce it. *)
Inductive json :=
| JNull
| JBool (b : bool)
| JInt (z : Z)
| JFloat (q : Q)
| JStr (s : ustring)
| JList (l : list json)
| JObj (items : list (ustring * json)).

(** Truth value of an object ([if x], [not x], [x or y]). *)
Definition truthy (v : json) : bool :=
  match v with
  | JNull => false
  | JBool b => b
  | JInt z => negb (z =? 0)%Z
  | JFloat q => negb (Qnum q =? 0)%Z
  | JStr s => match s with [] => false | _ => true end
  | JList l => match l with [] => false | _ => true end
  | JObj m => match m with [] => false | _ => true end
  end.

(** [a or b] *)
Definition py_or (a b : json) : json := if truthy a then a else b.

Fixpoint assoc (k : ustring) (m : list (ustring * json)) : option json :=
  match m with
  | [] => None
  | (k', v) :: m' => if ustring_eqb k k' then Some v else assoc k m'
  end.

(** [d.get(k, default)]; only a dict has a [get] method. *)
Definition get_or (d : json) (k : string) (default : json) : res json :=
  match d with
  | JObj m => Ok (match assoc (lit k) m with Some v => v | None => default end)
  | _ => Fail AttributeError
  end.

(** [d.get(k)] *)
Definition get (d : json) (k : string) : res json := get_or d k JNull.

(** The elements a [for] loop (or a comprehension) draws from a value. *)
Definition iterate (v : json) : res (list json) :=
  match v with
  | JList l => Ok l
  | JStr s => Ok (List.map (fun c => JStr [c]) s)
  | JObj m => Ok (List.map (fun kv => JStr (fst kv)) m)
  | _ => Fail TypeError
  end.

Definition is_list (v : json) : bool :=
  match v with JList _ => true | _ => false end.

(** [needle in hay] on two strings. *)
Fixpoint starts_with (p s : ustring) : bool :=
  match p, s with
  | [], _ => true
  | a :: p', b :: s' => (a =? b)%N && starts_with p' s'
  | _ :: _, [] => false
  end.

Fixpoint contains (needle hay : ustring) : bool :=
  starts_with needle hay ||
  match hay with
  | [] => false
  | _ :: hay' => contains needle hay'
  end.

(** ** Characters *)

Definition is_ascii (c : N) : bool := (c <? 128)%N.

(** [c.isspace()], which is also what [\s] matches and [strip()] removes. *)
Definition is_space (c : N) : bool :=
  ((9 <=? c) && (c <=? 13) || (28 <=? c) && (c <=? 32) || (c =? 133)
   || (c =? 160) || (c =? 5760) || (8192 <=? c) && (c <=? 8202)
   || (c =? 8232) || (c =? 8233) || (c =? 8239) || (c =? 8287)
   || (c =? 12288))%N.

Fixpoint lstrip (s : ustring) : ustring :=
  match s with
  | c :: s' => if is_space c then lstrip s' else s
  | [] => []
  end.

(** [s.strip()] *)
Definition strip (s : ustring) : ustring := rev (lstrip (rev (lstrip s))).

Definition ascii_lower_char (c : N) : N :=
  if ((65 <=? c) && (c <=? 90))%N then (c + 32)%N else c.

Definition ascii_upper_char (c : N) : N :=
  if ((97 <=? c) && (c <=? 122))%N then (c - 32)%N else c.

(** [s.encode('ascii', 'ignore').decode()] *)
Definition ascii_only (s : ustring) : ustring := filter is_ascii s.

(** The parts of Python's text handling that rest on the Unicode character
    database; the scripts reach them through [unicodedata], [str.lower],
    [str.upper], [int] and f-strings. *)
Class PyText := {
  nfkd : ustring -> ustring;          (* unicodedata.normalize('NFKD', s) *)
  combining : N -> bool;              (* unicodedata.combining(ch) != 0 *)
  lower : ustring -> ustring;         (* s.lower() *)
  upper : ustring -> ustring;         (* s.upper() *)
  int_of_str : ustring -> option Z;   (* int(s), None for ValueError *)
  str_of : json -> ustring            (* str(v), as in f"{v}" *)
}.

(** Facts of the character database the proofs rely on: ASCII text has no
    decomposition and lower-cases letter by letter, and decomposition never
    moves ASCII characters across a concatenation point. *)
Class PyTextLaws (T : PyText) : Prop := {
  nfkd_ascii : forall s, forallb is_ascii s = true -> nfkd s = s;
  nfkd_app : forall x y,
      ascii_only (nfkd (x ++ y)) = ascii_only (nfkd x) ++ ascii_only (nfkd y);
  lower_ascii : forall s,
      forallb is_ascii s = true -> lower s = List.map ascii_lower_char s
}.

(** [int(v)] *)
Definition to_int {T : PyText} (v : json) : res Z :=
  match v with
  | JInt z => Ok z
  | JBool b => Ok (if b then 1 else 0)%Z
  | JFloat q => Ok (Z.quot (Qnum q) (Zpos (Qden q)))
  | JStr s => match int_of_str s with
              | Some z => Ok z
              | None => Fail ValueError
              end
  | _ => Fail TypeError
  end.

End Py.

(* ===================================================================== *)
(** * The world the scripts run in                                        *)
(* ===================================================================== *)

Module Sys.
Import Py.

(** What the scripts read from a reply: [r.json()] ([None] when the body is
    not JSON, which [requests] reports as a [RequestException]) and
    [r.content]. *)
Record Body := { body_json : option json; content : list byte }.

(** The outcome of one call through [requests]. *)
Inductive Response :=
| Http (status : Z) (body : Body)
| ConnectionError                 (* requests.ConnectionError *)
| RequestError.                   (* any other requests.RequestException *)

(** The endpoint a call goes to. *)
Inductive Target :=
| Login
| Attachments (siren : ustring)   (* /api/companies/{siren}/attachments *)
| Download (acte_id : json).      (* /api/actes/{acte_id}/download *)

(** The call site of a [time.sleep]. *)
Inductive SleepSite :=
| Pacing     (* inside RateLimiter.wait *)
| Backoff    (* before a retry *)
| Pause.     (* politeness pauses of download_acte and main *)

Inductive Event :=
| Request (t : Target) (token : json) (r : Response)
| Sleep (site : SleepSite) (d : Q)
| Saved (name : ustring).

Record RateLimiter := { min_interval : Q; last_ts : Q }.

(** The two module-level limiters of main_pdf_2.py. *)
Inductive Group := JsonGroup | DocsGroup.

Record World := {
  replies : nat -> Response;       (* outcome of the k-th network call *)
  served : nat;                    (* network calls issued so far *)
  unif : nat -> Q;                 (* k-th value of random.random() *)
  drawn : nat;                     (* random values consumed so far *)
  lag : nat -> Q;                  (* how much longer than asked the k-th
                                      time.sleep() lasts *)
  slept : nat;                     (* calls of time.sleep() so far *)
  clock : Q;                       (* time.time() *)
  json_limiter : RateLimiter;
  docs_limiter : RateLimiter;
  token_file : option ustring;     (* inpi_token.txt, when it exists *)
  disk : list (ustring * list byte);   (* the other files of the directory *)
  trace : list Event               (* what happened, oldest first *)
}.

(** How a computation in the world ends: it returns, it raises
    [SystemExit(code)], or it raises an exception nothing catches. *)
Inductive outcome (A : Type) :=
| Done (a : A)
| Exit (code : Z)
| Crash (e : exn).
Arguments Done {A} a.
Arguments Exit {A} code.
Arguments Crash {A} e.

(** The exit status the interpreter reports for a script that ended so. *)
Definition exit_status {A} (o : outcome A) : Z :=
  match o with
  | Done _ => 0
  | Exit c => c
  | Crash _ => 1
  end.

Definition M (A : Type) : Type := World -> outcome A * World.

Definition ret {A} (a : A) : M A := fun w => (Done a, w).

Definition bind {A B} (m : M A) (k : A -> M B) : M B :=
  fun w => match m w with
           | (Done a, w') => k a w'
           | (Exit c, w') => (Exit c, w')
           | (Crash e, w') => (Crash e, w')
           end.

(** Effect-free code, run in the world. *)
Definition lift {A} (r : res A) : M A :=
  fun w => (match r with Ok a => Done a | Fail e => Crash e end, w).

(** [raise SystemExit(code)] *)
Definition sys_exit {A} (code : Z) : M A := fun w => (Exit code, w).

Declare Scope monad_scope.
Delimit Scope monad_scope with monad.
Notation "x <- m ;; k" := (bind m (fun x => k))
  (at level 61, m at next level, right associativity) : monad_scope.
Notation "' p <- m ;; k" := (bind m (fun x => match x with p => k end))
  (at level 61, p pattern, m at next level, right associativity) : monad_scope.
Notation "m ;; k" := (bind m (fun _ => k))
  (at level 61, right associativity) : monad_scope.
Local Open Scope monad_scope.

Definition log (e : Event) (w : World) : World :=
  {| replies := replies w; served := served w; unif := unif w;
     lag := lag w; slept := slept w;
     drawn := drawn w; clock := clock w; json_limiter := json_limiter w;
     docs_limiter := docs_limiter w; token_file := token_file w;
     disk := disk w; trace := trace w ++ [e] |}.

(** One call through [requests]: the next scripted outcome. *)
Definition http (t : Target) (token : json) : M Response :=
  fun w =>
    let r := replies w (served w) in
    (Done r,
     log (Request t token r)
       {| replies := replies w; served := S (served w); unif := unif w;
     lag := lag w; slept := slept w;
          drawn := drawn w; clock := clock w; json_limiter := json_limiter w;
          docs_limiter := docs_limiter w; token_file := token_file w;
          disk := disk w; trace := trace w |}).

(** [r.raise_for_status()] raises [HTTPError] for these codes. *)
Definition is_http_error (status : Z) : bool :=
  ((400 <=? status) && (status <? 600))%Z.

Definition time_time : M Q := fun w => (Done (clock w), w).

Definition Qltb (x y : Q) : bool :=
  (Qnum x * Zpos (Qden y) <? Qnum y * Zpos (Qden x))%Z.

(** [time.sleep(d)]: the call lasts [d] seconds and what the system adds,
    which the clock shows afterwards; a negative [d] is a [ValueError]. *)
Definition time_sleep (site : SleepSite) (d : Q) : M unit :=
  fun w =>
    if Qltb d 0 then (Crash ValueError, w)
    else
      (Done tt,
       log (Sleep site d)
         {| replies := replies w; served := served w; unif := unif w;
            lag := lag w; slept := S (slept w);
            drawn := drawn w; clock := clock w + d + lag w (slept w);
            json_limiter := json_limiter w; docs_limiter := docs_limiter w;
            token_file := token_file w; disk := disk w; trace := trace w |}).

(** [random.uniform(a, b)], that is [a + (b - a) * random()]. *)
Definition random_uniform (a b : Q) : M Q :=
  fun w =>
    (Done (a + (b - a) * unif w (drawn w)),
     {| replies := replies w; served := served w; unif := unif w;
     lag := lag w; slept := slept w;
        drawn := S (drawn w); clock := clock w;
        json_limiter := json_limiter w; docs_limiter := docs_limiter w;
        token_file := token_file w; disk := disk w; trace := trace w |}).

Definition limiter (g : Group) (w : World) : RateLimiter :=
  match g with JsonGroup => json_limiter w | DocsGroup => docs_limiter w end.

Definition set_limiter (g : Group) (l : RateLimiter) : M unit :=
  fun w =>
    (Done tt,
     {| replies := replies w; served := served w; unif := unif w;
     lag := lag w; slept := slept w;
        drawn := drawn w; clock := clock w;
        json_limiter := match g with JsonGroup => l | _ => json_limiter w end;
        docs_limiter := match g with DocsGroup => l | _ => docs_limiter w end;
        token_file := token_file w; disk := disk w; trace := trace w |}).

Definition set_token_file (t : option ustring) : M unit :=
  fun w =>
    (Done tt,
     {| replies := replies w; served := served w; unif := unif w;
     lag := lag w; slept := slept w;
        drawn := drawn w; clock := clock w; json_limiter := json_limiter w;
        docs_limiter := docs_limiter w; token_file := t;
        disk := disk w; trace := trace w |}).

(** [with open(name, "wb") as f: f.write(data)] *)
Definition write_file (name : ustring) (data : list byte) : M unit :=
  fun w =>
    (Done tt,
     log (Saved name)
       {| replies := replies w; served := served w; unif := unif w;
     lag := lag w; slept := slept w;
          drawn := drawn w; clock := clock w; json_limiter := json_limiter w;
          docs_limiter := docs_limiter w; token_file := token_file w;
          disk := (name, data)
                  :: filter (fun f => negb (ustring_eqb (fst f) name)) (disk w);
          trace := trace w |}).

(** [os.path.exists(name)] *)
Definition path_exists (name : ustring) : M bool :=
  fun w => (Done (existsb (fun f => ustring_eqb (fst f) name) (disk w)), w).

(** ** RateLimiter (main_pdf_2.py:50-67) *)

(** [RateLimiter.__init__(rpm)] *)
Definition RateLimiter_init (rpm : Z) : res RateLimiter :=
  if (rpm =? 0)%Z then Fail ZeroDivisionError
  else Ok {| min_interval := 60 / inject_Z rpm; last_ts := 0 |}.

(** [RateLimiter.wait(self)], for the limiter of group [g].  The lock only
    matters to concurrent callers; the scripts have one thread. *)
Definition wait (g : Group) : M unit :=
  now <- time_time ;;
  jitter <- random_uniform 0 (8 # 100) ;;
  self <- (fun w => (Done (limiter g w), w)) ;;
  let next_ok := last_ts self + min_interval self + jitter in
  let sleep_for := Qmax 0 (next_ok - now) in
  (if Qltb 0 sleep_for then time_sleep Pacing sleep_for else ret tt) ;;
  set_limiter g {| min_interval := min_interval self;
                   last_ts := Qmax now next_ok |}.

End Sys.

(* ===================================================================== *)
(** * Code the three INPI scripts share                                   *)
(* ===================================================================== *)

(** main_pdf.py, main_pdf_2.py and main_pdf_json.py each carry their own copy
    of the definitions of this module; the copies differ in messages,
    time-outs and header literals only. *)
Module Inpi.
Import Py Sys.

Declare Scope res_scope.
Delimit Scope res_scope with res.
Notation "x <- m ;; k" := (res_bind m (fun x => k))
  (at level 61, m at next level, right associativity) : res_scope.

Section Text.
Context {T : PyText}.

(** [allowed_types] (main_pdf_2.py:37, main_pdf.py:59, main_pdf_json.py:63) *)
Definition allowed_types : list ustring :=
  [ lit "statuts constitutifs";
    lit "attestation de depot des fonds";
    lit "attestation bancaire" ].

(** [normalize(text)] (main_pdf_2.py:75, main_pdf.py:70, main_pdf_json.py:73):
    [unicodedata.normalize('NFKD', text or "").encode('ascii', 'ignore')
     .decode().lower()] *)
Definition normalize (text : json) : res ustring :=
  match py_or text (JStr []) with
  | JStr s => Ok (lower (ascii_only (nfkd s)))
  | _ => Fail TypeError
  end.

(** [[normalize(t.get("typeActe", "")) for t in type_rdd_list]] with
    [type_rdd_list = acte.get("typeRdd", [])] *)
Definition acte_types (acte : json) : res (list ustring) :=
  (type_rdd_list <- get_or acte "typeRdd" (JList []) ;;
   ts <- iterate type_rdd_list ;;
   res_map (fun t => label <- get_or t "typeActe" (JStr []) ;; normalize label)
           ts)%res.

(** [any(allowed in acte_type for allowed in allowed_types)] *)
Definition is_allowed_type (acte_type : ustring) : bool :=
  existsb (fun allowed => contains allowed acte_type) allowed_types.

(** [any(any(allowed in acte_type for allowed in allowed_types)
         for acte_type in acte_types)] *)
Definition any_allowed (types : list ustring) : bool :=
  existsb is_allowed_type types.

(** The [for acte in actes] loop of the filters: [keeps acte] tells whether
    the body appends [acte]. *)
Fixpoint filter_loop (keeps : json -> res bool) (actes : list json)
  : res (list json) :=
  match actes with
  | [] => Ok []
  | acte :: rest =>
      (k <- keeps acte ;;
       filtered <- filter_loop keeps rest ;;
       Ok (if k then acte :: filtered else filtered))%res
  end.

Local Open Scope monad_scope.

(** ** Token store *)

(** [save_token(token)]: the file is opened for writing, then [f.write]
    accepts a [str] only.  A write that the file system refuses and a token
    that the encoding of the file cannot hold are left out: what is proved
    of the token file is proved of calls that return. *)
Definition save_token (token : json) : M unit :=
  match token with
  | JStr s => set_token_file (Some s)
  | _ => set_token_file (Some []) ;; lift (Fail TypeError)
  end.

(** [load_token()] *)
Definition load_token : M json :=
  fun w => (Done (match token_file w with
                  | Some s => JStr (strip s)
                  | None => JNull
                  end), w).

(** [clear_token()] *)
Definition clear_token : M unit := set_token_file None.

(** [login()]: every [RequestException] ends in [return None]. *)
Definition login : M json :=
  resp <- http Login JNull ;;
  match resp with
  | Http status body =>
      if is_http_error status then ret JNull
      else match body_json body with
           | None => ret JNull
           | Some j =>
               token <- lift (get j "token") ;;
               if negb (truthy token) then ret JNull
               else save_token token ;; ret token
           end
  | ConnectionError | RequestError => ret JNull
  end.

(** [get_token()] *)
Definition get_token : M json :=
  token <- load_token ;;
  if truthy token then ret token else login.

End Text.
End Inpi.

(* ===================================================================== *)
(** * main_pdf_2.py: the multi-SIREN downloader                           *)
(* ===================================================================== *)

Module MainPdf2.
Import Py Sys Inpi.
Local Open Scope monad_scope.

(** [PAUSE_BETWEEN_SIRENS_SEC] *)
Definition PAUSE_BETWEEN_SIRENS_SEC : Q := 1.
Definition JSON_RPM : Z := 200.
Definition DOCS_RPM : Z := 40.

(** [backoffs[min(attempt - 1, len(backoffs) - 1)]] *)
Definition backoff_at (backoffs : list Z) (attempt : Z) : Q :=
  inject_Z (nth (Z.to_nat (Z.min (attempt - 1) (Z.of_nat (List.length backoffs) - 1)))
                backoffs 0%Z).

Section Text.
Context {T : PyText}.

(** [validate_or_refresh_token(token, test_siren)] *)
Definition validate_or_refresh_token (token : json) (test_siren : ustring)
  : M json :=
  wait JsonGroup ;;
  r <- http (Attachments test_siren) token ;;
  match r with
  | Http status _ =>
      if (status =? 401)%Z then clear_token ;; login
      else if (status =? 429)%Z then sys_exit 2
      else if is_http_error status then clear_token ;; login
      else ret token
  | ConnectionError | RequestError => clear_token ;; login
  end.

(** The retry arm shared by the 5xx branch and the [except] clauses:
    sleep and [continue] while [attempt < max_attempts], else give up with
    [failure]. *)
Definition retry_or {A} (backoffs : list Z) (lo hi : Q)
    (attempt max_attempts : Z) (again : M A) (failure : A) : M A :=
  if (attempt <? max_attempts)%Z then
    let wait_s := backoff_at backoffs attempt in
    jitter <- random_uniform lo hi ;;
    time_sleep Backoff (wait_s + jitter) ;;
    again
  else ret failure.

(** The [for attempt in range(1, max_attempts + 1)] loop of
    [fetch_attachments]; [todo] counts the iterations still to run. *)
Fixpoint fetch_attempts (todo : nat) (attempt max_attempts : Z)
    (token : json) (siren : ustring) : M (json * json) :=
  match todo with
  | O => ret (JNull, token)
  | S todo' =>
      let backoffs := [3; 8; 20]%Z in
      let continue := fetch_attempts todo' (attempt + 1) max_attempts in
      let retry :=
        retry_or backoffs (5 # 10) (15 # 10) attempt max_attempts
                 (continue token siren) (JNull, token) in
      wait JsonGroup ;;
      r <- http (Attachments siren) token ;;
      match r with
      | Http status body =>
          if (status =? 401)%Z then
            clear_token ;;
            new_token <- login ;;
            if negb (truthy new_token) then ret (JNull, JNull)
            else continue new_token siren
          else if (status =? 429)%Z then sys_exit 2
          else if (status =? 403)%Z then ret (JNull, token)
          else if (500 <=? status)%Z then retry
          else if is_http_error status then retry
          else match body_json body with
               | Some j => ret (j, token)
               | None => retry
               end
      | ConnectionError => retry
      | RequestError => retry
      end
  end.

(** [fetch_attachments(token, siren, max_attempts=4)] *)
Definition fetch_attachments (token : json) (siren : ustring)
    (max_attempts : Z) : M (json * json) :=
  fetch_attempts (Z.to_nat max_attempts) 1 max_attempts token siren.

(** The body of the loop of [filter_actes]. *)
Definition keeps (acte : json) : res bool :=
  (deleted <- get acte "deleted" ;;
   match deleted with
   | JBool true => Ok false
   | _ =>
       conf <- get acte "confidentiality" ;;
       if match conf with
          | JStr s => negb (ustring_eqb (lower s) (lit "public"))
          | _ => false
          end
       then Ok false
       else (types <- acte_types acte ;; Ok (any_allowed types))
   end)%res.

(** [filter_actes(attachments_json)] *)
Definition filter_actes (attachments_json : json) : res (list json) :=
  (actes <- get_or attachments_json "actes" (JList []) ;;
   l <- iterate actes ;;
   filter_loop keeps l)%res.

(** [f"{siren}_{acte_id}.pdf"] *)
Definition pdf_name (siren : ustring) (acte_id : json) : ustring :=
  siren ++ lit "_" ++ str_of acte_id ++ lit ".pdf".

(** The [for attempt in range(1, max_attempts + 1)] loop of
    [download_acte].  On 429 the code first reads the Retry-After header
    ([_retry_after_seconds], which returns a number on every input) to pick
    one of two messages, then raises. *)
Fixpoint download_attempts (todo : nat) (attempt max_attempts : Z)
    (token : json) (siren : ustring) (acte_id : json) : M json :=
  match todo with
  | O => ret token
  | S todo' =>
      let base_backoffs := [8; 20; 45]%Z in
      let continue := download_attempts todo' (attempt + 1) max_attempts in
      wait DocsGroup ;;
      r <- http (Download acte_id) token ;;
      match r with
      | Http status body =>
          if (status =? 401)%Z then
            clear_token ;;
            new_token <- login ;;
            if negb (truthy new_token) then ret token
            else continue new_token siren acte_id
          else if (status =? 429)%Z then sys_exit 2
          else if (status =? 403)%Z then ret token
          else if (500 <=? status)%Z then
            retry_or base_backoffs (5 # 10) (15 # 10) attempt max_attempts
                     (continue token siren acte_id) token
          else if is_http_error status then
            retry_or base_backoffs (3 # 10) (12 # 10) attempt max_attempts
                     (continue token siren acte_id) token
          else
            write_file (pdf_name siren acte_id) (content body) ;;
            time_sleep Pause 1 ;;
            ret token
      | ConnectionError | RequestError =>
          retry_or base_backoffs (3 # 10) (12 # 10) attempt max_attempts
                   (continue token siren acte_id) token
      end
  end.

(** [download_acte(token, siren, acte, max_attempts=4)] *)
Definition download_acte (token : json) (siren : ustring) (acte : json)
    (max_attempts : Z) : M json :=
  acte_id <- lift (get acte "id") ;;
  _ <- lift (get_or acte "nomDocument" (JStr (lit "unknown"))) ;;
  download_attempts (Z.to_nat max_attempts) 1 max_attempts token siren acte_id.

(** [time.sleep(PAUSE_BETWEEN_SIRENS_SEC + random.uniform(0.0, 0.2))] *)
Definition pause_between_sirens : M unit :=
  u <- random_uniform 0 (2 # 10) ;;
  time_sleep Pause (PAUSE_BETWEEN_SIRENS_SEC + u).

(** [for acte in actes_filtered] in [main] *)
Fixpoint download_each (token : json) (s : ustring) (actes : list json)
    (total_downloaded : nat) : M (json * nat) :=
  match actes with
  | [] => ret (token, total_downloaded)
  | acte :: rest =>
      let prev_token := token in
      acte_id <- lift (get acte "id") ;;
      let expected_filename := pdf_name s acte_id in
      t <- download_acte token s acte 4 ;;
      let token := py_or t prev_token in
      present <- path_exists expected_filename ;;
      download_each token s rest
        (if present then S total_downloaded else total_downloaded)
  end.

(** [for idx, s in enumerate(sirens, 1)] in [main]; returns the two totals
    the summary prints. *)
Fixpoint each_siren (sirens : list ustring) (token : json)
    (total_found total_downloaded : nat) : M (nat * nat) :=
  match sirens with
  | [] => ret (total_found, total_downloaded)
  | s :: rest =>
      ' (attachments, token) <- fetch_attachments token s 4 ;;
      if negb (truthy attachments) then
        pause_between_sirens ;;
        each_siren rest token total_found total_downloaded
      else
        actes_filtered <- lift (filter_actes attachments) ;;
        let total_found := (total_found + List.length actes_filtered)%nat in
        ' (token, total_downloaded) <-
            download_each token s actes_filtered total_downloaded ;;
        pause_between_sirens ;;
        each_siren rest token total_found total_downloaded
  end.

(** [main()], from the list [sirens] that [load_sirens(sirens_file)]
    returned.  The result is the pair of totals of the summary, [None] when
    the function returns before the loop. *)
Definition main (sirens : list ustring) : M (option (nat * nat)) :=
  match sirens with
  | [] => ret None
  | first :: _ =>
      token <- get_token ;;
      if negb (truthy token) then ret None
      else
        token <- validate_or_refresh_token token first ;;
        if negb (truthy token) then ret None
        else
          totals <- each_siren sirens token 0 0 ;;
          ret (Some totals)
  end.

End Text.

(** ** The list of identifiers (main_pdf_2.py:351-364) *)

Section Loader.

(** [s.isdigit()] *)
Variable isdigit : ustring -> bool.

(** [line.strip().replace(" ", "")] *)
Definition clean_line (line : ustring) : ustring :=
  filter (fun c => negb (c =? 32)%N) (strip line).

(** The [for line in f] loop of [load_sirens]. *)
Fixpoint load_loop (lines : list ustring) (sirens : list ustring)
  : list ustring :=
  match lines with
  | [] => sirens
  | line :: rest =>
      let s := clean_line line in
      if (List.length s =? 9)%nat && isdigit s
      then load_loop rest (sirens ++ [s])
      else load_loop rest sirens
  end.

(** [load_sirens(path)]; [file] holds the lines of the file at [path], and
    is [None] when no such file exists. *)
Definition load_sirens (file : option (list ustring)) : list ustring :=
  match file with
  | None => []
  | Some lines => load_loop lines []
  end.

End Loader.
End MainPdf2.

(* ===================================================================== *)
(** * main_pdf.py: the single-SIREN downloader                            *)
(* ===================================================================== *)

Module MainPdf.
Import Py Sys Inpi.
Local Open Scope monad_scope.

Definition siren : ustring := lit "834816985".

Section Text.
Context {T : PyText}.

(** [fetch_attachments(token)] (main_pdf.py:136-151).  The function calls
    itself after a re-login; [depth] is the number of frames the interpreter
    still grants before it raises [RecursionError]. *)
Fixpoint fetch_attachments (depth : nat) (token : json) : M json :=
  match depth with
  | O => lift (Fail RecursionError)
  | S depth' =>
      response <- http (Attachments siren) token ;;
      match response with
      | Http status body =>
          if (status =? 401)%Z then
            clear_token ;;
            new_token <- login ;;
            if negb (truthy new_token) then ret JNull
            else fetch_attachments depth' new_token
          else if is_http_error status then ret JNull
          else match body_json body with
               | Some j => ret j
               | None => ret JNull
               end
      | ConnectionError | RequestError => ret JNull
      end
  end.

(** The body of the loop of [filter_actes] (main_pdf.py:162-168). *)
Definition keeps (acte : json) : res bool :=
  (types <- acte_types acte ;; Ok (any_allowed types))%res.

(** [filter_actes(attachments_json)] (main_pdf.py:159-169) *)
Definition filter_actes (attachments_json : json) : res (list json) :=
  (actes <- get_or attachments_json "actes" (JList []) ;;
   l <- iterate actes ;;
   filter_loop keeps l)%res.

(** [download_acte(token, acte)] (main_pdf.py:176-200); [depth] as for
    [fetch_attachments]. *)
Fixpoint download_acte (depth : nat) (token acte : json) : M unit :=
  match depth with
  | O => lift (Fail RecursionError)
  | S depth' =>
      acte_id <- lift (get acte "id") ;;
      _ <- lift (get_or acte "nomDocument" (JStr (lit "unknown"))) ;;
      response <- http (Download acte_id) token ;;
      match response with
      | Http status body =>
          if (status =? 401)%Z then
            clear_token ;;
            new_token <- login ;;
            if negb (truthy new_token) then ret tt
            else download_acte depth' new_token acte
          else if is_http_error status then ret tt
          else write_file (str_of acte_id ++ lit ".pdf") (content body)
      | ConnectionError | RequestError => ret tt
      end
  end.

(** [for acte in actes_filtered: download_acte(token, acte)] in [main] *)
Fixpoint download_all (depth : nat) (token : json) (actes : list json)
  : M unit :=
  match actes with
  | [] => ret tt
  | acte :: rest =>
      download_acte depth token acte ;;
      download_all depth token rest
  end.

(** [main()] (main_pdf.py:211-228) *)
Definition main (depth : nat) : M unit :=
  token <- get_token ;;
  if negb (truthy token) then ret tt
  else
    attachments <- fetch_attachments depth token ;;
    if negb (truthy attachments) then ret tt
    else
      actes_filtered <- lift (filter_actes attachments) ;;
      download_all depth token actes_filtered.

End Text.
End MainPdf.

(* ===================================================================== *)
(** * main_pdf_json.py: the JSON-output variant                           *)
(* ===================================================================== *)

Module MainPdfJson.
Import Py Sys Inpi.
Local Open Scope monad_scope.

Definition siren : ustring := lit "834816985".

(** ** [base64.b64encode(data).decode("ascii")] *)

Definition b64_char (n : N) : N :=
  (if n <? 26 then 65 + n
   else if n <? 52 then 97 + (n - 26)
   else if n <? 62 then 48 + (n - 52)
   else if n =? 62 then 43 else 47)%N.

Fixpoint b64encode (data : list byte) : ustring :=
  match data with
  | [] => []
  | [a] =>
      let x := Byte.to_N a in
      [b64_char (x / 4); b64_char ((x mod 4) * 16); 61; 61]%N
  | [a; b] =>
      let x := Byte.to_N a in
      let y := Byte.to_N b in
      [b64_char (x / 4); b64_char ((x mod 4) * 16 + y / 16);
       b64_char ((y mod 16) * 4); 61]%N
  | a :: b :: c :: rest =>
      let x := Byte.to_N a in
      let y := Byte.to_N b in
      let z := Byte.to_N c in
      [b64_char (x / 4); b64_char ((x mod 4) * 16 + y / 16);
       b64_char ((y mod 16) * 4 + z / 64); b64_char (z mod 64)]%N
      ++ b64encode rest
  end.

Section Text.
Context {T : PyText}.

(** [choose_acte_label(acte)] *)
Definition choose_acte_label (acte : json) : res json :=
  (type_rdd_list <- get_or acte "typeRdd" (JList []) ;;
   ts <- iterate type_rdd_list ;;
   labels_raw <- res_map (fun t => get_or t "typeActe" (JStr [])) ts ;;
   labels_norm <- res_map normalize labels_raw ;;
   Ok (match find (fun rn => is_allowed_type (snd rn))
                  (combine labels_raw labels_norm) with
       | Some (raw, _) => raw
       | None => match labels_raw with
                 | first :: _ => first
                 | [] => JStr (lit "inconnu")
                 end
       end))%res.

(** [fetch_attachments(token)] (main_pdf_json.py:142-157): the code of
    main_pdf.py, with the same [siren]. *)
Definition fetch_attachments : nat -> json -> M json :=
  MainPdf.fetch_attachments.

(** [filter_actes(attachments_json)] (main_pdf_json.py:163-171): the code of
    main_pdf.py. *)
Definition filter_actes : json -> res (list json) := MainPdf.filter_actes.

(** [download_acte_base64(token, acte)]; [depth] as for
    [fetch_attachments]. *)
Fixpoint download_acte_base64 (depth : nat) (token acte : json) : M json :=
  match depth with
  | O => lift (Fail RecursionError)
  | S depth' =>
      acte_id <- lift (get acte "id") ;;
      resp <- http (Download acte_id) token ;;
      match resp with
      | Http status body =>
          if (status =? 401)%Z then
            clear_token ;;
            new_token <- login ;;
            if negb (truthy new_token) then ret JNull
            else download_acte_base64 depth' new_token acte
          else if is_http_error status then ret JNull
          else ret (JStr (b64encode (content body)))
      | ConnectionError | RequestError => ret JNull
      end
  end.

(** [for acte in actes] in [main]: [output] grows by one dict per acte whose
    download gave a non-empty string. *)
Fixpoint collect (depth : nat) (token : json) (actes output : list json)
  : M (list json) :=
  match actes with
  | [] => ret output
  | acte :: rest =>
      label <- lift (choose_acte_label acte) ;;
      acte_id <- lift (get acte "id") ;;
      b64 <- download_acte_base64 depth token acte ;;
      if negb (truthy b64) then collect depth token rest output
      else
        collect depth token rest
          (output ++ [JObj [ (lit "siren", JStr siren);
                             (lit "typeActe", label);
                             (lit "id", acte_id);
                             (lit "mime", JStr (lit "application/pdf")) ]])
  end.

(** [main()]; the result is the array that [json.dump] writes to
    inpi_actes_<siren>.json, [None] when [main] returns before writing. *)
Definition main (depth : nat) : M (option (list json)) :=
  token <- get_token ;;
  if negb (truthy token) then ret None
  else
    attachments <- fetch_attachments depth token ;;
    if negb (truthy attachments) then ret None
    else
      actes <- lift (filter_actes attachments) ;;
      output <- collect depth token actes [] ;;
      ret (Some output).

End Text.
End MainPdfJson.

(* ===================================================================== *)
(** * qard_bulk_download.py                                               *)
(* ===================================================================== *)

Module QardBulk.
Import Py Inpi.

(** [ALLOWED_DATATYPES] *)
Definition ALLOWED_DATATYPES : list ustring :=
  [ lit "ACT"; lit "ARTICLES_OF_ASSOCIATION"; lit "LEGAL_NOTICE";
    lit "AVIS_SIREN" ].

(** [CALL_PAUSE] *)
Definition CALL_PAUSE : Q := 2 # 10.

(** The triple [get_json] returns: status code, headers, decoded body. *)
Definition Headers := list (ustring * ustring).
Record Reply := { code : Z; headers : Headers; data : json }.

Definition dict := list (ustring * json).

(** [d[k] = v] *)
Fixpoint dict_set (k : ustring) (v : json) (d : dict) : dict :=
  match d with
  | [] => [(k, v)]
  | (k', v') :: d' =>
      if ustring_eqb k k' then (k, v) :: d' else (k', v') :: dict_set k v d'
  end.

(** [d.setdefault(k, v)] *)
Definition setdefault (k : ustring) (v : json) (d : dict) : dict :=
  match assoc k d with Some _ => d | None => d ++ [(k, v)] end.

(** What a consumer that drains the generator observes, in order. *)
Inductive Out :=
| Asked (path : ustring) (params : dict)      (* a call to get_json *)
| Yielded (code : Z) (h : Headers) (item : json)
| Slept (d : Q).

(** How the drained generator ended; [Unfinished] when the [while True]
    loop was still running after the iterations granted. *)
Inductive ending := Exhausted | Raised (e : exn) | Unfinished.

(** The search for [items] among [item_key_candidates]. *)
Fixpoint find_items (data : json) (item_key_candidates : list ustring)
  : res (option (list json)) :=
  match item_key_candidates with
  | [] => Ok None
  | k :: ks =>
      match data with
      | JObj m =>
          match assoc k m with
          | Some (JList items) => Ok (Some items)
          | _ => find_items data ks
          end
      | _ => Fail AttributeError
      end
  end.

Section Text.
Context {T : PyText}.

(** The pagination footer: [cur = int(data.get("current_page", page))] and
    [last = int(data.get("last_page", cur))]. *)
Definition footer (data : json) (page : Z) : res (Z * Z) :=
  (cur_v <- get_or data "current_page" (JInt page) ;;
   cur <- to_int cur_v ;;
   last_v <- get_or data "last_page" (JInt cur) ;;
   last <- to_int last_v ;;
   Ok (cur, last))%res.

(** The [while True] loop of [iter_pages]; [sess n] is the reply to the
    [n]-th request of this traversal and [rounds] bounds the iterations. *)
Fixpoint pages_loop (rounds : nat) (sess : nat -> Reply) (asked : nat)
    (path : ustring) (base_params : dict)
    (item_key_candidates : list ustring) (page : Z) : list Out * ending :=
  match rounds with
  | O => ([], Unfinished)
  | S rounds' =>
      let params := dict_set (lit "page") (JInt page)
                      (setdefault (lit "per_page") (JInt 100) base_params) in
      let r := sess asked in
      let ask := Asked path params in
      if negb (code r =? 200)%Z then
        ([ask; Yielded (code r) (headers r) (data r)], Exhausted)
      else
        match data r with
        | JList l =>
            (ask :: List.map (Yielded 200 (headers r)) l, Exhausted)
        | _ =>
            match find_items (data r) item_key_candidates with
            | Fail e => ([ask], Raised e)
            | Ok None => ([ask; Yielded 200 (headers r) (data r)], Exhausted)
            | Ok (Some items) =>
                let out := ask :: List.map (Yielded 200 (headers r)) items in
                match footer (data r) page with
                | Fail e => (out, Raised e)
                | Ok (cur, last) =>
                    if (last <=? cur)%Z then (out, Exhausted)
                    else
                      let (more, e) :=
                        pages_loop rounds' sess (S asked) path base_params
                                   item_key_candidates (page + 1) in
                      (out ++ Slept CALL_PAUSE :: more, e)
                end
            end
        end
  end.

(** [iter_pages(sess, path, base_params, item_key_candidates)], drained. *)
Definition iter_pages (rounds : nat) (sess : nat -> Reply) (path : ustring)
    (base_params : dict) (item_key_candidates : list ustring)
  : list Out * ending :=
  pages_loop rounds sess 0 path base_params item_key_candidates 1.

(** The [for f in files] loop of [pick_files]. *)
Fixpoint pick_loop (files : list json) (chosen : list (json * ustring))
    (download_all : bool) (max_files_per_user : Z)
  : res (list (json * ustring)) :=
  match files with
  | [] => Ok chosen
  | f :: rest =>
      (d1 <- get f "datatype" ;;
       d2 <- get f "data_type" ;;
       match py_or (py_or d1 d2) (JStr []) with
       | JStr raw =>
           let dtype := upper raw in
           if match ALLOWED_DATATYPES with [] => false | _ => true end
              && match dtype with [] => false | _ => true end
              && negb (existsb (ustring_eqb dtype) ALLOWED_DATATYPES)
           then pick_loop rest chosen download_all max_files_per_user
           else
             i1 <- get f "id" ;;
             i2 <- get f "file_id" ;;
             i3 <- get f "uuid" ;;
             let fid := py_or (py_or i1 i2) i3 in
             if negb (truthy fid)
             then pick_loop rest chosen download_all max_files_per_user
             else
               let chosen :=
                 chosen ++ [(fid, match dtype with
                                  | [] => lit "UNKNOWN"
                                  | _ => dtype
                                  end)] in
               if negb download_all
                  && match chosen with [] => false | _ => true end
               then Ok chosen
               else if download_all
                       && (max_files_per_user <=? Z.of_nat (List.length chosen))%Z
               then Ok chosen
               else pick_loop rest chosen download_all max_files_per_user
       | _ => Fail AttributeError
       end)%res
  end.

(** [pick_files(files, download_all, max_files_per_user)] *)
Definition pick_files (files : list json) (download_all : bool)
    (max_files_per_user : Z) : res (list (json * ustring)) :=
  pick_loop files [] download_all max_files_per_user.

End Text.

(** [load_sirens(path)] (qard_bulk_download.py:99-109): the loader of
    main_pdf_2.py without its warning. *)
Definition load_sirens : (ustring -> bool) -> option (list ustring)
                         -> list ustring :=
  MainPdf2.load_sirens.

Section FileNames.

(** What [\w] matches in a [str] pattern. *)
Variable is_word : N -> bool.

(** A character outside the class [[^\w.\-]]. *)
Definition kept_char (c : N) : bool :=
  is_word c || (c =? 46)%N || (c =? 45)%N.

(** [re.sub(r'[^\w.\-]+', '_', name)]; [in_run] tells that the characters
    just before [name] were replaced already. *)
Fixpoint sub_unsafe (in_run : bool) (name : ustring) : ustring :=
  match name with
  | [] => []
  | c :: name' =>
      if kept_char c then c :: sub_unsafe false name'
      else if in_run then sub_unsafe true name'
      else 95%N :: sub_unsafe true name'
  end.

(** [safe_filename(name)] *)
Definition safe_filename (name : ustring) : ustring :=
  firstn 200 (sub_unsafe false name).

End FileNames.
End QardBulk.

(* ===================================================================== *)
(** * pre-ocr_filter.py: text normalisation                               *)
(* ===================================================================== *)

Module PreOcr.
Import Py.

(** [re.sub(r"\s+", " ", t)]; [in_run] tells that the characters just before
    [t] were white space already replaced. *)
Fixpoint sub_spaces (in_run : bool) (t : ustring) : ustring :=
  match t with
  | [] => []
  | c :: t' =>
      if is_space c then
        if in_run then sub_spaces true t' else 32%N :: sub_spaces true t'
      else c :: sub_spaces false t'
  end.

(** [norm(text)] (pre-ocr_filter.py:88-96) *)
Definition norm {T : PyText} (text : ustring) : ustring :=
  match text with
  | [] => []
  | _ =>
      let t := nfkd text in
      let t := filter (fun ch => negb (combining ch)) t in
      let t := lower t in
      strip (sub_spaces false t)
  end.

(** ** Page scoring (pre-ocr_filter.py:46-80, 143-160) *)

Definition CORE_PHRASES : list ustring :=
  List.map lit
    [ "certificat de depot"; "certificat de depot negociable";
      "attestation de depot de fonds"; "attestation de depot";
      "attestation bancaire"; "attestation de blocage du capital";
      "attestation de blocage"; "depot de capital"; "depot du capital" ]%string.

Definition KEYWORDS : list ustring :=
  List.map lit
    [ "banque"; "etablissement"; "agence"; "guichet"; "adresse"; "cedex";
      "compte special"; "numero de compte"; "compte n"; "iban"; "bic";
      "swift"; "rib";
      "somme"; "montant verse"; "versement"; "deposant"; "mandataire";
      "signature";
      "rcs"; "registre du commerce"; "kbis"; "greffe";
      "date de valeur"; "date d'emission"; "certificat d'immatriculation";
      "blocage"; "bloquee";
      "taux"; "rendement"; "echeance"; "maturite"; "nominal";
      "emission" ]%string.

Definition NEGATIVE_KEYWORDS : list ustring :=
  List.map lit
    [ "statuts"; "extrait des statuts"; "statut";
      "article"; "art."; "chapitre"; "titre"; "section"; "clause" ]%string.

Definition CORE_HIT_POINTS : Z := 3.
Definition KEYWORD_POINTS : Z := 1.
Definition NEGATIVE_POINTS : Z := -1.
Definition KEEP_THRESHOLD : Z := 4.

(** [sum(1 for p in phrases if p in t)] *)
Definition hits (phrases : list ustring) (t : ustring) : Z :=
  Z.of_nat (List.length (filter (fun p => contains p t) phrases)).

(** [score_page(text)]: [(score, core_hits, kw_hits, has_core)] *)
Definition score_page {T : PyText} (text : ustring) : Z * Z * Z * bool :=
  let t := norm text in
  let score := 0%Z in
  let core_hits := hits CORE_PHRASES t in
  let kw_hits := hits KEYWORDS t in
  let neg_hits := hits NEGATIVE_KEYWORDS t in
  let score := (score + core_hits * CORE_HIT_POINTS)%Z in
  let score := (score + kw_hits * KEYWORD_POINTS)%Z in
  let score := (score + neg_hits * NEGATIVE_POINTS)%Z in
  let has_core := (0 <? core_hits)%Z in
  (score, core_hits, kw_hits, has_core).

(** [should_keep(score, has_core, kw_hits)] *)
Definition should_keep (score : Z) (has_core : bool) (kw_hits : Z) : bool :=
  (KEEP_THRESHOLD <=? score)%Z || (has_core && (1 <=? kw_hits)%Z).

End PreOcr.

(* ===================================================================== *)
(** * siren_sampling.py: Luhn helpers                                     *)
(* ===================================================================== *)

Module SirenSampling.
Import Py Inpi.

(** ** Integers as text *)

(** The decimal digits of [n >= 0], least significant first; [fuel] bounds
    their number. *)
Fixpoint digits_from (fuel : nat) (n : Z) : list Z :=
  match fuel with
  | O => []
  | S fuel' =>
      if (n <? 10)%Z then [n]
      else (n mod 10)%Z :: digits_from fuel' (n / 10)%Z
  end.

(** The decimal digits of [n >= 0], most significant first. *)
Definition digits (n : Z) : list Z :=
  rev (digits_from (S (Z.to_nat (Z.log2 n))) n).

Definition digit_char (d : Z) : N := (48 + Z.to_N d)%N.

(** [str(n)] for an [int] *)
Definition str_int (n : Z) : ustring :=
  if (n <? 0)%Z then 45%N :: List.map digit_char (digits (- n))
  else List.map digit_char (digits n).

(** [f"{n:08d}"]: sign first, then zeros up to a width of 8. *)
Definition format_08d (n : Z) : ustring :=
  let body := List.map digit_char (digits (Z.abs n)) in
  let sign := if (n <? 0)%Z then [45%N] else [] in
  sign ++ repeat 48%N (8 - List.length sign - List.length body) ++ body.

(** The number that a string of decimal digits denotes. *)
Definition value (ds : list Z) : Z :=
  fold_left (fun acc d => (10 * acc + d)%Z) ds 0%Z.

(** The Luhn sum of digits given from the right: every second digit,
    starting with the first when [alt] holds, counts double, less 9 when
    the double exceeds 9. *)
Fixpoint luhn_sum (from_right : list Z) (alt : bool) : Z :=
  match from_right with
  | [] => 0
  | d :: rest =>
      ((if alt then (if 9 <? d * 2 then d * 2 - 9 else d * 2) else d)
       + luhn_sum rest (negb alt))%Z
  end.

(** The Luhn test on a number given by its digits: the last digit counts
    as it is. *)
Definition luhn_valid (ds : list Z) : Prop :=
  (luhn_sum (rev ds) false mod 10 = 0)%Z.

Section Text.
Context {T : PyText}.

(** The [for ch in reversed(prefix8)] loop of [siren_check_digit]. *)
Fixpoint luhn_loop (chars : ustring) (total : Z) (alt : bool) : res Z :=
  match chars with
  | [] => Ok total
  | ch :: rest =>
      (d <- to_int (JStr [ch]) ;;
       let d := if alt
                then (let d := (d * 2)%Z in if (9 <? d)%Z then (d - 9)%Z else d)
                else d in
       luhn_loop rest (total + d)%Z (negb alt))%res
  end.

(** [siren_check_digit(prefix8)] *)
Definition siren_check_digit (prefix8 : ustring) : res Z :=
  (total <- luhn_loop (rev prefix8) 0%Z true ;;
   Ok ((10 - total mod 10) mod 10)%Z)%res.

(** [make_siren_from_prefix8(prefix8)] *)
Definition make_siren_from_prefix8 (prefix8 : Z) : res Z :=
  let s8 := format_08d prefix8 in
  (check <- siren_check_digit s8 ;;
   to_int (JStr (s8 ++ str_int check)))%res.

(** The [while len(out) < k] loop of [sample_valid_sirens_in_range];
    [randint n lo hi] is the value of the [n]-th call of
    [random.randint(lo, hi)] and [rounds] bounds the iterations ([Ok None]
    when the loop has not finished by then). *)
Fixpoint sample_loop (rounds : nat) (randint : nat -> Z -> Z -> Z)
    (drawn : nat) (start9 end9 k p8_lo p8_hi : Z) (out seen : list Z)
    : res (option (list Z)) :=
  if (Z.of_nat (List.length out) <? k)%Z then
    match rounds with
    | O => Ok None
    | S rounds' =>
        let prefix := randint drawn p8_lo p8_hi in
        (s <- make_siren_from_prefix8 prefix ;;
         if (start9 <=? s)%Z && (s <=? end9)%Z
            && negb (existsb (Z.eqb s) seen)
         then sample_loop rounds' randint (S drawn) start9 end9 k p8_lo p8_hi
                (out ++ [s]) (s :: seen)
         else sample_loop rounds' randint (S drawn) start9 end9 k p8_lo p8_hi
                out seen)%res
    end
  else Ok (Some out).

(** [sample_valid_sirens_in_range(start9, end9, k)] *)
Definition sample_valid_sirens_in_range (rounds : nat)
    (randint : nat -> Z -> Z -> Z) (start9 end9 k : Z)
    : res (option (list Z)) :=
  if negb (List.length (str_int start9) =? 9)%nat
     || negb (List.length (str_int end9) =? 9)%nat
     || (end9 <? start9)%Z
  then Fail ValueError
  else
    let p8_lo := (start9 / 10)%Z in
    let p8_hi := (end9 / 10)%Z in
    sample_loop rounds randint 0 start9 end9 k p8_lo p8_hi [] [].

End Text.

(** [int] reads a string of ASCII decimal digits as the number it
    denotes. *)
Definition reads_decimal (T : PyText) : Prop :=
  forall ds,
    ds <> [] -> Forall (fun d => 0 <= d <= 9)%Z ds ->
    int_of_str (List.map digit_char ds) = Some (value ds).

End SirenSampling.

(* ===================================================================== *)
(** * A text model to run the code on                                     *)
(* ===================================================================== *)

(** An instance of [PyText] that agrees with Python on the texts of the
    examples: ASCII, and the accented letters of Latin-1 with their
    decompositions from the character database. *)
Module Latin1.
Import Py.

Definition decompositions : list (N * list N) :=
  [ (192, [65; 768]); (193, [65; 769]); (194, [65; 770]); (195, [65; 771]);
    (196, [65; 776]); (197, [65; 778]); (199, [67; 807]); (200, [69; 768]);
    (201, [69; 769]); (202, [69; 770]); (203, [69; 776]); (204, [73; 768]);
    (205, [73; 769]); (206, [73; 770]); (207, [73; 776]); (209, [78; 771]);
    (210, [79; 768]); (211, [79; 769]); (212, [79; 770]); (213, [79; 771]);
    (214, [79; 776]); (217, [85; 768]); (218, [85; 769]); (219, [85; 770]);
    (220, [85; 776]); (221, [89; 769]); (224, [97; 768]); (225, [97; 769]);
    (226, [97; 770]); (227, [97; 771]); (228, [97; 776]); (229, [97; 778]);
    (231, [99; 807]); (232, [101; 768]); (233, [101; 769]); (234, [101; 770]);
    (235, [101; 776]); (236, [105; 768]); (237, [105; 769]); (238, [105; 770]);
    (239, [105; 776]); (241, [110; 771]); (242, [111; 768]); (243, [111; 769]);
    (244, [111; 770]); (245, [111; 771]); (246, [111; 776]); (249, [117; 768]);
    (250, [117; 769]); (251, [117; 770]); (252, [117; 776]); (253, [121; 769]);
    (255, [121; 776]) ]%N.

Definition decompose (c : N) : list N :=
  if is_ascii c then [c]
  else match find (fun e => (fst e =? c)%N) decompositions with
       | Some (_, d) => d
       | None => [c]
       end.

Definition digit_of (c : N) : option Z :=
  if ((48 <=? c) && (c <=? 57))%N then Some (Z.of_N (c - 48)) else None.

Fixpoint digits (acc : Z) (s : ustring) : option Z :=
  match s with
  | [] => Some acc
  | c :: s' => match digit_of c with
               | Some d => digits (10 * acc + d) s'
               | None => None
               end
  end.

Definition parse_int (s : ustring) : option Z :=
  match strip s with
  | [] => None
  | 45%N :: (_ :: _) as ds => option_map Z.opp (digits 0 ds)
  | 43%N :: (_ :: _) as ds => digits 0 ds
  | ds => digits 0 ds
  end.

Definition show (v : json) : ustring :=
  match v with
  | JStr s => s
  | JInt z => lit (DecimalString.NilZero.string_of_int (Z.to_int z))
  | JNull => lit "None"
  | JBool true => lit "True"
  | JBool false => lit "False"
  | _ => lit "..."
  end.

#[export] Instance text : PyText := {|
  nfkd := flat_map decompose;
  combining := fun c => ((768 <=? c) && (c <=? 879))%N;
  lower := List.map ascii_lower_char;
  upper := List.map ascii_upper_char;
  int_of_str := parse_int;
  str_of := show
|}.

End Latin1.

(* ===================================================================== *)
(** * Scenarios                                                           *)
(* ===================================================================== *)

(** Worlds and drivers used to run the code: scripted replies, a fixed
    random source, an empty directory. *)
Module Scenario.
Import Py Sys.
Local Open Scope monad_scope.

Definition ok_body (j : json) : Body := {| body_json := Some j; content := [] |}.
Definition raw_body (data : list byte) : Body :=
  {| body_json := None; content := data |}.

(** A world that answers with [script], then with connection errors. *)
Definition world (script : list Response) (rpm_json rpm_docs : Z) : World :=
  {| replies := fun n => nth n script ConnectionError;
     served := 0;
     unif := fun _ => 1 # 2;
     lag := fun _ => 0;
     slept := 0;
     drawn := 0;
     clock := 1700000000;
     json_limiter := {| min_interval := 60 / inject_Z rpm_json; last_ts := 0 |};
     docs_limiter := {| min_interval := 60 / inject_Z rpm_docs; last_ts := 0 |};
     token_file := Some (lit "t0");
     disk := [];
     trace := [] |}.

(** The events logged between two worlds of one run. *)
Definition events_since (w w' : World) : list Event :=
  skipn (List.length (trace w)) (trace w').

(** A caller's work between two calls: the clock moves on by [d]. *)
Definition elapse (d : Q) : M unit :=
  fun w =>
    (Done tt,
     {| replies := replies w; served := served w; unif := unif w;
     lag := lag w; slept := slept w;
        drawn := drawn w; clock := clock w + d;
        json_limiter := json_limiter w; docs_limiter := docs_limiter w;
        token_file := token_file w; disk := disk w; trace := trace w |}).

(** A loop that calls [wait] once per element of [gaps], doing [d] seconds
    of its own work before each call; returns, for each call, the time
    stamp the limiter recorded and the time at which the call returned. *)
Fixpoint call_waits (g : Group) (gaps : list Q) : M (list (Q * Q)) :=
  match gaps with
  | [] => ret []
  | d :: gaps' =>
      elapse d ;;
      wait g ;;
      t <- time_time ;;
      stamp <- (fun w => (Done (last_ts (limiter g w)), w)) ;;
      rest <- call_waits g gaps' ;;
      ret ((stamp, t) :: rest)
  end.

(** A limiter of 60 calls a minute that was last used at the present time,
    with no jitter; the first sleep lasts half a second longer than asked
    for, the others last what they are asked for. *)
Definition slow_sleeper : World :=
  {| replies := fun _ => ConnectionError;
     served := 0;
     unif := fun _ => 0;
     lag := fun n => match n with O => 1 # 2 | S _ => 0 end;
     slept := 0;
     drawn := 0;
     clock := 100;
     json_limiter := {| min_interval := 60 / 60; last_ts := 100 |};
     docs_limiter := {| min_interval := 60 / 40; last_ts := 0 |};
     token_file := None;
     disk := [];
     trace := [] |}.

(** A document descriptor with the given fields and type labels. *)
Definition acte_with (fields : list (ustring * json)) (labels : list ustring)
  : json :=
  JObj (fields ++
        [(lit "typeRdd",
          JList (List.map (fun l => JObj [(lit "typeActe", JStr l)]) labels))]).

(** A descriptor that carries one type label and nothing else. *)
Definition labelled (label : ustring) : json := acte_with [] [label].

(** The listing reply that holds the given descriptors. *)
Definition listing (actes : list json) : json :=
  JObj [(lit "actes", JList actes)].

(** A file descriptor of the Qard listing. *)
Definition qard_file (id datatype : string) : json :=
  JObj [(lit "id", JStr (lit id)); (lit "datatype", JStr (lit datatype))].

(** An enveloped page of a listing: items under "result", with the page
    counters. *)
Definition envelope (items : list json) (current_page last_page : Z)
  : QardBulk.Reply :=
  {| QardBulk.code := 200;
     QardBulk.headers := [];
     QardBulk.data := JObj [ (lit "current_page", JInt current_page);
                             (lit "last_page", JInt last_page);
                             (lit "result", JList items) ] |}.

(** The parameters [iter_pages] sends for page [page] when called with
    [{"per_page": per_page}]. *)
Definition page_params (per_page page : Z) : QardBulk.dict :=
  [(lit "per_page", JInt per_page); (lit "page", JInt page)].

(** [ts] are times at least [gap] apart, the first at least [gap] after
    [from]. *)
Fixpoint spaced (gap from : Q) (ts : list Q) : Prop :=
  match ts with
  | [] => True
  | t :: ts' => from + gap <= t /\ spaced gap t ts'
  end.

(** ** Reading a trace *)

(** A quota-exceeded reply to a metadata fetch or to a download. *)
Definition is_quota (e : Event) : bool :=
  match e with
  | Request (Attachments _) _ (Http s _) => (s =? 429)%Z
  | Request (Download _) _ (Http s _) => (s =? 429)%Z
  | _ => false
  end.

(** The events that follow the first quota-exceeded reply. *)
Fixpoint after_quota (evs : list Event) : list Event :=
  match evs with
  | [] => []
  | e :: evs' => if is_quota e then evs' else after_quota evs'
  end.

(** The durations of the backoff sleeps, in order. *)
Definition backoffs_in (evs : list Event) : list Q :=
  flat_map (fun e => match e with Sleep Backoff d => [d] | _ => [] end) evs.

(** The network calls, in order. *)
Definition requests_in (evs : list Event) : list (Target * json * Response) :=
  flat_map (fun e => match e with
                     | Request t tok r => [(t, tok, r)]
                     | _ => []
                     end) evs.

(** The names of the files written, in order. *)
Definition saved_in (evs : list Event) : list ustring :=
  flat_map (fun e => match e with Saved name => [name] | _ => [] end) evs.

Definition is_login (c : Target * json * Response) : bool :=
  match c with (Login, _, _) => true | _ => false end.

(** A server error (status 500 and above) or a connection failure. *)
Definition transient (r : Response) : bool :=
  match r with
  | Http s _ => (500 <=? s)%Z
  | ConnectionError => true
  | RequestError => false
  end.

(** A reply that passes every status test of the retry loops. *)
Definition success (r : Response) : bool :=
  match r with
  | Http s _ => (s <? 400)%Z
  | _ => false
  end.

(** ** Runs and the quota signal *)

Definition quota_free (evs : list Event) : Prop :=
  existsb is_quota evs = false.

(** [m] never raises [SystemExit] and never receives a quota-exceeded
    reply. *)
Definition quiet {A} (m : M A) : Prop :=
  forall w, exists evs,
    trace (snd (m w)) = trace w ++ evs
    /\ quota_free evs
    /\ forall c, fst (m w) <> Exit c.

(** [m] raises [SystemExit(2)] on the first quota-exceeded reply it
    receives, at once, and raises [SystemExit] in no other case. *)
Definition halts_on_quota {A} (m : M A) : Prop :=
  forall w, exists evs,
    trace (snd (m w)) = trace w ++ evs
    /\ match fst (m w) with
       | Exit c =>
           c = 2%Z
           /\ exists pre q,
               evs = pre ++ [q] /\ is_quota q = true /\ quota_free pre
       | _ => quota_free evs
       end.

(** ** Worlds of the examples *)

Definition two_sirens : list ustring := [lit "123456789"; lit "987654321"].

Definition statuts : json :=
  acte_with [(lit "id", JStr (lit "A1"))] [lit "Statuts constitutifs"].

(** The token probe and the listing of the first identifier succeed, the
    first download succeeds and the second is answered with 429. *)
Definition quota_on_second_download : World :=
  world [ Http 200 (ok_body JNull);
          Http 200 (ok_body (listing [statuts; statuts]));
          Http 200 (raw_body [x25; x50; x44; x46]%byte);
          Http 429 (raw_body []) ] 200 40.

Definition unauthorized : Response := Http 401 (ok_body JNull).

Definition logged_in (token : string) : Response :=
  Http 200 (ok_body (JObj [(lit "token", JStr (lit token))])).

(** Two 401 in a row on the listing, each followed by a login that
    succeeds, then the listing. *)
Definition unauthorized_twice : World :=
  world [ unauthorized; logged_in "t1"; unauthorized; logged_in "t2";
          Http 200 (ok_body (listing [statuts])) ] 200 40.

(** Three server errors on a download, then the file. *)
Definition three_errors_then_file : World :=
  world [ Http 500 (raw_body []); Http 503 (raw_body []);
          Http 502 (raw_body []);
          Http 200 (raw_body [x25; x50; x44; x46]%byte) ] 200 40.

(** A sleep of [d] seconds is the backoff [base] plus a jitter between [lo]
    and [hi]. *)
Definition jittered (lo hi base d : Q) : Prop :=
  exists j, lo <= j <= hi /\ d = base + j.

(** Every call with a token is answered 401 and every login succeeds. *)
Definition always_unauthorized : World :=
  {| replies := fun n => if Nat.even n then unauthorized else logged_in "t1";
     served := 0;
     unif := fun _ => 1 # 2;
     lag := fun _ => 0;
     slept := 0;
     drawn := 0;
     clock := 1700000000;
     json_limiter := {| min_interval := 60 / 200; last_ts := 0 |};
     docs_limiter := {| min_interval := 60 / 40; last_ts := 0 |};
     token_file := Some (lit "t0");
     disk := [];
     trace := [] |}.

(** The endpoint and the token of each call of a trace. *)
Definition calls_in (evs : list Event) : list (Target * json) :=
  List.map (fun c => (fst (fst c), snd (fst c))) (requests_in evs).

(** A request for the listing of a company. *)
Definition is_listing_request (e : Event) : bool :=
  match e with Request (Attachments _) _ _ => true | _ => false end.

(** Whatever [m] does, the events it adds to the trace all satisfy [P]. *)
Definition emits {A} (P : Event -> Prop) (m : M A) : Prop :=
  forall w, exists evs, trace (snd (m w)) = trace w ++ evs /\ Forall P evs.

(** The number of logins in a trace. *)
Definition logins_in (evs : list Event) : nat :=
  List.length (filter is_login (requests_in evs)).

(** The number of calls to the document endpoints (logins left out). *)
Definition doc_calls (evs : list Event) : nat :=
  List.length (filter (fun c => negb (is_login c)) (requests_in evs)).

(** [m] calls the document endpoints at most [n] times. *)
Definition calls_at_most {A} (n : nat) (m : M A) : Prop :=
  forall w, exists evs,
    trace (snd (m w)) = trace w ++ evs /\ (doc_calls evs <= n)%nat.

(** ** White space *)

(** Every white-space character of [s] is a single space that stands
    alone; [after_space] tells that the character before [s] was a space. *)
Fixpoint single_spaced (after_space : bool) (s : ustring) : Prop :=
  match s with
  | [] => True
  | c :: s' =>
      if is_space c
      then c = 32%N /\ after_space = false /\ single_spaced true s'
      else single_spaced false s'
  end.

(** ** Letters and their accents *)

(** The character [c] reads as the ASCII character [b]: the compatibility
    decomposition of [c] is [b] followed by characters outside ASCII, its
    accents. *)
Definition reads_as {T : PyText} (c b : N) : Prop :=
  exists marks,
    nfkd [c] = b :: marks
    /\ is_ascii b = true
    /\ Forall (fun m => is_ascii m = false) marks.

(** Two characters that read as the same letter, in either case. *)
Definition same_letter {T : PyText} (c c' : N) : Prop :=
  exists b b',
    reads_as c b /\ reads_as c' b' /\ ascii_lower_char b = ascii_lower_char b'.

(** Two texts that differ only in letter case and accents. *)
Definition same_letters {T : PyText} (s s' : ustring) : Prop :=
  Forall2 same_letter s s'.

(** ** Text classes and files of the examples *)

(** [s.isdigit()] on ASCII text: a non-empty string of decimal digits. *)
Definition ascii_isdigit (s : ustring) : bool :=
  match s with
  | [] => false
  | _ => forallb (fun c => (48 <=? c) && (c <=? 57))%N s
  end.

(** What [\w] matches among ASCII characters: letters, digits and the
    underscore. *)
Definition ascii_word (c : N) : bool :=
  ((48 <=? c) && (c <=? 57) || (65 <=? c) && (c <=? 90)
   || (97 <=? c) && (c <=? 122) || (c =? 95))%N.

(** The lines of a list of identifiers: one written in groups of three
    digits, a word, one padded with blanks, one too short. *)
Definition siren_lines : list ustring :=
  [ lit "732 829 320" ++ [10%N]; lit "abc" ++ [10%N];
    lit "  123456789  " ++ [10%N]; lit "12345" ].

(** [random.randint(lo, hi)] that always returns [lo]. *)
Definition lowest (n : nat) (lo hi : Z) : Z := lo.

(** [a] is [b] with some of its elements left out. *)
Fixpoint subsequence (a b : list json) : Prop :=
  match b with
  | [] => a = []
  | y :: b' =>
      subsequence a b'
      \/ match a with
         | x :: a' => x = y /\ subsequence a' b'
         | [] => False
         end
  end.

(** A reply that is neither a listing that can be read nor one of the
    three statuses the retry loops single out (401, 403, 429). *)
Definition failed (r : Response) : bool :=
  match r with
  | Http s b =>
      (400 <=? s)%Z && negb (s =? 401)%Z && negb (s =? 403)%Z
        && negb (s =? 429)%Z
      || (s <? 400)%Z && match body_json b with None => true | Some _ => false end
  | ConnectionError | RequestError => true
  end.

(** Every reply is a 404. *)
Definition not_found : World :=
  {| replies := fun _ => Http 404 (raw_body []);
     served := 0;
     unif := fun _ => 1 # 2;
     lag := fun _ => 0;
     slept := 0;
     drawn := 0;
     clock := 1700000000;
     json_limiter := {| min_interval := 60 / 200; last_ts := 0 |};
     docs_limiter := {| min_interval := 60 / 40; last_ts := 0 |};
     token_file := Some (lit "t0");
     disk := [];
     trace := [] |}.

(** ** Worlds of further examples *)

(** The token probe succeeds; the first identifier has one matching
    document, which is downloaded; the listing of the second is refused. *)
Definition one_document : World :=
  world [ Http 200 (ok_body JNull);
          Http 200 (ok_body (listing [statuts]));
          Http 200 (raw_body [x25; x50; x44; x46]%byte);
          Http 403 (raw_body []) ] 200 40.

(** Every download is refused, and the file of [statuts] for the first
    identifier is on the disk already. *)
Definition already_there : World :=
  {| replies := fun _ => Http 403 (raw_body []);
     served := 0;
     unif := fun _ => 1 # 2;
     lag := fun _ => 0;
     slept := 0;
     drawn := 0;
     clock := 1700000000;
     json_limiter := {| min_interval := 60 / 200; last_ts := 0 |};
     docs_limiter := {| min_interval := 60 / 40; last_ts := 0 |};
     token_file := Some (lit "t0");
     disk := [(lit "123456789_A1.pdf", [x25; x50; x44; x46]%byte)];
     trace := [] |}.

End Scenario.

(* ===================================================================== *)
(** * Properties                                                          *)
(* ===================================================================== *)

Import Py Sys Inpi.

(** ** Strings *)

Lemma ustring_eqb_eq (a b : ustring) : ustring_eqb a b = true <-> a = b.
Proof.
  revert b. induction a as [|x a IH]; intros [|y b]; simpl;
    try (split; [discriminate | congruence]); [tauto|].
  rewrite andb_true_iff, N.eqb_eq, IH. split.
  - now intros [-> ->].
  - intros H. now injection H.
Qed.

Lemma ustring_eqb_refl (a : ustring) : ustring_eqb a a = true.
Proof. now apply ustring_eqb_eq. Qed.

Lemma starts_with_prefix (p s : ustring) :
  starts_with p s = true <-> exists post, s = p ++ post.
Proof.
  revert s. induction p as [|a p IH]; intros s; simpl.
  - split; [intros _; now exists s | reflexivity].
  - destruct s as [|b s].
    + split; [discriminate | intros [post H]; discriminate].
    + rewrite andb_true_iff, N.eqb_eq, IH. split.
      * intros [-> [post ->]]. now exists post.
      * intros [post H]. injection H as -> ->. split; [reflexivity | now exists post].
Qed.

(** [needle in hay] holds exactly when [hay] has [needle] as a contiguous
    part. *)
Lemma contains_substring (needle hay : ustring) :
  contains needle hay = true <-> exists pre post, hay = pre ++ needle ++ post.
Proof.
  induction hay as [|c hay IH]; simpl.
  - rewrite orb_false_r, starts_with_prefix. split.
    + intros [post H]. now exists [], post.
    + intros [pre [post H]]. destruct pre; simpl in H.
      * now exists post.
      * discriminate.
  - rewrite orb_true_iff, starts_with_prefix, IH. split.
    + intros [[post H] | [pre [post H]]].
      * now exists [], post.
      * exists (c :: pre), post. simpl. now rewrite H.
    + intros [pre [post H]]. destruct pre as [|d pre]; simpl in H.
      * left. now exists post.
      * right. injection H as _ H. now exists pre, post.
Qed.

Lemma ascii_only_is_ascii (s : ustring) : forallb is_ascii (ascii_only s) = true.
Proof.
  apply forallb_forall. intros c H. now apply filter_In in H.
Qed.

Lemma ascii_only_fixes_ascii (s : ustring) :
  forallb is_ascii s = true -> ascii_only s = s.
Proof.
  induction s as [|c s IH]; simpl; [reflexivity|].
  rewrite andb_true_iff. intros [Hc Hs]. rewrite Hc, IH; auto.
Qed.

Lemma ascii_only_app (x y : ustring) :
  ascii_only (x ++ y) = ascii_only x ++ ascii_only y.
Proof. apply filter_app. Qed.

Lemma ascii_lower_char_ascii (c : N) :
  is_ascii c = true -> is_ascii (ascii_lower_char c) = true.
Proof.
  unfold is_ascii, ascii_lower_char.
  destruct ((65 <=? c) && (c <=? 90))%N eqn:E; [|auto].
  apply andb_true_iff in E. destruct E as [_ E]. apply N.leb_le in E.
  intros _. apply N.ltb_lt. lia.
Qed.

Lemma ascii_lower_char_idem (c : N) :
  ascii_lower_char (ascii_lower_char c) = ascii_lower_char c.
Proof.
  unfold ascii_lower_char.
  destruct ((65 <=? c) && (c <=? 90))%N eqn:E; [|now rewrite E].
  apply andb_true_iff in E. destruct E as [E1 E2].
  apply N.leb_le in E1. apply N.leb_le in E2.
  replace (c + 32 <=? 90)%N with false; [now rewrite andb_false_r|].
  symmetry. apply N.leb_gt. lia.
Qed.

Lemma lowered_is_ascii (s : ustring) :
  forallb is_ascii s = true ->
  forallb is_ascii (List.map ascii_lower_char s) = true.
Proof.
  rewrite !forallb_forall. intros H c Hc. apply in_map_iff in Hc.
  destruct Hc as [d [<- Hd]]. apply ascii_lower_char_ascii. auto.
Qed.

(** ** normalize *)

(** The text [normalize] computes from a string. *)
Abbreviation folded x := (List.map ascii_lower_char (ascii_only (nfkd x))).

Section Normalize.
Context {T : PyText} {L : PyTextLaws T}.

Lemma normalize_str (x : ustring) : normalize (JStr x) = Ok (folded x).
Proof.
  unfold normalize, py_or.
  destruct x; simpl; now rewrite lower_ascii by apply ascii_only_is_ascii.
Qed.

Lemma folded_is_ascii (x : ustring) : forallb is_ascii (folded x) = true.
Proof. apply lowered_is_ascii, ascii_only_is_ascii. Qed.

Lemma folded_ascii (x : ustring) :
  forallb is_ascii x = true -> folded x = List.map ascii_lower_char x.
Proof.
  intros H. now rewrite nfkd_ascii, ascii_only_fixes_ascii.
Qed.

Lemma folded_idem (x : ustring) : folded (folded x) = folded x.
Proof.
  rewrite folded_ascii by apply folded_is_ascii.
  rewrite map_map. apply map_ext. intros c. apply ascii_lower_char_idem.
Qed.

Lemma folded_app (x y : ustring) : folded (x ++ y) = folded x ++ folded y.
Proof. now rewrite nfkd_app, map_app. Qed.

Lemma folded_reads_as (c b : N) :
  Scenario.reads_as c b -> folded [c] = [ascii_lower_char b].
Proof.
  intros [marks [E [Hb Hm]]]. rewrite E. unfold ascii_only.
  cbn [filter]. rewrite Hb. cbn [List.map]. f_equal. clear E.
  induction Hm as [|m marks Hm _ IH]; [reflexivity|].
  cbn [filter]. now rewrite Hm.
Qed.

(** Texts that differ only in case and accents normalize alike. *)
Lemma folded_same_letters (s s' : ustring) :
  Scenario.same_letters s s' -> folded s = folded s'.
Proof.
  induction 1 as [|c c' s s' [b [b' [Hc [Hc' Hb]]]] _ IH]; [reflexivity|].
  change (c :: s) with ([c] ++ s). change (c' :: s') with ([c'] ++ s').
  rewrite !folded_app, IH, (folded_reads_as Hc), (folded_reads_as Hc').
  now rewrite Hb.
Qed.

Lemma ascii_reads_as_itself (c : N) : is_ascii c = true -> Scenario.reads_as c c.
Proof.
  intros Hc. exists []. split; [|split; [exact Hc | constructor]].
  apply nfkd_ascii. simpl. now rewrite Hc.
Qed.

End Normalize.

(** ** White space in norm *)

Lemma sub_spaces_single_spaced (t : ustring) :
  forall b, Scenario.single_spaced b (PreOcr.sub_spaces b t).
Proof.
  induction t as [|c t IH]; intros b; simpl; [exact I|].
  destruct (is_space c) eqn:Ec.
  - destruct b; [apply IH|]. simpl. repeat split. apply IH.
  - simpl. rewrite Ec. apply IH.
Qed.

Lemma single_spaced_fixed (s : ustring) :
  forall b, Scenario.single_spaced b s -> PreOcr.sub_spaces b s = s.
Proof.
  induction s as [|c s IH]; intros b H; simpl in *; [reflexivity|].
  destruct (is_space c).
  - destruct H as [-> [-> H]]. now rewrite (IH true H).
  - now rewrite (IH false H).
Qed.

Lemma single_spaced_weaken (s : ustring) b :
  Scenario.single_spaced b s -> Scenario.single_spaced false s.
Proof.
  destruct s as [|c s]; simpl; [auto|].
  destruct (is_space c); [|auto]. intros [H1 [_ H2]]. auto.
Qed.

Lemma single_spaced_lstrip (s : ustring) :
  forall b, Scenario.single_spaced b s -> Scenario.single_spaced false (lstrip s).
Proof.
  induction s as [|c s IH]; intros b H; simpl in *; [exact I|].
  destruct (is_space c) eqn:Ec.
  - destruct H as [_ [_ H]]. now apply (IH true).
  - simpl. now rewrite Ec.
Qed.

Lemma single_spaced_snoc (s : ustring) c :
  forall b,
    Scenario.single_spaced b s ->
    (is_space c = true ->
     c = 32%N /\ match s with
                 | [] => b = false
                 | _ => is_space (last s 0%N) = false
                 end) ->
    Scenario.single_spaced b (s ++ [c]).
Proof.
  induction s as [|d s IH]; intros b H Hc.
  - simpl. destruct (is_space c); [|exact I].
    destruct (Hc eq_refl) as [-> ->]. repeat split.
  - cbn [app Scenario.single_spaced] in *. destruct (is_space d) eqn:Ed.
    + destruct H as [-> [-> H]]. repeat split. apply IH; [exact H|].
      intros E. destruct (Hc E) as [-> Hl]. split; [reflexivity|].
      destruct s as [|e s]; [simpl in Hl; congruence | exact Hl].
    + apply IH; [exact H|]. intros E. destruct (Hc E) as [-> Hl].
      split; [reflexivity|]. destruct s as [|e s]; [reflexivity | exact Hl].
Qed.

Lemma single_spaced_rev (s : ustring) :
  Scenario.single_spaced false s -> Scenario.single_spaced false (rev s).
Proof.
  induction s as [|c s IH]; intros H; [exact I|].
  cbn [rev]. apply single_spaced_snoc.
  - apply IH. cbn [Scenario.single_spaced] in H.
    destruct (is_space c); [|exact H].
    destruct H as [_ [_ H]]. now apply single_spaced_weaken with (b := true).
  - intros Ec. cbn [Scenario.single_spaced] in H. rewrite Ec in H.
    destruct H as [-> [_ H]]. split; [reflexivity|].
    destruct s as [|d s]; [reflexivity|].
    cbn [rev]. destruct (rev s ++ [d]) eqn:Er.
    + now destruct (rev s).
    + rewrite <- Er, last_last. cbn [Scenario.single_spaced] in H.
      destruct (is_space d); [|reflexivity]. now destruct H as [_ [H _]].
Qed.

Lemma single_spaced_strip (s : ustring) :
  Scenario.single_spaced false s -> Scenario.single_spaced false (strip s).
Proof.
  intros H. unfold strip.
  apply single_spaced_rev, (single_spaced_lstrip _ false), single_spaced_rev,
        (single_spaced_lstrip _ false), H.
Qed.

(** [norm] leaves no run of white space: each white-space character of its
    result is a lone space, and collapsing the result again changes
    nothing. *)
Lemma norm_collapses_white_space {T : PyText} (x : ustring) :
  Scenario.single_spaced false (PreOcr.norm x)
  /\ PreOcr.sub_spaces false (PreOcr.norm x) = PreOcr.norm x.
Proof.
  assert (H : Scenario.single_spaced false (PreOcr.norm x)).
  { unfold PreOcr.norm. destruct x; [exact I|].
    apply single_spaced_strip, sub_spaces_single_spaced. }
  split; [exact H | now apply single_spaced_fixed].
Qed.

Lemma single_spaced_lone (s : ustring) :
  forall b, Scenario.single_spaced b s ->
  (forall c, In c s -> is_space c = true -> c = 32%N)
  /\ (forall u c d v,
         s = u ++ c :: d :: v -> is_space c = true -> is_space d = false).
Proof.
  induction s as [|a s IH]; intros b H.
  - split; [intros c [] | intros [|? ?] ? ? ? E; discriminate].
  - cbn [Scenario.single_spaced] in H.
    assert (Hs : exists b', Scenario.single_spaced b' s).
    { destruct (is_space a); [exists true; tauto | now exists false]. }
    destruct Hs as [b' Hs]. destruct (IH b' Hs) as [IH1 IH2]. split.
    + intros c [<- | Hc] Ec; [|now apply IH1].
      rewrite Ec in H. tauto.
    + intros [|a' u] c d v E Ec.
      * injection E as -> ->. rewrite Ec in H. destruct H as [_ [_ H]].
        cbn [Scenario.single_spaced] in H.
        destruct (is_space d); [|reflexivity]. now destruct H as [_ [H _]].
      * injection E as _ E. now apply (IH2 u c d v).
Qed.

Lemma lstrip_head (s : ustring) c v :
  lstrip s = c :: v -> is_space c = false.
Proof.
  induction s as [|a s IH]; simpl; [discriminate|].
  destruct (is_space a) eqn:Ea; [exact IH|]. intros E. now injection E as <- _.
Qed.

Lemma lstrip_suffix (s : ustring) : exists pre, s = pre ++ lstrip s.
Proof.
  induction s as [|a s [pre IH]]; simpl; [now exists []|].
  destruct (is_space a); [|now exists []].
  exists (a :: pre). simpl. now f_equal.
Qed.

(** [strip] leaves no white space at either end. *)
Lemma strip_ends (s : ustring) :
  (forall c v, strip s = c :: v -> is_space c = false)
  /\ (forall u c, strip s = u ++ [c] -> is_space c = false).
Proof.
  unfold strip. split.
  - intros c v E. apply (f_equal (@rev N)) in E.
    rewrite rev_involutive in E. cbn [rev] in E.
    destruct (lstrip_suffix (rev (lstrip s))) as [pre Hp].
    rewrite E in Hp. apply (f_equal (@rev N)) in Hp.
    rewrite rev_involutive, !rev_app_distr, rev_involutive in Hp.
    cbn [rev app] in Hp. apply (lstrip_head _ Hp).
  - intros u c E. apply (f_equal (@rev N)) in E.
    rewrite rev_involutive, rev_app_distr in E. cbn [rev app] in E.
    apply (lstrip_head _ E).
Qed.

(** The result of [norm] has no run of white space: every white-space
    character in it is a plain space, followed by a character that is not
    white space, and there is none at either end. *)
Lemma norm_single_spaced {T : PyText} (x : ustring) :
  (forall c, In c (PreOcr.norm x) -> is_space c = true -> c = 32%N)
  /\ (forall u c d v,
         PreOcr.norm x = u ++ c :: d :: v ->
         is_space c = true -> is_space d = false)
  /\ (forall c v, PreOcr.norm x = c :: v -> is_space c = false)
  /\ (forall u c, PreOcr.norm x = u ++ [c] -> is_space c = false).
Proof.
  destruct (single_spaced_lone _ false (proj1 (norm_collapses_white_space x)))
    as [H1 H2].
  split; [exact H1|]. split; [exact H2|].
  unfold PreOcr.norm. destruct x as [|a x].
  - split; [discriminate | intros [|? ?] ? E; discriminate].
  - apply strip_ends.
Qed.

(** Solves [Scenario.same_letter c c'] on two given characters. *)
Ltac letter :=
  eexists _, _; split;
  [ eexists; split; [reflexivity | split; [reflexivity | repeat constructor]]
  | split;
    [ eexists; split; [reflexivity | split; [reflexivity | repeat constructor]]
    | reflexivity ] ].

(** The Latin-1 text model obeys the laws. *)
Lemma latin1_laws : PyTextLaws Latin1.text.
Proof.
  split; simpl.
  - induction s as [|c s IH]; simpl; [reflexivity|].
    rewrite andb_true_iff. intros [Hc Hs].
    unfold Latin1.decompose at 1. rewrite Hc. simpl. now rewrite IH.
  - intros x y. now rewrite flat_map_app, ascii_only_app.
  - reflexivity.
Qed.

(** C7 (amended).  On every string [normalize] is idempotent.  It ignores
    letter case and accents: two texts that differ only in the case of
    their letters and in their accents (a character whose decomposition is
    an ASCII character followed by characters outside ASCII counts as that
    character) normalize to the same string, as "Attestation Bancaire" and
    "attestation bancaire" do.  Its result is ASCII and lower-case, and
    text that is ASCII and lower-case already is returned as it is.  It
    does not collapse white space: "a  b" comes back with its two spaces.
    Collapsing is what [norm] of pre-ocr_filter.py does: in its result
    every white-space character is a plain space followed by a character
    that is not white space, and there is none at either end. *)
Theorem normalize_idempotent_case_accent_blind (T : PyText) (L : PyTextLaws T) :
  (forall x, exists y, normalize (JStr x) = Ok y /\ normalize (JStr y) = Ok y)
  /\ (forall x y,
        forallb is_ascii x = true -> forallb is_ascii y = true ->
        List.map ascii_lower_char x = List.map ascii_lower_char y ->
        normalize (JStr x) = normalize (JStr y))
  /\ normalize (JStr (lit "Attestation Bancaire"))
     = normalize (JStr (lit "attestation bancaire"))
  /\ (forall u v p c,
        ascii_only (nfkd [p]) = [c] ->
        normalize (JStr (u ++ p :: v)) = normalize (JStr (u ++ c :: v)))
  /\ (forall x y,
        Scenario.same_letters x y ->
        normalize (JStr x) = normalize (JStr y))
  /\ (forall x y,
        normalize (JStr x) = Ok y ->
        forallb is_ascii y = true /\ List.map ascii_lower_char y = y)
  /\ (forall x,
        forallb is_ascii x = true -> List.map ascii_lower_char x = x ->
        normalize (JStr x) = Ok x)
  /\ normalize (JStr (lit "a  b")) = Ok (lit "a  b")
  /\ (forall x,
        PreOcr.sub_spaces false (PreOcr.norm x) = PreOcr.norm x)
  /\ (forall x,
        (forall c, In c (PreOcr.norm x) -> is_space c = true -> c = 32%N)
        /\ (forall u c d v,
               PreOcr.norm x = u ++ c :: d :: v ->
               is_space c = true -> is_space d = false)
        /\ (forall c v, PreOcr.norm x = c :: v -> is_space c = false)
        /\ (forall u c, PreOcr.norm x = u ++ [c] -> is_space c = false)).
Proof.
  split; [|split; [|split; [|split; [|split; [|split; [|split; [|split;
    [|split]]]]]]]].
  - intros x. exists (folded x). rewrite !normalize_str. split; [reflexivity|].
    now rewrite folded_idem.
  - intros x y Hx Hy H. rewrite !normalize_str, !folded_ascii by assumption.
    now rewrite H.
  - rewrite !normalize_str, !folded_ascii by reflexivity. reflexivity.
  - intros u v p c H. rewrite !normalize_str.
    change (p :: v) with ([p] ++ v). change (c :: v) with ([c] ++ v).
    assert (Hc : is_ascii c = true).
    { assert (In c (ascii_only (nfkd [p]))) by (rewrite H; now left).
      now apply filter_In in H0. }
    rewrite !nfkd_app, H.
    rewrite (nfkd_ascii [c]) by (simpl; now rewrite Hc).
    unfold ascii_only at 5. simpl. now rewrite Hc.
  - intros x y H. rewrite !normalize_str. f_equal.
    now apply folded_same_letters.
  - intros x y H. rewrite normalize_str in H. injection H as <-. split.
    + apply folded_is_ascii.
    + rewrite map_map. apply map_ext. intros. apply ascii_lower_char_idem.
  - intros x Hx Hl. rewrite normalize_str, folded_ascii by assumption.
    now rewrite Hl.
  - rewrite normalize_str, folded_ascii by reflexivity. reflexivity.
  - intros x. apply norm_collapses_white_space.
  - intros x. apply norm_single_spaced.
Qed.

Lemma normalize_idempotent_case_accent_blind_witness :
  normalize (T := Latin1.text)
    (JStr (lit "Attestation de d" ++ [233%N] ++ lit "p" ++ [244%N] ++ lit "t"))
  = normalize (T := Latin1.text)
      (JStr (lit "Attestation de d" ++ [233%N] ++ lit "p" ++ lit "ot"))
  /\ normalize (T := Latin1.text)
       (JStr (lit "ATTESTATION DE D" ++ [201%N] ++ lit "P" ++ [212%N] ++ lit "T"))
     = normalize (T := Latin1.text) (JStr (lit "attestation de depot")).
Proof.
  split.
  - exact (proj1 (proj2 (proj2 (proj2
             (normalize_idempotent_case_accent_blind latin1_laws))))
             (lit "Attestation de d" ++ [233%N] ++ lit "p") (lit "t")
             244%N 111%N eq_refl).
  - apply (proj1 (proj2 (proj2 (proj2 (proj2
             (normalize_idempotent_case_accent_blind latin1_laws)))))).
    unfold Scenario.same_letters.
    repeat (apply Forall2_cons; [letter|]). apply Forall2_nil.
Defined.

(** C7, as stated, fails: [normalize] leaves a run of two spaces in place,
    where collapsing ([re.sub(r"\s+", " ", t)], as [norm] does) gives one. *)
Lemma normalize_keeps_runs_of_spaces :
  normalize (T := Latin1.text) (JStr (lit "a  b")) = Ok (lit "a  b")
  /\ PreOcr.sub_spaces false (lit "a  b") = lit "a b"
  /\ lit "a  b" <> lit "a b".
Proof. repeat split. discriminate. Qed.

(** ** The document filter *)

Lemma res_map_ok {A B} (f : A -> res B) (l : list A) :
  (forall a, In a l -> exists b, f a = Ok b) ->
  exists bs, res_map f l = Ok bs.
Proof.
  induction l as [|a l IH]; intros H; simpl.
  - now exists [].
  - destruct (H a (or_introl eq_refl)) as [b ->].
    destruct IH as [bs ->]; [intros; apply H; now right|].
    now exists (b :: bs).
Qed.

(** The loop keeps, in order, the descriptors its body accepts, and it
    completes exactly when the body does on every descriptor. *)
Lemma filter_loop_ok (keeps : json -> res bool) (actes out : list json) :
  filter_loop keeps actes = Ok out ->
  out = filter (fun a => match keeps a with Ok true => true | _ => false end)
               actes
  /\ forall a, In a actes -> exists b, keeps a = Ok b.
Proof.
  revert out. induction actes as [|a actes IH]; simpl; intros out H.
  - injection H as <-. split; [reflexivity | intros ? []].
  - destruct (keeps a) as [k|] eqn:Ek; simpl in H; [|discriminate].
    destruct (filter_loop keeps actes) as [r|] eqn:Er; simpl in H; [|discriminate].
    injection H as <-. destruct (IH r eq_refl) as [-> Hall]. split.
    + now destruct k.
    + intros b [<- | Hb]; [now exists k | auto].
Qed.

Lemma filter_loop_total (keeps : json -> res bool) (actes : list json) :
  (forall a, In a actes -> exists b, keeps a = Ok b) ->
  exists out, filter_loop keeps actes = Ok out.
Proof.
  induction actes as [|a actes IH]; intros H; simpl.
  - now exists [].
  - destruct (H a (or_introl eq_refl)) as [k ->].
    destruct IH as [r ->]; [intros; apply H; now right|].
    simpl. eauto.
Qed.

Lemma in_filter_loop (keeps : json -> res bool) (actes out : list json) a :
  filter_loop keeps actes = Ok out ->
  In a out <-> In a actes /\ keeps a = Ok true.
Proof.
  intros H. destruct (filter_loop_ok _ _ H) as [-> _].
  rewrite filter_In. split; intros [Ha Hk]; split; auto.
  - destruct (keeps a) as [[|]|]; congruence.
  - now rewrite Hk.
Qed.

Lemma any_allowed_spec {T : PyText} (types : list ustring) :
  any_allowed types = true <->
  exists ty allowed pre post,
    In ty types /\ In allowed allowed_types /\ ty = pre ++ allowed ++ post.
Proof.
  unfold any_allowed, is_allowed_type. rewrite existsb_exists. split.
  - intros [ty [Hty H]]. apply existsb_exists in H.
    destruct H as [al [Hal H]]. apply contains_substring in H.
    destruct H as [pre [post H]]. now exists ty, al, pre, post.
  - intros [ty [al [pre [post [Hty [Hal H]]]]]]. exists ty. split; [assumption|].
    apply existsb_exists. exists al. split; [assumption|].
    apply contains_substring. now exists pre, post.
Qed.

(** The descriptors a listing reply holds: what the loop of [filter_actes]
    runs over. *)
Abbreviation listed attachments :=
  (res_bind (get_or attachments "actes" (JList [])) iterate).

Section Filter.
Context {T : PyText}.

Lemma filter_actes2_unfold (attachments : json) (out : list json) :
  MainPdf2.filter_actes attachments = Ok out ->
  exists actes,
    listed attachments = Ok actes /\ filter_loop MainPdf2.keeps actes = Ok out.
Proof.
  unfold MainPdf2.filter_actes. intros H.
  destruct (get_or attachments "actes" (JList [])) as [v|]; simpl in *; [|discriminate].
  destruct (iterate v) as [l|]; simpl in *; [|discriminate]. now exists l.
Qed.

Lemma filter_actes1_unfold (attachments : json) (out : list json) :
  MainPdf.filter_actes attachments = Ok out ->
  exists actes,
    listed attachments = Ok actes /\ filter_loop MainPdf.keeps actes = Ok out.
Proof.
  unfold MainPdf.filter_actes. intros H.
  destruct (get_or attachments "actes" (JList [])) as [v|]; simpl in *; [|discriminate].
  destruct (iterate v) as [l|]; simpl in *; [|discriminate]. now exists l.
Qed.

(** When the body of the main_pdf_2 loop accepts a descriptor. *)
Lemma keeps2_true (acte : json) :
  MainPdf2.keeps acte = Ok true <->
  exists deleted conf types,
    get acte "deleted" = Ok deleted /\ deleted <> JBool true
    /\ get acte "confidentiality" = Ok conf
    /\ (forall s, conf = JStr s -> lower s = lit "public")
    /\ acte_types acte = Ok types /\ any_allowed types = true.
Proof.
  unfold MainPdf2.keeps. split.
  - intros H.
    destruct (get acte "deleted") as [d|] eqn:Ed; simpl in H; [|discriminate].
    assert (Hd : d <> JBool true) by (intros ->; discriminate).
    assert (H' : res_bind (get acte "confidentiality") (fun conf =>
        if match conf with
           | JStr s => negb (ustring_eqb (lower s) (lit "public"))
           | _ => false
           end
        then Ok false
        else res_bind (acte_types acte) (fun types => Ok (any_allowed types)))
        = Ok true).
    { destruct d as [| [|] | | | | |]; try exact H. now elim Hd. }
    clear H. destruct (get acte "confidentiality") as [c|] eqn:Ec; simpl in H';
      [|discriminate].
    destruct (match c with
              | JStr s => negb (ustring_eqb (lower s) (lit "public"))
              | _ => false
              end) eqn:Ep; [discriminate|].
    destruct (acte_types acte) as [tys|] eqn:Et; simpl in H'; [|discriminate].
    injection H' as H'. exists d, c, tys. repeat split; auto.
    intros s ->. apply negb_false_iff in Ep. now apply ustring_eqb_eq.
  - intros [d [c [tys [Ed [Hd [Ec [Hc [Et Ha]]]]]]]].
    rewrite Ed. simpl.
    assert (Ep : match c with
                 | JStr s => negb (ustring_eqb (lower s) (lit "public"))
                 | _ => false
                 end = false).
    { destruct c; try reflexivity. rewrite (Hc s eq_refl).
      now rewrite ustring_eqb_refl. }
    destruct d as [| [|] | | | | |]; try (now elim Hd);
      rewrite Ec; simpl; rewrite Ep, Et; simpl; now rewrite Ha.
Qed.

(** When the body of the main_pdf loop accepts a descriptor. *)
Lemma keeps1_true (acte : json) :
  MainPdf.keeps acte = Ok true <->
  exists types, acte_types acte = Ok types /\ any_allowed types = true.
Proof.
  unfold MainPdf.keeps. split.
  - destruct (acte_types acte) as [tys|]; simpl; [|discriminate].
    intros H. injection H as H. now exists tys.
  - intros [tys [-> H]]. simpl. now rewrite H.
Qed.

End Filter.

Lemma assoc_app (k : ustring) (d d' : list (ustring * json)) :
  assoc k (d ++ d')
  = match assoc k d with Some v => Some v | None => assoc k d' end.
Proof.
  induction d as [|[k0 v0] d IH]; simpl; [reflexivity|].
  now destruct (ustring_eqb k k0).
Qed.

Section FilterExamples.
Context {T : PyText} {L : PyTextLaws T}.
Import Scenario.

Lemma acte_types_labelled (label : ustring) :
  acte_types (labelled label) = Ok [folded label].
Proof.
  change (acte_types (labelled label))
    with (res_bind (normalize (JStr label)) (fun y => Ok [y])).
  now rewrite normalize_str.
Qed.

Lemma filter2_labelled (label : ustring) :
  MainPdf2.filter_actes (listing [labelled label])
  = Ok (if is_allowed_type (folded label) then [labelled label] else []).
Proof.
  change (MainPdf2.filter_actes (listing [labelled label]))
    with (res_bind
            (res_bind (acte_types (labelled label))
                      (fun types => Ok (any_allowed types)))
            (fun k => Ok (if k then [labelled label] else []))).
  rewrite acte_types_labelled. simpl. now rewrite orb_false_r.
Qed.

Lemma filter1_labelled (label : ustring) :
  MainPdf.filter_actes (listing [labelled label])
  = Ok (if is_allowed_type (folded label) then [labelled label] else []).
Proof.
  change (MainPdf.filter_actes (listing [labelled label]))
    with (res_bind
            (res_bind (acte_types (labelled label))
                      (fun types => Ok (any_allowed types)))
            (fun k => Ok (if k then [labelled label] else []))).
  rewrite acte_types_labelled. simpl. now rewrite orb_false_r.
Qed.

Lemma acte_types_with (fields : list (ustring * json)) (labels : list ustring) :
  acte_types (acte_with fields labels)
  = match assoc (lit "typeRdd") fields with
    | Some v =>
        res_bind (iterate v)
          (res_map (fun t => res_bind (get_or t "typeActe" (JStr []))
                                      normalize))
    | None => Ok (List.map (fun l => folded l) labels)
    end.
Proof.
  unfold acte_types, acte_with, get_or. rewrite assoc_app.
  destruct (assoc (lit "typeRdd") fields) as [v|]; [reflexivity|].
  cbn [assoc]. rewrite ustring_eqb_refl. cbn [res_bind iterate].
  induction labels as [|l labels IH]; [reflexivity|].
  cbn [List.map res_map]. rewrite IH.
  cbn [res_bind].
  change (assoc (lit "typeActe") [(lit "typeActe", JStr l)])
    with (Some (JStr l)).
  cbv beta iota. now rewrite normalize_str.
Qed.

Lemma get_acte_with (fields : list (ustring * json)) (labels : list ustring)
    (k : string) :
  lit k <> lit "typeRdd" ->
  get (acte_with fields labels) k = get (JObj fields) k.
Proof.
  intros Hk. unfold get, get_or, acte_with. rewrite assoc_app.
  destruct (assoc (lit k) fields); [reflexivity|].
  cbn [assoc]. destruct (ustring_eqb (lit k) (lit "typeRdd")) eqn:E;
    [|reflexivity].
  apply ustring_eqb_eq in E. contradiction.
Qed.

(** The verdict on a document does not depend on the case and the accents
    of its type labels. *)
Lemma keeps_same_letters (fields : list (ustring * json))
    (labels labels' : list ustring) :
  Forall2 same_letters labels labels' ->
  MainPdf2.keeps (acte_with fields labels)
  = MainPdf2.keeps (acte_with fields labels')
  /\ MainPdf.keeps (acte_with fields labels)
     = MainPdf.keeps (acte_with fields labels').
Proof.
  intros H.
  assert (Ht : acte_types (acte_with fields labels)
               = acte_types (acte_with fields labels')).
  { rewrite !acte_types_with.
    destruct (assoc (lit "typeRdd") fields); [reflexivity|]. f_equal.
    induction H as [|l l' ls ls' Hl _ IH]; [reflexivity|].
    cbn [List.map]. now rewrite IH, (folded_same_letters Hl). }
  split.
  - unfold MainPdf2.keeps.
    rewrite !(get_acte_with fields _ "deleted") by discriminate.
    rewrite !(get_acte_with fields _ "confidentiality") by discriminate.
    now rewrite Ht.
  - unfold MainPdf.keeps. now rewrite Ht.
Qed.

End FilterExamples.

(** C5.  [filter_actes] keeps a document exactly when one of its type
    labels, once normalized, contains a fragment of the allow-list as a
    substring; in main_pdf_2 the document must also pass the deletion and
    confidentiality tests, main_pdf has none.  The result keeps the order of
    the listing.  With "attestation bancaire" on the allow-list, a document
    whose only label is "ATTESTATION BANCAIRE DU 01/01/2024" is retained and
    one whose only label is "statuts modificatifs" is not.  Matching ignores
    letter case and accents: labels that normalize alike get the same
    verdict; the verdict on a document is the same when its labels are
    replaced by labels that differ from them only in the case of letters
    and in accents (a character whose decomposition is an ASCII character
    followed by characters outside ASCII counts as that character); and a
    document is retained when its label is, up to case and accents, a text
    that contains a fragment of the allow-list. *)
Theorem filter_keeps_exactly_allowed_labels (T : PyText) (L : PyTextLaws T) :
  (forall attachments out,
      MainPdf2.filter_actes attachments = Ok out ->
      exists actes,
        listed attachments = Ok actes
        /\ out = filter (fun a => match MainPdf2.keeps a with
                                  | Ok true => true
                                  | _ => false
                                  end) actes
        /\ forall acte,
            In acte out <->
            In acte actes
            /\ exists deleted conf types,
                get acte "deleted" = Ok deleted /\ deleted <> JBool true
                /\ get acte "confidentiality" = Ok conf
                /\ (forall s, conf = JStr s -> lower s = lit "public")
                /\ acte_types acte = Ok types
                /\ exists ty allowed pre post,
                    In ty types /\ In allowed allowed_types
                    /\ ty = pre ++ allowed ++ post)
  /\ (forall attachments out,
        MainPdf.filter_actes attachments = Ok out ->
        exists actes,
          listed attachments = Ok actes
          /\ out = filter (fun a => match MainPdf.keeps a with
                                    | Ok true => true
                                    | _ => false
                                    end) actes
          /\ forall acte,
              In acte out <->
              In acte actes
              /\ exists types,
                  acte_types acte = Ok types
                  /\ exists ty allowed pre post,
                      In ty types /\ In allowed allowed_types
                      /\ ty = pre ++ allowed ++ post)
  /\ In (lit "attestation bancaire") allowed_types
  /\ (let kept := Scenario.labelled (lit "ATTESTATION BANCAIRE DU 01/01/2024") in
      let dropped := Scenario.labelled (lit "statuts modificatifs") in
      MainPdf2.filter_actes (Scenario.listing [kept; dropped]) = Ok [kept]
      /\ MainPdf.filter_actes (Scenario.listing [kept; dropped]) = Ok [kept])
  /\ (forall l l',
        normalize (JStr l) = normalize (JStr l') ->
        (MainPdf2.filter_actes (Scenario.listing [Scenario.labelled l]) = Ok []
         <-> MainPdf2.filter_actes (Scenario.listing [Scenario.labelled l']) = Ok [])
        /\ (MainPdf.filter_actes (Scenario.listing [Scenario.labelled l]) = Ok []
            <-> MainPdf.filter_actes (Scenario.listing [Scenario.labelled l']) = Ok []))
  /\ (forall fields labels labels',
        Forall2 Scenario.same_letters labels labels' ->
        MainPdf2.keeps (Scenario.acte_with fields labels)
        = MainPdf2.keeps (Scenario.acte_with fields labels')
        /\ MainPdf.keeps (Scenario.acte_with fields labels)
           = MainPdf.keeps (Scenario.acte_with fields labels'))
  /\ (forall label pre allowed post,
        In allowed allowed_types ->
        Scenario.same_letters label (pre ++ allowed ++ post) ->
        MainPdf2.filter_actes (Scenario.listing [Scenario.labelled label])
        = Ok [Scenario.labelled label]
        /\ MainPdf.filter_actes (Scenario.listing [Scenario.labelled label])
           = Ok [Scenario.labelled label]).
Proof.
  split; [|split; [|split; [|split; [|split; [|split]]]]].
  - intros att out H. destruct (filter_actes2_unfold _ H) as [actes [Hl Hf]].
    exists actes. split; [assumption|]. split; [apply (filter_loop_ok _ _ Hf)|].
    intros acte. rewrite (in_filter_loop _ _ acte Hf), keeps2_true.
    split; intros [Hin [d [c [tys [H1 [H2 [H3 [H4 [H5 H6]]]]]]]]];
      (split; [assumption|]); exists d, c, tys;
      apply any_allowed_spec in H6; auto 10.
  - intros att out H. destruct (filter_actes1_unfold _ H) as [actes [Hl Hf]].
    exists actes. split; [assumption|]. split; [apply (filter_loop_ok _ _ Hf)|].
    intros acte. rewrite (in_filter_loop _ _ acte Hf), keeps1_true.
    split; intros [Hin [tys [H1 H2]]]; (split; [assumption|]);
      exists tys; apply any_allowed_spec in H2; auto.
  - simpl. tauto.
  - simpl.
    set (kept := Scenario.labelled (lit "ATTESTATION BANCAIRE DU 01/01/2024")).
    set (dropped := Scenario.labelled (lit "statuts modificatifs")).
    assert (Hk : acte_types kept
                 = Ok [lit "attestation bancaire du 01/01/2024"]).
    { unfold kept. rewrite acte_types_labelled, nfkd_ascii by reflexivity.
      reflexivity. }
    assert (Hd : acte_types dropped = Ok [lit "statuts modificatifs"]).
    { unfold dropped. rewrite acte_types_labelled, nfkd_ascii by reflexivity.
      reflexivity. }
    split.
    + change (MainPdf2.filter_actes (Scenario.listing [kept; dropped]))
        with (res_bind
                (res_bind (acte_types kept) (fun t => Ok (any_allowed t)))
                (fun k =>
                   res_bind
                     (res_bind
                        (res_bind (acte_types dropped)
                                  (fun t => Ok (any_allowed t)))
                        (fun k' => Ok (if k' then [dropped] else [])))
                     (fun r => Ok (if k then kept :: r else r)))).
      rewrite Hk, Hd. reflexivity.
    + change (MainPdf.filter_actes (Scenario.listing [kept; dropped]))
        with (res_bind
                (res_bind (acte_types kept) (fun t => Ok (any_allowed t)))
                (fun k =>
                   res_bind
                     (res_bind
                        (res_bind (acte_types dropped)
                                  (fun t => Ok (any_allowed t)))
                        (fun k' => Ok (if k' then [dropped] else [])))
                     (fun r => Ok (if k then kept :: r else r)))).
      rewrite Hk, Hd. reflexivity.
  - intros l l' H. rewrite !filter2_labelled, !filter1_labelled.
    rewrite !normalize_str in H. injection H as H. rewrite H.
    destruct (is_allowed_type (folded l')); split; split; intros E;
      try reflexivity; discriminate.
  - intros fields labels labels' H. now apply keeps_same_letters.
  - intros label pre allowed post Hin H.
    rewrite filter2_labelled, filter1_labelled.
    assert (Hk : is_allowed_type (folded label) = true).
    { rewrite (folded_same_letters H), !folded_app.
      unfold is_allowed_type. apply existsb_exists. exists allowed.
      split; [exact Hin|]. apply contains_substring.
      exists (folded pre), (folded post). f_equal. f_equal.
      simpl in Hin. destruct Hin as [<- | [<- | [<- | []]]];
        now rewrite folded_ascii by reflexivity. }
    now rewrite Hk.
Qed.

Lemma filter_keeps_exactly_allowed_labels_witness :
  let accented :=
    Scenario.labelled
      (lit "Attestation de d" ++ [201%N] ++ lit "p" ++ [244%N]
         ++ lit "t des fonds") in
  MainPdf2.filter_actes (T := Latin1.text) (Scenario.listing [accented])
  = Ok [accented]
  /\ MainPdf.filter_actes (T := Latin1.text) (Scenario.listing [accented])
     = Ok [accented].
Proof.
  apply (proj2 (proj2 (proj2 (proj2 (proj2 (proj2
           (filter_keeps_exactly_allowed_labels latin1_laws))))))
         _ [] (lit "attestation de depot des fonds") []).
  - right. left. reflexivity.
  - unfold Scenario.same_letters.
    repeat (apply Forall2_cons; [letter|]). apply Forall2_nil.
Defined.

(** C6 (amended).  In main_pdf_2, a document whose [deleted] field is [true]
    is left out of the result of [filter_actes] whatever its type labels,
    and so is a document whose [confidentiality] field is a string that,
    lower-cased, differs from "public". *)
Theorem filter_excludes_deleted_and_non_public (T : PyText)
    (attachments : json) (out : list json) (acte : json) :
  MainPdf2.filter_actes attachments = Ok out ->
  (get acte "deleted" = Ok (JBool true) -> ~ In acte out)
  /\ (forall s,
        get acte "confidentiality" = Ok (JStr s) ->
        lower s <> lit "public" -> ~ In acte out).
Proof.
  intros H. destruct (filter_actes2_unfold _ H) as [actes [_ Hf]].
  split.
  - intros Hd Hin. apply (in_filter_loop _ _ acte Hf) in Hin.
    destruct Hin as [_ Hk]. apply keeps2_true in Hk.
    destruct Hk as [d [c [tys [Ed [Hne _]]]]]. congruence.
  - intros s Hc Hs Hin. apply (in_filter_loop _ _ acte Hf) in Hin.
    destruct Hin as [_ Hk]. apply keeps2_true in Hk.
    destruct Hk as [d [c [tys [_ [_ [Ec [Hp _]]]]]]].
    rewrite Hc in Ec. injection Ec as <-. now apply Hs, Hp.
Qed.

Lemma filter_excludes_deleted_and_non_public_witness :
  let gone := Scenario.acte_with [(lit "deleted", JBool true)]
                                 [lit "statuts constitutifs"] in
  let kept := Scenario.labelled (lit "statuts constitutifs") in
  ~ In gone [kept].
Proof.
  intros gone kept.
  exact (proj1 (@filter_excludes_deleted_and_non_public Latin1.text
                  (Scenario.listing [gone; kept]) [kept] gone eq_refl)
               eq_refl).
Defined.

(** C6, as stated, fails.  In main_pdf_2 a document marked "Public", which
    is a string not equal to "public", is kept; and the filter of main_pdf
    keeps a deleted document. *)
Lemma filter_keeps_capitalised_public :
  let acte := Scenario.acte_with [(lit "confidentiality", JStr (lit "Public"))]
                                 [lit "statuts constitutifs"] in
  let gone := Scenario.acte_with [(lit "deleted", JBool true)]
                                 [lit "statuts constitutifs"] in
  lit "Public" <> lit "public"
  /\ get acte "confidentiality" = Ok (JStr (lit "Public"))
  /\ MainPdf2.filter_actes (T := Latin1.text) (Scenario.listing [acte])
     = Ok [acte]
  /\ get gone "deleted" = Ok (JBool true)
  /\ MainPdf.filter_actes (T := Latin1.text) (Scenario.listing [gone])
     = Ok [gone].
Proof. repeat split. discriminate. Qed.

(** ** Running monadic code *)

Lemma bind_ok {A B} (m : M A) (k : A -> M B) w a w1 :
  m w = (Done a, w1) -> bind m k w = k a w1.
Proof. intros H. unfold bind. now rewrite H. Qed.

Lemma bind_exit {A B} (m : M A) (k : A -> M B) w c w1 :
  m w = (Exit c, w1) -> bind m k w = (Exit c, w1).
Proof. intros H. unfold bind. now rewrite H. Qed.

Lemma bind_crash {A B} (m : M A) (k : A -> M B) w e w1 :
  m w = (Crash e, w1) -> bind m k w = (Crash e, w1).
Proof. intros H. unfold bind. now rewrite H. Qed.

(** Split a hypothesis on the first computation of a [bind]. *)
Ltac bind_cases H :=
  match type of H with
  | bind ?m ?k ?w = _ =>
      let a := fresh "a" in
      let c := fresh "c" in
      let e := fresh "e" in
      let w1 := fresh "w" in
      let E := fresh "E" in
      destruct (m w) as [[a|c|e] w1] eqn:E;
      [ rewrite (@bind_ok _ _ m k w _ _ E) in H
      | rewrite (@bind_exit _ _ m k w _ _ E) in H
      | rewrite (@bind_crash _ _ m k w _ _ E) in H ]
  end.

(** ** The JSON-output variant *)

Section JsonVariant.
Context {T : PyText}.

(** The keys of the entries [main] puts in the array. *)
Abbreviation entry_keys e :=
  (match e with JObj items => List.map fst items | _ => [] end).

Lemma collect_entries depth token actes output w out w' :
  MainPdfJson.collect depth token actes output w = (Done out, w') ->
  Forall (fun e => entry_keys e
                   = [lit "siren"; lit "typeActe"; lit "id"; lit "mime"])
         output ->
  Forall (fun e => entry_keys e
                   = [lit "siren"; lit "typeActe"; lit "id"; lit "mime"])
         out.
Proof.
  revert output w. induction actes as [|acte actes IH]; intros output w H Hout.
  - simpl in H. unfold ret in H. now injection H as <- _.
  - simpl in H.
    bind_cases H; [|discriminate|discriminate].
    bind_cases H; [|discriminate|discriminate].
    bind_cases H; [|discriminate|discriminate].
    destruct (negb (truthy a1)).
    + eapply IH; eauto.
    + eapply IH; [eassumption|]. apply Forall_app. split; [assumption|].
      constructor; [reflexivity | constructor].
Qed.

(** Whatever the run, no entry of the array written by [main] has a key
    for the payload. *)
Lemma json_entries_have_four_keys depth w out w' :
  MainPdfJson.main depth w = (Done (Some out), w') ->
  Forall (fun e => entry_keys e
                   = [lit "siren"; lit "typeActe"; lit "id"; lit "mime"])
         out.
Proof.
  unfold MainPdfJson.main. intros H.
  bind_cases H; [|discriminate|discriminate].
  destruct (negb (truthy a)); [discriminate|].
  bind_cases H; [|discriminate|discriminate].
  destruct (negb (truthy a0)); [discriminate|].
  bind_cases H; [|discriminate|discriminate].
  bind_cases H; [|discriminate|discriminate].
  unfold ret in H. injection H as <- <-.
  eapply collect_entries; [eassumption | constructor].
Qed.

End JsonVariant.

(** C9.  A run of [main] of the JSON variant on a listing with one matching
    document whose download succeeds: the entry written for it holds the
    identifier, the type label, the document id and a mime type; the
    base64 text that [download_acte_base64] returned ("JVBERg==" here) is
    not in it, under "document_base64" or any other key. *)
Theorem json_entry_omits_the_payload :
  let acte := Scenario.acte_with [(lit "id", JStr (lit "A1"))]
                                 [lit "Statuts constitutifs"] in
  let w := Scenario.world
             [ Http 200 (Scenario.ok_body (Scenario.listing [acte]));
               Http 200 (Scenario.raw_body [x25; x50; x44; x46]%byte) ]
             200 40 in
  MainPdfJson.b64encode [x25; x50; x44; x46]%byte = lit "JVBERg=="
  /\ fst (MainPdfJson.download_acte_base64 8
            (JStr (lit "t0")) acte
            (Scenario.world
               [Http 200 (Scenario.raw_body [x25; x50; x44; x46]%byte)] 200 40))
     = Done (JStr (lit "JVBERg=="))
  /\ fst (MainPdfJson.main (T := Latin1.text) 8 w)
     = Done (Some [JObj [ (lit "siren", JStr (lit "834816985"));
                        (lit "typeActe", JStr (lit "Statuts constitutifs"));
                        (lit "id", JStr (lit "A1"));
                        (lit "mime", JStr (lit "application/pdf")) ]]).
Proof. repeat split. Qed.

(** ** pick_files *)

Section PickFiles.
Context {T : PyText}.

(** A returned pair: its file id is truthy, its label is a datatype of the
    allow-list or "UNKNOWN". *)
Abbreviation well_picked p :=
  (truthy (fst p) = true
   /\ (snd p = lit "UNKNOWN" \/ In (snd p) QardBulk.ALLOWED_DATATYPES)).

Lemma pick_loop_sound files chosen download_all cap out :
  QardBulk.pick_loop files chosen download_all cap = Ok out ->
  (Forall (fun p => well_picked p) chosen -> Forall (fun p => well_picked p) out)
  /\ (download_all = false -> chosen = [] -> (List.length out <= 1)%nat)
  /\ (download_all = true -> (Z.of_nat (List.length chosen) < cap)%Z ->
      (Z.of_nat (List.length out) <= cap)%Z).
Proof.
  revert chosen. induction files as [|f files IH]; intros chosen H.
  - simpl in H. injection H as <-. repeat split; auto.
    + intros _ ->. simpl. lia.
    + lia.
  - cbn [QardBulk.pick_loop res_bind] in H.
    destruct (get f "datatype") as [d1|]; cbn [res_bind] in H; [|discriminate].
    destruct (get f "data_type") as [d2|]; cbn [res_bind] in H; [|discriminate].
    destruct (py_or (py_or d1 d2) (JStr [])) as [| | | |raw| |]; try discriminate.
    match type of H with
    | context [if ?c then _ else res_bind _ _] => destruct c eqn:Eskip
    end; [now apply IH|].
    destruct (get f "id") as [i1|]; cbn [res_bind] in H; [|discriminate].
    destruct (get f "file_id") as [i2|]; cbn [res_bind] in H; [|discriminate].
    destruct (get f "uuid") as [i3|]; cbn [res_bind] in H; [|discriminate].
    destruct (truthy (py_or (py_or i1 i2) i3)) eqn:Efid; cbn [negb] in H;
      [|now apply IH].
    set (label := match upper raw with [] => lit "UNKNOWN" | _ => upper raw end) in H.
    set (picked := (py_or (py_or i1 i2) i3, label)) in H.
    assert (Hp : well_picked picked).
    { split; [exact Efid|]. unfold picked, label. simpl snd.
      destruct (upper raw) as [|c s] eqn:Eu; [now left | right].
      change (negb (existsb (ustring_eqb (c :: s)) QardBulk.ALLOWED_DATATYPES)
              = false) in Eskip.
      apply negb_false_iff, existsb_exists in Eskip.
      destruct Eskip as [x [Hx Hxe]]. apply ustring_eqb_eq in Hxe.
      now rewrite Hxe. }
    assert (Hlen : List.length (chosen ++ [picked]) = S (List.length chosen))
      by (rewrite length_app; simpl; lia).
    destruct download_all; cbn [negb andb] in H.
    + destruct (cap <=? Z.of_nat (List.length (chosen ++ [picked])))%Z eqn:Ecap.
      * injection H as <-. repeat split.
        -- intros Hc. apply Forall_app. split; [assumption | now constructor].
        -- discriminate.
        -- intros _ Hlt. rewrite Hlen. lia.
      * apply Z.leb_gt in Ecap. destruct (IH _ H) as [I1 [I2 I3]].
        repeat split.
        -- intros Hc. apply I1, Forall_app. split; [assumption | now constructor].
        -- discriminate.
        -- intros _ _. now apply I3.
    + destruct (chosen ++ [picked]) as [|p l] eqn:Ec;
        [destruct chosen; discriminate|].
      injection H as <-. repeat split.
      * intros Hc. rewrite <- Ec. apply Forall_app.
        split; [assumption | now constructor].
      * intros _ ->. simpl in Ec. injection Ec as <- <-. simpl. lia.
      * discriminate.
Qed.

(** What holds of every result of [pick_files]: at most one pair without
    [download_all], at most [max_files_per_user] pairs with it when that
    bound is at least 1, and only well-formed pairs. *)
Lemma pick_files_sound files download_all cap out :
  QardBulk.pick_files files download_all cap = Ok out ->
  Forall (fun p => well_picked p) out
  /\ (download_all = false -> (List.length out <= 1)%nat)
  /\ (download_all = true -> (1 <= cap)%Z ->
      (Z.of_nat (List.length out) <= cap)%Z).
Proof.
  intros H. destruct (pick_loop_sound _ _ _ _ H) as [I1 [I2 I3]].
  repeat split; auto. intros Hd Hc. apply I3; [assumption | simpl; lia].
Qed.

End PickFiles.

(** C10.  With [download_all] set and [max_files_per_user = 0], [pick_files]
    returns one pair: the bound is tested after the pair is appended.  The
    same call with the bound 1 returns the same list; a file without a
    datatype passes the allow-list test and is labelled "UNKNOWN", one with
    a datatype outside the allow-list is skipped. *)
Theorem pick_files_exceeds_a_zero_cap :
  let files := [ Scenario.qard_file "f0" "invoice";
                 Scenario.qard_file "f1" "act";
                 Scenario.qard_file "f2" "ACT" ] in
  QardBulk.pick_files (T := Latin1.text) files true 0
  = Ok [(JStr (lit "f1"), lit "ACT")]
  /\ QardBulk.pick_files (T := Latin1.text) files true 1
     = Ok [(JStr (lit "f1"), lit "ACT")]
  /\ QardBulk.pick_files (T := Latin1.text) files true 2
     = Ok [(JStr (lit "f1"), lit "ACT"); (JStr (lit "f2"), lit "ACT")]
  /\ QardBulk.pick_files (T := Latin1.text) files false 10
     = Ok [(JStr (lit "f1"), lit "ACT")]
  /\ QardBulk.pick_files (T := Latin1.text)
       [JObj [(lit "id", JStr (lit "f3"))]] false 10
     = Ok [(JStr (lit "f3"), lit "UNKNOWN")].
Proof. repeat split. Qed.

(** ** iter_pages *)

(** The request [iter_pages] issues for page [page]. *)
Abbreviation request path base page :=
  (QardBulk.Asked path
     (QardBulk.dict_set (lit "page") (JInt page)
        (QardBulk.setdefault (lit "per_page") (JInt 100) base))).

Section Pages.
Context {T : PyText}.
Import QardBulk.

Variables (sess : nat -> Reply) (asked : nat) (path : ustring) (base : dict)
          (keys : list ustring) (page : Z) (rounds : nat).

Hypothesis code_200 : code (sess asked) = 200%Z.

Lemma page_bare_list l :
  data (sess asked) = JList l ->
  pages_loop (S rounds) sess asked path base keys page
  = (request path base page :: List.map (Yielded 200 (headers (sess asked))) l,
     Exhausted).
Proof.
  intros H. cbn [pages_loop]. rewrite code_200, H. reflexivity.
Qed.

Lemma page_unrecognized :
  is_list (data (sess asked)) = false ->
  find_items (data (sess asked)) keys = Ok None ->
  pages_loop (S rounds) sess asked path base keys page
  = ([request path base page;
      Yielded 200 (headers (sess asked)) (data (sess asked))], Exhausted).
Proof.
  intros Hl H. cbn [pages_loop]. rewrite code_200, H. cbn [Z.eqb negb].
  destruct (data (sess asked)); try reflexivity. discriminate.
Qed.

Lemma page_last items cur last :
  is_list (data (sess asked)) = false ->
  find_items (data (sess asked)) keys = Ok (Some items) ->
  footer (data (sess asked)) page = Ok (cur, last) ->
  (last <= cur)%Z ->
  pages_loop (S rounds) sess asked path base keys page
  = (request path base page
       :: List.map (Yielded 200 (headers (sess asked))) items, Exhausted).
Proof.
  intros Hl H Hf Hle. cbn [pages_loop]. rewrite code_200, H, Hf.
  apply Z.leb_le in Hle. rewrite Hle. cbn [Z.eqb negb].
  destruct (data (sess asked)); try reflexivity. discriminate.
Qed.

Lemma page_more items cur last :
  is_list (data (sess asked)) = false ->
  find_items (data (sess asked)) keys = Ok (Some items) ->
  footer (data (sess asked)) page = Ok (cur, last) ->
  (cur < last)%Z ->
  pages_loop (S rounds) sess asked path base keys page
  = let rest := pages_loop rounds sess (S asked) path base keys (page + 1) in
    (request path base page
       :: List.map (Yielded 200 (headers (sess asked))) items
       ++ Slept CALL_PAUSE :: fst rest, snd rest).
Proof.
  intros Hl H Hf Hlt. cbn [pages_loop]. rewrite code_200, H, Hf.
  apply Z.leb_gt in Hlt. rewrite Hlt. cbn [Z.eqb negb].
  destruct (pages_loop rounds sess (S asked) path base keys (page + 1)).
  destruct (data (sess asked)); try reflexivity. discriminate.
Qed.

End Pages.

Section PageShapes.
Context {T : PyText}.
Import QardBulk.

(** The search among the candidate keys never raises on an object; it
    stops at the first key that holds a list. *)
Lemma find_items_object (m : list (ustring * json)) (keys : list ustring) :
  match find_items (JObj m) keys with
  | Ok (Some items) =>
      exists pre k post,
        keys = pre ++ k :: post
        /\ assoc k m = Some (JList items)
        /\ forall k', In k' pre -> forall l, assoc k' m <> Some (JList l)
  | Ok None => forall k, In k keys -> forall l, assoc k m <> Some (JList l)
  | Fail _ => False
  end.
Proof.
  induction keys as [|k keys IH]; cbn [find_items].
  - intros k [].
  - assert (Hskip : (forall l, assoc k m <> Some (JList l)) ->
              match find_items (JObj m) keys with
              | Ok (Some items) =>
                  exists pre k0 post,
                    k :: keys = pre ++ k0 :: post
                    /\ assoc k0 m = Some (JList items)
                    /\ forall k', In k' pre ->
                                  forall l, assoc k' m <> Some (JList l)
              | Ok None =>
                  forall k0, In k0 (k :: keys) ->
                             forall l, assoc k0 m <> Some (JList l)
              | Fail _ => False
              end).
    { intros Hk. destruct (find_items (JObj m) keys) as [[items|]|e].
      - destruct IH as [pre [k0 [post [-> [Hl Hpre]]]]].
        exists (k :: pre), k0, post. split; [reflexivity|].
        split; [exact Hl|]. intros k' [<- | Hin]; [exact Hk | now apply Hpre].
      - intros k0 [<- | Hin]; [exact Hk | now apply IH].
      - exact IH. }
    destruct (assoc k m) as [[| | | | |items|]|] eqn:Ea;
      try (apply Hskip; intros l; discriminate).
    exists [], k, keys. split; [reflexivity|]. split; [exact Ea|].
    intros k' [].
Qed.

(** On a body that is neither a list nor an object the search raises as
    soon as there is a key to look for. *)
Lemma find_items_scalar (d : json) (k : ustring) (keys : list ustring) :
  is_list d = false -> (forall m, d <> JObj m) ->
  find_items d (k :: keys) = Fail AttributeError.
Proof.
  intros Hl Ho. cbn [find_items]. destruct d; try reflexivity.
  now elim (Ho items).
Qed.

End PageShapes.

(** C4 (amended).  One round of [iter_pages].  A reply whose status is not
    200 is yielded once as it came, whatever its body, and the traversal
    stops.
    On a reply with status 200: a bare list is yielded element by element
    and the traversal stops; an object in which no candidate key holds a
    list is yielded once and the traversal stops; an object in which a
    candidate key holds a list has the items under the first such key
    yielded in order, after which the traversal stops if
    [current_page >= last_page], sleeps and asks for the next page
    otherwise, and raises if [int] cannot read one of the two numbers; a
    body that is neither a list nor an object is yielded only if there is
    no candidate key, and otherwise makes the traversal raise
    [AttributeError] with nothing yielded.  On an enveloped endpoint of
    three pages of size 2 holding five items, the five items are yielded
    in their order and three requests are made, whatever the endpoint
    would answer to a fourth. *)
Theorem iter_pages_by_reply_shape (T : PyText) :
  (forall (sess : nat -> QardBulk.Reply) asked path base keys page rounds,
      let r := sess asked in
      let run := QardBulk.pages_loop (S rounds) sess asked path base keys page in
      let yields := List.map (QardBulk.Yielded 200 (QardBulk.headers r)) in
      (QardBulk.code r <> 200%Z ->
       run = ([request path base page;
               QardBulk.Yielded (QardBulk.code r) (QardBulk.headers r)
                 (QardBulk.data r)],
              QardBulk.Exhausted))
      /\ (QardBulk.code r = 200%Z ->
          (forall l,
              QardBulk.data r = JList l ->
              run = (request path base page :: yields l, QardBulk.Exhausted))
          /\ (forall m,
                 QardBulk.data r = JObj m ->
                 ((forall k, In k keys ->
                             forall l, assoc k m <> Some (JList l)) ->
                  run = ([request path base page;
                          QardBulk.Yielded 200 (QardBulk.headers r)
                            (QardBulk.data r)],
                         QardBulk.Exhausted))
                 /\ (forall pre k post items,
                        keys = pre ++ k :: post ->
                        assoc k m = Some (JList items) ->
                        (forall k', In k' pre ->
                                    forall l, assoc k' m <> Some (JList l)) ->
                        (forall cur last,
                            QardBulk.footer (QardBulk.data r) page
                            = Ok (cur, last) ->
                            ((last <= cur)%Z ->
                             run = (request path base page :: yields items,
                                    QardBulk.Exhausted))
                            /\ ((cur < last)%Z ->
                                run
                                = let rest :=
                                    QardBulk.pages_loop rounds sess (S asked)
                                      path base keys (page + 1) in
                                  (request path base page :: yields items
                                     ++ QardBulk.Slept QardBulk.CALL_PAUSE
                                     :: fst rest,
                                   snd rest)))
                        /\ (forall e,
                               QardBulk.footer (QardBulk.data r) page = Fail e ->
                               run = (request path base page :: yields items,
                                      QardBulk.Raised e))))
          /\ (is_list (QardBulk.data r) = false ->
              (forall m, QardBulk.data r <> JObj m) ->
              (keys = [] ->
               run = ([request path base page;
                       QardBulk.Yielded 200 (QardBulk.headers r)
                         (QardBulk.data r)],
                      QardBulk.Exhausted))
              /\ (keys <> [] ->
                  run = ([request path base page],
                         QardBulk.Raised AttributeError)))))
  /\ (forall a b c d e (later : nat -> QardBulk.Reply) path rounds,
         let sess n :=
           match n with
           | 0%nat => Scenario.envelope [a; b] 1 3
           | 1%nat => Scenario.envelope [c; d] 2 3
           | 2%nat => Scenario.envelope [e] 3 3
           | S (S (S k)) => later k
           end in
         QardBulk.iter_pages (3 + rounds) sess path
           [(lit "per_page", JInt 2)] [lit "result"]
         = ([ QardBulk.Asked path (Scenario.page_params 2 1);
              QardBulk.Yielded 200 [] a; QardBulk.Yielded 200 [] b;
              QardBulk.Slept QardBulk.CALL_PAUSE;
              QardBulk.Asked path (Scenario.page_params 2 2);
              QardBulk.Yielded 200 [] c; QardBulk.Yielded 200 [] d;
              QardBulk.Slept QardBulk.CALL_PAUSE;
              QardBulk.Asked path (Scenario.page_params 2 3);
              QardBulk.Yielded 200 [] e ],
            QardBulk.Exhausted)).
Proof.
  split; [|intros; reflexivity].
  intros sess asked path base keys page rounds r run yields.
  subst yields run r.
  split.
  { intros Hc. cbn [QardBulk.pages_loop].
    apply Z.eqb_neq in Hc. now rewrite Hc. }
  intros H200. split; [|split].
  - intros l Hl. now apply page_bare_list.
  - intros m Hm. split.
    + intros Hnone. apply page_unrecognized; [exact H200 | | ].
      * now rewrite Hm.
      * rewrite Hm.
        pose proof (find_items_object m keys) as Hf.
        destruct (QardBulk.find_items (JObj m) keys) as [[items|]|e];
          [|reflexivity|destruct Hf].
        destruct Hf as [pre [k [post [-> [Hk _]]]]].
        elim (Hnone k (in_elt k pre post) items). exact Hk.
    + intros pre k post items Hkeys Hk Hpre.
      assert (Hfound : QardBulk.find_items (QardBulk.data (sess asked)) keys
                       = Ok (Some items)).
      { rewrite Hm. subst keys. clear - Hk Hpre.
        induction pre as [|k0 pre IH]; cbn [app QardBulk.find_items].
        - now rewrite Hk.
        - assert (H0 : forall l, assoc k0 m <> Some (JList l))
            by (apply Hpre; now left).
          assert (IH' := IH (fun k' Hin => Hpre k' (or_intror Hin))).
          destruct (assoc k0 m) as [[| | | | |l|]|]; try exact IH'.
          now elim (H0 l). }
      assert (Hnl : is_list (QardBulk.data (sess asked)) = false)
        by now rewrite Hm.
      split.
      * intros cur last Hf. split; intros Hc.
        -- now apply page_last with (cur := cur) (last := last).
        -- now apply page_more with (cur := cur) (last := last).
      * intros e Hf. cbn [QardBulk.pages_loop].
        rewrite H200. cbn [Z.eqb negb].
        rewrite Hfound, Hf. rewrite Hm. reflexivity.
  - intros Hl Ho. split.
    + intros ->. apply page_unrecognized; [exact H200 | exact Hl | reflexivity].
    + intros Hk. destruct keys as [|k keys]; [now elim Hk|].
      cbn [QardBulk.pages_loop].
      rewrite H200. cbn [Z.eqb negb].
      rewrite (find_items_scalar k keys Hl Ho).
      destruct (QardBulk.data (sess asked)); try reflexivity. discriminate.
Qed.

Lemma iter_pages_by_reply_shape_witness :
  let sess := fun _ : nat =>
    {| QardBulk.code := 200; QardBulk.headers := [];
       QardBulk.data := JList [JInt 7; JInt 8] |} in
  QardBulk.pages_loop (T := Latin1.text) 1 sess 0 (lit "/api/v6/users") []
    [lit "result"] 1
  = ([ QardBulk.Asked (lit "/api/v6/users") (Scenario.page_params 100 1);
       QardBulk.Yielded 200 [] (JInt 7); QardBulk.Yielded 200 [] (JInt 8) ],
     QardBulk.Exhausted).
Proof.
  intros sess.
  exact (proj1 (proj2 (proj1 (iter_pages_by_reply_shape Latin1.text)
                         sess 0%nat (lit "/api/v6/users") [] [lit "result"]
                         1%Z 0%nat)
                      eq_refl)
               [JInt 7; JInt 8] eq_refl).
Defined.

(** C4, as stated, fails at two replies.  A 200 reply whose body is the
    JSON value [null] is neither a bare list nor an envelope with a
    recognized field, and yet it is not yielded: the traversal raises
    [AttributeError] after its one request.  A bare list that comes with
    the status 500 is not yielded element by element but once, as a
    whole. *)
Lemma iter_pages_raises_on_a_scalar_body :
  QardBulk.iter_pages (T := Latin1.text) 5
    (fun _ => {| QardBulk.code := 200; QardBulk.headers := [];
                 QardBulk.data := JNull |})
    (lit "/api/v6/users") [] [lit "result"]
  = ([QardBulk.Asked (lit "/api/v6/users") (Scenario.page_params 100 1)],
     QardBulk.Raised AttributeError)
  /\ QardBulk.iter_pages (T := Latin1.text) 5
       (fun _ => {| QardBulk.code := 500; QardBulk.headers := [];
                    QardBulk.data := JList [JInt 7; JInt 8] |})
       (lit "/api/v6/users") [] [lit "result"]
     = ([ QardBulk.Asked (lit "/api/v6/users") (Scenario.page_params 100 1);
          QardBulk.Yielded 500 [] (JList [JInt 7; JInt 8]) ],
        QardBulk.Exhausted).
Proof. split; reflexivity. Qed.

(** ** The rate limiter *)

Lemma Qltb_lt (x y : Q) : Qltb x y = true <-> x < y.
Proof. unfold Qltb, Qlt. apply Z.ltb_lt. Qed.

Lemma Qltb_ge (x y : Q) : Qltb x y = false <-> y <= x.
Proof. unfold Qltb, Qle. rewrite Z.ltb_ge. reflexivity. Qed.

Lemma sleep_until (now next_ok : Q) :
  now + Qmax 0 (next_ok - now) == Qmax now next_ok.
Proof.
  destruct (Q.max_spec 0 (next_ok - now)) as [[H1 H2]|[H1 H2]];
    destruct (Q.max_spec now next_ok) as [[H3 H4]|[H3 H4]];
    rewrite H2, H4; lra.
Qed.

(** The time at which [wait] lets the caller go on, in world [w]. *)
Abbreviation next_ok g w :=
  (last_ts (limiter g w) + min_interval (limiter g w)
   + (0 + ((8 # 100) - 0) * unif w (drawn w))).

(** What one call of [wait] does: it returns, having drawn one random
    number and slept at most once; the limiter's time stamp stands at
    [max(now, next_ok)] and the clock at that time, or later by what the
    sleep lasted longer than asked; nothing else changes. *)
Lemma wait_runs (g : Group) (w : World) :
  exists w',
    wait g w = (Done tt, w')
    /\ last_ts (limiter g w') = Qmax (clock w) (next_ok g w)
    /\ min_interval (limiter g w') = min_interval (limiter g w)
    /\ (clock w' == Qmax (clock w) (next_ok g w)
        \/ clock w' == Qmax (clock w) (next_ok g w) + lag w (slept w))
    /\ (forall g', g' <> g -> limiter g' w' = limiter g' w)
    /\ replies w' = replies w /\ served w' = served w
    /\ unif w' = unif w /\ drawn w' = S (drawn w)
    /\ token_file w' = token_file w /\ disk w' = disk w
    /\ (trace w' = trace w \/ exists d, trace w' = trace w ++ [Sleep Pacing d]).
Proof.
  set (nx := next_ok g w).
  assert (Hn : Qltb (Qmax 0 (nx - clock w)) 0 = false)
    by (apply Qltb_ge, Q.le_max_l).
  assert (Hc : clock w + Qmax 0 (nx - clock w) == Qmax (clock w) nx)
    by apply sleep_until.
  assert (H0 : 0 <= Qmax 0 (nx - clock w)) by apply Q.le_max_l.
  unfold wait, bind, time_time, random_uniform, ret, time_sleep, set_limiter, log.
  destruct g; cbn in *; fold nx;
    destruct (Qltb 0 (Qmax 0 (nx - clock w))) eqn:Es;
    try rewrite Hn; eexists; (split; [reflexivity|]); cbn;
    try apply Qltb_ge in Es;
    (repeat split; try reflexivity; try assumption;
      try (intros [] Hg; try reflexivity; now elim Hg);
      try (now left); try (right; eexists; reflexivity);
      try (right; rewrite <- Hc; reflexivity);
      try (left; lra)).
Qed.

(** The clock across one call of [wait]: a caller that comes at
    [next_ok] or later is not held; one that comes earlier sleeps for the
    time that is left, and goes on when that sleep ends. *)
Lemma wait_clock (g : Group) (w : World) :
  exists w',
    wait g w = (Done tt, w')
    /\ last_ts (limiter g w') = Qmax (clock w) (next_ok g w)
    /\ min_interval (limiter g w') = min_interval (limiter g w)
    /\ unif w' = unif w /\ lag w' = lag w /\ drawn w' = S (drawn w)
    /\ ((next_ok g w <= clock w
         /\ clock w' = clock w /\ slept w' = slept w
         /\ trace w' = trace w)
        \/ (clock w < next_ok g w
            /\ clock w' == next_ok g w + lag w (slept w)
            /\ slept w' = S (slept w)
            /\ exists d, d == next_ok g w - clock w
                         /\ trace w' = trace w ++ [Sleep Pacing d])).
Proof.
  set (nx := next_ok g w).
  assert (Hn : Qltb (Qmax 0 (nx - clock w)) 0 = false)
    by (apply Qltb_ge, Q.le_max_l).
  unfold wait, bind, time_time, random_uniform, ret, time_sleep, set_limiter, log.
  destruct g; cbn in *; fold nx;
    destruct (Qltb 0 (Qmax 0 (nx - clock w))) eqn:Es;
    try rewrite Hn; eexists; (split; [reflexivity|]); cbn;
    (split; [reflexivity|]); (split; [reflexivity|]);
    (split; [reflexivity|]); (split; [reflexivity|]);
    (split; [reflexivity|]).
  all: try (apply Qltb_lt in Es; right;
            assert (Hlt : clock w < nx)
              by (destruct (Q.max_spec 0 (nx - clock w)) as [[H1 H2]|[H1 H2]];
                  rewrite H2 in Es; lra);
            assert (Hd : Qmax 0 (nx - clock w) == nx - clock w)
              by (apply Q.max_r; lra);
            split; [exact Hlt|]; split; [rewrite Hd; lra|];
            split; [reflexivity|]; eexists; split; [exact Hd | reflexivity]).
  all: apply Qltb_ge in Es; left;
    (split; [pose proof (Q.le_max_r 0 (nx - clock w)); lra|]);
    repeat split.
Qed.

Lemma spaced_from_le gap from from' ts :
  from' <= from -> Scenario.spaced gap from ts -> Scenario.spaced gap from' ts.
Proof.
  destruct ts as [|t ts]; simpl; [auto|]. intros H [H1 H2]. split; [lra | assumption].
Qed.

Lemma spaced_gap_le gap gap' from ts :
  gap' <= gap -> Scenario.spaced gap from ts -> Scenario.spaced gap' from ts.
Proof.
  intros H. revert from. induction ts as [|t ts IH]; simpl; [auto|].
  intros from [H1 H2]. split; [lra | auto].
Qed.

Lemma spaced_nth gap from ts i t1 t2 :
  Scenario.spaced gap from ts ->
  nth_error ts i = Some t1 -> nth_error ts (S i) = Some t2 -> t1 + gap <= t2.
Proof.
  revert from i. induction ts as [|t ts IH]; intros from i Hs H1 H2.
  - destruct i; discriminate.
  - destruct Hs as [_ Hs]. destruct i as [|i]; simpl in H1, H2.
    + injection H1 as <-. destruct ts as [|u ts]; [discriminate|].
      simpl in H2. injection H2 as <-. apply Hs.
    + eapply IH; eauto.
Qed.

(** The time stamps that successive calls of [wait] record are at least
    [min_interval] apart, whatever the caller does in between; each call
    returns no earlier than the time stamp it records, and at that time
    when no sleep lasts longer than asked. *)
Lemma call_waits_spaced (g : Group) (gaps : list Q) :
  forall w,
    (forall n, 0 <= unif w n) -> (forall n, 0 <= lag w n) ->
    exists sts w',
      Scenario.call_waits g gaps w = (Done sts, w')
      /\ List.length sts = List.length gaps
      /\ Scenario.spaced (min_interval (limiter g w)) (last_ts (limiter g w))
           (List.map fst sts)
      /\ Forall (fun p => fst p <= snd p) sts
      /\ ((forall n, lag w n == 0) -> Forall (fun p => snd p == fst p) sts).
Proof.
  induction gaps as [|d gaps IH]; intros w Hu Hl.
  - exists [], w. repeat split; constructor.
  - cbn [Scenario.call_waits].
    set (w0 := snd (Scenario.elapse d w)).
    assert (E0 : Scenario.elapse d w = (Done tt, w0)) by reflexivity.
    destruct (wait_clock g w0)
      as [w1 [Ew [Hts [Hmi [Hun [Hlg [_ Hck]]]]]]].
    destruct (IH w1) as [sts [w2 [Ec [Hlen [Hsp [Hle Hex]]]]]].
    { intros n. rewrite Hun. apply Hu. }
    { intros n. rewrite Hlg. apply Hl. }
    exists ((last_ts (limiter g w1), clock w1) :: sts), w2.
    rewrite (@bind_ok _ _ _ _ w _ _ E0), (@bind_ok _ _ _ _ w0 _ _ Ew).
    unfold bind at 1. unfold time_time at 1.
    unfold bind at 1.
    rewrite (@bind_ok _ _ _ _ w1 _ _ Ec). unfold ret.
    split; [reflexivity|]. split; [simpl; now rewrite Hlen|].
    assert (Hj : 0 <= unif w0 (drawn w0)) by apply Hu.
    assert (Hg : 0 <= lag w0 (slept w0)) by apply Hl.
    assert (Hnx : last_ts (limiter g w0) + min_interval (limiter g w0)
                  <= Qmax (clock w0) (next_ok g w0)).
    { eapply Qle_trans; [|apply Q.le_max_r]. nra. }
    assert (Hlim : limiter g w0 = limiter g w) by (destruct g; reflexivity).
    assert (Hret : Qmax (clock w0) (next_ok g w0) <= clock w1
                   /\ (lag w0 (slept w0) == 0 ->
                       clock w1 == Qmax (clock w0) (next_ok g w0))).
    { destruct Hck as [[Hlate [-> _]] | [Hearly [Hc _]]].
      - split; [apply Q.max_lub; [apply Qle_refl | exact Hlate]|].
        intros _. symmetry. apply Q.max_l. exact Hlate.
      - assert (Hm : Qmax (clock w0) (next_ok g w0) == next_ok g w0)
          by (apply Q.max_r; lra).
        rewrite Hm, Hc. split; [lra|]. intros Hz. rewrite Hz. lra. }
    destruct Hret as [Hret Hexact].
    rewrite Hlim in *. cbn [List.map fst snd].
    split; [|split].
    + split; [rewrite Hts; exact Hnx|]. rewrite Hmi in Hsp. exact Hsp.
    + constructor; [|exact Hle]. cbn [fst snd]. rewrite Hts. exact Hret.
    + intros Hz. constructor.
      * cbn [fst snd]. rewrite Hts. apply Hexact. apply Hz.
      * apply Hex. intros n. rewrite Hlg. apply Hz.
Qed.

(** C8 (amended).  On a limiter built with [rpm = 60], one call of [wait]
    moves the recorded time stamp on by at least 1.0 second and returns no
    earlier than that time stamp.  In any sequence of calls, whatever time the
    caller spends between them, the time stamps recorded are pairwise at
    least 1.0 second apart and each call returns no earlier than its time
    stamp; the times at which the calls return are themselves at least
    1.0 second apart when every sleep lasts exactly the time asked for. *)
Theorem wait_schedules_a_second_apart (g : Group) (gaps : list Q) (w : World)
    (rl : RateLimiter) :
  RateLimiter_init 60 = Ok rl ->
  min_interval (limiter g w) = min_interval rl ->
  (forall n, 0 <= unif w n) ->
  (forall n, 0 <= lag w n) ->
  (exists w1,
      wait g w = (Done tt, w1)
      /\ last_ts (limiter g w) + 1 <= last_ts (limiter g w1)
      /\ last_ts (limiter g w1) <= clock w1
      /\ clock w <= clock w1)
  /\ exists sts w',
      Scenario.call_waits g gaps w = (Done sts, w')
      /\ List.length sts = List.length gaps
      /\ (forall p, In p sts -> fst p <= snd p)
      /\ (forall i p1 p2,
             nth_error sts i = Some p1 -> nth_error sts (S i) = Some p2 ->
             fst p1 + 1 <= fst p2)
      /\ ((forall n, lag w n == 0) ->
          forall i p1 p2,
            nth_error sts i = Some p1 -> nth_error sts (S i) = Some p2 ->
            snd p1 + 1 <= snd p2).
Proof.
  intros Hinit Hmi Hu Hl. cbn in Hinit. injection Hinit as <-. cbn in Hmi.
  assert (H1 : min_interval (limiter g w) == 1) by (rewrite Hmi; reflexivity).
  split.
  - destruct (wait_clock g w) as [w1 [Ew [Hts [_ [_ [_ [_ Hck]]]]]]].
    exists w1. split; [assumption|]. rewrite Hts.
    assert (Hj : 0 <= unif w (drawn w)) by apply Hu.
    assert (Hg : 0 <= lag w (slept w)) by apply Hl.
    split; [eapply Qle_trans; [|apply Q.le_max_r]; nra|].
    destruct Hck as [[Hlate [-> _]] | [Hearly [Hc _]]].
    + split; [apply Q.max_lub; [apply Qle_refl | exact Hlate] | apply Qle_refl].
    + assert (Hm : Qmax (clock w) (next_ok g w) == next_ok g w)
        by (apply Q.max_r; lra).
      rewrite Hm, Hc. split; lra.
  - destruct (call_waits_spaced g gaps w Hu Hl)
      as [sts [w' [Ec [Hlen [Hsp [Hle Hex]]]]]].
    exists sts, w'. split; [exact Ec|]. split; [exact Hlen|].
    assert (Hstamps : forall i p1 p2,
               nth_error sts i = Some p1 -> nth_error sts (S i) = Some p2 ->
               fst p1 + 1 <= fst p2).
    { intros i p1 p2 Ha Hb.
      apply (@spaced_nth 1 (last_ts (limiter g w)) (List.map fst sts) i).
      - apply spaced_gap_le with (gap := min_interval (limiter g w));
          [rewrite H1; apply Qle_refl | exact Hsp].
      - rewrite nth_error_map, Ha. reflexivity.
      - rewrite nth_error_map, Hb. reflexivity. }
    split; [|split; [exact Hstamps|]].
    + intros p Hp. rewrite Forall_forall in Hle. now apply Hle.
    + intros Hz i p1 p2 Ha Hb. specialize (Hex Hz).
      rewrite Forall_forall in Hex.
      rewrite (Hex p1 (nth_error_In _ _ Ha)), (Hex p2 (nth_error_In _ _ Hb)).
      eapply Hstamps; eassumption.
Qed.

Lemma wait_schedules_a_second_apart_witness :
  exists sts w',
    Scenario.call_waits JsonGroup [0; 0; 3 # 10] (Scenario.world [] 60 60)
    = (Done sts, w')
    /\ List.length sts = 3%nat
    /\ forall i p1 p2,
        nth_error sts i = Some p1 -> nth_error sts (S i) = Some p2 ->
        snd p1 + 1 <= snd p2.
Proof.
  destruct (proj2 (@wait_schedules_a_second_apart JsonGroup [0; 0; 3 # 10]
                     (Scenario.world [] 60 60)
                     {| min_interval := 60 / inject_Z 60; last_ts := 0 |}
                     eq_refl eq_refl
                     (fun n => ltac:(vm_compute; discriminate))
                     (fun n => ltac:(vm_compute; discriminate))))
    as [sts [w' [E [Hlen [_ [_ Hret]]]]]].
  exists sts, w'. split; [exact E|]. split; [exact Hlen|].
  apply Hret. intros n. reflexivity.
Defined.

(** C8, as stated, fails: two returns of [wait] on a limiter of 60 calls
    a minute that are less than a second apart.  The first call sleeps one
    second and is let go half a second late, at 101.5; it has recorded
    101.  The second call, made at once, sleeps until 102. *)
Lemma late_sleep_brings_returns_closer :
  match fst (Scenario.call_waits JsonGroup [0; 0] Scenario.slow_sleeper) with
  | Done [(s1, t1); (s2, t2)] =>
      s1 == 101 /\ t1 == 1015 # 10 /\ s2 == 102 /\ t2 == 102
      /\ t2 < t1 + 1
  | _ => False
  end.
Proof. vm_compute. repeat split; discriminate. Qed.

(** ** The quota signal *)

Section Quota.
Import Scenario.
Local Open Scope monad_scope.

Lemma quota_free_app (a b : list Event) :
  quota_free a -> quota_free b -> quota_free (a ++ b).
Proof.
  unfold quota_free. intros Ha Hb. now rewrite existsb_app, Ha, Hb.
Qed.

Lemma quota_free_nil : quota_free [].
Proof. reflexivity. Qed.

Lemma quiet_halts {A} (m : M A) : quiet m -> halts_on_quota m.
Proof.
  intros H w. destruct (H w) as [evs [Ht [Hq Hne]]]. exists evs.
  split; [assumption|]. destruct (fst (m w)); auto. now elim (Hne code).
Qed.

Lemma quiet_bind {A B} (m : M A) (k : A -> M B) :
  quiet m -> (forall a, quiet (k a)) -> quiet (bind m k).
Proof.
  intros Hm Hk w. destruct (Hm w) as [evs [Ht [Hq Hne]]].
  unfold bind. destruct (m w) as [[a|c|e] w1]; simpl in *.
  - destruct (Hk a w1) as [evs2 [Ht2 [Hq2 Hne2]]].
    exists (evs ++ evs2). rewrite Ht2, Ht, app_assoc.
    auto using quota_free_app.
  - now elim (Hne c).
  - exists evs. repeat split; auto. discriminate.
Qed.

Lemma halts_bind {A B} (m : M A) (k : A -> M B) :
  halts_on_quota m -> (forall a, halts_on_quota (k a)) ->
  halts_on_quota (bind m k).
Proof.
  intros Hm Hk w. destruct (Hm w) as [evs [Ht Hv]].
  unfold bind. destruct (m w) as [[a|c|e] w1]; simpl in *.
  - destruct (Hk a w1) as [evs2 [Ht2 Hv2]].
    exists (evs ++ evs2). rewrite Ht2, Ht, app_assoc. split; [reflexivity|].
    destruct (fst (k a w1)).
    + now apply quota_free_app.
    + destruct Hv2 as [Hc [pre [q [-> [Hq Hpre]]]]]. split; [assumption|].
      exists (evs ++ pre), q. rewrite app_assoc.
      auto using quota_free_app.
    + now apply quota_free_app.
  - exists evs. auto.
  - exists evs. auto.
Qed.

Lemma quiet_ret {A} (a : A) : quiet (ret a).
Proof.
  intros w. exists []. simpl. rewrite app_nil_r.
  repeat split. discriminate.
Qed.

Lemma quiet_lift {A} (r : res A) : quiet (lift r).
Proof.
  intros w. exists []. simpl. rewrite app_nil_r.
  repeat split. destruct r; discriminate.
Qed.

(** A computation that leaves the trace alone and does not exit. *)
Lemma quiet_silent {A} (m : M A) :
  (forall w, trace (snd (m w)) = trace w /\ forall c, fst (m w) <> Exit c) ->
  quiet m.
Proof.
  intros H w. destruct (H w) as [Ht Hne]. exists [].
  rewrite app_nil_r. repeat split; auto.
Qed.

Lemma quiet_time_time : quiet time_time.
Proof. apply quiet_silent. intros w. split; [reflexivity | discriminate]. Qed.

Lemma quiet_random_uniform a b : quiet (random_uniform a b).
Proof. apply quiet_silent. intros w. split; [reflexivity | discriminate]. Qed.

Lemma quiet_set_limiter g l : quiet (set_limiter g l).
Proof. apply quiet_silent. intros w. split; [reflexivity | discriminate]. Qed.

Lemma quiet_set_token_file t : quiet (set_token_file t).
Proof. apply quiet_silent. intros w. split; [reflexivity | discriminate]. Qed.

Lemma quiet_path_exists name : quiet (path_exists name).
Proof. apply quiet_silent. intros w. split; [reflexivity | discriminate]. Qed.

Lemma quiet_time_sleep site d : quiet (time_sleep site d).
Proof.
  intros w. unfold time_sleep. destruct (Qltb d 0).
  - exists []. simpl. rewrite app_nil_r. repeat split. discriminate.
  - exists [Sleep site d]. repeat split. discriminate.
Qed.

Lemma quiet_write_file name data : quiet (write_file name data).
Proof.
  intros w. exists [Saved name]. repeat split. discriminate.
Qed.

Lemma quiet_http_login tok : quiet (http Login tok).
Proof.
  intros w. exists [Request Login tok (replies w (served w))].
  repeat split. discriminate.
Qed.

Lemma quiet_wait g : quiet (wait g).
Proof.
  unfold wait.
  apply quiet_bind; [apply quiet_time_time | intros now].
  apply quiet_bind; [apply quiet_random_uniform | intros jitter].
  apply quiet_bind.
  { apply quiet_silent. intros w. split; [reflexivity | discriminate]. }
  intros self. apply quiet_bind; [|intros; apply quiet_set_limiter].
  destruct (Qltb 0 _); [apply quiet_time_sleep | apply quiet_ret].
Qed.

Lemma quiet_save_token token : quiet (save_token token).
Proof.
  destruct token; simpl;
    try (apply quiet_bind; [apply quiet_set_token_file | intros; apply quiet_lift]).
  apply quiet_set_token_file.
Qed.

Lemma quiet_login : quiet login.
Proof.
  unfold login. apply quiet_bind; [apply quiet_http_login | intros resp].
  destruct resp as [status body| |]; try apply quiet_ret.
  destruct (is_http_error status); [apply quiet_ret|].
  destruct (body_json body) as [j|]; [|apply quiet_ret].
  apply quiet_bind; [apply quiet_lift | intros token].
  destruct (negb (truthy token)); [apply quiet_ret|].
  apply quiet_bind; [apply quiet_save_token | intros; apply quiet_ret].
Qed.

Lemma quiet_clear_token : quiet clear_token.
Proof. apply quiet_set_token_file. Qed.

Lemma quiet_get_token : quiet get_token.
Proof.
  unfold get_token. apply quiet_bind.
  - apply quiet_silent. intros w. split; [reflexivity | discriminate].
  - intros token. destruct (truthy token); [apply quiet_ret | apply quiet_login].
Qed.

(** A call to a document endpoint: if the continuation exits with 2 on a
    429 and otherwise halts on quota, so does the whole. *)
Lemma halts_http {A} (t : Target) (tok : json) (k : Response -> M A) :
  t <> Login ->
  (forall b w, k (Http 429 b) w = (Exit 2, w)) ->
  (forall r, is_quota (Request t tok r) = false -> halts_on_quota (k r)) ->
  halts_on_quota (bind (http t tok) k).
Proof.
  intros Ht H429 Hk w. unfold bind, http. cbn [fst snd].
  set (r := replies w (served w)).
  set (w1 := log (Request t tok r) _).
  assert (Htr : trace w1 = trace w ++ [Request t tok r]) by reflexivity.
  destruct (is_quota (Request t tok r)) eqn:Eq.
  - assert (exists b, r = Http 429 b) as [b Hr].
    { destruct t; try (now elim Ht); destruct r as [s b| |]; try discriminate;
        simpl in Eq; apply Z.eqb_eq in Eq; subst s; now exists b. }
    rewrite Hr in *. rewrite H429. exists [Request t tok (Http 429 b)].
    split; [exact Htr|]. simpl. split; [reflexivity|].
    exists [], (Request t tok (Http 429 b)). repeat split. exact Eq.
  - destruct (Hk r Eq w1) as [evs [Ht2 Hv]].
    exists (Request t tok r :: evs). rewrite Ht2, Htr, <- app_assoc.
    split; [reflexivity|].
    assert (Hone : quota_free [Request t tok r])
      by (unfold quota_free; cbn [existsb]; now rewrite Eq).
    destruct (fst (k r w1)).
    + now apply (quota_free_app Hone).
    + destruct Hv as [Hc [pre [q [-> [Hq Hpre]]]]]. split; [assumption|].
      exists (Request t tok r :: pre), q. repeat split; auto.
      now apply (quota_free_app Hone).
    + now apply (quota_free_app Hone).
Qed.

End Quota.

Section QuotaMain.
Context {T : PyText}.
Import Scenario.
Local Open Scope monad_scope.

Lemma halts_retry_or {A} backoffs lo hi attempt max_attempts
    (again : M A) (failure : A) :
  halts_on_quota again ->
  halts_on_quota
    (MainPdf2.retry_or backoffs lo hi attempt max_attempts again failure).
Proof.
  intros H. unfold MainPdf2.retry_or.
  destruct (attempt <? max_attempts)%Z; [|apply quiet_halts, quiet_ret].
  apply halts_bind; [apply quiet_halts, quiet_random_uniform | intros j].
  apply halts_bind; [apply quiet_halts, quiet_time_sleep | intros _; exact H].
Qed.

Lemma halts_fetch_attempts todo :
  forall attempt max_attempts token siren,
    halts_on_quota
      (MainPdf2.fetch_attempts todo attempt max_attempts token siren).
Proof.
  induction todo as [|todo IH]; intros attempt max_attempts token siren.
  - apply quiet_halts, quiet_ret.
  - cbn [MainPdf2.fetch_attempts].
    apply halts_bind; [apply quiet_halts, quiet_wait | intros _].
    apply halts_http; [discriminate | reflexivity |].
    intros [status body| |] Hq; try (apply halts_retry_or, IH).
    cbn [is_quota] in Hq. rewrite Hq.
    destruct (status =? 401)%Z.
    { apply halts_bind; [apply quiet_halts, quiet_clear_token | intros _].
      apply halts_bind; [apply quiet_halts, quiet_login | intros new_token].
      destruct (negb (truthy new_token)); [apply quiet_halts, quiet_ret | apply IH]. }
    destruct (status =? 403)%Z; [apply quiet_halts, quiet_ret|].
    destruct (500 <=? status)%Z; [apply halts_retry_or, IH|].
    destruct (is_http_error status); [apply halts_retry_or, IH|].
    destruct (body_json body);
      [apply quiet_halts, quiet_ret | apply halts_retry_or, IH].
Qed.

Lemma halts_fetch_attachments token siren max_attempts :
  halts_on_quota (MainPdf2.fetch_attachments token siren max_attempts).
Proof. apply halts_fetch_attempts. Qed.

Lemma halts_download_attempts todo :
  forall attempt max_attempts token siren acte_id,
    halts_on_quota
      (MainPdf2.download_attempts todo attempt max_attempts token siren acte_id).
Proof.
  induction todo as [|todo IH]; intros attempt max_attempts token siren acte_id.
  - apply quiet_halts, quiet_ret.
  - cbn [MainPdf2.download_attempts].
    apply halts_bind; [apply quiet_halts, quiet_wait | intros _].
    apply halts_http; [discriminate | reflexivity |].
    intros [status body| |] Hq; try (apply halts_retry_or, IH).
    cbn [is_quota] in Hq. rewrite Hq.
    destruct (status =? 401)%Z.
    { apply halts_bind; [apply quiet_halts, quiet_clear_token | intros _].
      apply halts_bind; [apply quiet_halts, quiet_login | intros new_token].
      destruct (negb (truthy new_token)); [apply quiet_halts, quiet_ret | apply IH]. }
    destruct (status =? 403)%Z; [apply quiet_halts, quiet_ret|].
    destruct (500 <=? status)%Z; [apply halts_retry_or, IH|].
    destruct (is_http_error status); [apply halts_retry_or, IH|].
    apply quiet_halts.
    apply quiet_bind; [apply quiet_write_file | intros _].
    apply quiet_bind; [apply quiet_time_sleep | intros _; apply quiet_ret].
Qed.

Lemma halts_download_acte token siren acte max_attempts :
  halts_on_quota (MainPdf2.download_acte token siren acte max_attempts).
Proof.
  unfold MainPdf2.download_acte.
  apply halts_bind; [apply quiet_halts, quiet_lift | intros acte_id].
  apply halts_bind; [apply quiet_halts, quiet_lift | intros _].
  apply halts_download_attempts.
Qed.

Lemma quiet_pause_between_sirens : quiet MainPdf2.pause_between_sirens.
Proof.
  unfold MainPdf2.pause_between_sirens.
  apply quiet_bind; [apply quiet_random_uniform | intros; apply quiet_time_sleep].
Qed.

Lemma halts_download_each actes :
  forall token s total,
    halts_on_quota (MainPdf2.download_each token s actes total).
Proof.
  induction actes as [|acte actes IH]; intros token s total.
  - apply quiet_halts, quiet_ret.
  - cbn [MainPdf2.download_each].
    apply halts_bind; [apply quiet_halts, quiet_lift | intros acte_id].
    apply halts_bind; [apply halts_download_acte | intros t].
    apply halts_bind; [apply quiet_halts, quiet_path_exists | intros present].
    apply IH.
Qed.

Lemma halts_each_siren sirens :
  forall token found downloaded,
    halts_on_quota (MainPdf2.each_siren sirens token found downloaded).
Proof.
  induction sirens as [|s sirens IH]; intros token found downloaded.
  - apply quiet_halts, quiet_ret.
  - cbn [MainPdf2.each_siren].
    apply halts_bind; [apply halts_fetch_attachments | intros [attachments tok]].
    destruct (negb (truthy attachments)).
    + apply halts_bind; [apply quiet_halts, quiet_pause_between_sirens|].
      intros _. apply IH.
    + apply halts_bind; [apply quiet_halts, quiet_lift | intros actes].
      apply halts_bind; [apply halts_download_each | intros [tok' n]].
      apply halts_bind; [apply quiet_halts, quiet_pause_between_sirens|].
      intros _. apply IH.
Qed.

Lemma halts_validate_or_refresh_token token test_siren :
  halts_on_quota (MainPdf2.validate_or_refresh_token token test_siren).
Proof.
  unfold MainPdf2.validate_or_refresh_token.
  apply halts_bind; [apply quiet_halts, quiet_wait | intros _].
  apply halts_http; [discriminate | reflexivity |].
  assert (Hrelog : halts_on_quota (clear_token ;; login)).
  { apply halts_bind; [apply quiet_halts, quiet_clear_token | intros _].
    apply quiet_halts, quiet_login. }
  intros [status body| |] Hq; try exact Hrelog.
  cbn [is_quota] in Hq. rewrite Hq.
  destruct (status =? 401)%Z; [exact Hrelog|].
  destruct (is_http_error status); [exact Hrelog | apply quiet_halts, quiet_ret].
Qed.

Lemma halts_main sirens : halts_on_quota (MainPdf2.main sirens).
Proof.
  unfold MainPdf2.main. destruct sirens as [|first rest].
  - apply quiet_halts, quiet_ret.
  - apply halts_bind; [apply quiet_halts, quiet_get_token | intros token].
    destruct (negb (truthy token)); [apply quiet_halts, quiet_ret|].
    apply halts_bind; [apply halts_validate_or_refresh_token | intros token'].
    destruct (negb (truthy token')); [apply quiet_halts, quiet_ret|].
    apply halts_bind; [apply halts_each_siren | intros totals].
    apply quiet_halts, quiet_ret.
Qed.

End QuotaMain.

Lemma events_since_app (w w' : World) evs :
  trace w' = trace w ++ evs -> Scenario.events_since w w' = evs.
Proof.
  intros H. unfold Scenario.events_since. rewrite H.
  rewrite skipn_app, Nat.sub_diag, skipn_all. reflexivity.
Qed.

Lemma after_quota_last pre q :
  Scenario.quota_free pre -> Scenario.is_quota q = true ->
  Scenario.after_quota (pre ++ [q]) = [].
Proof.
  unfold Scenario.quota_free. induction pre as [|e pre IH]; simpl; intros Hp Hq.
  - now rewrite Hq.
  - apply orb_false_iff in Hp. destruct Hp as [He Hp]. rewrite He. auto.
Qed.

(** What [halts_on_quota] says of one run. *)
Lemma halted_run {A} (m : M A) (w : World) :
  Scenario.halts_on_quota m ->
  existsb Scenario.is_quota (Scenario.events_since w (snd (m w))) = true ->
  fst (m w) = Exit 2
  /\ Scenario.after_quota (Scenario.events_since w (snd (m w))) = []
  /\ exit_status (fst (m w)) <> 0%Z.
Proof.
  intros H Hq. destruct (H w) as [evs [Ht Hv]].
  rewrite (@events_since_app _ _ _ Ht) in *.
  destruct (fst (m w)) as [a|c|e].
  - unfold Scenario.quota_free in Hv. congruence.
  - destruct Hv as [-> [pre [q [-> [Hqq Hpre]]]]].
    repeat split; [now apply after_quota_last | discriminate].
  - unfold Scenario.quota_free in Hv. congruence.
Qed.

(** C1.  In main_pdf_2, a run of [fetch_attachments], of [download_acte] or
    of [main] in which a metadata fetch or a download receives a 429 ends
    with [SystemExit(2)]; the 429 reply is the last event of the run, so no
    network call (nor anything else) follows it, for the current identifier
    or for the remaining ones; the exit status is not zero. *)
Theorem quota_exceeded_halts_the_run (T : PyText) (w : World) :
  (forall token siren,
      let run := MainPdf2.fetch_attachments token siren 4 w in
      existsb Scenario.is_quota (Scenario.events_since w (snd run)) = true ->
      fst run = Exit 2
      /\ Scenario.after_quota (Scenario.events_since w (snd run)) = []
      /\ exit_status (fst run) <> 0%Z)
  /\ (forall token siren acte,
         let run := MainPdf2.download_acte token siren acte 4 w in
         existsb Scenario.is_quota (Scenario.events_since w (snd run)) = true ->
         fst run = Exit 2
         /\ Scenario.after_quota (Scenario.events_since w (snd run)) = []
         /\ exit_status (fst run) <> 0%Z)
  /\ (forall sirens,
         let run := MainPdf2.main sirens w in
         existsb Scenario.is_quota (Scenario.events_since w (snd run)) = true ->
         fst run = Exit 2
         /\ Scenario.after_quota (Scenario.events_since w (snd run)) = []
         /\ exit_status (fst run) <> 0%Z).
Proof.
  split; [|split].
  - intros token siren. apply halted_run, halts_fetch_attachments.
  - intros token siren acte. apply halted_run, halts_download_acte.
  - intros sirens. apply halted_run, halts_main.
Qed.

Lemma quota_exceeded_halts_the_run_witness :
  let run := MainPdf2.main (T := Latin1.text) Scenario.two_sirens
               Scenario.quota_on_second_download in
  fst run = Exit 2
  /\ Scenario.after_quota
       (Scenario.events_since Scenario.quota_on_second_download (snd run)) = []
  /\ exit_status (fst run) <> 0%Z.
Proof.
  exact (proj2 (proj2 (quota_exceeded_halts_the_run Latin1.text
                         Scenario.quota_on_second_download))
               Scenario.two_sirens eq_refl).
Defined.

(** ** Retries with backoff *)

Section Backoff.
Import Scenario.
Local Open Scope monad_scope.

(** A limiter wait followed by a call: the call receives the next scripted
    reply. *)
Lemma call_step {A} (g : Group) (t : Target) (tok : json)
    (k : Response -> M A) (w : World) :
  exists w1 pacing,
    bind (wait g) (fun _ => bind (http t tok) k) w
    = k (replies w (served w)) w1
    /\ replies w1 = replies w /\ unif w1 = unif w
    /\ served w1 = S (served w) /\ drawn w1 = S (drawn w)
    /\ trace w1 = trace w ++ pacing ++ [Request t tok (replies w (served w))]
    /\ (pacing = [] \/ exists d, pacing = [Sleep Pacing d]).
Proof.
  destruct (wait_runs g w)
    as [w0 [Ew [_ [_ [_ [_ [Hr [Hs [Hu [Hd [_ [_ Ht]]]]]]]]]]]].
  rewrite (@bind_ok _ _ _ _ w _ _ Ew).
  unfold bind, http. rewrite Hr, Hs.
  eexists. exists (skipn (List.length (trace w)) (trace w0)).
  split; [reflexivity|]. cbn.
  repeat split; try assumption; try congruence.
  - destruct Ht as [-> | [d ->]].
    + now rewrite skipn_all, app_nil_l.
    + rewrite skipn_app, Nat.sub_diag, skipn_all. cbn. now rewrite <- app_assoc.
  - destruct Ht as [-> | [d ->]].
    + left. now rewrite skipn_all.
    + right. exists d. now rewrite skipn_app, Nat.sub_diag, skipn_all.
Qed.

Lemma retry_or_sleeps {A} backoffs lo hi attempt max_attempts
    (again : M A) (failure : A) (w : World) :
  (attempt < max_attempts)%Z ->
  0 <= MainPdf2.backoff_at backoffs attempt ->
  0 <= lo -> lo <= hi ->
  0 <= unif w (drawn w) <= 1 ->
  exists w1 j,
    MainPdf2.retry_or backoffs lo hi attempt max_attempts again failure w
    = again w1
    /\ replies w1 = replies w /\ unif w1 = unif w
    /\ served w1 = served w /\ drawn w1 = S (drawn w)
    /\ trace w1
       = trace w ++ [Sleep Backoff (MainPdf2.backoff_at backoffs attempt + j)]
    /\ lo <= j <= hi.
Proof.
  intros Hlt Hb Hlo Hhi Hu. unfold MainPdf2.retry_or.
  apply Z.ltb_lt in Hlt. rewrite Hlt.
  unfold bind, random_uniform, time_sleep.
  set (j := lo + (hi - lo) * unif w (drawn w)).
  assert (Hj : lo <= j <= hi) by (unfold j; nra).
  assert (Hn : Qltb (MainPdf2.backoff_at backoffs attempt + j) 0 = false).
  { apply Qltb_ge. lra. }
  rewrite Hn. eexists. exists j. split; [reflexivity|]. cbn.
  repeat split; try reflexivity; apply Hj.
Qed.

Lemma backoff_at_nonneg backoffs attempt :
  Forall (fun b => (0 <= b)%Z) backoffs ->
  0 <= MainPdf2.backoff_at backoffs attempt.
Proof.
  intros H. unfold MainPdf2.backoff_at.
  set (i := Z.to_nat _). clearbody i. revert i.
  induction H as [|b bs Hb Hbs IH]; intros [|i]; simpl;
    try (unfold Qle; simpl; lia). apply IH.
Qed.

(** The views of the events of one attempt. *)
Ltac views Hp :=
  destruct Hp as [-> | [? ->]]; repeat split; reflexivity.

Section Retries.
Variables (max_attempts : Z) (token : json) (siren : ustring).

Lemma fetch_retries_once todo attempt w :
  transient (replies w (served w)) = true ->
  (attempt < max_attempts)%Z ->
  (forall n, 0 <= unif w n <= 1) ->
  exists w2 evs j,
    MainPdf2.fetch_attempts (S todo) attempt max_attempts token siren w
    = MainPdf2.fetch_attempts todo (attempt + 1) max_attempts token siren w2
    /\ replies w2 = replies w /\ unif w2 = unif w
    /\ served w2 = S (served w)
    /\ trace w2 = trace w ++ evs
    /\ requests_in evs = [(Attachments siren, token, replies w (served w))]
    /\ backoffs_in evs = [MainPdf2.backoff_at [3; 8; 20]%Z attempt + j]
    /\ 1 # 2 <= j <= 3 # 2
    /\ saved_in evs = [].
Proof.
  intros Hr Hlt Hu. cbn [MainPdf2.fetch_attempts].
  match goal with
  | |- context [bind (wait ?g) (fun _ => bind (http ?t ?tok) ?k) w] =>
      destruct (call_step g t tok k w)
        as [w1 [pacing [E [Hr1 [Hu1 [Hs1 [Hd1 [Ht1 Hp]]]]]]]]
  end.
  assert (Hret :
    exists w2 j,
      MainPdf2.retry_or [3; 8; 20]%Z (5 # 10) (15 # 10) attempt max_attempts
        (MainPdf2.fetch_attempts todo (attempt + 1) max_attempts token siren)
        (JNull, token) w1
      = MainPdf2.fetch_attempts todo (attempt + 1) max_attempts token siren w2
      /\ replies w2 = replies w1 /\ unif w2 = unif w1
      /\ served w2 = served w1 /\ drawn w2 = S (drawn w1)
      /\ trace w2 = trace w1
           ++ [Sleep Backoff (MainPdf2.backoff_at [3; 8; 20]%Z attempt + j)]
      /\ 5 # 10 <= j <= 15 # 10).
  { apply retry_or_sleeps; try assumption; try lra.
    - apply backoff_at_nonneg. repeat constructor; lia.
    - rewrite Hu1. apply Hu. }
  destruct Hret as [w2 [j [E2 [Hr2 [Hu2 [Hs2 [_ [Ht2 Hj]]]]]]]].
  exists w2, (pacing ++ [Request (Attachments siren) token (replies w (served w));
                   Sleep Backoff (MainPdf2.backoff_at [3; 8; 20]%Z attempt + j)]), j.
  rewrite E. split.
  { destruct (replies w (served w)) as [status body| |]; try discriminate.
    - cbn in Hr. apply Z.leb_le in Hr.
      replace (status =? 401)%Z with false by (symmetry; apply Z.eqb_neq; lia).
      replace (status =? 429)%Z with false by (symmetry; apply Z.eqb_neq; lia).
      replace (status =? 403)%Z with false by (symmetry; apply Z.eqb_neq; lia).
      replace (500 <=? status)%Z with true by (symmetry; apply Z.leb_le; lia).
      exact E2.
    - exact E2. }
  split; [congruence|]. split; [congruence|]. split; [congruence|].
  split; [rewrite Ht2, Ht1, <- !app_assoc; reflexivity|].
  assert (Hj' : 1 # 2 <= j <= 3 # 2) by lra.
  destruct Hp as [-> | [d ->]]; repeat split; try reflexivity; apply Hj'.
Qed.

Lemma fetch_retries k :
  forall todo attempt w,
    (forall i, (i < k)%nat -> transient (replies w (served w + i)) = true) ->
    (attempt + Z.of_nat k <= max_attempts)%Z ->
    (forall n, 0 <= unif w n <= 1) ->
    exists w2 evs,
      MainPdf2.fetch_attempts (k + todo) attempt max_attempts token siren w
      = MainPdf2.fetch_attempts todo (attempt + Z.of_nat k) max_attempts
          token siren w2
      /\ replies w2 = replies w /\ unif w2 = unif w
      /\ served w2 = (served w + k)%nat
      /\ trace w2 = trace w ++ evs
      /\ List.length (requests_in evs) = k
      /\ Forall2 (jittered (1 # 2) (3 # 2))
           (List.map (fun i => MainPdf2.backoff_at [3; 8; 20]%Z
                                 (attempt + Z.of_nat i)) (seq 0 k))
           (backoffs_in evs)
      /\ saved_in evs = [].
Proof.
  induction k as [|k IH]; intros todo attempt w Hr Hle Hu.
  - exists w, []. rewrite Z.add_0_r, Nat.add_0_r, app_nil_r.
    repeat split. constructor.
  - destruct (@fetch_retries_once (k + todo) attempt w)
      as [w1 [evs1 [j [E1 [Hr1 [Hu1 [Hs1 [Ht1 [Hq1 [Hb1 [Hj Hsv1]]]]]]]]]]].
    { rewrite <- (Nat.add_0_r (served w)). apply Hr. lia. }
    { lia. }
    { exact Hu. }
    destruct (IH todo (attempt + 1)%Z w1)
      as [w2 [evs2 [E2 [Hr2 [Hu2 [Hs2 [Ht2 [Hq2 [Hb2 Hsv2]]]]]]]]].
    { intros i Hi. rewrite Hr1, Hs1.
      replace (S (served w) + i)%nat with (served w + S i)%nat by lia.
      apply Hr. lia. }
    { lia. }
    { intros n. rewrite Hu1. apply Hu. }
    exists w2, (evs1 ++ evs2).
    replace (attempt + Z.of_nat (S k))%Z with (attempt + 1 + Z.of_nat k)%Z by lia.
    cbn [Nat.add]. rewrite E1, E2.
    split; [reflexivity|]. split; [congruence|]. split; [congruence|].
    split; [lia|]. split; [rewrite Ht2, Ht1, app_assoc; reflexivity|].
    unfold requests_in, backoffs_in, saved_in in *.
    rewrite !flat_map_app, Hq1, Hb1, Hsv1, Hsv2, length_app, Hq2.
    repeat split.
    cbn [seq List.map app]. constructor.
    + exists j. split; [exact Hj|]. now rewrite Z.add_0_r.
    + rewrite <- seq_shift, map_map.
      erewrite map_ext; [exact Hb2|]. intros i. cbn beta. f_equal. lia.
Qed.

Lemma fetch_succeeds todo attempt w status body j :
  replies w (served w) = Http status body ->
  (status < 400)%Z ->
  body_json body = Some j ->
  exists w2 evs,
    MainPdf2.fetch_attempts (S todo) attempt max_attempts token siren w
    = (Done (j, token), w2)
    /\ trace w2 = trace w ++ evs
    /\ List.length (requests_in evs) = 1%nat
    /\ backoffs_in evs = [] /\ saved_in evs = [].
Proof.
  intros Hr Hs Hb. cbn [MainPdf2.fetch_attempts].
  match goal with
  | |- context [bind (wait ?g) (fun _ => bind (http ?t ?tok) ?k) w] =>
      destruct (call_step g t tok k w)
        as [w1 [pacing [E [Hr1 [Hu1 [Hs1 [Hd1 [Ht1 Hp]]]]]]]]
  end.
  exists w1, (pacing ++ [Request (Attachments siren) token (replies w (served w))]).
  rewrite E, Hr.
  replace (status =? 401)%Z with false by (symmetry; apply Z.eqb_neq; lia).
  replace (status =? 429)%Z with false by (symmetry; apply Z.eqb_neq; lia).
  replace (status =? 403)%Z with false by (symmetry; apply Z.eqb_neq; lia).
  replace (500 <=? status)%Z with false by (symmetry; apply Z.leb_gt; lia).
  replace (is_http_error status) with false
    by (symmetry; unfold is_http_error; apply andb_false_iff; left;
        apply Z.leb_gt; lia).
  rewrite Hb. split; [reflexivity|]. split; [now rewrite Ht1, Hr|].
  views Hp.
Qed.

Lemma fetch_gives_up todo attempt w :
  transient (replies w (served w)) = true ->
  (max_attempts <= attempt)%Z ->
  exists w2 evs,
    MainPdf2.fetch_attempts (S todo) attempt max_attempts token siren w
    = (Done (JNull, token), w2)
    /\ trace w2 = trace w ++ evs
    /\ List.length (requests_in evs) = 1%nat
    /\ backoffs_in evs = [] /\ saved_in evs = [].
Proof.
  intros Hr Hle. cbn [MainPdf2.fetch_attempts].
  match goal with
  | |- context [bind (wait ?g) (fun _ => bind (http ?t ?tok) ?k) w] =>
      destruct (call_step g t tok k w)
        as [w1 [pacing [E [Hr1 [Hu1 [Hs1 [Hd1 [Ht1 Hp]]]]]]]]
  end.
  exists w1, (pacing ++ [Request (Attachments siren) token (replies w (served w))]).
  rewrite E. unfold MainPdf2.retry_or.
  replace (attempt <? max_attempts)%Z with false
    by (symmetry; apply Z.ltb_ge; lia).
  split.
  { destruct (replies w (served w)) as [status body| |]; try discriminate.
    - cbn in Hr. apply Z.leb_le in Hr.
      replace (status =? 401)%Z with false by (symmetry; apply Z.eqb_neq; lia).
      replace (status =? 429)%Z with false by (symmetry; apply Z.eqb_neq; lia).
      replace (status =? 403)%Z with false by (symmetry; apply Z.eqb_neq; lia).
      replace (500 <=? status)%Z with true by (symmetry; apply Z.leb_le; lia).
      reflexivity.
    - reflexivity. }
  split; [exact Ht1|]. views Hp.
Qed.
End Retries.

Section Downloads.
Context {T : PyText}.
Variables (max_attempts : Z) (token : json) (siren : ustring) (acte_id : json).

Lemma download_retries_once todo attempt w :
  transient (replies w (served w)) = true ->
  (attempt < max_attempts)%Z ->
  (forall n, 0 <= unif w n <= 1) ->
  exists w2 evs j,
    MainPdf2.download_attempts (S todo) attempt max_attempts token siren
      acte_id w
    = MainPdf2.download_attempts todo (attempt + 1) max_attempts token siren
        acte_id w2
    /\ replies w2 = replies w /\ unif w2 = unif w
    /\ served w2 = S (served w)
    /\ trace w2 = trace w ++ evs
    /\ requests_in evs = [(Download acte_id, token, replies w (served w))]
    /\ backoffs_in evs = [MainPdf2.backoff_at [8; 20; 45]%Z attempt + j]
    /\ 3 # 10 <= j <= 3 # 2
    /\ saved_in evs = [].
Proof.
  intros Hr Hlt Hu. cbn [MainPdf2.download_attempts].
  match goal with
  | |- context [bind (wait ?g) (fun _ => bind (http ?t ?tok) ?k) w] =>
      destruct (call_step g t tok k w)
        as [w1 [pacing [E [Hr1 [Hu1 [Hs1 [Hd1 [Ht1 Hp]]]]]]]]
  end.
  rewrite E.
  assert (Hb : 0 <= MainPdf2.backoff_at [8; 20; 45]%Z attempt)
    by (apply backoff_at_nonneg; repeat constructor; lia).
  assert (Hu' : 0 <= unif w1 (drawn w1) <= 1) by (rewrite Hu1; apply Hu).
  destruct (replies w (served w)) as [status body| |] eqn:Er; try discriminate.
  - cbn in Hr. apply Z.leb_le in Hr.
    replace (status =? 401)%Z with false by (symmetry; apply Z.eqb_neq; lia).
    replace (status =? 429)%Z with false by (symmetry; apply Z.eqb_neq; lia).
    replace (status =? 403)%Z with false by (symmetry; apply Z.eqb_neq; lia).
    replace (500 <=? status)%Z with true by (symmetry; apply Z.leb_le; lia).
    match goal with
    | |- context [MainPdf2.retry_or ?b ?lo ?hi ?a ?m ?again ?f w1] =>
        destruct (@retry_or_sleeps _ b lo hi a m again f w1)
          as [w2 [j [E2 [Hr2 [Hu2 [Hs2 [_ [Ht2 Hj]]]]]]]];
          try assumption; try lra
    end.
    exists w2, (pacing ++ [Request (Download acte_id) token (Http status body);
                     Sleep Backoff (MainPdf2.backoff_at [8; 20; 45]%Z attempt + j)]), j.
    split; [exact E2|].
    split; [congruence|]. split; [congruence|]. split; [congruence|].
    split; [rewrite Ht2, Ht1, <- !app_assoc; reflexivity|].
    assert (Hj' : 3 # 10 <= j <= 3 # 2) by lra.
    destruct Hp as [-> | [d ->]]; repeat split; try reflexivity; apply Hj'.
  - match goal with
    | |- context [MainPdf2.retry_or ?b ?lo ?hi ?a ?m ?again ?f w1] =>
        destruct (@retry_or_sleeps _ b lo hi a m again f w1)
          as [w2 [j [E2 [Hr2 [Hu2 [Hs2 [_ [Ht2 Hj]]]]]]]];
          try assumption; try lra
    end.
    exists w2, (pacing ++ [Request (Download acte_id) token ConnectionError;
                     Sleep Backoff (MainPdf2.backoff_at [8; 20; 45]%Z attempt + j)]), j.
    split; [exact E2|].
    split; [congruence|]. split; [congruence|]. split; [congruence|].
    split; [rewrite Ht2, Ht1, <- !app_assoc; reflexivity|].
    assert (Hj' : 3 # 10 <= j <= 3 # 2) by lra.
    destruct Hp as [-> | [d ->]]; repeat split; try reflexivity; apply Hj'.
Qed.

Lemma download_retries k :
  forall todo attempt w,
    (forall i, (i < k)%nat -> transient (replies w (served w + i)) = true) ->
    (attempt + Z.of_nat k <= max_attempts)%Z ->
    (forall n, 0 <= unif w n <= 1) ->
    exists w2 evs,
      MainPdf2.download_attempts (k + todo) attempt max_attempts token siren
        acte_id w
      = MainPdf2.download_attempts todo (attempt + Z.of_nat k) max_attempts
          token siren acte_id w2
      /\ replies w2 = replies w /\ unif w2 = unif w
      /\ served w2 = (served w + k)%nat
      /\ trace w2 = trace w ++ evs
      /\ List.length (requests_in evs) = k
      /\ Forall2 (jittered (3 # 10) (3 # 2))
           (List.map (fun i => MainPdf2.backoff_at [8; 20; 45]%Z
                                 (attempt + Z.of_nat i)) (seq 0 k))
           (backoffs_in evs)
      /\ saved_in evs = [].
Proof.
  induction k as [|k IH]; intros todo attempt w Hr Hle Hu.
  - exists w, []. rewrite Z.add_0_r, Nat.add_0_r, app_nil_r.
    repeat split. constructor.
  - destruct (@download_retries_once (k + todo) attempt w)
      as [w1 [evs1 [j [E1 [Hr1 [Hu1 [Hs1 [Ht1 [Hq1 [Hb1 [Hj Hsv1]]]]]]]]]]].
    { rewrite <- (Nat.add_0_r (served w)). apply Hr. lia. }
    { lia. }
    { exact Hu. }
    destruct (IH todo (attempt + 1)%Z w1)
      as [w2 [evs2 [E2 [Hr2 [Hu2 [Hs2 [Ht2 [Hq2 [Hb2 Hsv2]]]]]]]]].
    { intros i Hi. rewrite Hr1, Hs1.
      replace (S (served w) + i)%nat with (served w + S i)%nat by lia.
      apply Hr. lia. }
    { lia. }
    { intros n. rewrite Hu1. apply Hu. }
    exists w2, (evs1 ++ evs2).
    replace (attempt + Z.of_nat (S k))%Z with (attempt + 1 + Z.of_nat k)%Z by lia.
    cbn [Nat.add]. rewrite E1, E2.
    split; [reflexivity|]. split; [congruence|]. split; [congruence|].
    split; [lia|]. split; [rewrite Ht2, Ht1, app_assoc; reflexivity|].
    unfold requests_in, backoffs_in, saved_in in *.
    rewrite !flat_map_app, Hq1, Hb1, Hsv1, Hsv2, length_app, Hq2.
    repeat split.
    cbn [seq List.map app]. constructor.
    + exists j. split; [exact Hj|]. now rewrite Z.add_0_r.
    + rewrite <- seq_shift, map_map.
      erewrite map_ext; [exact Hb2|]. intros i. cbn beta. f_equal. lia.
Qed.

Lemma download_succeeds todo attempt w status body :
  replies w (served w) = Http status body ->
  (status < 400)%Z ->
  exists w2 evs,
    MainPdf2.download_attempts (S todo) attempt max_attempts token siren
      acte_id w
    = (Done token, w2)
    /\ trace w2 = trace w ++ evs
    /\ List.length (requests_in evs) = 1%nat
    /\ backoffs_in evs = []
    /\ saved_in evs = [MainPdf2.pdf_name siren acte_id]
    /\ In (MainPdf2.pdf_name siren acte_id, content body) (disk w2).
Proof.
  intros Hr Hs. cbn [MainPdf2.download_attempts].
  match goal with
  | |- context [bind (wait ?g) (fun _ => bind (http ?t ?tok) ?k) w] =>
      destruct (call_step g t tok k w)
        as [w1 [pacing [E [Hr1 [Hu1 [Hs1 [Hd1 [Ht1 Hp]]]]]]]]
  end.
  rewrite E, Hr.
  replace (status =? 401)%Z with false by (symmetry; apply Z.eqb_neq; lia).
  replace (status =? 429)%Z with false by (symmetry; apply Z.eqb_neq; lia).
  replace (status =? 403)%Z with false by (symmetry; apply Z.eqb_neq; lia).
  replace (500 <=? status)%Z with false by (symmetry; apply Z.leb_gt; lia).
  replace (is_http_error status) with false
    by (symmetry; unfold is_http_error; apply andb_false_iff; left;
        apply Z.leb_gt; lia).
  unfold bind, write_file, time_sleep, ret. cbn.
  eexists.
  exists (pacing ++ [Request (Download acte_id) token (Http status body);
                     Saved (MainPdf2.pdf_name siren acte_id); Sleep Pause 1]).
  split; [reflexivity|]. cbn.
  split; [rewrite Ht1, Hr, <- !app_assoc; reflexivity|].
  destruct Hp as [-> | [d ->]]; repeat split; try reflexivity; now left.
Qed.

Lemma download_gives_up todo attempt w :
  transient (replies w (served w)) = true ->
  (max_attempts <= attempt)%Z ->
  exists w2 evs,
    MainPdf2.download_attempts (S todo) attempt max_attempts token siren
      acte_id w
    = (Done token, w2)
    /\ trace w2 = trace w ++ evs
    /\ List.length (requests_in evs) = 1%nat
    /\ backoffs_in evs = [] /\ saved_in evs = [].
Proof.
  intros Hr Hle. cbn [MainPdf2.download_attempts].
  match goal with
  | |- context [bind (wait ?g) (fun _ => bind (http ?t ?tok) ?k) w] =>
      destruct (call_step g t tok k w)
        as [w1 [pacing [E [Hr1 [Hu1 [Hs1 [Hd1 [Ht1 Hp]]]]]]]]
  end.
  exists w1, (pacing ++ [Request (Download acte_id) token (replies w (served w))]).
  rewrite E. unfold MainPdf2.retry_or.
  replace (attempt <? max_attempts)%Z with false
    by (symmetry; apply Z.ltb_ge; lia).
  split.
  { destruct (replies w (served w)) as [status body| |]; try discriminate.
    - cbn in Hr. apply Z.leb_le in Hr.
      replace (status =? 401)%Z with false by (symmetry; apply Z.eqb_neq; lia).
      replace (status =? 429)%Z with false by (symmetry; apply Z.eqb_neq; lia).
      replace (status =? 403)%Z with false by (symmetry; apply Z.eqb_neq; lia).
      replace (500 <=? status)%Z with true by (symmetry; apply Z.leb_le; lia).
      reflexivity.
    - reflexivity. }
  split; [exact Ht1|]. views Hp.
Qed.

End Downloads.

Lemma schedule_prefix (a b c : Z) (k : nat) :
  (k <= 3)%nat ->
  List.map (fun i => MainPdf2.backoff_at [a; b; c] (1 + Z.of_nat i)) (seq 0 k)
  = firstn k [inject_Z a; inject_Z b; inject_Z c].
Proof.
  intros H. destruct k as [|[|[|[|k]]]]; try reflexivity. lia.
Qed.

Lemma jittered_increasing lo hi bases ds :
  Forall2 (jittered lo hi) bases ds ->
  (forall i b1 b2,
      nth_error bases i = Some b1 -> nth_error bases (S i) = Some b2 ->
      b1 + hi < b2 + lo) ->
  forall i d1 d2,
    nth_error ds i = Some d1 -> nth_error ds (S i) = Some d2 -> d1 < d2.
Proof.
  induction 1 as [|b d bases ds Hbd Hrest IH]; intros Hb i d1 d2 H1 H2.
  - destruct i; discriminate.
  - destruct i as [|i].
    + simpl in H1. injection H1 as <-.
      destruct Hrest as [|b' d' bases' ds' Hbd' _]; [discriminate|].
      simpl in H2. injection H2 as <-.
      destruct Hbd as [j [Hj ->]]. destruct Hbd' as [j' [Hj' ->]].
      assert (Hs := Hb 0%nat b b' eq_refl eq_refl). lra.
    + apply (IH (fun i => Hb (S i)) i); assumption.
Qed.

Lemma schedule_increasing (a b c : Z) (lo hi : Q) (k : nat) :
  inject_Z a + hi < inject_Z b + lo -> inject_Z b + hi < inject_Z c + lo ->
  forall i b1 b2,
    nth_error (firstn k [inject_Z a; inject_Z b; inject_Z c]) i = Some b1 ->
    nth_error (firstn k [inject_Z a; inject_Z b; inject_Z c]) (S i) = Some b2 ->
    b1 + hi < b2 + lo.
Proof.
  intros Hab Hbc i b1 b2 H1 H2.
  destruct k as [|[|[|[|k]]]]; destruct i as [|[|[|[|i]]]]; cbn in H1, H2;
    try discriminate; inversion H1; inversion H2; subst; assumption.
Qed.

End Backoff.

(** What a call does on [k <= 3] transient errors followed by a success,
    and on four transient errors. *)
Lemma retries_after_transient_errors (T : PyText)
    (w : World) (token : json) (siren : ustring) (acte acte_id : json)
    (k : nat) :
  (forall n, 0 <= unif w n <= 1) ->
  get acte "id" = Ok acte_id ->
  (k <= 3)%nat ->
  (forall i, (i < k)%nat -> Scenario.transient (replies w (served w + i)) = true) ->
  (forall status body,
      replies w (served w + k) = Http status body -> (status < 400)%Z ->
      (forall j,
          body_json body = Some j ->
          exists w',
            MainPdf2.fetch_attachments token siren 4 w = (Done (j, token), w')
            /\ List.length (Scenario.requests_in (Scenario.events_since w w')) = S k
            /\ Forall2 (Scenario.jittered (1 # 2) (3 # 2)) (firstn k [3; 8; 20])
                       (Scenario.backoffs_in (Scenario.events_since w w'))
            /\ forall i d1 d2,
                nth_error (Scenario.backoffs_in (Scenario.events_since w w')) i = Some d1 ->
                nth_error (Scenario.backoffs_in (Scenario.events_since w w')) (S i) = Some d2 ->
                d1 < d2)
      /\ exists w',
          MainPdf2.download_acte token siren acte 4 w = (Done token, w')
          /\ List.length (Scenario.requests_in (Scenario.events_since w w')) = S k
          /\ Forall2 (Scenario.jittered (3 # 10) (3 # 2)) (firstn k [8; 20; 45])
                     (Scenario.backoffs_in (Scenario.events_since w w'))
          /\ (forall i d1 d2,
                 nth_error (Scenario.backoffs_in (Scenario.events_since w w')) i = Some d1 ->
                 nth_error (Scenario.backoffs_in (Scenario.events_since w w')) (S i) = Some d2 ->
                 d1 < d2)
          /\ Scenario.saved_in (Scenario.events_since w w') = [MainPdf2.pdf_name siren acte_id])
  /\ (k = 3%nat ->
      Scenario.transient (replies w (served w + 3)) = true ->
      (exists w',
          MainPdf2.fetch_attachments token siren 4 w
          = (Done (JNull, token), w')
          /\ List.length (Scenario.requests_in (Scenario.events_since w w')) = 4%nat
          /\ Forall2 (Scenario.jittered (1 # 2) (3 # 2)) [3; 8; 20]
                     (Scenario.backoffs_in (Scenario.events_since w w')))
      /\ exists w',
          MainPdf2.download_acte token siren acte 4 w = (Done token, w')
          /\ List.length (Scenario.requests_in (Scenario.events_since w w')) = 4%nat
          /\ Forall2 (Scenario.jittered (3 # 10) (3 # 2)) [8; 20; 45]
                     (Scenario.backoffs_in (Scenario.events_since w w'))
          /\ Scenario.saved_in (Scenario.events_since w w') = []).
Proof.
  intros Hu Hid Hk Hr.
  assert (Hdl : forall w0,
             MainPdf2.download_acte token siren acte 4 w0
             = MainPdf2.download_attempts 4 1 4 token siren acte_id w0).
  { intros w0. unfold MainPdf2.download_acte.
    destruct acte; try discriminate. unfold bind, lift. rewrite Hid.
    reflexivity. }
  assert (E4 : 4%nat = (k + S (3 - k))%nat) by lia.
  destruct (@fetch_retries 4 token siren k (S (3 - k)) 1 w Hr)
    as [wf [evf [Ef [Hrf [Huf [Hsf [Htf [Hqf [Hbf Hsvf]]]]]]]]]; [lia | exact Hu |].
  destruct (@download_retries T 4 token siren acte_id k (S (3 - k)) 1 w Hr)
    as [wd [evd [Ed [Hrd [Hud [Hsd [Htd [Hqd [Hbd Hsvd]]]]]]]]]; [lia | exact Hu |].
  rewrite schedule_prefix in Hbf, Hbd by assumption.
  unfold MainPdf2.fetch_attachments. rewrite !Hdl.
  change (Z.to_nat 4) with 4%nat. rewrite E4, Ef, Ed.
  split.
  - intros status body Hrep Hst. split.
    + intros j Hj.
      destruct (@fetch_succeeds 4 token siren (3 - k) (1 + Z.of_nat k) wf
                  status body j)
        as [w' [ev [E [Ht [Hq [Hb Hsv]]]]]]; try assumption.
      { now rewrite Hrf, Hsf. }
      exists w'. split; [exact E|].
      rewrite (@events_since_app w w' (evf ++ ev))
        by (rewrite Ht, Htf, app_assoc; reflexivity).
      unfold Scenario.requests_in, Scenario.backoffs_in in *.
      rewrite !flat_map_app, length_app, Hq, Hqf, Hb, app_nil_r.
      split; [lia|]. split; [exact Hbf|].
      apply (jittered_increasing Hbf). apply schedule_increasing; reflexivity.
    + destruct (@download_succeeds T 4 token siren acte_id (3 - k)
                  (1 + Z.of_nat k) wd status body)
        as [w' [ev [E [Ht [Hq [Hb [Hsv _]]]]]]]; try assumption.
      { now rewrite Hrd, Hsd. }
      exists w'. split; [exact E|].
      rewrite (@events_since_app w w' (evd ++ ev))
        by (rewrite Ht, Htd, app_assoc; reflexivity).
      unfold Scenario.requests_in, Scenario.backoffs_in, Scenario.saved_in in *.
      rewrite !flat_map_app, length_app, Hq, Hqd, Hb, app_nil_r, Hsvd, Hsv.
      split; [lia|]. split; [exact Hbd|]. split; [|reflexivity].
      apply (jittered_increasing Hbd). apply schedule_increasing; reflexivity.
  - intros -> Hlast. split.
    + destruct (@fetch_gives_up 4 token siren 0 4 wf)
        as [w' [ev [E [Ht [Hq [Hb Hsv]]]]]].
      { now rewrite Hrf, Hsf. }
      { lia. }
      exists w'. split; [exact E|].
      rewrite (@events_since_app w w' (evf ++ ev))
        by (rewrite Ht, Htf, app_assoc; reflexivity).
      unfold Scenario.requests_in, Scenario.backoffs_in in *.
      rewrite !flat_map_app, length_app, Hq, Hqf, Hb, app_nil_r.
      split; [reflexivity | exact Hbf].
    + destruct (@download_gives_up T 4 token siren acte_id 0 4 wd)
        as [w' [ev [E [Ht [Hq [Hb Hsv]]]]]].
      { now rewrite Hrd, Hsd. }
      { lia. }
      exists w'. split; [exact E|].
      rewrite (@events_since_app w w' (evd ++ ev))
        by (rewrite Ht, Htd, app_assoc; reflexivity).
      unfold Scenario.requests_in, Scenario.backoffs_in, Scenario.saved_in in *.
      rewrite !flat_map_app, length_app, Hq, Hqd, Hb, app_nil_r, Hsvd, Hsv.
      split; [reflexivity|]. split; [exact Hbd | reflexivity].
Qed.



(** ** The attempt ceiling *)

Section Ceiling.
Import Scenario.
Local Open Scope monad_scope.

Lemma doc_calls_app a b : doc_calls (a ++ b) = (doc_calls a + doc_calls b)%nat.
Proof.
  unfold doc_calls, requests_in.
  now rewrite flat_map_app, filter_app, length_app.
Qed.

Lemma calls_weaken {A} n n' (m : M A) :
  (n <= n')%nat -> calls_at_most n m -> calls_at_most n' m.
Proof.
  intros Hn H w. destruct (H w) as [evs [Ht Hc]]. exists evs. split; [assumption | lia].
Qed.

Lemma calls_bind {A B} a b (m : M A) (k : A -> M B) :
  calls_at_most a m -> (forall x, calls_at_most b (k x)) ->
  calls_at_most (a + b) (bind m k).
Proof.
  intros Hm Hk w. destruct (Hm w) as [evs [Ht Hc]].
  unfold bind. destruct (m w) as [[x|c|e] w1]; simpl in *.
  - destruct (Hk x w1) as [evs2 [Ht2 Hc2]]. exists (evs ++ evs2).
    rewrite Ht2, Ht, app_assoc, doc_calls_app. split; [reflexivity | lia].
  - exists evs. split; [assumption | lia].
  - exists evs. split; [assumption | lia].
Qed.

(** A computation that logs no call to a document endpoint. *)
Lemma calls_none {A} (m : M A) :
  (forall w, exists evs,
      trace (snd (m w)) = trace w ++ evs /\ doc_calls evs = 0%nat) ->
  calls_at_most 0 m.
Proof.
  intros H w. destruct (H w) as [evs [Ht Hc]]. exists evs. split; [assumption | lia].
Qed.

Lemma calls_silent {A} (m : M A) :
  (forall w, trace (snd (m w)) = trace w) -> calls_at_most 0 m.
Proof.
  intros H. apply calls_none. intros w. exists []. now rewrite app_nil_r, H.
Qed.

Lemma calls_bind0 {A B} b (m : M A) (k : A -> M B) :
  calls_at_most 0 m -> (forall x, calls_at_most b (k x)) ->
  calls_at_most b (bind m k).
Proof. intros. now apply (@calls_bind A B 0 b). Qed.

Lemma calls_ret {A} (a : A) n : calls_at_most n (ret a).
Proof. apply calls_weaken with (n := 0%nat); [lia|]. now apply calls_silent. Qed.

Lemma calls_lift {A} (r : res A) : calls_at_most 0 (lift r).
Proof. now apply calls_silent. Qed.

Lemma calls_time_sleep site d : calls_at_most 0 (time_sleep site d).
Proof.
  apply calls_none. intros w. unfold time_sleep. destruct (Qltb d 0).
  - exists []. now rewrite app_nil_r.
  - now exists [Sleep site d].
Qed.

Lemma calls_wait g : calls_at_most 0 (wait g).
Proof.
  apply calls_none. intros w.
  destruct (wait_runs g w) as [w' [E [_ [_ [_ [_ [_ [_ [_ [_ [_ [_ Ht]]]]]]]]]]]].
  rewrite E. destruct Ht as [Ht | [d Ht]]; cbn [snd].
  - exists []. now rewrite app_nil_r.
  - now exists [Sleep Pacing d].
Qed.

Lemma calls_set_token_file t : calls_at_most 0 (set_token_file t).
Proof. now apply calls_silent. Qed.

Lemma calls_save_token token : calls_at_most 0 (save_token token).
Proof.
  destruct token; simpl;
    try (apply calls_bind0; [apply calls_set_token_file | intros; apply calls_lift]).
  apply calls_set_token_file.
Qed.

Lemma calls_login : calls_at_most 0 login.
Proof.
  unfold login. apply calls_bind0.
  { apply calls_none. intros w.
    now exists [Request Login JNull (replies w (served w))]. }
  intros resp. destruct resp as [status body| |]; try apply calls_ret.
  destruct (is_http_error status); [apply calls_ret|].
  destruct (body_json body) as [j|]; [|apply calls_ret].
  apply calls_bind0; [apply calls_lift | intros token].
  destruct (negb (truthy token)); [apply calls_ret|].
  apply calls_bind0; [apply calls_save_token | intros; apply calls_ret].
Qed.

Lemma calls_http t tok : calls_at_most 1 (http t tok).
Proof.
  intros w. exists [Request t tok (replies w (served w))].
  split; [reflexivity|]. unfold doc_calls. cbn.
  destruct t; cbn; lia.
Qed.

Lemma calls_retry_or {A} n backoffs lo hi attempt max_attempts
    (again : M A) (failure : A) :
  calls_at_most n again ->
  calls_at_most n
    (MainPdf2.retry_or backoffs lo hi attempt max_attempts again failure).
Proof.
  intros H. unfold MainPdf2.retry_or.
  destruct (attempt <? max_attempts)%Z; [|apply calls_ret].
  apply calls_bind0; [now apply calls_silent | intros j].
  apply calls_bind0; [apply calls_time_sleep | intros _; exact H].
Qed.

Lemma fetch_attempts_ceiling todo :
  forall attempt max_attempts token siren,
    calls_at_most todo
      (MainPdf2.fetch_attempts todo attempt max_attempts token siren).
Proof.
  induction todo as [|todo IH]; intros attempt max_attempts token siren.
  - apply calls_ret.
  - cbn [MainPdf2.fetch_attempts].
    apply calls_bind0; [apply calls_wait | intros _].
    apply (@calls_bind _ _ 1 todo); [apply calls_http|].
    intros [status body| |]; try (apply calls_retry_or, IH).
    destruct (status =? 401)%Z.
    { apply calls_bind0; [apply calls_set_token_file | intros _].
      apply calls_bind0; [apply calls_login | intros new_token].
      destruct (negb (truthy new_token)); [apply calls_ret | apply IH]. }
    destruct (status =? 429)%Z.
    { intros w. exists []. rewrite app_nil_r. split; [reflexivity | cbn; lia]. }
    destruct (status =? 403)%Z; [apply calls_ret|].
    destruct (500 <=? status)%Z; [apply calls_retry_or, IH|].
    destruct (is_http_error status); [apply calls_retry_or, IH|].
    destruct (body_json body); [apply calls_ret | apply calls_retry_or, IH].
Qed.

Lemma download_attempts_ceiling {T : PyText} todo :
  forall attempt max_attempts token siren acte_id,
    calls_at_most todo
      (MainPdf2.download_attempts todo attempt max_attempts token siren acte_id).
Proof.
  induction todo as [|todo IH]; intros attempt max_attempts token siren acte_id.
  - apply calls_ret.
  - cbn [MainPdf2.download_attempts].
    apply calls_bind0; [apply calls_wait | intros _].
    apply (@calls_bind _ _ 1 todo); [apply calls_http|].
    intros [status body| |]; try (apply calls_retry_or, IH).
    destruct (status =? 401)%Z.
    { apply calls_bind0; [apply calls_set_token_file | intros _].
      apply calls_bind0; [apply calls_login | intros new_token].
      destruct (negb (truthy new_token)); [apply calls_ret | apply IH]. }
    destruct (status =? 429)%Z.
    { intros w. exists []. rewrite app_nil_r. split; [reflexivity | cbn; lia]. }
    destruct (status =? 403)%Z; [apply calls_ret|].
    destruct (500 <=? status)%Z; [apply calls_retry_or, IH|].
    destruct (is_http_error status); [apply calls_retry_or, IH|].
    apply calls_bind0.
    { apply calls_none. intros w. now exists [Saved (MainPdf2.pdf_name siren acte_id)]. }
    intros _. apply calls_bind0; [apply calls_time_sleep | intros _; apply calls_ret].
Qed.

Lemma download_acte_ceiling {T : PyText} token siren acte :
  calls_at_most 4 (MainPdf2.download_acte token siren acte 4).
Proof.
  unfold MainPdf2.download_acte.
  apply calls_bind0; [apply calls_lift | intros acte_id].
  apply calls_bind0; [apply calls_lift | intros _].
  apply (download_attempts_ceiling 4).
Qed.

Lemma ceiling_of_run {A} n (m : M A) w :
  calls_at_most n m ->
  (doc_calls (events_since w (snd (m w))) <= n)%nat.
Proof.
  intros H. destruct (H w) as [evs [Ht Hc]].
  now rewrite (@events_since_app _ _ _ Ht).
Qed.

End Ceiling.

(** C3.  In main_pdf_2, a call that receives [k <= 3] server errors (status
    500 and above) or connection failures and then a success makes [k + 1]
    attempts and sleeps [k] times before retrying, for the backoffs 3, 8, 20
    (metadata) or 8, 20, 45 (download) plus a jitter, each sleep longer than
    the one before; a download then saves exactly one file, so three errors
    and a success give 3 backoff sleeps and 1 save.  After a fourth error
    the call makes no fifth attempt: it returns its failure value ([None]
    and the token, or the token, nothing saved) and the run goes on.  Whatever
    the replies, one call of [fetch_attachments] or [download_acte] calls
    its endpoint at most 4 times. *)
Theorem transient_errors_are_retried_with_backoff (T : PyText)
    (w : World) (token : json) (siren : ustring) (acte acte_id : json)
    (k : nat) :
  ((Scenario.doc_calls
      (Scenario.events_since w
         (snd (MainPdf2.fetch_attachments token siren 4 w))) <= 4)%nat
   /\ (Scenario.doc_calls
         (Scenario.events_since w
            (snd (MainPdf2.download_acte token siren acte 4 w))) <= 4)%nat)
  /\ ((forall n, 0 <= unif w n <= 1) ->
      get acte "id" = Ok acte_id ->
      (k <= 3)%nat ->
      (forall i, (i < k)%nat ->
                 Scenario.transient (replies w (served w + i)) = true) ->
      (forall status body,
          replies w (served w + k) = Http status body -> (status < 400)%Z ->
          (forall j,
              body_json body = Some j ->
              exists w',
                MainPdf2.fetch_attachments token siren 4 w
                = (Done (j, token), w')
                /\ List.length
                     (Scenario.requests_in (Scenario.events_since w w')) = S k
                /\ Forall2 (Scenario.jittered (1 # 2) (3 # 2))
                     (firstn k [3; 8; 20])
                     (Scenario.backoffs_in (Scenario.events_since w w'))
                /\ forall i d1 d2,
                    nth_error
                      (Scenario.backoffs_in (Scenario.events_since w w')) i
                    = Some d1 ->
                    nth_error
                      (Scenario.backoffs_in (Scenario.events_since w w')) (S i)
                    = Some d2 ->
                    d1 < d2)
          /\ exists w',
              MainPdf2.download_acte token siren acte 4 w = (Done token, w')
              /\ List.length
                   (Scenario.requests_in (Scenario.events_since w w')) = S k
              /\ Forall2 (Scenario.jittered (3 # 10) (3 # 2))
                   (firstn k [8; 20; 45])
                   (Scenario.backoffs_in (Scenario.events_since w w'))
              /\ (forall i d1 d2,
                     nth_error
                       (Scenario.backoffs_in (Scenario.events_since w w')) i
                     = Some d1 ->
                     nth_error
                       (Scenario.backoffs_in (Scenario.events_since w w')) (S i)
                     = Some d2 ->
                     d1 < d2)
              /\ Scenario.saved_in (Scenario.events_since w w')
                 = [MainPdf2.pdf_name siren acte_id])
      /\ (k = 3%nat ->
          Scenario.transient (replies w (served w + 3)) = true ->
          (exists w',
              MainPdf2.fetch_attachments token siren 4 w
              = (Done (JNull, token), w')
              /\ List.length
                   (Scenario.requests_in (Scenario.events_since w w')) = 4%nat
              /\ Forall2 (Scenario.jittered (1 # 2) (3 # 2)) [3; 8; 20]
                   (Scenario.backoffs_in (Scenario.events_since w w')))
          /\ exists w',
              MainPdf2.download_acte token siren acte 4 w = (Done token, w')
              /\ List.length
                   (Scenario.requests_in (Scenario.events_since w w')) = 4%nat
              /\ Forall2 (Scenario.jittered (3 # 10) (3 # 2)) [8; 20; 45]
                   (Scenario.backoffs_in (Scenario.events_since w w'))
              /\ Scenario.saved_in (Scenario.events_since w w') = [])).
Proof.
  split.
  - split.
    + apply ceiling_of_run. apply (fetch_attempts_ceiling 4).
    + apply ceiling_of_run, download_acte_ceiling.
  - apply retries_after_transient_errors.
Qed.

Lemma transient_errors_are_retried_with_backoff_witness :
  exists w',
    MainPdf2.download_acte (T := Latin1.text) (JStr (lit "t0"))
      (lit "123456789") Scenario.statuts 4 Scenario.three_errors_then_file
    = (Done (JStr (lit "t0")), w')
    /\ List.length (Scenario.requests_in
         (Scenario.events_since Scenario.three_errors_then_file w')) = 4%nat
    /\ Forall2 (Scenario.jittered (3 # 10) (3 # 2)) [8; 20; 45]
         (Scenario.backoffs_in
            (Scenario.events_since Scenario.three_errors_then_file w'))
    /\ (forall i d1 d2,
           nth_error (Scenario.backoffs_in
             (Scenario.events_since Scenario.three_errors_then_file w')) i
           = Some d1 ->
           nth_error (Scenario.backoffs_in
             (Scenario.events_since Scenario.three_errors_then_file w')) (S i)
           = Some d2 ->
           d1 < d2)
    /\ Scenario.saved_in
         (Scenario.events_since Scenario.three_errors_then_file w')
       = [lit "123456789_A1.pdf"].
Proof.
  refine (proj2 (proj1
    (proj2 (@transient_errors_are_retried_with_backoff Latin1.text
              Scenario.three_errors_then_file (JStr (lit "t0"))
              (lit "123456789") Scenario.statuts (JStr (lit "A1")) 3)
           _ eq_refl (le_n 3) _)
    200%Z (Scenario.raw_body [x25; x50; x44; x46]%byte) eq_refl eq_refl)).
  - intros n. split; vm_compute; discriminate.
  - intros [|[|[|i]]] Hi; try reflexivity. lia.
Defined.

(** ** Re-authentication *)

(** In main_pdf, as long as calls are answered 401 and logins succeed,
    [fetch_attachments] logs in again and calls itself: with [depth] frames
    it logs in [depth] times and ends in [RecursionError]. *)
Lemma main_pdf_relogin_is_unbounded (depth : nat) :
  forall (w : World) (token : json),
    (forall n, replies w (served w + 2 * n) = Scenario.unauthorized
               /\ replies w (served w + 2 * n + 1) = Scenario.logged_in "t1") ->
    exists w' evs,
      MainPdf.fetch_attachments depth token w = (Crash RecursionError, w')
      /\ trace w' = trace w ++ evs
      /\ Scenario.logins_in evs = depth.
Proof.
  induction depth as [|depth IH]; intros w token Hw.
  - exists w, []. rewrite app_nil_r. repeat split.
  - cbn [MainPdf.fetch_attachments].
    destruct (Hw 0%nat) as [H0 H1]. rewrite Nat.mul_0_r, Nat.add_0_r in H0, H1.
    unfold bind at 1. unfold http at 1. rewrite H0.
    cbn [Scenario.unauthorized Z.eqb Pos.eqb].
    unfold bind at 1. unfold clear_token, set_token_file at 1.
    unfold bind at 1. unfold login at 1. unfold bind at 1. unfold http at 1.
    cbn [served log replies]. rewrite Nat.add_1_r in H1. rewrite H1.
    cbn -[MainPdf.fetch_attachments].
    match goal with
    | |- context [MainPdf.fetch_attachments depth ?tok ?w1] =>
        destruct (IH w1 tok) as [w' [evs [E [Ht Hl]]]]
    end.
    { intros n. cbn [served replies]. destruct (Hw (S n)) as [Ha Hb].
      split; [rewrite <- Ha | rewrite <- Hb]; f_equal; lia. }
    exists w',
      ([Request (Attachments MainPdf.siren) token Scenario.unauthorized;
        Request Login JNull (Scenario.logged_in "t1")] ++ evs).
    split; [exact E|]. split.
    + rewrite Ht. cbn [trace]. now rewrite <- !app_assoc.
    + unfold Scenario.logins_in, Scenario.requests_in in *.
      rewrite flat_map_app, filter_app, length_app, Hl. reflexivity.
Qed.

(** C2.  Runs of [fetch_attachments] on 401 replies.  When the retried call
    is answered 401 again, both scripts log in a second time and call a
    third time (here the third call succeeds, with the token of the second
    login).  When every call is answered 401, main_pdf_2 logs in after each
    of its four attempts and then gives up, and main_pdf logs in once per
    frame until the interpreter raises [RecursionError].  When the login
    after a 401 is refused, the call fails at once. *)
Theorem second_401_triggers_another_login :
  let token := JStr (lit "t0") in
  let siren := lit "123456789" in
  let found := Scenario.listing [Scenario.statuts] in
  let twice2 :=
    MainPdf2.fetch_attachments token siren 4 Scenario.unauthorized_twice in
  let twice1 := MainPdf.fetch_attachments 8 token Scenario.unauthorized_twice in
  let always2 :=
    MainPdf2.fetch_attachments token siren 4 Scenario.always_unauthorized in
  let always1 := MainPdf.fetch_attachments 8 token Scenario.always_unauthorized in
  let refused :=
    MainPdf2.fetch_attachments token siren 4
      (Scenario.world [Scenario.unauthorized; Http 403 (Scenario.raw_body [])]
         200 40) in
  (fst twice2 = Done (found, JStr (lit "t2"))
   /\ Scenario.calls_in (trace (snd twice2))
      = [ (Attachments siren, JStr (lit "t0")); (Login, JNull);
          (Attachments siren, JStr (lit "t1")); (Login, JNull);
          (Attachments siren, JStr (lit "t2")) ])
  /\ (fst twice1 = Done found
      /\ Scenario.calls_in (trace (snd twice1))
         = [ (Attachments MainPdf.siren, JStr (lit "t0")); (Login, JNull);
             (Attachments MainPdf.siren, JStr (lit "t1")); (Login, JNull);
             (Attachments MainPdf.siren, JStr (lit "t2")) ])
  /\ (fst always2 = Done (JNull, JStr (lit "t1"))
      /\ Scenario.logins_in (trace (snd always2)) = 4%nat
      /\ List.length (Scenario.requests_in (trace (snd always2))) = 8%nat)
  /\ (fst always1 = Crash RecursionError
      /\ Scenario.logins_in (trace (snd always1)) = 8%nat)
  /\ (fst refused = Done (JNull, JNull)
      /\ Scenario.calls_in (trace (snd refused))
         = [ (Attachments siren, JStr (lit "t0")); (Login, JNull) ]
      /\ token_file (snd refused) = None).
Proof. vm_compute. repeat split. Qed.

(* ===================================================================== *)
(** * Further properties of the code                                      *)
(* ===================================================================== *)

(** ** The list of identifiers *)

Lemma lstrip_no_space (s : ustring) :
  forallb (fun c => negb (is_space c)) s = true -> lstrip s = s.
Proof.
  destruct s as [|c s]; simpl; [reflexivity|].
  rewrite andb_true_iff. intros [Hc _]. apply negb_true_iff in Hc.
  now rewrite Hc.
Qed.

Lemma strip_no_space (s : ustring) :
  forallb (fun c => negb (is_space c)) s = true -> strip s = s.
Proof.
  intros H. unfold strip. rewrite (lstrip_no_space _ H).
  rewrite lstrip_no_space, rev_involutive; [reflexivity|].
  rewrite forallb_forall in *. intros c Hc. apply H. now apply in_rev.
Qed.

Lemma clean_line_no_space (s : ustring) :
  forallb (fun c => negb (is_space c)) s = true -> MainPdf2.clean_line s = s.
Proof.
  intros H. unfold MainPdf2.clean_line. rewrite (strip_no_space _ H).
  rewrite forallb_forall in H. induction s as [|c s IH]; simpl; [reflexivity|].
  assert (Hc : is_space c = false)
    by (apply negb_true_iff, H; now left).
  destruct (c =? 32)%N eqn:E.
  - apply N.eqb_eq in E. subst c. discriminate.
  - simpl. rewrite IH; [reflexivity|]. intros d Hd. apply H. now right.
Qed.

Lemma clean_line_has_no_blank (line : ustring) :
  ~ In 32%N (MainPdf2.clean_line line).
Proof.
  unfold MainPdf2.clean_line. intros H. apply filter_In in H.
  destruct H as [_ H]. discriminate.
Qed.

Lemma ascii_isdigit_no_space (s : ustring) :
  Scenario.ascii_isdigit s = true ->
  forallb (fun c => negb (is_space c)) s = true.
Proof.
  unfold Scenario.ascii_isdigit. destruct s as [|c0 s0]; [discriminate|].
  intros H. apply forallb_forall. intros c Hc.
  rewrite forallb_forall in H. specialize (H c Hc).
  apply andb_true_iff in H. destruct H as [Hlo Hhi].
  apply N.leb_le in Hlo, Hhi.
  assert (Hcases : (c = 48 \/ c = 49 \/ c = 50 \/ c = 51 \/ c = 52 \/ c = 53
                    \/ c = 54 \/ c = 55 \/ c = 56 \/ c = 57)%N) by lia.
  repeat (destruct Hcases as [->|Hcases]; [reflexivity|]).
  now subst c.
Qed.

Section Loader.
Variable isdigit : ustring -> bool.

Lemma load_loop_filter (lines sirens : list ustring) :
  MainPdf2.load_loop isdigit lines sirens
  = sirens ++ filter (fun s => (List.length s =? 9)%nat && isdigit s)
                     (List.map MainPdf2.clean_line lines).
Proof.
  revert sirens. induction lines as [|line lines IH]; intros sirens; simpl.
  - now rewrite app_nil_r.
  - destruct ((List.length (MainPdf2.clean_line line) =? 9)%nat
              && isdigit (MainPdf2.clean_line line)); rewrite IH.
    + now rewrite <- app_assoc.
    + reflexivity.
Qed.

Lemma loaded_is_valid (file : option (list ustring)) (s : ustring) :
  In s (MainPdf2.load_sirens isdigit file) ->
  List.length s = 9%nat /\ isdigit s = true /\ ~ In 32%N s.
Proof.
  destruct file as [lines|]; [|intros []].
  simpl. rewrite load_loop_filter. simpl. rewrite filter_In, in_map_iff.
  intros [[line [<- _]] Hv]. apply andb_true_iff in Hv.
  destruct Hv as [Hl Hd]. apply Nat.eqb_eq in Hl.
  split; [exact Hl|]. split; [exact Hd|]. apply clean_line_has_no_blank.
Qed.

(** X1.  [load_sirens] returns the empty list when the file is missing;
    otherwise it returns, in the order of the file, the lines that are nine
    characters long and all digits once stripped and rid of their blanks.
    Every identifier returned has nine characters, is all digits and holds
    no blank; and when digit strings hold no white space, loading the
    returned list again gives the same list. *)
Theorem load_sirens_keeps_the_valid_lines :
  MainPdf2.load_sirens isdigit None = []
  /\ (forall lines,
         MainPdf2.load_sirens isdigit (Some lines)
         = filter (fun s => (List.length s =? 9)%nat && isdigit s)
                  (List.map MainPdf2.clean_line lines))
  /\ (forall file s,
         In s (MainPdf2.load_sirens isdigit file) ->
         List.length s = 9%nat /\ isdigit s = true /\ ~ In 32%N s)
  /\ ((forall s, isdigit s = true ->
                 forallb (fun c => negb (is_space c)) s = true) ->
      forall file,
        MainPdf2.load_sirens isdigit
          (Some (MainPdf2.load_sirens isdigit file))
        = MainPdf2.load_sirens isdigit file).
Proof.
  split; [reflexivity|]. split; [|split; [exact loaded_is_valid|]].
  - intros lines. simpl. now rewrite load_loop_filter.
  - intros Hd file.
    pose proof (loaded_is_valid file) as Hin.
    set (out := MainPdf2.load_sirens isdigit file) in *.
    simpl. rewrite load_loop_filter. simpl.
    induction out as [|s out IH]; simpl; [reflexivity|].
    destruct (Hin s (or_introl eq_refl)) as [Hl [Hs _]].
    rewrite (clean_line_no_space _ (Hd s Hs)), Hl, Hs. simpl.
    rewrite IH; [reflexivity|]. intros t Ht. apply Hin. now right.
Qed.

End Loader.

Lemma load_sirens_keeps_the_valid_lines_witness :
  MainPdf2.load_sirens Scenario.ascii_isdigit (Some Scenario.siren_lines)
  = [lit "732829320"; lit "123456789"]
  /\ MainPdf2.load_sirens Scenario.ascii_isdigit
       (Some (MainPdf2.load_sirens Scenario.ascii_isdigit
                (Some Scenario.siren_lines)))
     = MainPdf2.load_sirens Scenario.ascii_isdigit (Some Scenario.siren_lines).
Proof.
  split; [reflexivity|].
  exact (proj2 (proj2 (proj2
           (load_sirens_keeps_the_valid_lines Scenario.ascii_isdigit)))
           ascii_isdigit_no_space (Some Scenario.siren_lines)).
Defined.

(** ** File names *)

Section FileNames.
Variable is_word : N -> bool.

Lemma sub_unsafe_harmless (name : ustring) :
  forall b c,
    In c (QardBulk.sub_unsafe is_word b name) ->
    QardBulk.kept_char is_word c || (c =? 95)%N = true.
Proof.
  induction name as [|d name IH]; intros b c; simpl; [intros []|].
  destruct (QardBulk.kept_char is_word d) eqn:Ed.
  - intros [<- | H]; [now rewrite Ed | eauto].
  - destruct b; [eauto|]. intros [<- | H]; [apply orb_true_r | eauto].
Qed.

Lemma sub_unsafe_length (name : ustring) :
  forall b, (List.length (QardBulk.sub_unsafe is_word b name)
             <= List.length name)%nat.
Proof.
  induction name as [|d name IH]; intros b; simpl; [lia|].
  destruct (QardBulk.kept_char is_word d); simpl.
  - specialize (IH false). lia.
  - destruct b; simpl; specialize (IH true); lia.
Qed.

Lemma sub_unsafe_fixed (name : ustring) :
  forallb (QardBulk.kept_char is_word) name = true ->
  forall b, QardBulk.sub_unsafe is_word b name = name.
Proof.
  induction name as [|d name IH]; simpl; [reflexivity|].
  rewrite andb_true_iff. intros [Hd Hn] b. now rewrite Hd, IH.
Qed.

(** X2.  [safe_filename] returns at most 200 characters and never more than
    it was given; every character of the result is a word character, a
    dot, a hyphen or an underscore; a name of at most 200 word characters,
    dots and hyphens comes back unchanged; and, the underscore being a
    word character, cleaning a cleaned name changes nothing. *)
Theorem safe_filename_is_safe (name : ustring) :
  (List.length (QardBulk.safe_filename is_word name) <= 200)%nat
  /\ (List.length (QardBulk.safe_filename is_word name)
      <= List.length name)%nat
  /\ (forall c, In c (QardBulk.safe_filename is_word name) ->
                is_word c = true \/ c = 46%N \/ c = 45%N \/ c = 95%N)
  /\ (forallb (QardBulk.kept_char is_word) name = true ->
      (List.length name <= 200)%nat ->
      QardBulk.safe_filename is_word name = name)
  /\ (is_word 95%N = true ->
      QardBulk.safe_filename is_word (QardBulk.safe_filename is_word name)
      = QardBulk.safe_filename is_word name).
Proof.
  assert (Hlen : (List.length (QardBulk.safe_filename is_word name) <= 200)%nat).
  { unfold QardBulk.safe_filename. rewrite length_firstn. lia. }
  assert (Hfix : forall n,
             forallb (QardBulk.kept_char is_word) n = true ->
             (List.length n <= 200)%nat ->
             QardBulk.safe_filename is_word n = n).
  { intros n Hk Hl. unfold QardBulk.safe_filename.
    rewrite (sub_unsafe_fixed _ Hk). now apply firstn_all2. }
  assert (Hall : forall c, In c (QardBulk.safe_filename is_word name) ->
                           QardBulk.kept_char is_word c || (c =? 95)%N = true).
  { intros c Hc. unfold QardBulk.safe_filename in Hc.
    apply sub_unsafe_harmless with (b := false) (name := name).
    rewrite <- (firstn_skipn 200 (QardBulk.sub_unsafe is_word false name)).
    apply in_or_app. now left. }
  split; [exact Hlen|]. split; [|split; [|split; [exact (Hfix name)|]]].
  - unfold QardBulk.safe_filename. rewrite length_firstn.
    pose proof (sub_unsafe_length name false). lia.
  - intros c Hc. specialize (Hall c Hc). unfold QardBulk.kept_char in Hall.
    repeat (apply orb_true_iff in Hall; destruct Hall as [Hall|Hall]);
      try (apply N.eqb_eq in Hall); auto.
  - intros Hw. apply Hfix; [|exact Hlen].
    apply forallb_forall. intros c Hc. specialize (Hall c Hc).
    apply orb_true_iff in Hall. destruct Hall as [Hk|Hu]; [exact Hk|].
    apply N.eqb_eq in Hu. subst c. unfold QardBulk.kept_char. now rewrite Hw.
Qed.

End FileNames.

Lemma safe_filename_is_safe_witness :
  QardBulk.safe_filename Scenario.ascii_word (lit "732829320_ACT_01")
  = lit "732829320_ACT_01"
  /\ QardBulk.safe_filename Scenario.ascii_word
       (QardBulk.safe_filename Scenario.ascii_word (lit "a b/c:  d.pdf"))
     = QardBulk.safe_filename Scenario.ascii_word (lit "a b/c:  d.pdf").
Proof.
  split.
  - apply (proj1 (proj2 (proj2 (proj2
             (safe_filename_is_safe Scenario.ascii_word
                (lit "732829320_ACT_01")))))).
    + vm_compute. reflexivity.
    + vm_compute. lia.
  - apply (proj2 (proj2 (proj2 (proj2
             (safe_filename_is_safe Scenario.ascii_word
                (lit "a b/c:  d.pdf")))))).
    reflexivity.
Defined.

(** ** Page scoring *)

Lemma hits_bounds (phrases : list ustring) (t : ustring) :
  (0 <= PreOcr.hits phrases t <= Z.of_nat (List.length phrases))%Z.
Proof.
  unfold PreOcr.hits.
  pose proof (filter_length_le (fun p => contains p t) phrases). lia.
Qed.

Lemma hits_positive (phrases : list ustring) (p t : ustring) :
  In p phrases -> contains p t = true -> (1 <= PreOcr.hits phrases t)%Z.
Proof.
  intros Hin Hc. unfold PreOcr.hits.
  assert (H : In p (filter (fun p => contains p t) phrases))
    by (apply filter_In; now split).
  destruct (filter (fun p => contains p t) phrases); [destruct H | simpl; lia].
Qed.

Lemma contains_part (a b c t : ustring) :
  contains (a ++ b ++ c) t = true -> contains b t = true.
Proof.
  rewrite !contains_substring. intros [pre [post ->]].
  exists (pre ++ a), (c ++ post). now rewrite <- !app_assoc.
Qed.

(** X3.  The score of a page is three points per core phrase found, plus
    one per keyword, minus one per negative keyword, each phrase counting
    once; it lies between -9 and 61.  A page with a core phrase and a
    keyword is kept whatever its score; a page without a core phrase
    needs four keywords at least; a page with core phrases and no keyword
    is kept only if three points per core phrase less the negative hits
    reach the threshold of 4. *)
Theorem pages_kept_by_score (T : PyText) (text : ustring)
    (score core_hits kw_hits : Z) (has_core : bool) :
  PreOcr.score_page text = (score, core_hits, kw_hits, has_core) ->
  let neg_hits := PreOcr.hits PreOcr.NEGATIVE_KEYWORDS (PreOcr.norm text) in
  score = (3 * core_hits + kw_hits - neg_hits)%Z
  /\ (0 <= core_hits <= 9)%Z /\ (0 <= kw_hits <= 34)%Z
  /\ (0 <= neg_hits <= 9)%Z /\ (-9 <= score <= 61)%Z
  /\ (has_core = true <-> (1 <= core_hits)%Z)
  /\ (has_core = true -> (1 <= kw_hits)%Z ->
      PreOcr.should_keep score has_core kw_hits = true)
  /\ (has_core = false -> (kw_hits < 4)%Z ->
      PreOcr.should_keep score has_core kw_hits = false)
  /\ (has_core = true -> kw_hits = 0%Z ->
      (PreOcr.should_keep score has_core kw_hits = true
       <-> (4 <= 3 * core_hits - neg_hits)%Z)).
Proof.
  unfold PreOcr.score_page. intros E. injection E as <- <- <- <-.
  set (t := PreOcr.norm text).
  pose proof (hits_bounds PreOcr.CORE_PHRASES t) as Hc.
  pose proof (hits_bounds PreOcr.KEYWORDS t) as Hk.
  pose proof (hits_bounds PreOcr.NEGATIVE_KEYWORDS t) as Hn.
  change (Z.of_nat (List.length PreOcr.CORE_PHRASES)) with 9%Z in Hc.
  change (Z.of_nat (List.length PreOcr.KEYWORDS)) with 34%Z in Hk.
  change (Z.of_nat (List.length PreOcr.NEGATIVE_KEYWORDS)) with 9%Z in Hn.
  unfold PreOcr.CORE_HIT_POINTS, PreOcr.KEYWORD_POINTS, PreOcr.NEGATIVE_POINTS.
  set (c := PreOcr.hits PreOcr.CORE_PHRASES t) in *.
  set (k := PreOcr.hits PreOcr.KEYWORDS t) in *.
  set (n := PreOcr.hits PreOcr.NEGATIVE_KEYWORDS t) in *.
  unfold PreOcr.should_keep, PreOcr.KEEP_THRESHOLD. cbv zeta.
  repeat split; lia.
Qed.

Lemma pages_kept_by_score_witness :
  PreOcr.score_page (T := Latin1.text)
    (lit "Attestation  bancaire, Banque X, article 3") = (3, 1, 1, true)%Z
  /\ PreOcr.should_keep 3 true 1 = true.
Proof.
  split; [reflexivity|].
  refine (proj1 (proj2 (proj2 (proj2 (proj2 (proj2 (proj2
            (@pages_kept_by_score Latin1.text
               (lit "Attestation  bancaire, Banque X, article 3")
               3 1 1 true eq_refl))))))) eq_refl _).
  lia.
Defined.

(** X4.  A page whose text contains "attestation de blocage" is always
    kept: the phrase is a core phrase and holds the keyword "blocage", so
    that no number of negative keywords can outweigh it. *)
Theorem blocking_attestations_are_always_kept (T : PyText) (text : ustring)
    (score core_hits kw_hits : Z) (has_core : bool) :
  contains (lit "attestation de blocage") (PreOcr.norm text) = true ->
  PreOcr.score_page text = (score, core_hits, kw_hits, has_core) ->
  has_core = true /\ (1 <= kw_hits)%Z
  /\ PreOcr.should_keep score has_core kw_hits = true.
Proof.
  intros Hc E. unfold PreOcr.score_page in E. injection E as <- <- <- <-.
  assert (H1 : (1 <= PreOcr.hits PreOcr.CORE_PHRASES (PreOcr.norm text))%Z).
  { apply hits_positive with (p := lit "attestation de blocage");
      [|exact Hc]. simpl. repeat (first [left; reflexivity | right]). }
  assert (H2 : (1 <= PreOcr.hits PreOcr.KEYWORDS (PreOcr.norm text))%Z).
  { apply hits_positive with (p := lit "blocage").
    - simpl. repeat (first [left; reflexivity | right]).
    - apply contains_part with (a := lit "attestation de ") (c := []).
      exact Hc. }
  unfold PreOcr.should_keep. split; [|split]; [lia | exact H2 | lia].
Qed.

Lemma blocking_attestations_are_always_kept_witness :
  PreOcr.score_page (T := Latin1.text)
    (lit "ATTESTATION DE BLOCAGE: statuts, article, titre, chapitre, clause")
  = (-2, 1, 1, true)%Z
  /\ PreOcr.should_keep (-2) true 1 = true.
Proof.
  split; [reflexivity|].
  exact (proj2 (proj2
           (@blocking_attestations_are_always_kept Latin1.text
              (lit "ATTESTATION DE BLOCAGE: statuts, article, titre, chapitre, clause")
              (-2) 1 1 true eq_refl eq_refl))).
Defined.

(** ** Identifiers with a Luhn check digit *)

Section Sirens.
Import SirenSampling.
Local Open Scope Z_scope.
Context {T : PyText}.
Hypothesis reads : reads_decimal T.


Abbreviation is_digit d := (0 <= d <= 9)%Z.

Lemma value_snoc (ds : list Z) (d : Z) : value (ds ++ [d]) = 10 * value ds + d.
Proof. unfold value. now rewrite fold_left_app. Qed.

Lemma value_zeros (k : nat) (ds : list Z) :
  value (repeat 0 k ++ ds) = value ds.
Proof.
  unfold value. rewrite fold_left_app.
  replace (fold_left (fun acc d => 10 * acc + d) (repeat 0 k) 0) with 0;
    [reflexivity|].
  induction k as [|k IH]; simpl; [reflexivity | exact IH].
Qed.

Lemma digits_from_spec (fuel : nat) :
  forall n,
    0 <= n < 10 ^ Z.of_nat fuel -> (0 < fuel)%nat ->
    value (rev (digits_from fuel n)) = n
    /\ Forall (fun d => is_digit d) (digits_from fuel n)
    /\ digits_from fuel n <> [].
Proof.
  induction fuel as [|fuel IH]; intros n Hn Hf; [lia|].
  cbn [digits_from]. destruct (n <? 10) eqn:E.
  - apply Z.ltb_lt in E. split; [|split].
    + unfold value. simpl. lia.
    + constructor; [lia | constructor].
    + discriminate.
  - apply Z.ltb_ge in E.
    assert (Hq : 0 <= n / 10 < 10 ^ Z.of_nat fuel).
    { rewrite Nat2Z.inj_succ, Z.pow_succ_r in Hn by lia.
      split; [apply Z.div_pos; lia | apply Z.div_lt_upper_bound; lia]. }
    assert (Hfuel : (0 < fuel)%nat).
    { destruct fuel; [|lia]. simpl in Hn. lia. }
    destruct (IH (n / 10) Hq Hfuel) as [Hv [Hd Hne]].
    split; [|split].
    + cbn [rev]. rewrite value_snoc, Hv.
      pose proof (Z.div_mod n 10). lia.
    + constructor; [|exact Hd]. pose proof (Z.mod_pos_bound n 10). lia.
    + discriminate.
Qed.

Lemma digits_spec (n : Z) :
  0 <= n ->
  value (digits n) = n
  /\ Forall (fun d => is_digit d) (digits n)
  /\ digits n <> [].
Proof.
  intros Hn. unfold digits.
  assert (Hb : 0 <= n < 10 ^ Z.of_nat (S (Z.to_nat (Z.log2 n)))).
  { split; [exact Hn|].
    destruct (Z.eq_dec n 0) as [->|Hz]; [reflexivity|].
    pose proof (Z.log2_spec n ltac:(lia)) as [_ Hl].
    pose proof (Z.log2_nonneg n).
    rewrite Nat2Z.inj_succ, Z2Nat.id by lia.
    eapply Z.lt_le_trans; [exact Hl|].
    apply Z.pow_le_mono_l. lia. }
  destruct (digits_from_spec Hb) as [Hv [Hd Hne]]; [lia|].
  split; [exact Hv | split].
  - apply Forall_rev. exact Hd.
  - intros H. apply Hne. apply (f_equal (@rev Z)) in H.
    now rewrite rev_involutive in H.
Qed.

Lemma digits_small (d : Z) : is_digit d -> digits d = [d].
Proof.
  intros H. unfold digits. cbn [digits_from].
  replace (d <? 10) with true by (symmetry; apply Z.ltb_lt; lia). reflexivity.
Qed.


Lemma digits_from_fuel (fuel : nat) :
  forall n fuel',
    0 <= n < 10 ^ Z.of_nat fuel -> (0 < fuel)%nat -> (fuel <= fuel')%nat ->
    digits_from fuel' n = digits_from fuel n.
Proof.
  induction fuel as [|fuel IH]; intros n fuel' Hn Hf Hle; [lia|].
  destruct fuel' as [|fuel']; [lia|]. cbn [digits_from].
  destruct (n <? 10) eqn:E; [reflexivity|]. apply Z.ltb_ge in E.
  f_equal. apply IH.
  - rewrite Nat2Z.inj_succ, Z.pow_succ_r in Hn by lia.
    split; [apply Z.div_pos; lia | apply Z.div_lt_upper_bound; lia].
  - destruct fuel; [|lia]. simpl in Hn. lia.
  - lia.
Qed.

Lemma below_power (n : Z) : 0 <= n -> n < 10 ^ Z.of_nat (S (Z.to_nat (Z.log2 n))).
Proof.
  intros Hn. destruct (Z.eq_dec n 0) as [->|Hz]; [reflexivity|].
  pose proof (Z.log2_spec n ltac:(lia)) as [_ Hl].
  pose proof (Z.log2_nonneg n).
  rewrite Nat2Z.inj_succ, Z2Nat.id by lia.
  eapply Z.lt_le_trans; [exact Hl|].
  apply Z.pow_le_mono_l. lia.
Qed.

Lemma digits_snoc (p c : Z) :
  0 < p -> is_digit c -> digits (10 * p + c) = digits p ++ [c].
Proof.
  intros Hp Hc. unfold digits.
  set (n := 10 * p + c).
  assert (Hdiv : n / 10 = p).
  { unfold n. rewrite Z.mul_comm, Z.div_add_l by lia.
    rewrite (Z.div_small c) by lia. lia. }
  assert (Hmod : n mod 10 = c).
  { unfold n. rewrite Z.add_comm, Z.mul_comm, Z.mod_add by lia.
    apply Z.mod_small. lia. }
  cbn [digits_from].
  replace (n <? 10) with false by (symmetry; apply Z.ltb_ge; lia).
  rewrite Hdiv, Hmod. cbn [rev]. f_equal. f_equal.
  assert (H8 : 2 ^ 3 * p <= n) by (unfold n; lia).
  assert (Hl : 3 + Z.log2 p <= Z.log2 n).
  { rewrite <- Z.log2_mul_pow2 by lia. apply Z.log2_le_mono. lia. }
  pose proof (Z.log2_spec p Hp) as [_ Hlt].
  pose proof (Z.log2_nonneg p) as Hnn.
  transitivity (digits_from (Nat.max (Z.to_nat (Z.log2 n))
                                     (S (Z.to_nat (Z.log2 p)))) p).
  - symmetry. apply digits_from_fuel; [|lia|lia].
    split; [lia|].
    rewrite Z2Nat.id by lia.
    eapply Z.lt_le_trans; [exact Hlt|].
    transitivity (10 ^ Z.succ (Z.log2 p)).
    + apply Z.pow_le_mono_l. lia.
    + apply Z.pow_le_mono_r; lia.
  - apply (@digits_from_fuel (S (Z.to_nat (Z.log2 p))) p _); [|lia|lia].
    split; [lia | apply below_power; lia].
Qed.

Lemma digits_from_length (fuel : nat) :
  forall n,
    0 < n < 10 ^ Z.of_nat fuel ->
    10 ^ (Z.of_nat (List.length (digits_from fuel n)) - 1) <= n
    /\ n < 10 ^ Z.of_nat (List.length (digits_from fuel n)).
Proof.
  induction fuel as [|fuel IH]; intros n Hn; [simpl in Hn; lia|].
  cbn [digits_from]. destruct (n <? 10) eqn:E.
  - apply Z.ltb_lt in E. simpl. lia.
  - apply Z.ltb_ge in E.
    assert (Hq : 0 < n / 10 < 10 ^ Z.of_nat fuel).
    { rewrite Nat2Z.inj_succ, Z.pow_succ_r in Hn by lia.
      split; [apply Z.div_str_pos; lia | apply Z.div_lt_upper_bound; lia]. }
    specialize (IH _ Hq). cbn [List.length].
    set (len := List.length (digits_from fuel (n / 10))) in *.
    assert (Hlen : (0 < len)%nat).
    { destruct len; [|lia]. simpl in IH. lia. }
    rewrite Nat2Z.inj_succ, Z.pow_succ_r by lia.
    replace (Z.succ (Z.of_nat len) - 1) with (Z.succ (Z.of_nat len - 1)) by lia.
    rewrite Z.pow_succ_r by lia.
    pose proof (Z.div_mod n 10 ltac:(lia)).
    pose proof (Z.mod_pos_bound n 10 ltac:(lia)). lia.
Qed.

Lemma nine_digits (n : Z) :
  0 <= n ->
  (List.length (str_int n) =? 9)%nat = (10 ^ 8 <=? n) && (n <? 10 ^ 9).
Proof.
  intros Hn. unfold str_int.
  replace (n <? 0) with false by (symmetry; apply Z.ltb_ge; lia).
  rewrite length_map. destruct (Z.eq_dec n 0) as [->|Hz]; [reflexivity|].
  unfold digits. rewrite length_rev.
  assert (Hpos : 0 < n) by lia.
  pose proof (@digits_from_length (S (Z.to_nat (Z.log2 n))) n
                (conj Hpos (below_power Hn))) as [Hlo Hhi].
  set (len := List.length _) in *.
  destruct (Nat.eqb_spec len 9) as [->|Hne].
  - change (Z.of_nat 9 - 1) with 8 in Hlo. change (Z.of_nat 9) with 9 in Hhi.
    symmetry. apply andb_true_iff. split; [apply Z.leb_le | apply Z.ltb_lt]; lia.
  - symmetry. apply andb_false_iff.
    destruct (Nat.lt_ge_cases len 9) as [Hlt|Hge].
    + left. apply Z.leb_gt. eapply Z.lt_le_trans; [exact Hhi|].
      apply Z.pow_le_mono_r; lia.
    + right. apply Z.ltb_ge. etransitivity; [|exact Hlo].
      apply Z.pow_le_mono_r; lia.
Qed.

Lemma luhn_sum_zeros (k : nat) (alt : bool) : luhn_sum (repeat 0 k) alt = 0.
Proof.
  revert alt. induction k as [|k IH]; intros alt; simpl; [reflexivity|].
  rewrite IH. now destruct alt.
Qed.

Lemma luhn_sum_app_zeros (l : list Z) (k : nat) :
  forall alt, luhn_sum (l ++ repeat 0 k) alt = luhn_sum l alt.
Proof.
  induction l as [|d l IH]; intros alt; simpl.
  - apply luhn_sum_zeros.
  - now rewrite IH.
Qed.

Lemma luhn_valid_zeros (k : nat) (ds : list Z) :
  luhn_valid (repeat 0 k ++ ds) <-> luhn_valid ds.
Proof.
  unfold luhn_valid. rewrite rev_app_distr, rev_repeat, luhn_sum_app_zeros.
  reflexivity.
Qed.



Lemma int_of_digit (d : Z) : is_digit d -> to_int (JStr [digit_char d]) = Ok d.
Proof.
  intros H. cbn [to_int].
  change [digit_char d] with (List.map digit_char [d]).
  rewrite (@reads [d]); [|discriminate|repeat constructor; lia].
  unfold value. simpl. reflexivity.
Qed.

Lemma luhn_loop_sum (ds : list Z) :
  Forall (fun d => is_digit d) ds ->
  forall total alt,
    luhn_loop (List.map digit_char ds) total alt
    = Ok (total + luhn_sum ds alt).
Proof.
  induction 1 as [|d ds Hd Hds IH]; intros total alt; simpl.
  - now rewrite Z.add_0_r.
  - change (to_int (JStr [digit_char d])) with (to_int (JStr [digit_char d])).
    pose proof (int_of_digit Hd) as E. cbn [to_int] in E.
    destruct (int_of_str [digit_char d]) as [z|]; [|discriminate].
    injection E as ->. simpl. rewrite IH. f_equal.
    destruct alt; simpl; lia.
Qed.

Lemma luhn_sum_bounds (ds : list Z) :
  Forall (fun d => is_digit d) ds -> forall alt, 0 <= luhn_sum ds alt.
Proof.
  induction 1 as [|d ds Hd Hds IH]; intros alt; simpl; [lia|].
  specialize (IH (negb alt)).
  destruct alt; [destruct (9 <? d * 2) eqn:E; [apply Z.ltb_lt in E|]|]; lia.
Qed.

Lemma luhn_check_digit (ds : list Z) :
  Forall (fun d => is_digit d) ds ->
  exists c,
    siren_check_digit (List.map digit_char ds) = Ok c
    /\ is_digit c
    /\ luhn_valid (ds ++ [c])
    /\ forall c', is_digit c' -> luhn_valid (ds ++ [c']) -> c' = c.
Proof.
  intros Hd. unfold siren_check_digit.
  rewrite <- map_rev, luhn_loop_sum by (apply Forall_rev; exact Hd).
  cbn [res_bind]. eexists. split; [reflexivity|].
  set (t := 0 + luhn_sum (rev ds) true).
  pose proof (Z.mod_pos_bound t 10 ltac:(lia)) as Ht.
  pose proof (Z.mod_pos_bound (10 - t mod 10) 10 ltac:(lia)) as Hc.
  assert (Hsum : forall c, luhn_sum (rev (ds ++ [c])) false = c + t).
  { intros c. rewrite rev_app_distr. simpl. unfold t. lia. }
  unfold luhn_valid. split; [lia|]. split.
  - rewrite Hsum, Zplus_mod, Z.mod_mod by lia.
    destruct (Z.eq_dec (t mod 10) 0) as [E|E].
    + rewrite E. reflexivity.
    + rewrite (Z.mod_small (10 - t mod 10)) by lia.
      replace (10 - t mod 10 + t mod 10) with 10 by lia. reflexivity.
  - intros c' Hc' Hv. rewrite Hsum in Hv.
    rewrite Zplus_mod in Hv. rewrite (Z.mod_small c') in Hv by lia.
    destruct (Z.eq_dec (t mod 10) 0) as [E|E].
    + rewrite E in *. rewrite Z.add_0_r, Z.mod_small in Hv by lia.
      subst c'. reflexivity.
    + rewrite (Z.mod_small (10 - t mod 10)) by lia.
      assert (Hr : 0 < c' + t mod 10 < 20) by lia.
      destruct (Z_lt_dec (c' + t mod 10) 10) as [Hs|Hs].
      * rewrite Z.mod_small in Hv by lia. lia.
      * replace (c' + t mod 10) with ((c' + t mod 10 - 10) + 1 * 10) in Hv by lia.
        rewrite Z.mod_add, Z.mod_small in Hv by lia. lia.
Qed.

Lemma make_siren_spec (p : Z) :
  0 <= p ->
  exists c,
    siren_check_digit (format_08d p) = Ok c
    /\ is_digit c
    /\ make_siren_from_prefix8 p = Ok (10 * p + c)
    /\ luhn_valid (digits (10 * p + c))
    /\ forall c', is_digit c' -> luhn_valid (digits (10 * p + c')) -> c' = c.
Proof.
  intros Hp. destruct (digits_spec Hp) as [Hv [Hd Hne]].
  set (zeros := (8 - 0 - List.length (List.map digit_char (digits p)))%nat).
  assert (Hfmt : format_08d p
                 = List.map digit_char (repeat 0 zeros ++ digits p)).
  { unfold format_08d. replace (p <? 0) with false by (symmetry; apply Z.ltb_ge; lia).
    rewrite Z.abs_eq by lia. cbn [app List.length]. fold zeros.
    now rewrite map_app, map_repeat. }
  assert (Hall : Forall (fun d => is_digit d) (repeat 0 zeros ++ digits p)).
  { apply Forall_app. split; [|exact Hd].
    apply Forall_forall. intros d Hin. apply repeat_spec in Hin. lia. }
  destruct (luhn_check_digit Hall) as [c [Ec [Hc [Hl Hu]]]].
  rewrite <- Hfmt in Ec.
  rewrite <- app_assoc, luhn_valid_zeros in Hl.
  assert (Hdig : forall c', is_digit c' ->
             (luhn_valid (digits (10 * p + c')) <-> luhn_valid (digits p ++ [c']))).
  { intros c' Hc'. destruct (Z.eq_dec p 0) as [->|Hz].
    - rewrite Z.mul_0_r, Z.add_0_l, digits_small by exact Hc'.
      change (digits 0) with (repeat 0 1). symmetry. apply luhn_valid_zeros.
    - rewrite digits_snoc by lia. reflexivity. }
  exists c. split; [exact Ec|]. split; [exact Hc|]. split; [|split].
  - unfold make_siren_from_prefix8. rewrite Ec. cbn [res_bind].
    assert (Hstr : str_int c = [digit_char c]).
    { unfold str_int. replace (c <? 0) with false by (symmetry; apply Z.ltb_ge; lia).
      now rewrite digits_small. }
    rewrite Hstr, Hfmt. change [digit_char c] with (List.map digit_char [c]).
    rewrite <- map_app. cbn [to_int]. rewrite reads.
    + now rewrite value_snoc, value_zeros, Hv.
    + destruct (repeat 0 zeros ++ digits p); discriminate.
    + apply Forall_app. split; [exact Hall | repeat constructor; lia].
  - apply Hdig; assumption.
  - intros c' Hc' Hv'. apply Hu; [exact Hc'|].
    rewrite <- app_assoc. apply luhn_valid_zeros. apply Hdig; assumption.
Qed.


(** X5.  For a string of decimal digits, [siren_check_digit] returns the
    one digit that, written after them, makes the whole pass the Luhn
    test. *)
Theorem check_digit_completes_luhn (ds : list Z) :
  Forall (fun d => is_digit d) ds ->
  exists c,
    siren_check_digit (List.map digit_char ds) = Ok c
    /\ is_digit c
    /\ luhn_valid (ds ++ [c])
    /\ forall c', is_digit c' -> luhn_valid (ds ++ [c']) -> c' = c.
Proof. exact (@luhn_check_digit ds). Qed.

(** X6.  For a prefix [p >= 0], [make_siren_from_prefix8] returns
    [10 * p + c] where [c] is the check digit of [p] written with eight
    digits; the decimal digits of the result pass the Luhn test, and no
    other number of the ten that start with [p] does. *)
Theorem make_siren_appends_the_check_digit (p : Z) :
  0 <= p ->
  exists c,
    siren_check_digit (format_08d p) = Ok c
    /\ is_digit c
    /\ make_siren_from_prefix8 p = Ok (10 * p + c)
    /\ luhn_valid (digits (10 * p + c))
    /\ forall c', is_digit c' -> luhn_valid (digits (10 * p + c')) -> c' = c.
Proof. exact (@make_siren_spec p). Qed.

Lemma make_siren_prefix (p s : Z) :
  0 <= p -> make_siren_from_prefix8 p = Ok s ->
  s / 10 = p /\ luhn_valid (digits s).
Proof.
  intros Hp E. destruct (make_siren_spec Hp) as [c [_ [Hc [E' [Hl _]]]]].
  assert (Hs : s = 10 * p + c) by congruence. subst s. split; [|exact Hl].
  rewrite Z.mul_comm, Z.div_add_l by lia. rewrite (Z.div_small c) by lia. lia.
Qed.

(** A list of distinct integers between [lo] and [hi] has at most
    [hi - lo + 1] members. *)
Lemma distinct_in_range (lo hi : Z) (l : list Z) :
  NoDup l -> (forall x, In x l -> lo <= x <= hi) ->
  Z.of_nat (List.length l) <= Z.max 0 (hi - lo + 1).
Proof.
  intros Hnd Hin.
  assert (Hm : NoDup (List.map (fun x => Z.to_nat (x - lo)) l)).
  { clear - Hnd Hin. induction Hnd as [|x l Hx Hnd IH]; simpl; constructor.
    - intros H. apply in_map_iff in H. destruct H as [y [Hy Hyl]].
      pose proof (Hin x (or_introl eq_refl)).
      pose proof (Hin y (or_intror Hyl)).
      assert (y = x) by lia. subst y. contradiction.
    - apply IH. intros y Hy. apply Hin. now right. }
  pose proof (@NoDup_incl_length _ _ (seq 0 (Z.to_nat (hi - lo + 1))) Hm) as Hl.
  rewrite length_map, length_seq in Hl.
  assert (List.length l <= Z.to_nat (hi - lo + 1))%nat; [|lia].
  apply Hl. intros n Hn. apply in_map_iff in Hn. destruct Hn as [x [<- Hx]].
  apply in_seq. specialize (Hin x Hx). lia.
Qed.

Section Sampling.
Variable randint : nat -> Z -> Z -> Z.
Hypothesis randint_in_range :
  forall n lo hi, lo <= hi -> lo <= randint n lo hi <= hi.
Variables start9 end9 k p8_lo p8_hi : Z.
Hypothesis prefixes : 0 <= p8_lo <= p8_hi.

Abbreviation sampled out :=
  (NoDup out
   /\ (forall s, In s out ->
         start9 <= s <= end9 /\ luhn_valid (digits s)
         /\ p8_lo <= s / 10 <= p8_hi
         /\ make_siren_from_prefix8 (s / 10) = Ok s)).

Lemma sample_loop_spec (rounds : nat) :
  forall drawn out seen,
    sampled out -> (forall s, In s seen <-> In s out) ->
    Z.of_nat (List.length out) <= Z.max 0 k ->
    exists r,
      sample_loop rounds randint drawn start9 end9 k p8_lo p8_hi out seen
      = Ok r
      /\ forall res, r = Some res ->
           sampled res /\ Z.of_nat (List.length res) = Z.max 0 k.
Proof.
  induction rounds as [|rounds IH]; intros drawn out seen Hs Hseen Hlen.
  - cbn [sample_loop]. destruct (Z.of_nat (List.length out) <? k) eqn:E.
    + eexists. split; [reflexivity | discriminate].
    + apply Z.ltb_ge in E. eexists. split; [reflexivity|].
      intros res [= <-]. split; [exact Hs | lia].
  - cbn [sample_loop]. destruct (Z.of_nat (List.length out) <? k) eqn:E.
    2:{ apply Z.ltb_ge in E. eexists. split; [reflexivity|].
        intros res [= <-]. split; [exact Hs | lia]. }
    apply Z.ltb_lt in E.
    pose proof (@randint_in_range drawn p8_lo p8_hi ltac:(lia)) as Hp.
    set (p := randint drawn p8_lo p8_hi) in *.
    destruct (@make_siren_spec p ltac:(lia)) as [c [_ [Hc [Es _]]]].
    rewrite Es. cbn [res_bind].
    destruct (@make_siren_prefix p _ ltac:(lia) Es) as [Hdiv Hl].
    set (s := 10 * p + c) in *.
    destruct ((start9 <=? s) && (s <=? end9)
              && negb (existsb (Z.eqb s) seen)) eqn:Ek.
    + apply andb_true_iff in Ek. destruct Ek as [Ek Hnew].
      apply andb_true_iff in Ek. destruct Ek as [Ha Hb].
      apply Z.leb_le in Ha, Hb. apply negb_true_iff in Hnew.
      assert (Hfresh : ~ In s out).
      { intros H. apply Hseen in H.
        assert (existsb (Z.eqb s) seen = true); [|congruence].
        apply existsb_exists. exists s. split; [exact H | apply Z.eqb_refl]. }
      apply IH.
      * destruct Hs as [Hnd Hall]. split.
        -- apply NoDup_app; [exact Hnd | repeat constructor; intros [] | ].
           intros x Hx [<-|[]]. contradiction.
        -- intros x Hx. apply in_app_or in Hx. destruct Hx as [Hx|[<-|[]]].
           ++ now apply Hall.
           ++ rewrite Hdiv. repeat split; try assumption; lia.
      * intros x. simpl. rewrite in_app_iff, Hseen. simpl. tauto.
      * rewrite length_app. simpl. lia.
    + now apply IH.
Qed.

End Sampling.

(** X7.  Called with nine-digit bounds in order and a [randint] that stays
    within the bounds it is given, [sample_valid_sirens_in_range] raises
    nothing; the list it returns has [max(0, k)] members, all distinct,
    all between [start9] and [end9] and all passing the Luhn test.  When
    [k] exceeds the number of eight-digit prefixes of the range the loop
    never ends, and when [k <= 0] the list is empty. *)
Theorem sample_returns_distinct_valid_sirens
    (randint : nat -> Z -> Z -> Z) (start9 end9 k : Z) (rounds : nat) :
  (forall n lo hi, lo <= hi -> lo <= randint n lo hi <= hi) ->
  10 ^ 8 <= start9 -> start9 <= end9 -> end9 < 10 ^ 9 ->
  exists r,
    sample_valid_sirens_in_range rounds randint start9 end9 k = Ok r
    /\ (forall out, r = Some out ->
          Z.of_nat (List.length out) = Z.max 0 k
          /\ NoDup out
          /\ forall s, In s out ->
               start9 <= s <= end9 /\ luhn_valid (digits s))
    /\ (end9 / 10 - start9 / 10 + 1 < k -> r = None)
    /\ (k <= 0 -> r = Some []).
Proof.
  intros Hrand Hlo Hle Hhi. unfold sample_valid_sirens_in_range.
  rewrite !nine_digits by lia.
  replace (10 ^ 8 <=? start9) with true by (symmetry; apply Z.leb_le; lia).
  replace (start9 <? 10 ^ 9) with true by (symmetry; apply Z.ltb_lt; lia).
  replace (10 ^ 8 <=? end9) with true by (symmetry; apply Z.leb_le; lia).
  replace (end9 <? 10 ^ 9) with true by (symmetry; apply Z.ltb_lt; lia).
  replace (end9 <? start9) with false by (symmetry; apply Z.ltb_ge; lia).
  cbn [negb andb orb].
  assert (Hp : 0 <= start9 / 10 <= end9 / 10).
  { split; [apply Z.div_pos; lia | apply Z.div_le_mono; lia]. }
  destruct (@sample_loop_spec randint Hrand start9 end9 k _ _ Hp rounds 0%nat
              [] [])
    as [r [E Hr]].
  - split; [constructor | intros s []].
  - intros s. reflexivity.
  - simpl. lia.
  - exists r. split; [exact E|]. split; [|split].
    3:{ intros Hk. clear Hr.
        assert (E0 : (0 <? k) = false) by (apply Z.ltb_ge; lia).
        destruct rounds; cbn [sample_loop List.length Z.of_nat] in E;
          rewrite E0 in E; congruence. }
    + intros out ->. destruct (Hr out eq_refl) as [[Hnd Hall] Hlen].
      split; [exact Hlen|]. split; [exact Hnd|].
      intros s Hs. destruct (Hall s Hs) as [Hin [Hl _]]. now split.
    + intros Hk. destruct r as [out|]; [exfalso|reflexivity].
      destruct (Hr out eq_refl) as [[Hnd Hall] Hlen].
      assert (Hm : NoDup (List.map (fun s => s / 10) out)).
      { clear - Hnd Hall. induction Hnd as [|x l Hx Hnd IH]; simpl; constructor.
        - intros H. apply in_map_iff in H. destruct H as [y [Hy Hyl]].
          destruct (Hall x (or_introl eq_refl)) as [_ [_ [_ Ex]]].
          destruct (Hall y (or_intror Hyl)) as [_ [_ [_ Ey]]].
          rewrite Hy in Ey. assert (x = y) by congruence. subst y.
          contradiction.
        - apply IH. intros y Hy. apply Hall. now right. }
      pose proof (@distinct_in_range (start9 / 10) (end9 / 10) _ Hm) as Hc.
      rewrite length_map in Hc.
      assert (Z.of_nat (List.length out)
              <= Z.max 0 (end9 / 10 - start9 / 10 + 1)); [|lia].
      apply Hc. intros x Hx. apply in_map_iff in Hx.
      destruct Hx as [s [<- Hs]]. now destruct (Hall s Hs) as [_ [_ [H _]]].
Qed.

(** X8.  For bounds that are not negative, [sample_valid_sirens_in_range]
    raises [ValueError] before it draws anything whenever the bounds are
    not two nine-digit numbers in order. *)
Theorem sample_rejects_bad_bounds
    (randint : nat -> Z -> Z -> Z) (start9 end9 k : Z) (rounds : nat) :
  0 <= start9 -> 0 <= end9 ->
  ~ (10 ^ 8 <= start9 <= end9 /\ end9 < 10 ^ 9) ->
  sample_valid_sirens_in_range rounds randint start9 end9 k = Fail ValueError.
Proof.
  intros Hs He Hbad. unfold sample_valid_sirens_in_range.
  rewrite !nine_digits by lia.
  destruct (Z.leb_spec (10 ^ 8) start9); destruct (Z.ltb_spec start9 (10 ^ 9));
    destruct (Z.leb_spec (10 ^ 8) end9); destruct (Z.ltb_spec end9 (10 ^ 9));
    destruct (Z.ltb_spec end9 start9); try reflexivity.
  exfalso. apply Hbad. lia.
Qed.

Lemma latin1_digits (ds : list Z) :
  Forall (fun d => is_digit d) ds ->
  forall acc,
    Latin1.digits acc (List.map digit_char ds)
    = Some (fold_left (fun acc d => 10 * acc + d) ds acc).
Proof.
  induction 1 as [|d ds Hd Hds IH]; intros acc; [reflexivity|].
  cbn [List.map Latin1.digits fold_left].
  assert (E : Latin1.digit_of (digit_char d) = Some d).
  { unfold Latin1.digit_of, digit_char.
    replace ((48 <=? 48 + Z.to_N d)%N && (48 + Z.to_N d <=? 57)%N) with true
      by (symmetry; apply andb_true_iff; split; apply N.leb_le; lia).
    f_equal. lia. }
  rewrite E. apply IH.
Qed.

Lemma latin1_reads_decimal : SirenSampling.reads_decimal Latin1.text.
Proof.
  intros ds Hne Hd. cbn [int_of_str Latin1.text]. unfold Latin1.parse_int.
  assert (Hns : forallb (fun c => negb (is_space c)) (List.map digit_char ds)
                = true).
  { apply forallb_forall. intros c Hc. apply in_map_iff in Hc.
    destruct Hc as [d [<- Hin]]. rewrite Forall_forall in Hd.
    specialize (Hd d Hin). unfold digit_char.
    assert (Hcases : d = 0 \/ d = 1 \/ d = 2 \/ d = 3 \/ d = 4 \/ d = 5
                     \/ d = 6 \/ d = 7 \/ d = 8 \/ d = 9) by lia.
    repeat (destruct Hcases as [->|Hcases]; [reflexivity|]).
    now subst d. }
  rewrite (strip_no_space _ Hns).
  destruct ds as [|d ds]; [contradiction|].
  pose proof (latin1_digits Hd 0) as E. unfold value.
  inversion Hd as [|? ? Hd0 _]; subst.
  cbn [List.map] in *.
  assert (H45 : digit_char d <> 45%N) by (unfold digit_char; lia).
  assert (H43 : digit_char d <> 43%N) by (unfold digit_char; lia).
  destruct (digit_char d) as [|q]; [exact E|].
  do 6 (destruct q as [q|q|]; try exact E);
    destruct ds; try exact E; congruence.
Qed.

End Sirens.

Lemma check_digit_completes_luhn_witness :
  exists c,
    SirenSampling.siren_check_digit (T := Latin1.text) (lit "73282932") = Ok c
    /\ SirenSampling.luhn_valid ([7; 3; 2; 8; 2; 9; 3; 2] ++ [c])%Z.
Proof.
  destruct (@check_digit_completes_luhn Latin1.text latin1_reads_decimal
              [7; 3; 2; 8; 2; 9; 3; 2]%Z)
    as [c [E [_ [Hl _]]]].
  - repeat constructor; lia.
  - exists c. split; [exact E | exact Hl].
Defined.

Lemma make_siren_appends_the_check_digit_witness :
  exists c,
    SirenSampling.make_siren_from_prefix8 (T := Latin1.text) 73282932
    = Ok (10 * 73282932 + c)%Z.
Proof.
  destruct (@make_siren_appends_the_check_digit Latin1.text
              latin1_reads_decimal 73282932%Z)
    as [c [_ [_ [E _]]]].
  - lia.
  - exists c. exact E.
Defined.

Lemma sample_returns_distinct_valid_sirens_witness :
  exists r,
    SirenSampling.sample_valid_sirens_in_range (T := Latin1.text) 5
      Scenario.lowest 821000000 990000000 1
    = Ok r.
Proof.
  destruct (@sample_returns_distinct_valid_sirens Latin1.text
              latin1_reads_decimal Scenario.lowest 821000000%Z 990000000%Z
              1%Z 5%nat)
    as [r [E _]].
  - intros n lo hi H. unfold Scenario.lowest. lia.
  - lia.
  - lia.
  - lia.
  - exists r. exact E.
Defined.

Lemma sample_rejects_bad_bounds_witness :
  SirenSampling.sample_valid_sirens_in_range (T := Latin1.text) 5
    Scenario.lowest 990000000 821000000 1
  = Fail ValueError.
Proof.
  apply (@sample_rejects_bad_bounds Latin1.text); lia.
Defined.

(** ** The label of a document in the JSON variant *)

Lemma res_map_compose {A B C} (f : A -> res B) (g : B -> res C)
    (l : list A) (cs : list C) :
  res_map (fun a => res_bind (f a) g) l = Ok cs ->
  exists bs, res_map f l = Ok bs /\ res_map g bs = Ok cs.
Proof.
  revert cs. induction l as [|a l IH]; simpl; intros cs H.
  - injection H as <-. now exists [].
  - destruct (f a) as [b|]; simpl in H; [|discriminate].
    destruct (g b) as [c|] eqn:Eg; simpl in H; [|discriminate].
    destruct (res_map (fun a => res_bind (f a) g) l) as [cs'|];
      simpl in H; [|discriminate].
    injection H as <-. destruct (IH cs' eq_refl) as [bs [-> Hg]].
    exists (b :: bs). simpl. now rewrite Eg, Hg.
Qed.

Section Labels.
Context {T : PyText}.

Lemma first_allowed (raws : list json) :
  forall norms,
    res_map normalize raws = Ok norms ->
    match find (fun rn => is_allowed_type (snd rn)) (combine raws norms) with
    | Some (raw, n) =>
        In raw raws /\ normalize raw = Ok n /\ is_allowed_type n = true
        /\ any_allowed norms = true
    | None => any_allowed norms = false
    end.
Proof.
  induction raws as [|r raws IH]; simpl; intros norms H.
  - injection H as <-. reflexivity.
  - destruct (normalize r) as [n|] eqn:En; simpl in H; [|discriminate].
    destruct (res_map normalize raws) as [ns|]; simpl in H; [|discriminate].
    injection H as <-. cbn [combine find snd any_allowed existsb].
    destruct (is_allowed_type n) eqn:Ea.
    + split; [now left|]. split; [exact En|]. now split.
    + specialize (IH ns eq_refl). simpl.
      destruct (find (fun rn => is_allowed_type (snd rn)) (combine raws ns))
        as [[raw n']|].
      * destruct IH as [Hin IH]. split; [now right | exact IH].
      * exact IH.
Qed.

Lemma label_agrees_with_filter (acte : json) (kept : bool) :
  MainPdf.keeps acte = Ok kept ->
  exists label,
    MainPdfJson.choose_acte_label acte = Ok label
    /\ (kept = true ->
        exists n, normalize label = Ok n /\ is_allowed_type n = true)
    /\ (kept = false ->
        label = JStr (lit "inconnu")
        \/ exists n, normalize label = Ok n /\ is_allowed_type n = false).
Proof.
  unfold MainPdf.keeps, acte_types, MainPdfJson.choose_acte_label. intros H.
  destruct (get_or acte "typeRdd" (JList [])) as [trl|];
    cbn [res_bind] in *; [|discriminate].
  destruct (iterate trl) as [ts|]; cbn [res_bind] in *; [|discriminate].
  destruct (res_map (fun t => res_bind (get_or t "typeActe" (JStr []))
                                       (fun label => normalize label)) ts)
    as [types|] eqn:Et; cbn [res_bind] in H; [|discriminate].
  injection H as <-.
  destruct (res_map_compose _ _ _ Et) as [raws [-> Hn]]. cbn [res_bind].
  change (res_map (fun label => normalize label) raws)
    with (res_map normalize raws) in Hn.
  rewrite Hn. cbn [res_bind]. eexists. split; [reflexivity|].
  pose proof (first_allowed _ Hn) as Hf.
  destruct (find (fun rn => is_allowed_type (snd rn)) (combine raws types))
    as [[raw n]|].
  - destruct Hf as [_ [Hr [Ha Hany]]]. split.
    + intros _. now exists n.
    + intros Hk. congruence.
  - split; [intros Hk; congruence|]. intros _.
    destruct raws as [|r raws]; [now left | right].
    simpl in Hn. destruct (normalize r) as [n|]; simpl in Hn; [|discriminate].
    destruct (res_map normalize raws) as [ns|]; simpl in Hn; [|discriminate].
    injection Hn as <-. exists n. split; [reflexivity|].
    simpl in Hf. now apply orb_false_iff in Hf.
Qed.

(** X9.  [choose_acte_label] and the filter agree: for a document that
    [filter_actes] keeps, the label chosen has a normal form that contains
    an allowed type, so that the fallbacks are never used; for a document
    the filter would drop, the label is the first one of the document,
    which matches no allowed type, or "inconnu". *)
Theorem kept_documents_get_a_matching_label (acte : json) (kept : bool) :
  MainPdf.keeps acte = Ok kept ->
  exists label,
    MainPdfJson.choose_acte_label acte = Ok label
    /\ (kept = true ->
        exists n, normalize label = Ok n /\ is_allowed_type n = true)
    /\ (kept = false ->
        label = JStr (lit "inconnu")
        \/ exists n, normalize label = Ok n /\ is_allowed_type n = false).
Proof. exact (@label_agrees_with_filter acte kept). Qed.

End Labels.

Lemma kept_documents_get_a_matching_label_witness :
  exists label,
    MainPdfJson.choose_acte_label (T := Latin1.text)
      (Scenario.acte_with [] [lit "Proces-verbal"; lit "STATUTS constitutifs"])
    = Ok label.
Proof.
  destruct (@kept_documents_get_a_matching_label Latin1.text
              (Scenario.acte_with []
                 [lit "Proces-verbal"; lit "STATUTS constitutifs"])
              true eq_refl)
    as [label [E _]].
  exists label. exact E.
Defined.


(** ** The files picked for a user *)

Section Picked.
Context {T : PyText}.

(** The pair that [pick_files] returns for the listing that holds [f]
    alone, if any. *)
Abbreviation alone f :=
  (match QardBulk.pick_files [f] false 0 with Ok l => l | Fail _ => [] end).

(** One iteration of the loop of [pick_files]: it raises, it skips the
    file, or it appends the pair of the file and then tests the bounds. *)
Lemma pick_step (f : json) (rest : list json) (chosen : list (json * ustring))
    (download_all : bool) (cap : Z) :
  (exists e, QardBulk.pick_loop (f :: rest) chosen download_all cap = Fail e)
  \/ (alone f = []
      /\ QardBulk.pick_loop (f :: rest) chosen download_all cap
         = QardBulk.pick_loop rest chosen download_all cap)
  \/ (exists p,
         alone f = [p]
         /\ QardBulk.pick_loop (f :: rest) chosen download_all cap
            = if negb download_all
                 || (cap <=? Z.of_nat (List.length (chosen ++ [p])))%Z
              then Ok (chosen ++ [p])
              else QardBulk.pick_loop rest (chosen ++ [p]) download_all cap).
Proof.
  unfold QardBulk.pick_files. cbn [QardBulk.pick_loop res_bind].
  destruct (get f "datatype") as [d1|]; cbn [res_bind];
    [|left; now eexists].
  destruct (get f "data_type") as [d2|]; cbn [res_bind];
    [|left; now eexists].
  destruct (py_or (py_or d1 d2) (JStr [])) as [| | | |raw| |];
    try (left; now eexists).
  match goal with
  | |- context [if ?c then QardBulk.pick_loop rest chosen _ _ else _] =>
      destruct c eqn:Eskip
  end; [right; left; now split|].
  destruct (get f "id") as [i1|]; cbn [res_bind]; [|left; now eexists].
  destruct (get f "file_id") as [i2|]; cbn [res_bind]; [|left; now eexists].
  destruct (get f "uuid") as [i3|]; cbn [res_bind]; [|left; now eexists].
  destruct (truthy (py_or (py_or i1 i2) i3)) eqn:Efid; cbn [negb];
    [|right; left; now split].
  right. right. eexists. split; [reflexivity|].
  destruct download_all; cbn [negb andb orb].
  - reflexivity.
  - destruct chosen; reflexivity.
Qed.

Lemma pick_loop_cut (files : list json) :
  forall chosen (download_all : bool) (cap : Z) out,
    let limit := if download_all then Z.to_nat (Z.max 1 cap) else 1%nat in
    (List.length chosen < limit)%nat ->
    QardBulk.pick_loop files chosen download_all cap = Ok out ->
    out = chosen
          ++ firstn (limit - List.length chosen)
                    (flat_map (fun f => alone f) files).
Proof.
  induction files as [|f files IH]; intros chosen download_all cap out limit
    Hlt H.
  - simpl in H. injection H as <-. simpl.
    destruct (limit - List.length chosen)%nat; simpl; now rewrite app_nil_r.
  - destruct (pick_step f files chosen download_all cap)
      as [[e E] | [[Ea E] | [p [Ea E]]]]; rewrite E in H; clear E.
    + discriminate.
    + cbn [flat_map]. rewrite Ea. cbn [app]. now apply IH.
    + cbn [flat_map]. rewrite Ea. cbn [app].
      assert (Hlen : List.length (chosen ++ [p]) = S (List.length chosen))
        by (rewrite length_app; simpl; lia).
      destruct (negb download_all
                || (cap <=? Z.of_nat (List.length (chosen ++ [p])))%Z)
        eqn:Estop.
      * injection H as <-.
        assert (Hone : (limit - List.length chosen = 1)%nat).
        { apply orb_true_iff in Estop. destruct Estop as [Hd | Hc].
          - apply negb_true_iff in Hd. subst download_all limit. lia.
          - apply Z.leb_le in Hc. rewrite Hlen in Hc.
            destruct download_all; subst limit; lia. }
        rewrite Hone. now destruct (flat_map (fun f => alone f) files).
      * apply orb_false_iff in Estop. destruct Estop as [Hd Hc].
        apply negb_false_iff in Hd. apply Z.leb_gt in Hc. rewrite Hlen in Hc.
        subst download_all. cbv zeta in IH.
        specialize (IH (chosen ++ [p]) true cap out).
        rewrite Hlen in IH. rewrite IH; [|subst limit; lia | exact H].
        rewrite <- app_assoc. cbn [app]. f_equal.
        replace (limit - List.length chosen)%nat
          with (S (Z.to_nat (Z.max 1 cap) - S (List.length chosen)))
          by (subst limit; lia).
        reflexivity.
Qed.

(** X10.  What [pick_files] returns, when it returns: the pairs of the
    files that would be picked on their own, in the order of the listing,
    cut after the first one without [download_all] and after
    [max(1, max_files_per_user)] of them with it. *)
Theorem pick_files_cuts_the_eligible_files (files : list json)
    (download_all : bool) (cap : Z) (out : list (json * ustring)) :
  QardBulk.pick_files files download_all cap = Ok out ->
  out = firstn (if download_all then Z.to_nat (Z.max 1 cap) else 1%nat)
               (flat_map (fun f => alone f) files).
Proof.
  intros H. unfold QardBulk.pick_files in H.
  apply pick_loop_cut in H; [|destruct download_all; simpl; lia].
  rewrite H. simpl. now rewrite Nat.sub_0_r.
Qed.

End Picked.

Lemma pick_files_cuts_the_eligible_files_witness :
  [(JStr (lit "f1"), lit "ACT"); (JStr (lit "f2"), lit "ACT")]
  = firstn 2
      (flat_map
         (fun f => match QardBulk.pick_files (T := Latin1.text) [f] false 0
                   with Ok l => l | Fail _ => [] end)
         [ Scenario.qard_file "f0" "invoice"; Scenario.qard_file "f1" "act";
           Scenario.qard_file "f2" "ACT"; Scenario.qard_file "f3" "ACT" ]).
Proof.
  exact (@pick_files_cuts_the_eligible_files Latin1.text
           [ Scenario.qard_file "f0" "invoice"; Scenario.qard_file "f1" "act";
             Scenario.qard_file "f2" "ACT"; Scenario.qard_file "f3" "ACT" ]
           true 2 _ eq_refl).
Defined.

(** ** The requests of a paginated traversal *)

Lemma ustring_eqb_neq (a b : ustring) : a <> b -> ustring_eqb a b = false.
Proof.
  intros H. destruct (ustring_eqb a b) eqn:E; [|reflexivity].
  apply ustring_eqb_eq in E. contradiction.
Qed.

Lemma assoc_dict_set (k k' : ustring) (v : json) (d : QardBulk.dict) :
  assoc k' (QardBulk.dict_set k v d)
  = if ustring_eqb k' k then Some v else assoc k' d.
Proof.
  induction d as [|[k0 v0] d IH]; simpl.
  - reflexivity.
  - destruct (ustring_eqb k k0) eqn:E0; simpl.
    + apply ustring_eqb_eq in E0. subst k0.
      now destruct (ustring_eqb k' k).
    + destruct (ustring_eqb k' k0) eqn:E1.
      * apply ustring_eqb_eq in E1. subst k0.
        rewrite ustring_eqb_neq; [reflexivity|].
        intros ->. now rewrite ustring_eqb_refl in E0.
      * exact IH.
Qed.

Lemma assoc_setdefault (k k' : ustring) (v : json) (d : QardBulk.dict) :
  assoc k' (QardBulk.setdefault k v d)
  = match assoc k' d with
    | Some x => Some x
    | None => if ustring_eqb k' k then Some v else None
    end.
Proof.
  unfold QardBulk.setdefault. destruct (assoc k d) as [x|] eqn:E.
  - destruct (assoc k' d) eqn:E'; [reflexivity|].
    destruct (ustring_eqb k' k) eqn:Ek; [|reflexivity].
    apply ustring_eqb_eq in Ek. subst k'. congruence.
  - rewrite assoc_app. simpl. reflexivity.
Qed.

(** The calls of a drained traversal, in order. *)
Abbreviation asked_in out :=
  (flat_map (fun o => match o with
                      | QardBulk.Asked p params => [(p, params)]
                      | _ => []
                      end) out).

(** The pauses of a drained traversal, in order. *)
Abbreviation pauses_in out :=
  (flat_map (fun o => match o with QardBulk.Slept d => [d] | _ => [] end) out).

Section Traversal.
Context {T : PyText}.
Import QardBulk.

Variables (sess : nat -> Reply) (path : ustring) (base : dict)
          (keys : list ustring).

Lemma asked_in_yields (c : Z) (h : Headers) (items : list json) :
  asked_in (List.map (Yielded c h) items) = []
  /\ pauses_in (List.map (Yielded c h) items) = [].
Proof. induction items as [|i items [IH1 IH2]]; simpl; now split. Qed.

Lemma pages_loop_requests (rounds : nat) :
  forall asked page out e,
    pages_loop rounds sess asked path base keys page = (out, e) ->
    exists n,
      (n <= rounds)%nat
      /\ asked_in out
         = List.map (fun i => (path,
                               dict_set (lit "page") (JInt (page + Z.of_nat i))
                                 (setdefault (lit "per_page") (JInt 100) base)))
                    (seq 0 n)
      /\ pauses_in out
         = repeat CALL_PAUSE (match e with Unfinished => n | _ => n - 1 end)
      /\ (e = Unfinished -> n = rounds)
      /\ (e <> Unfinished -> (1 <= n)%nat).
Proof.
  induction rounds as [|rounds IH]; intros asked page out e H.
  - simpl in H. injection H as <- <-. exists 0%nat. simpl.
    repeat split; auto. congruence.
  - cbn [pages_loop] in H.
    assert (Hone : forall c h items e',
               (out, e) = (Asked path
                             (dict_set (lit "page") (JInt page)
                                (setdefault (lit "per_page") (JInt 100) base))
                           :: List.map (Yielded c h) items, e') ->
               e' <> Unfinished ->
               exists n,
                 (n <= S rounds)%nat
                 /\ asked_in out
                    = List.map
                        (fun i => (path,
                                   dict_set (lit "page")
                                     (JInt (page + Z.of_nat i))
                                     (setdefault (lit "per_page") (JInt 100)
                                        base)))
                        (seq 0 n)
                 /\ pauses_in out
         = repeat CALL_PAUSE (match e with Unfinished => n | _ => n - 1 end)
                 /\ (e = Unfinished -> n = S rounds)
                 /\ (e <> Unfinished -> (1 <= n)%nat)).
    { intros c h items e' E He'. injection E as -> ->. exists 1%nat.
      destruct (asked_in_yields c h items) as [Ha Hp].
      cbn [flat_map app]. rewrite Ha, Hp. cbn [seq List.map Z.of_nat].
      rewrite Z.add_0_r. split; [lia|]. split; [reflexivity|].
      split; [now destruct e'|]. split; [contradiction | lia]. }
    destruct (negb (code (sess asked) =? 200)%Z).
    { apply (Hone (code (sess asked)) (headers (sess asked))
                  [data (sess asked)] Exhausted); [now symmetry | discriminate]. }
    assert (Hrec :
      match find_items (data (sess asked)) keys with
      | Fail e0 => ([Asked path
                       (dict_set (lit "page") (JInt page)
                          (setdefault (lit "per_page") (JInt 100) base))],
                    Raised e0)
      | Ok None =>
          ([Asked path
              (dict_set (lit "page") (JInt page)
                 (setdefault (lit "per_page") (JInt 100) base));
            Yielded 200 (headers (sess asked)) (data (sess asked))], Exhausted)
      | Ok (Some items) =>
          let out :=
            Asked path
              (dict_set (lit "page") (JInt page)
                 (setdefault (lit "per_page") (JInt 100) base))
            :: List.map (Yielded 200 (headers (sess asked))) items in
          match footer (data (sess asked)) page with
          | Fail e0 => (out, Raised e0)
          | Ok (cur, last) =>
              if (last <=? cur)%Z then (out, Exhausted)
              else
                let (more, e0) :=
                  pages_loop rounds sess (S asked) path base keys (page + 1) in
                (out ++ Slept CALL_PAUSE :: more, e0)
          end
      end = (out, e) ->
      exists n,
        (n <= S rounds)%nat
        /\ asked_in out
           = List.map
               (fun i => (path,
                          dict_set (lit "page") (JInt (page + Z.of_nat i))
                            (setdefault (lit "per_page") (JInt 100) base)))
               (seq 0 n)
        /\ pauses_in out
         = repeat CALL_PAUSE (match e with Unfinished => n | _ => n - 1 end)
        /\ (e = Unfinished -> n = S rounds)
        /\ (e <> Unfinished -> (1 <= n)%nat)).
    { clear H. intros H.
      destruct (find_items (data (sess asked)) keys) as [[items|]|e0].
      - cbv zeta in H.
        destruct (footer (data (sess asked)) page) as [[cur last]|e0].
        + destruct (last <=? cur)%Z.
          * apply (Hone 200%Z (headers (sess asked)) items Exhausted);
              [now symmetry | discriminate].
          * destruct (pages_loop rounds sess (S asked) path base keys
                        (page + 1)) as [more e0] eqn:Emore.
            injection H as <- <-.
            destruct (IH _ _ _ _ Emore) as [n [Hn [Ha [Hp [Hu Hd]]]]].
            exists (S n).
            destruct (asked_in_yields 200%Z (headers (sess asked)) items)
              as [Ha0 Hp0].
            cbn [flat_map app]. rewrite !flat_map_app. cbn [flat_map app].
            rewrite Ha0, Hp0, Ha, Hp. cbn [app seq List.map Z.of_nat].
            rewrite Z.add_0_r, <- seq_shift, map_map.
            split; [lia|]. split; [|split; [|split]].
            -- f_equal. apply map_ext. intros i.
               now rewrite Nat2Z.inj_succ, <- Z.add_1_l, Z.add_assoc.
            -- destruct e0; cbn [repeat]; try reflexivity;
                 (destruct n as [|n]; [exfalso; now apply (Nat.nle_succ_0 0), Hd
                                      | simpl; now rewrite Nat.sub_0_r]).
            -- intros He. f_equal. now apply Hu.
            -- intros _. lia.
        + apply (Hone 200%Z (headers (sess asked)) items (Raised e0));
            [now symmetry | discriminate].
      - apply (Hone 200%Z (headers (sess asked)) [data (sess asked)]
                    Exhausted); [now symmetry | discriminate].
      - apply (Hone 200%Z (headers (sess asked)) [] (Raised e0));
          [now symmetry | discriminate]. }
    destruct (data (sess asked)) eqn:Ed; try (apply Hrec; exact H).
    apply (Hone 200%Z (headers (sess asked)) l Exhausted);
      [now symmetry | discriminate].
Qed.

(** X11.  A traversal by [iter_pages] asks for the pages 1, 2, 3, ... in
    turn, whatever page numbers the replies carry, with a pause of
    [CALL_PAUSE] between two requests and none before the first or after
    the last.  Each request carries the page number under "page" and a
    page size under "per_page" (the caller's, or 100 when the caller gave
    none) and leaves the caller's other parameters as they were. *)
Theorem iter_pages_asks_consecutive_pages (rounds : nat) (out : list Out)
    (e : ending) :
  iter_pages rounds sess path base keys = (out, e) ->
  (exists n,
      (n <= rounds)%nat
      /\ asked_in out
         = List.map (fun i => (path,
                               dict_set (lit "page") (JInt (1 + Z.of_nat i))
                                 (setdefault (lit "per_page") (JInt 100) base)))
                    (seq 0 n)
      /\ (e <> Unfinished ->
          (1 <= n)%nat /\ pauses_in out = repeat CALL_PAUSE (n - 1)))
  /\ forall page,
       let params := dict_set (lit "page") (JInt page)
                       (setdefault (lit "per_page") (JInt 100) base) in
       assoc (lit "page") params = Some (JInt page)
       /\ assoc (lit "per_page") params
          = Some (match assoc (lit "per_page") base with
                  | Some v => v
                  | None => JInt 100
                  end)
       /\ forall k, k <> lit "page" -> k <> lit "per_page" ->
                    assoc k params = assoc k base.
Proof.
  intros H. split.
  - apply pages_loop_requests in H.
    destruct H as [n [Hn [Ha [Hp [_ Hd]]]]]. exists n.
    split; [exact Hn|]. split; [exact Ha|]. intros He.
    split; [now apply Hd|]. rewrite Hp. now destruct e.
  - intros page params. unfold params. split; [|split].
    + now rewrite assoc_dict_set, ustring_eqb_refl.
    + rewrite assoc_dict_set.
      change (ustring_eqb (lit "per_page") (lit "page")) with false.
      rewrite assoc_setdefault, ustring_eqb_refl.
      now destruct (assoc (lit "per_page") base).
    + intros k Hk1 Hk2.
      rewrite assoc_dict_set, (ustring_eqb_neq Hk1).
      rewrite assoc_setdefault, (ustring_eqb_neq Hk2).
      now destruct (assoc k base).
Qed.

End Traversal.

Lemma iter_pages_asks_consecutive_pages_witness :
  exists n : nat,
    (n <= 5)%nat
    /\ asked_in
         (fst (QardBulk.iter_pages (T := Latin1.text) 5
                 (fun k => Scenario.envelope [JInt (Z.of_nat k)]
                             7 (if (k <? 2)%nat then 9 else 7))
                 (lit "/api/v6/users") [] [lit "result"]))
       = List.map
           (fun i => (lit "/api/v6/users",
                      QardBulk.dict_set (lit "page") (JInt (1 + Z.of_nat i))
                        (QardBulk.setdefault (lit "per_page") (JInt 100) [])))
           (seq 0 n).
Proof.
  destruct (proj1 (@iter_pages_asks_consecutive_pages Latin1.text
              (fun k => Scenario.envelope [JInt (Z.of_nat k)]
                          7 (if (k <? 2)%nat then 9 else 7))
              (lit "/api/v6/users") [] [lit "result"] 5 _ _ eq_refl))
    as [n [Hn [Ha _]]].
  exists n. split; [exact Hn | exact Ha].
Defined.

(** ** Logging in and the token store *)

(** A run whose outcome is known, as a pair. *)
Lemma run_returns {A} (run : outcome A * World) (a : A) :
  fst run = Done a -> run = (Done a, snd run).
Proof. destruct run as [o w]. simpl. now intros ->. Qed.

Lemma lift_runs {A} (r : res A) (w w' : World) (a : A) :
  lift r w = (Done a, w') -> r = Ok a /\ w' = w.
Proof.
  unfold lift. destruct r; intros H; [|discriminate].
  injection H as <- <-. now split.
Qed.

Section Tokens.
Import Scenario.
Local Open Scope monad_scope.

(** What a call of [login] can do to the world: one request, and possibly
    a new content of the token file. *)
Lemma login_runs (w : World) :
  exists o file,
    login w
    = (o, {| replies := replies w; served := S (served w); unif := unif w;
     lag := lag w; slept := slept w;
             drawn := drawn w; clock := clock w;
             json_limiter := json_limiter w; docs_limiter := docs_limiter w;
             token_file := file; disk := disk w;
             trace := trace w ++ [Request Login JNull (replies w (served w))] |})
    /\ match o with
       | Done JNull => file = token_file w
       | Done (JStr s) =>
           s <> [] /\ file = Some s
           /\ exists status body j,
               replies w (served w) = Http status body
               /\ is_http_error status = false
               /\ body_json body = Some j
               /\ get j "token" = Ok (JStr s)
       | Done _ => False
       | Exit _ => False
       | Crash e =>
           (e = AttributeError /\ file = token_file w)
           \/ (e = TypeError /\ file = Some [])
       end.
Proof.
  unfold login, bind, http, log. cbn.
  destruct (replies w (served w)) as [status body| |] eqn:Er; cbn;
    try (do 2 eexists; split; [reflexivity | reflexivity]).
  destruct (is_http_error status) eqn:Es; cbn;
    [do 2 eexists; split; [reflexivity | reflexivity]|].
  destruct (body_json body) as [j|] eqn:Ej; cbn;
    [|do 2 eexists; split; [reflexivity | reflexivity]].
  unfold lift. destruct (get j "token") as [tok|e] eqn:Eg; cbn.
  - destruct tok as [|b|z|q|s|l|m]; cbn.
    + do 2 eexists; split; [reflexivity | reflexivity].
    + destruct b; cbn; do 2 eexists; (split; [reflexivity|]); cbn; auto.
    + destruct (z =? 0)%Z; cbn; do 2 eexists; (split; [reflexivity|]); cbn;
        auto.
    + destruct (Qnum q =? 0)%Z; cbn; do 2 eexists; (split; [reflexivity|]);
        cbn; auto.
    + destruct s as [|c s]; cbn; do 2 eexists; (split; [reflexivity|]); cbn;
        auto.
      split; [discriminate|]. split; [reflexivity|].
      exists status, body, j. auto.
    + destruct l; cbn; do 2 eexists; (split; [reflexivity|]); cbn; auto.
    + destruct m; cbn; do 2 eexists; (split; [reflexivity|]); cbn; auto.
  - do 2 eexists. split; [reflexivity|]. cbn. left. split; [|reflexivity].
    unfold get, get_or in Eg. destruct j; congruence.
Qed.

(** X12.  A call of [login] that returns has sent one request and done
    nothing else.  When it returns a token, that token is a non-empty
    string, it came under "token" in the body of a reply whose status is no
    error, and it is what the token file holds afterwards; when it returns
    [None] the token file is as it was. *)
Theorem login_returns_the_saved_token (w w' : World) (token : json) :
  login w = (Done token, w') ->
  events_since w w' = [Request Login JNull (replies w (served w))]
  /\ disk w' = disk w
  /\ ((token = JNull /\ token_file w' = token_file w)
      \/ exists s status body j,
           token = JStr s /\ s <> [] /\ token_file w' = Some s
           /\ replies w (served w) = Http status body
           /\ is_http_error status = false
           /\ body_json body = Some j
           /\ get j "token" = Ok (JStr s)).
Proof.
  intros H. destruct (login_runs w) as [o0 [file [E Ho]]].
  rewrite E in H. injection H as -> <-. cbn [disk token_file].
  split; [apply events_since_app; reflexivity|]. split; [reflexivity|].
  destruct token as [| | | |s| |]; try contradiction.
  - now left.
  - right. destruct Ho as [Hs [Hf [status [body [j Hj]]]]].
    exists s, status, body, j. tauto.
Qed.

End Tokens.

Lemma login_returns_the_saved_token_witness :
  let w := Scenario.world [Scenario.logged_in "t1"] 200 40 in
  fst (login w) = Done (JStr (lit "t1"))
  /\ token_file (snd (login w)) = Some (lit "t1").
Proof.
  intros w.
  assert (E : fst (login w) = Done (JStr (lit "t1"))) by reflexivity.
  split; [exact E|].
  destruct (@login_returns_the_saved_token w (snd (login w))
              (JStr (lit "t1")) (run_returns (login w) E))
    as [_ [_ [[H _] | [s [st [b [j [H1 [_ [H2 _]]]]]]]]]].
  - discriminate H.
  - injection H1 as <-. exact H2.
Defined.

(** ** The token probe *)

(** The run made the probe [probe] and then logged in afresh, the token
    file having been deleted in between: what it returns is the new token,
    which the file holds, or [None], and then there is no token file. *)
Abbreviation relogged w w' o probe :=
  (Scenario.requests_in (Scenario.events_since w w')
   = [probe; (Login, JNull, replies w (S (served w)))]
   /\ match o with
      | Done t =>
          (t = JNull /\ token_file w' = None)
          \/ exists s, t = JStr s /\ s <> [] /\ token_file w' = Some s
      | Exit _ => False
      | Crash e => e = AttributeError \/ e = TypeError
      end).

Section Probe.
Import Scenario.
Local Open Scope monad_scope.

(** A limiter wait followed by a call: the call receives the next scripted
    reply; the disk and the token file are as they were. *)
Lemma call_runs {A} (g : Group) (t : Target) (tok : json)
    (k : Response -> M A) (w : World) :
  exists w1 pacing,
    bind (wait g) (fun _ => bind (http t tok) k) w
    = k (replies w (served w)) w1
    /\ replies w1 = replies w /\ unif w1 = unif w
    /\ served w1 = S (served w)
    /\ trace w1 = trace w ++ pacing ++ [Request t tok (replies w (served w))]
    /\ requests_in pacing = [] /\ saved_in pacing = []
    /\ Forall (fun e => exists d, e = Sleep Pacing d) pacing
    /\ disk w1 = disk w /\ token_file w1 = token_file w.
Proof.
  destruct (wait_runs g w)
    as [w0 [Ew [_ [_ [_ [_ [Hr [Hs [Hu [_ [Hf [Hd Ht]]]]]]]]]]]].
  rewrite (@bind_ok _ _ _ _ w _ _ Ew).
  unfold bind, http. rewrite Hr, Hs.
  eexists. exists (skipn (List.length (trace w)) (trace w0)).
  split; [reflexivity|]. cbn.
  assert (Hp : skipn (List.length (trace w)) (trace w0) = []
               \/ exists d, skipn (List.length (trace w)) (trace w0)
                            = [Sleep Pacing d]).
  { destruct Ht as [-> | [d ->]].
    - left. now rewrite skipn_all.
    - right. exists d. now rewrite skipn_app, Nat.sub_diag, skipn_all. }
  repeat split; try assumption; try congruence.
  - destruct Ht as [-> | [d ->]].
    + now rewrite skipn_all, app_nil_l.
    + rewrite skipn_app, Nat.sub_diag, skipn_all. cbn. now rewrite <- app_assoc.
  - destruct Hp as [-> | [d ->]]; reflexivity.
  - destruct Hp as [-> | [d ->]]; reflexivity.
  - destruct Hp as [-> | [d ->]]; repeat constructor. now exists d.
Qed.

Lemma clear_then_login (w : World) :
  (clear_token ;; login) w
  = login {| replies := replies w; served := served w; unif := unif w;
     lag := lag w; slept := slept w;
             drawn := drawn w; clock := clock w;
             json_limiter := json_limiter w; docs_limiter := docs_limiter w;
             token_file := None; disk := disk w; trace := trace w |}.
Proof. reflexivity. Qed.

Lemma relogin_runs (w : World) (pre : list Event) (w0 : World)
    (probe : Target * json * Response) :
  trace w0 = trace w ++ pre -> requests_in pre = [probe] ->
  replies w0 = replies w -> served w0 = S (served w) ->
  disk w0 = disk w ->
  forall o w',
    (clear_token ;; login) w0 = (o, w') ->
    disk w' = disk w /\ relogged w w' o probe.
Proof.
  intros Ht Hp Hr Hs Hd o w' H. rewrite clear_then_login in H.
  match type of H with login ?w1 = _ => set (w2 := w1) in H end.
  destruct (login_runs w2) as [o0 [file [E Ho]]].
  rewrite E in H. clear E. injection H as <- <-. subst w2. cbn in *.
  split; [exact Hd|]. split.
  - erewrite events_since_app;
      [|cbn; rewrite Ht, <- app_assoc; reflexivity].
    unfold requests_in in *. rewrite flat_map_app, Hp. cbn.
    now rewrite Hr, Hs.
  - destruct o0 as [tok|c|e].
    + destruct tok as [| | | |s| |]; try contradiction.
      * left. split; [reflexivity | exact Ho].
      * right. exists s. destruct Ho as [Hne [Hf _]]. auto.
    + exact Ho.
    + destruct Ho as [[-> _]|[-> _]]; auto.
Qed.

(** X13.  [validate_or_refresh_token] sends the probe with the token it is
    given.  A reply that is no error returns that token and leaves the
    token file alone; a 429 raises [SystemExit(2)]; every other outcome,
    a network failure included, deletes the token file and logs in once:
    the function then returns the new token, which the file holds, or
    [None], and then no token file is left. *)
Theorem failed_probe_discards_the_token (token : json) (test_siren : ustring)
    (w w' : World) (o : outcome json) :
  MainPdf2.validate_or_refresh_token token test_siren w = (o, w') ->
  let r := replies w (served w) in
  let probe := (Attachments test_siren, token, r) in
  disk w' = disk w
  /\ match r with
     | Http status _ =>
         if (status =? 429)%Z then
           o = Exit 2 /\ token_file w' = token_file w
           /\ requests_in (events_since w w') = [probe]
         else if (status =? 401)%Z || is_http_error status then
           relogged w w' o probe
         else
           o = Done token /\ token_file w' = token_file w
           /\ requests_in (events_since w w') = [probe]
     | _ => relogged w w' o probe
     end.
Proof.
  intros H r probe. unfold MainPdf2.validate_or_refresh_token in H.
  destruct (@call_runs _ JsonGroup (Attachments test_siren) token
              (fun r =>
                 match r with
                 | Http status _ =>
                     if (status =? 401)%Z then clear_token ;; login
                     else if (status =? 429)%Z then sys_exit 2
                     else if is_http_error status then clear_token ;; login
                     else ret token
                 | _ => clear_token ;; login
                 end) w)
    as [w1 [pacing [E [Hr [_ [Hs [Ht [Hq [_ [_ [Hd Hf]]]]]]]]]]].
  rewrite E in H. clear E. fold r in H, Ht.
  assert (Hreq : requests_in (pacing ++ [Request (Attachments test_siren) token r])
                 = [probe]).
  { unfold requests_in in *. now rewrite flat_map_app, Hq. }
  rewrite app_assoc in Ht. rewrite <- app_assoc in Ht.
  assert (Hre : forall o w',
             (clear_token ;; login) w1 = (o, w') ->
             disk w' = disk w /\ relogged w w' o probe).
  { apply relogin_runs
      with (pre := pacing ++ [Request (Attachments test_siren) token r]);
      assumption. }
  assert (Hstay : forall o0,
             (o0, w1) = (o, w') ->
             disk w' = disk w
             /\ o = o0 /\ token_file w' = token_file w
             /\ requests_in (events_since w w') = [probe]).
  { intros o0 E. injection E as <- <-. split; [exact Hd|].
    split; [reflexivity|]. split; [exact Hf|].
    now rewrite (@events_since_app w w1 _ Ht). }
  destruct r as [status body| |]; try (now apply Hre).
  destruct (status =? 401)%Z eqn:E401.
  - apply Z.eqb_eq in E401. subst status. cbn. now apply Hre.
  - destruct (status =? 429)%Z eqn:E429.
    + destruct (Hstay _ H) as [H1 [H2 H3]]. split; [exact H1|].
      split; [exact H2 | exact H3].
    + cbn [orb]. destruct (is_http_error status).
      * now apply Hre.
      * destruct (Hstay _ H) as [H1 [H2 H3]]. split; [exact H1|].
        split; [exact H2 | exact H3].
Qed.

End Probe.

Lemma failed_probe_discards_the_token_witness :
  let w := Scenario.world [ConnectionError; RequestError] 200 40 in
  let run := MainPdf2.validate_or_refresh_token (JStr (lit "t0"))
               (lit "123456789") w in
  token_file w = Some (lit "t0")
  /\ fst run = Done JNull
  /\ token_file (snd run) = None.
Proof.
  intros w run. split; [reflexivity|]. split; [reflexivity|].
  destruct (proj2 (@failed_probe_discards_the_token (JStr (lit "t0"))
                     (lit "123456789") w (snd run) (fst run)
                     (surjective_pairing run)))
    as [_ H].
  change (fst run) with (Done (A := json) JNull) in H.
  destruct H as [[_ H] | [s [H _]]]; [exact H | discriminate H].
Defined.

(** ** What a listing fetch returns *)

(** The politeness pauses of a trace, in order. *)
Abbreviation pauses_of evs :=
  (flat_map (fun e => match e with Sleep Pause d => [d] | _ => [] end) evs).

(** What holds when a fetch that started in [w] with [token] returns
    [(j, tok)] in [w']. *)
Abbreviation fetched siren token w j tok w' :=
  (disk w' = disk w /\ unif w' = unif w
   /\ exists evs,
       trace w' = trace w ++ evs
       /\ Scenario.saved_in evs = [] /\ pauses_of evs = []
       /\ Forall (fun c => fst (fst c) = Login
                           \/ fst (fst c) = Attachments siren)
                 (Scenario.requests_in evs)
       /\ ((tok = token /\ token_file w' = token_file w)
           \/ (tok = JNull /\ j = JNull /\ token_file w' = None)
           \/ exists s, tok = JStr s /\ s <> [] /\ token_file w' = Some s)
       /\ (j <> JNull ->
           exists pre status body,
             evs = pre ++ [Request (Attachments siren) tok (Http status body)]
             /\ (status < 400)%Z /\ body_json body = Some j)).

Section Fetched.
Import Scenario.
Local Open Scope monad_scope.

(** A retry arm that ends well either gave up at once or slept once and
    went on with the next attempt. *)
Lemma retry_or_runs {A} backoffs lo hi attempt max_attempts
    (again : M A) (failure : A) (w w' : World) (a : A) :
  MainPdf2.retry_or backoffs lo hi attempt max_attempts again failure w
  = (Done a, w') ->
  (a = failure /\ w' = w)
  \/ exists w1 d,
       again w1 = (Done a, w')
       /\ trace w1 = trace w ++ [Sleep Backoff d]
       /\ replies w1 = replies w /\ unif w1 = unif w
       /\ disk w1 = disk w /\ token_file w1 = token_file w.
Proof.
  unfold MainPdf2.retry_or. destruct (attempt <? max_attempts)%Z.
  - unfold bind, random_uniform, time_sleep.
    match goal with |- context [Qltb ?d 0] => destruct (Qltb d 0) end;
      [discriminate|].
    intros H. right. do 2 eexists. split; [exact H|]. cbn. auto.
  - unfold ret. intros H. injection H as <- <-. now left.
Qed.

Variables (max_attempts : Z) (siren : ustring).

Lemma fetch_attempts_sound (todo : nat) :
  forall attempt token w j tok w',
    MainPdf2.fetch_attempts todo attempt max_attempts token siren w
    = (Done (j, tok), w') ->
    fetched siren token w j tok w'.
Proof.
  induction todo as [|todo IH]; intros attempt token w j tok w' H.
  - cbn in H. injection H as <- <- <-.
    split; [reflexivity|]. split; [reflexivity|]. exists [].
    rewrite app_nil_r. repeat split; auto. congruence.
  - cbn [MainPdf2.fetch_attempts] in H.
    match type of H with
    | context [bind (wait ?g) (fun _ => bind (http ?t ?tk) ?k) w] =>
        destruct (call_runs g t tk k w)
          as [w1 [pacing [E [Hr [Hu [Hs [Ht [Hq [Hsv [Hpc [Hd Hf]]]]]]]]]]]
    end.
    rewrite E in H. clear E.
    set (r := replies w (served w)) in *.
    set (call := Request (Attachments siren) token r) in *.
    assert (Hpp : pauses_of pacing = []).
    { clear - Hpc. induction Hpc as [|e l [d ->] _ IH]; [reflexivity | exact IH]. }
    (* the first attempt is followed by a run that meets the
       postcondition from [w1] *)
    assert (Hnext : forall token1 w2 extra,
               trace w2 = trace w1 ++ extra ->
               saved_in extra = [] -> pauses_of extra = [] ->
               Forall (fun c => fst (fst c) = Login
                                \/ fst (fst c) = Attachments siren)
                      (requests_in extra) ->
               disk w2 = disk w1 -> unif w2 = unif w1 ->
               ((token1 = token /\ token_file w2 = token_file w1)
                \/ exists s, token1 = JStr s /\ s <> []
                             /\ token_file w2 = Some s) ->
               fetched siren token1 w2 j tok w' ->
               fetched siren token w j tok w').
    { intros token1 w2 extra Ht2 Hsv2 Hpp2 Hrq2 Hd2 Hu2 Htok
        [Hd3 [Hu3 [evs [Ht3 [Hsv3 [Hpp3 [Hrq3 [Htk3 Hj3]]]]]]]].
      split; [congruence|]. split; [congruence|].
      exists (pacing ++ [call] ++ extra ++ evs).
      split; [rewrite Ht3, Ht2, Ht, <- !app_assoc; reflexivity|].
      unfold saved_in, requests_in in *.
      rewrite !flat_map_app, Hsv, Hsv2, Hsv3, Hq, Hpp, Hpp2, Hpp3.
      split; [reflexivity|]. split; [reflexivity|]. split.
      { cbn. constructor; [now right|]. apply Forall_app. now split. }
      split.
      { destruct Htk3 as [[-> Hf3] | [[-> [-> Hf3]] | [s [-> [Hs3 Hf3]]]]].
        - destruct Htok as [[-> Hf2] | [s [-> [Hs2 Hf2]]]].
          + left. split; [reflexivity | congruence].
          + right. right. exists s. repeat split; auto. congruence.
        - right. left. auto.
        - right. right. exists s. auto. }
      intros Hj. destruct (Hj3 Hj) as [pre [status [body [-> Hrest]]]].
      exists (pacing ++ [call] ++ extra ++ pre), status, body.
      split; [now rewrite <- !app_assoc | exact Hrest]. }
    assert (Hstop : forall j0 tok0,
               (Done (j0, tok0), w1) = (Done (j, tok), w') ->
               (tok0 = token) ->
               (j0 <> JNull ->
                exists status body,
                  r = Http status body /\ (status < 400)%Z
                  /\ body_json body = Some j0) ->
               fetched siren token w j tok w').
    { intros j0 tok0 E Etok Hj0. injection E as <- <- <-.
      split; [exact Hd|]. split; [exact Hu|]. exists (pacing ++ [call]).
      split; [exact Ht|].
      unfold saved_in, requests_in in *.
      rewrite !flat_map_app, Hsv, Hq, Hpp.
      split; [reflexivity|]. split; [reflexivity|]. split.
      { cbn. constructor; [now right | constructor]. }
      split; [left; split; [exact Etok | exact Hf]|].
      intros Hj. destruct (Hj0 Hj) as [status [body [Er Hrest]]].
      exists pacing, status, body. subst tok0. unfold call. rewrite Er.
      split; [reflexivity | exact Hrest]. }
    assert (Hretry :
      MainPdf2.retry_or [3; 8; 20]%Z (5 # 10) (15 # 10) attempt max_attempts
        (MainPdf2.fetch_attempts todo (attempt + 1) max_attempts token siren)
        (JNull, token) w1 = (Done (j, tok), w') ->
      fetched siren token w j tok w').
    { intros Hre. apply retry_or_runs in Hre.
      destruct Hre as [[E ->] | [w2 [d [E [Ht2 [_ [Hu2 [Hd2 Hf2]]]]]]]].
      - apply (Hstop JNull token); [now rewrite E | reflexivity | congruence].
      - apply (Hnext token w2 [Sleep Backoff d]);
          [ exact Ht2 | reflexivity | reflexivity | constructor
          | exact Hd2 | exact Hu2
          | left; split; [reflexivity | exact Hf2]
          | eapply IH; exact E ]. }
    destruct r as [status body| |] eqn:Er; try (apply Hretry; exact H).
    destruct (status =? 401)%Z eqn:E401.
    { (* re-login *)
      change (bind clear_token ?k w1) with
        (k tt {| replies := replies w1; served := served w1; unif := unif w1;
     lag := lag w1; slept := slept w1;
                 drawn := drawn w1; clock := clock w1;
                 json_limiter := json_limiter w1;
                 docs_limiter := docs_limiter w1;
                 token_file := None; disk := disk w1; trace := trace w1 |})
        in H.
      cbv beta in H.
      match type of H with bind login _ ?w0 = _ => set (w2 := w0) in H end.
      destruct (login_runs w2) as [o0 [file [El Ho]]].
      unfold bind in H. rewrite El in H. clear El.
      destruct o0 as [new_token|c|e]; [|discriminate|discriminate].
      destruct new_token as [| | | |s| |]; try contradiction.
      - cbn in H. injection H as <- <- <-. subst file w2. cbn.
        split; [exact Hd|]. split; [exact Hu|].
        exists (pacing ++ [call]
                  ++ [Request Login JNull (replies w1 (served w1))]).
        split; [rewrite Ht, <- !app_assoc; reflexivity|].
        unfold saved_in, requests_in in *.
        rewrite !flat_map_app, Hsv, Hq, Hpp.
        split; [reflexivity|]. split; [reflexivity|]. split.
        { cbn. constructor; [now right|]. constructor; [now left|constructor]. }
        split; [right; left; auto|]. congruence.
      - destruct Ho as [Hs0 [-> _]].
        replace (negb (truthy (JStr s))) with false in H
          by (destruct s; [contradiction | reflexivity]).
        match type of H with _ _ _ _ _ _ ?w0 = _ => set (w3 := w0) in H end.
        apply (Hnext (JStr s) w3
                 [Request Login JNull (replies w1 (served w1))]).
        + reflexivity.
        + reflexivity.
        + reflexivity.
        + constructor; [now left | constructor].
        + reflexivity.
        + reflexivity.
        + right. exists s. auto.
        + eapply IH. exact H. }
    destruct (status =? 429)%Z eqn:E429; [discriminate|].
    destruct (status =? 403)%Z eqn:E403.
    { apply (Hstop JNull token); [exact H | reflexivity | congruence]. }
    destruct (500 <=? status)%Z eqn:E500; [apply Hretry; exact H|].
    destruct (is_http_error status) eqn:Eerr; [apply Hretry; exact H|].
    destruct (body_json body) as [j0|] eqn:Eb; [|apply Hretry; exact H].
    apply (Hstop j0 token); [exact H | reflexivity|].
    intros _. exists status, body. split; [reflexivity|]. split; [|exact Eb].
    unfold is_http_error in Eerr. apply Z.leb_gt in E500.
    apply andb_false_iff in Eerr. destruct Eerr as [Eerr|Eerr].
    + now apply Z.leb_gt in Eerr.
    + apply Z.ltb_ge in Eerr. lia.
Qed.

End Fetched.

(** X14.  When [fetch_attachments] returns a listing that is not [None],
    the listing is the JSON body of the last reply of the call, a reply to
    a request for this identifier whose status is below 400, and the token
    returned is the one that request carried.  The call writes no file and
    asks for nothing but this identifier's listing and logins.  The token
    returned is the one given, the token file being as it was, or the one
    a login of this call obtained, which the file then holds, or [None]
    after a login that failed, and then there is no token file. *)
Theorem fetched_listing_is_the_last_reply (token : json) (siren : ustring)
    (max_attempts : Z) (w w' : World) (j tok : json) :
  MainPdf2.fetch_attachments token siren max_attempts w = (Done (j, tok), w') ->
  let evs := Scenario.events_since w w' in
  disk w' = disk w
  /\ Scenario.saved_in evs = []
  /\ Forall (fun c => fst (fst c) = Login \/ fst (fst c) = Attachments siren)
            (Scenario.requests_in evs)
  /\ ((tok = token /\ token_file w' = token_file w)
      \/ (tok = JNull /\ j = JNull /\ token_file w' = None)
      \/ exists s, tok = JStr s /\ s <> [] /\ token_file w' = Some s)
  /\ (j <> JNull ->
      exists pre status body,
        evs = pre ++ [Request (Attachments siren) tok (Http status body)]
        /\ (status < 400)%Z /\ body_json body = Some j).
Proof.
  intros H evs. unfold MainPdf2.fetch_attachments in H.
  apply fetch_attempts_sound in H.
  destruct H as [Hd [_ [evs' [Ht [Hsv [_ [Hrq [Htok Hj]]]]]]]].
  subst evs. rewrite (@events_since_app w w' evs' Ht). auto.
Qed.

Lemma fetched_listing_is_the_last_reply_witness :
  let w := Scenario.world
             [ Http 500 (Scenario.raw_body []);
               Http 200 (Scenario.ok_body (Scenario.listing [])) ] 200 40 in
  let run := MainPdf2.fetch_attachments (JStr (lit "t0")) (lit "123456789")
               4 w in
  exists pre status body,
    Scenario.events_since w (snd run)
    = pre ++ [Request (Attachments (lit "123456789")) (JStr (lit "t0"))
                (Http status body)]
    /\ (status < 400)%Z.
Proof.
  intros w run.
  assert (Erun : fst run = Done (Scenario.listing [], JStr (lit "t0")))
    by (vm_compute; reflexivity).
  destruct (proj2 (proj2 (proj2 (proj2
             (@fetched_listing_is_the_last_reply (JStr (lit "t0"))
                (lit "123456789") 4 w (snd run)
                (Scenario.listing []) (JStr (lit "t0"))
                (run_returns run Erun))))))
    as [pre [status [body [E [Hs _]]]]].
  - discriminate.
  - exists pre, status, body. split; [exact E | exact Hs].
Defined.

(** ** What a download writes *)

(** What holds when a download that started in [w] with [token] returns
    [t] in [w']. *)
Abbreviation downloaded siren acte_id token w t w' :=
  (unif w' = unif w
   /\ exists evs,
       trace w' = trace w ++ evs
       /\ Forall (fun c => fst (fst c) = Login
                           \/ fst (fst c) = Download acte_id)
                 (Scenario.requests_in evs)
       /\ (t = token \/ exists s, t = JStr s /\ s <> [])
       /\ ((Scenario.saved_in evs = [] /\ pauses_of evs = [] /\ disk w' = disk w)
           \/ exists pre status body,
                evs = pre ++ [ Request (Download acte_id) t (Http status body);
                               Saved (MainPdf2.pdf_name siren acte_id);
                               Sleep Pause 1 ]
                /\ Scenario.saved_in pre = [] /\ pauses_of pre = []
                /\ (status < 400)%Z
                /\ disk w'
                   = (MainPdf2.pdf_name siren acte_id, content body)
                     :: filter (fun f =>
                                  negb (ustring_eqb (fst f)
                                          (MainPdf2.pdf_name siren acte_id)))
                               (disk w))).

Section Downloaded.
Context {T : PyText}.
Import Scenario.
Local Open Scope monad_scope.

Variables (max_attempts : Z) (siren : ustring) (acte_id : json).

Lemma download_attempts_sound (todo : nat) :
  forall attempt token w t w',
    MainPdf2.download_attempts todo attempt max_attempts token siren acte_id w
    = (Done t, w') ->
    downloaded siren acte_id token w t w'.
Proof.
  induction todo as [|todo IH]; intros attempt token w t w' H.
  - cbn in H. injection H as <- <-.
    split; [reflexivity|]. exists [].
    rewrite app_nil_r. repeat split; auto.
  - cbn [MainPdf2.download_attempts] in H.
    match type of H with
    | context [bind (wait ?g) (fun _ => bind (http ?tg ?tk) ?k) w] =>
        destruct (call_runs g tg tk k w)
          as [w1 [pacing [E [Hr [Hu [Hs [Ht [Hq [Hsv [Hpc [Hd Hf]]]]]]]]]]]
    end.
    rewrite E in H. clear E.
    set (r := replies w (served w)) in *.
    set (call := Request (Download acte_id) token r) in *.
    assert (Hpp : pauses_of pacing = []).
    { clear - Hpc. induction Hpc as [|e l [d ->] _ IH]; [reflexivity | exact IH]. }
    assert (Hnext : forall token1 w2 extra,
               trace w2 = trace w1 ++ extra ->
               saved_in extra = [] -> pauses_of extra = [] ->
               Forall (fun c => fst (fst c) = Login
                                \/ fst (fst c) = Download acte_id)
                      (requests_in extra) ->
               disk w2 = disk w1 -> unif w2 = unif w1 ->
               (token1 = token \/ exists s, token1 = JStr s /\ s <> []) ->
               downloaded siren acte_id token1 w2 t w' ->
               downloaded siren acte_id token w t w').
    { intros token1 w2 extra Ht2 Hsv2 Hpp2 Hrq2 Hd2 Hu2 Htok
        [Hu3 [evs [Ht3 [Hrq3 [Htk3 Hres]]]]].
      split; [congruence|].
      exists (pacing ++ [call] ++ extra ++ evs).
      split; [rewrite Ht3, Ht2, Ht, <- !app_assoc; reflexivity|].
      split.
      { unfold requests_in in *. rewrite !flat_map_app, Hq. cbn.
        constructor; [now right|]. apply Forall_app. now split. }
      split.
      { destruct Htk3 as [-> | Hfresh]; [exact Htok | now right]. }
      destruct Hres as [[Hsv3 [Hpp3 Hd3]]
                       | [pre [status [body [-> [Hsv3 [Hpp3 [Hst Hd3]]]]]]]].
      - left. unfold saved_in in *.
        rewrite !flat_map_app, Hsv, Hsv2, Hsv3, Hpp, Hpp2, Hpp3.
        repeat split. congruence.
      - right. exists (pacing ++ [call] ++ extra ++ pre), status, body.
        split; [now rewrite <- !app_assoc|].
        unfold saved_in in *.
        rewrite !flat_map_app, Hsv, Hsv2, Hsv3, Hpp, Hpp2, Hpp3.
        repeat split; try assumption. now rewrite Hd3, Hd2, Hd. }
    assert (Hstop : (Done token, w1) = (Done t, w') ->
                    downloaded siren acte_id token w t w').
    { intros E. injection E as <- <-.
      split; [exact Hu|]. exists (pacing ++ [call]).
      split; [exact Ht|]. split.
      { unfold requests_in in *. rewrite !flat_map_app, Hq. cbn.
        constructor; [now right | constructor]. }
      split; [now left|]. left. unfold saved_in in *.
      rewrite !flat_map_app, Hsv, Hpp. repeat split. exact Hd. }
    assert (Hretry : forall lo hi,
      MainPdf2.retry_or [8; 20; 45]%Z lo hi attempt max_attempts
        (MainPdf2.download_attempts todo (attempt + 1) max_attempts token
           siren acte_id)
        token w1 = (Done t, w') ->
      downloaded siren acte_id token w t w').
    { intros lo hi Hre. apply retry_or_runs in Hre.
      destruct Hre as [[E ->] | [w2 [d [E [Ht2 [_ [Hu2 [Hd2 Hf2]]]]]]]].
      - apply Hstop. now rewrite E.
      - apply (Hnext token w2 [Sleep Backoff d]);
          [ exact Ht2 | reflexivity | reflexivity | constructor
          | exact Hd2 | exact Hu2 | now left | eapply IH; exact E ]. }
    destruct r as [status body| |] eqn:Er; try (eapply Hretry; exact H).
    destruct (status =? 401)%Z eqn:E401.
    { change (bind clear_token ?k w1) with
        (k tt {| replies := replies w1; served := served w1; unif := unif w1;
     lag := lag w1; slept := slept w1;
                 drawn := drawn w1; clock := clock w1;
                 json_limiter := json_limiter w1;
                 docs_limiter := docs_limiter w1;
                 token_file := None; disk := disk w1; trace := trace w1 |})
        in H.
      cbv beta in H.
      match type of H with bind login _ ?w0 = _ => set (w2 := w0) in H end.
      destruct (login_runs w2) as [o0 [file [El Ho]]].
      unfold bind in H. rewrite El in H. clear El.
      destruct o0 as [new_token|c|e]; [|discriminate|discriminate].
      destruct new_token as [| | | |s| |]; try contradiction.
      - cbn in H. injection H as <- <-. subst file w2. cbn.
        split; [exact Hu|].
        exists (pacing ++ [call]
                  ++ [Request Login JNull (replies w1 (served w1))]).
        split; [rewrite Ht, <- !app_assoc; reflexivity|]. split.
        { unfold requests_in in *. rewrite !flat_map_app, Hq. cbn.
          constructor; [now right|]. constructor; [now left|constructor]. }
        split; [now left|]. left. unfold saved_in in *.
        rewrite !flat_map_app, Hsv, Hpp. repeat split. exact Hd.
      - destruct Ho as [Hs0 [-> _]].
        replace (negb (truthy (JStr s))) with false in H
          by (destruct s; [contradiction | reflexivity]).
        match type of H with _ _ _ _ _ _ _ ?w0 = _ => set (w3 := w0) in H end.
        apply (Hnext (JStr s) w3
                 [Request Login JNull (replies w1 (served w1))]);
          [ reflexivity | reflexivity | reflexivity
          | constructor; [now left | constructor]
          | reflexivity | reflexivity
          | right; exists s; auto
          | eapply IH; exact H ]. }
    destruct (status =? 429)%Z eqn:E429; [discriminate|].
    destruct (status =? 403)%Z eqn:E403; [apply Hstop; exact H|].
    destruct (500 <=? status)%Z eqn:E500; [eapply Hretry; exact H|].
    destruct (is_http_error status) eqn:Eerr; [eapply Hretry; exact H|].
    (* the file is written *)
    unfold bind, write_file, time_sleep, ret, log in H. cbn in H.
    injection H as <- <-. cbn.
    split; [exact Hu|].
    exists (pacing ++ [call; Saved (MainPdf2.pdf_name siren acte_id);
                       Sleep Pause 1]).
    split; [rewrite Ht, <- !app_assoc; reflexivity|]. split.
    { unfold requests_in in *. rewrite !flat_map_app, Hq. cbn.
      constructor; [now right | constructor]. }
    split; [now left|]. right. exists pacing, status, body.
    split; [reflexivity|]. split; [exact Hsv|]. split; [exact Hpp|].
    split; [|now rewrite Hd].
    unfold is_http_error in Eerr. apply Z.leb_gt in E500.
    apply andb_false_iff in Eerr. destruct Eerr as [Eerr|Eerr].
    + now apply Z.leb_gt in Eerr.
    + apply Z.ltb_ge in Eerr. lia.
Qed.

End Downloaded.

(** A file of that name is on the disk. *)
Abbreviation on_disk name w :=
  (existsb (fun f => ustring_eqb (fst f) name) (disk w) = true).

Section Saved.
Context {T : PyText}.
Import Scenario.
Local Open Scope monad_scope.

Lemma download_acte_sound (token : json) (siren : ustring) (acte : json)
    (max_attempts : Z) (w w' : World) (t : json) :
  MainPdf2.download_acte token siren acte max_attempts w = (Done t, w') ->
  exists acte_id,
    get acte "id" = Ok acte_id
    /\ downloaded siren acte_id token w t w'.
Proof.
  unfold MainPdf2.download_acte. intros H.
  bind_cases H; [|discriminate|discriminate].
  apply lift_runs in E. destruct E as [Eid ->].
  bind_cases H; [|discriminate|discriminate].
  apply lift_runs in E. destruct E as [_ ->].
  exists a. split; [exact Eid|].
  eapply download_attempts_sound. exact H.
Qed.

(** X15.  A call of [download_acte] that returns wrote no file, and the
    disk is as it was, or it wrote one file, named
    [<siren>_<id>.pdf]: the file holds the content of the last reply of the
    call, a reply to a request for this document whose status is below
    400, and the call ended with a pause of one second.  The call asks for
    nothing but this document and logins, and what it returns is the token
    it was given or a non-empty token, never [None]. *)
Theorem download_writes_at_most_one_file (token : json) (siren : ustring)
    (acte : json) (max_attempts : Z) (w w' : World) (t : json) :
  MainPdf2.download_acte token siren acte max_attempts w = (Done t, w') ->
  let evs := events_since w w' in
  exists acte_id,
    get acte "id" = Ok acte_id
    /\ Forall (fun c => fst (fst c) = Login \/ fst (fst c) = Download acte_id)
              (requests_in evs)
    /\ (t = token \/ exists s, t = JStr s /\ s <> [])
    /\ ((saved_in evs = [] /\ disk w' = disk w)
        \/ exists pre status body,
             evs = pre ++ [ Request (Download acte_id) t (Http status body);
                            Saved (MainPdf2.pdf_name siren acte_id);
                            Sleep Pause 1 ]
             /\ saved_in pre = [] /\ (status < 400)%Z
             /\ disk w'
                = (MainPdf2.pdf_name siren acte_id, content body)
                  :: filter (fun f =>
                               negb (ustring_eqb (fst f)
                                       (MainPdf2.pdf_name siren acte_id)))
                            (disk w)).
Proof.
  intros H evs. apply download_acte_sound in H.
  destruct H as [acte_id [Hid [_ [evs' [Ht [Hrq [Htok Hres]]]]]]].
  exists acte_id. subst evs. rewrite (@events_since_app w w' evs' Ht).
  split; [exact Hid|]. split; [exact Hrq|]. split; [exact Htok|].
  destruct Hres as [[Hsv [_ Hd]] | [pre [status [body [E [Hsv [_ Hrest]]]]]]].
  - left. now split.
  - right. exists pre, status, body. auto.
Qed.

(** ** The totals of a run *)

Lemma on_disk_written (name : ustring) (data : list byte)
    (files : list (ustring * list byte)) (other : ustring) :
  existsb (fun f => ustring_eqb (fst f) other) files = true ->
  existsb (fun f => ustring_eqb (fst f) other)
    ((name, data)
       :: filter (fun f => negb (ustring_eqb (fst f) name)) files) = true.
Proof.
  intros H. cbn [existsb fst]. destruct (ustring_eqb name other) eqn:E;
    [reflexivity|]. cbn [orb].
  apply existsb_exists in H. destruct H as [f [Hf Ho]].
  apply existsb_exists. exists f. split; [|exact Ho].
  apply filter_In. split; [exact Hf|].
  apply ustring_eqb_eq in Ho. rewrite Ho. apply negb_true_iff.
  destruct (ustring_eqb other name) eqn:E'; [|reflexivity].
  apply ustring_eqb_eq in E'. rewrite E' in E.
  now rewrite ustring_eqb_refl in E.
Qed.

(** What holds when the loop over the documents of [s], started in [w]
    with the count [n], ends in [w'] with the count [n']. *)
Lemma download_each_sound (s : ustring) (actes : list json) :
  forall token n w t n' w',
    MainPdf2.download_each token s actes n w = (Done (t, n'), w') ->
    unif w' = unif w
    /\ (forall name, on_disk name w -> on_disk name w')
    /\ ((forall acte id, In acte actes -> get acte "id" = Ok id ->
                         on_disk (MainPdf2.pdf_name s id) w) ->
        n' = (n + List.length actes)%nat)
    /\ exists evs,
         trace w' = trace w ++ evs
         /\ (n + List.length (saved_in evs) <= n')%nat
         /\ (n' <= n + List.length actes)%nat
         /\ Forall (fun name => exists id, name = MainPdf2.pdf_name s id)
                   (saved_in evs)
         /\ pauses_of evs = repeat 1 (List.length (saved_in evs)).
Proof.
  induction actes as [|acte actes IH]; intros token n w t n' w' H.
  - cbn in H. injection H as <- <- <-.
    split; [reflexivity|]. split; [auto|]. split; [intros _; cbn; lia|].
    exists []. rewrite app_nil_r. cbn. repeat split; try lia. constructor.
  - cbn [MainPdf2.download_each] in H.
    bind_cases H; [|discriminate|discriminate].
    apply lift_runs in E. destruct E as [Eid ->]. rename a into acte_id.
    bind_cases H; [|discriminate|discriminate].
    apply download_acte_sound in E.
    destruct E as [id' [Eid' [Hu1 [evs1 [Ht1 [_ [_ Hres]]]]]]].
    rewrite Eid in Eid'. injection Eid' as <-.
    unfold bind at 1 in H. unfold path_exists at 1 in H.
    set (present := existsb _ (disk w0)) in H.
    apply IH in H.
    destruct H as [Hu2 [Hmono2 [Hall2 [evs2 [Ht2 [Hlo [Hhi [Hnm Hps]]]]]]]].
    assert (Hmono1 : forall name, on_disk name w -> on_disk name w0).
    { intros name Hn.
      destruct Hres as [[_ [_ ->]] | [pre [st [bd [_ [_ [_ [_ ->]]]]]]]].
      - exact Hn.
      - now apply on_disk_written. }
    assert (Hcount : (List.length (saved_in evs1) <= 1)%nat
                     /\ (saved_in evs1 <> [] -> present = true)
                     /\ Forall (fun name => exists id,
                                    name = MainPdf2.pdf_name s id)
                               (saved_in evs1)
                     /\ pauses_of evs1
                        = repeat 1 (List.length (saved_in evs1))).
    { destruct Hres as [[-> [-> _]]
                       | [pre [st [bd [-> [Hsv [Hpp [_ Hd]]]]]]]].
      - cbn. repeat split; try lia; try congruence. constructor.
      - unfold saved_in in *. rewrite !flat_map_app, Hsv, Hpp. cbn.
        split; [lia|]. split.
        + intros _. unfold present. rewrite Hd. cbn.
          now rewrite ustring_eqb_refl.
        + split; [|reflexivity]. constructor; [now exists acte_id|constructor]. }
    destruct Hcount as [Hc1 [Hc2 [Hc3 Hc4]]].
    split; [congruence|]. split; [auto|]. split.
    { intros Hall. cbn [List.length].
      assert (Hp : present = true).
      { apply Hmono1. apply (Hall acte acte_id); [now left | exact Eid]. }
      rewrite Hp in Hall2. rewrite Hall2; [lia|].
      intros acte0 id Ha Hid. apply Hmono1.
      apply (Hall acte0 id); [now right | exact Hid]. }
    exists (evs1 ++ evs2).
    split; [rewrite Ht2, Ht1, app_assoc; reflexivity|].
    unfold saved_in in *. rewrite !flat_map_app, !length_app, Hc4, Hps.
    cbn [List.length].
    split.
    { destruct (flat_map _ evs1) as [|x l] eqn:Esv in Hc1, Hc2 |- *.
      - cbn. destruct present; lia.
      - rewrite Hc2 in Hlo by discriminate. cbn in *. lia. }
    split; [destruct present; lia|].
    split; [apply Forall_app; now split|].
    now rewrite repeat_app.
Qed.

End Saved.

Section Totals.
Context {T : PyText}.
Import Scenario.
Local Open Scope monad_scope.

Lemma pause_between_sirens_runs (w w' : World) :
  MainPdf2.pause_between_sirens w = (Done tt, w') ->
  unif w' = unif w
  /\ trace w'
     = trace w ++ [Sleep Pause (MainPdf2.PAUSE_BETWEEN_SIRENS_SEC
                                + (0 + ((2 # 10) - 0) * unif w (drawn w)))].
Proof.
  unfold MainPdf2.pause_between_sirens, bind, random_uniform, time_sleep.
  match goal with |- context [Qltb ?d 0] => destruct (Qltb d 0) end;
    [discriminate|].
  intros H. injection H as <-. cbn. auto.
Qed.

(** The pauses of [evs] are the one-second pauses after a download and the
    pauses between identifiers, which the random source of [w] extends. *)
Abbreviation polite w evs :=
  (Forall (fun d => d = 1
                    \/ exists n, d = MainPdf2.PAUSE_BETWEEN_SIRENS_SEC
                                     + (0 + ((2 # 10) - 0) * unif w n))
          (pauses_of evs)).

Lemma each_siren_sound (sirens : list ustring) :
  forall token found got w found' got' w',
    MainPdf2.each_siren sirens token found got w
    = (Done (found', got'), w') ->
    unif w' = unif w
    /\ exists evs,
         trace w' = trace w ++ evs
         /\ (got + List.length (saved_in evs) <= got')%nat
         /\ (got' + found <= found' + got)%nat
         /\ Forall (fun name => exists s id,
                        In s sirens /\ name = MainPdf2.pdf_name s id)
                   (saved_in evs)
         /\ List.length (pauses_of evs)
            = (List.length sirens + List.length (saved_in evs))%nat
         /\ polite w evs.
Proof.
  induction sirens as [|s sirens IH]; intros token found got w found' got' w' H.
  - cbn in H. injection H as <- <- <-. split; [reflexivity|].
    exists []. rewrite app_nil_r. cbn. repeat split; try lia; constructor.
  - cbn [MainPdf2.each_siren] in H.
    bind_cases H; [|discriminate|discriminate].
    destruct a as [attachments token1].
    unfold MainPdf2.fetch_attachments in E. apply fetch_attempts_sound in E.
    destruct E as [_ [Hu1 [evs1 [Ht1 [Hsv1 [Hpp1 _]]]]]].
    assert (Hrest : forall token2 got2 found2 w2 evs2,
               trace w2 = trace w0 ++ evs2 -> unif w2 = unif w0 ->
               (got + List.length (saved_in evs2) <= got2)%nat ->
               (got2 + found <= found2 + got)%nat ->
               Forall (fun name => exists id, name = MainPdf2.pdf_name s id)
                      (saved_in evs2) ->
               pauses_of evs2 = repeat 1 (List.length (saved_in evs2)) ->
               (pause <- MainPdf2.pause_between_sirens ;;
                MainPdf2.each_siren sirens token2 found2 got2) w2
               = (Done (found', got'), w') ->
               unif w' = unif w
               /\ exists evs,
                    trace w' = trace w ++ evs
                    /\ (got + List.length (saved_in evs) <= got')%nat
                    /\ (got' + found <= found' + got)%nat
                    /\ Forall (fun name => exists s0 id,
                                   In s0 (s :: sirens)
                                   /\ name = MainPdf2.pdf_name s0 id)
                              (saved_in evs)
                    /\ List.length (pauses_of evs)
                       = (List.length (s :: sirens)
                          + List.length (saved_in evs))%nat
                    /\ polite w evs).
    { intros token2 got2 found2 w2 evs2 Ht2 Hu2 Hlo2 Hhi2 Hnm2 Hps2 Hk.
      bind_cases Hk; [|discriminate|discriminate]. destruct a.
      apply pause_between_sirens_runs in E. destruct E as [Hu3 Ht3].
      apply IH in Hk.
      destruct Hk as [Hu4 [evs4 [Ht4 [Hlo4 [Hhi4 [Hnm4 [Hlen4 Hpol4]]]]]]].
      split; [congruence|].
      exists (evs1 ++ evs2
                ++ [Sleep Pause (MainPdf2.PAUSE_BETWEEN_SIRENS_SEC
                                 + (0 + ((2 # 10) - 0) * unif w2 (drawn w2)))]
                ++ evs4).
      split; [rewrite Ht4, Ht3, Ht2, Ht1, <- !app_assoc; reflexivity|].
      unfold saved_in in *.
      rewrite !flat_map_app, Hsv1, Hpp1, Hps2. cbn [flat_map app].
      rewrite !length_app, repeat_length. cbn [List.length].
      split; [lia|]. split; [lia|]. split.
      { apply Forall_app. split.
        - eapply Forall_impl; [|exact Hnm2]. intros name [id ->].
          exists s, id. split; [now left | reflexivity].
        - eapply Forall_impl; [|exact Hnm4]. intros name [s0 [id [Hin ->]]].
          exists s0, id. split; [now right | reflexivity]. }
      split; [lia|].
      apply Forall_app. split.
      { apply Forall_forall. intros d Hd. apply repeat_spec in Hd. now left. }
      constructor.
      { right. exists (drawn w2). now rewrite Hu2, Hu1. }
      eapply Forall_impl; [|exact Hpol4]. intros d [-> | [n ->]];
        [now left | right]. exists n. now rewrite Hu3, Hu2, Hu1. }
    destruct (negb (truthy attachments)).
    + apply (Hrest token1 got found w0 []);
        [ now rewrite app_nil_r | reflexivity | cbn; lia | lia
        | constructor | reflexivity | exact H ].
    + bind_cases H; [|discriminate|discriminate].
      apply lift_runs in E. destruct E as [_ ->]. rename a into actes.
      bind_cases H; [|discriminate|discriminate].
      destruct a as [token2 got2].
      apply download_each_sound in E.
      destruct E as [Hu2 [_ [_ [evs2 [Ht2 [Hlo [Hhi [Hnm Hps]]]]]]]].
      apply (Hrest token2 got2 (found + List.length actes)%nat w1 evs2);
        [ exact Ht2 | exact Hu2 | exact Hlo | lia | exact Hnm | exact Hps
        | exact H ].
Qed.

(** The calls that open a run make no pause and write no file. *)
Lemma get_token_runs (w w' : World) (a : json) :
  get_token w = (Done a, w') ->
  unif w' = unif w
  /\ exists evs,
       trace w' = trace w ++ evs /\ saved_in evs = [] /\ pauses_of evs = [].
Proof.
  unfold get_token, bind, load_token.
  destruct (truthy _).
  - unfold ret. intros H. injection H as _ <-. split; [reflexivity|].
    exists []. now rewrite app_nil_r.
  - intros H. destruct (login_runs w) as [o [file [E _]]].
    rewrite E in H. injection H as _ <-. cbn. split; [reflexivity|].
    eexists. split; [reflexivity|]. now split.
Qed.

Lemma validate_runs (token : json) (s : ustring) (w w' : World) (a : json) :
  MainPdf2.validate_or_refresh_token token s w = (Done a, w') ->
  unif w' = unif w
  /\ exists evs,
       trace w' = trace w ++ evs /\ saved_in evs = [] /\ pauses_of evs = [].
Proof.
  unfold MainPdf2.validate_or_refresh_token. intros H.
  match type of H with
  | context [bind (wait ?g) (fun _ => bind (http ?tg ?tk) ?k) w] =>
      destruct (call_runs g tg tk k w)
        as [w1 [pacing [E [Hr [Hu [Hs [Ht [Hq [Hsv [Hpc [Hd Hf]]]]]]]]]]]
  end.
  rewrite E in H. clear E.
  assert (Hpp : pauses_of pacing = []).
  { clear - Hpc. induction Hpc as [|e l [d ->] _ IH]; [reflexivity | exact IH]. }
  assert (Hstay : (Done token, w1) = (Done a, w') ->
                  unif w' = unif w
                  /\ exists evs,
                       trace w' = trace w ++ evs /\ saved_in evs = []
                       /\ pauses_of evs = []).
  { intros E. injection E as _ <-. split; [exact Hu|].
    eexists. split; [exact Ht|]. unfold saved_in in *.
    rewrite !flat_map_app, Hsv, Hpp. now split. }
  assert (Hre : (clear_token ;; login) w1 = (Done a, w') ->
                unif w' = unif w
                /\ exists evs,
                     trace w' = trace w ++ evs /\ saved_in evs = []
                     /\ pauses_of evs = []).
  { rewrite clear_then_login. intros Hl.
    match type of Hl with login ?w0 = _ => set (w2 := w0) in Hl end.
    destruct (login_runs w2) as [o [file [E _]]].
    rewrite E in Hl. injection Hl as _ <-. subst w2. cbn.
    split; [exact Hu|]. eexists.
    split; [rewrite Ht, <- !app_assoc; reflexivity|].
    unfold saved_in in *. rewrite !flat_map_app, Hsv, Hpp. now split. }
  destruct (replies w (served w)) as [status body| |]; try (now apply Hre).
  destruct (status =? 401)%Z; [now apply Hre|].
  destruct (status =? 429)%Z; [discriminate|].
  destruct (is_http_error status); [now apply Hre | now apply Hstay].
Qed.

(** X16.  When [main] ends with its summary, the number of files it
    reports as downloaded is at least the number of files the run wrote
    and at most the number of matching documents it reports.  Every file
    written is named [<siren>_<id>.pdf] for an identifier of the list, and
    the run made one politeness pause per identifier and one per file
    written; with random numbers between 0 and 1, each pause lasts between
    1 and 1.2 seconds. *)
Theorem main_counts_what_it_saved (sirens : list ustring) (w w' : World)
    (found got : nat) :
  MainPdf2.main sirens w = (Done (Some (found, got)), w') ->
  let evs := events_since w w' in
  (List.length (saved_in evs) <= got)%nat /\ (got <= found)%nat
  /\ Forall (fun name => exists s id,
                 In s sirens /\ name = MainPdf2.pdf_name s id)
            (saved_in evs)
  /\ List.length (pauses_of evs)
     = (List.length sirens + List.length (saved_in evs))%nat
  /\ ((forall n, 0 <= unif w n <= 1) ->
      Forall (fun d => 1 <= d <= 12 # 10) (pauses_of evs)).
Proof.
  intros H evs. unfold MainPdf2.main in H.
  destruct sirens as [|first rest] eqn:Es; [discriminate|]. rewrite <- Es in *.
  bind_cases H; [|discriminate|discriminate].
  apply get_token_runs in E. destruct E as [Hu1 [evs1 [Ht1 [Hsv1 Hpp1]]]].
  destruct (negb (truthy a)); [discriminate|].
  bind_cases H; [|discriminate|discriminate].
  apply validate_runs in E. destruct E as [Hu2 [evs2 [Ht2 [Hsv2 Hpp2]]]].
  destruct (negb (truthy a0)); [discriminate|].
  bind_cases H; [|discriminate|discriminate].
  destruct a1 as [found1 got1]. unfold ret in H. injection H as <- <- <-.
  apply each_siren_sound in E.
  destruct E as [Hu3 [evs3 [Ht3 [Hlo [Hhi [Hnm [Hlen Hpol]]]]]]].
  assert (Hevs : evs = evs1 ++ evs2 ++ evs3).
  { apply events_since_app. now rewrite Ht3, Ht2, Ht1, <- !app_assoc. }
  rewrite Hevs. unfold saved_in in *.
  rewrite !flat_map_app, Hsv1, Hsv2, Hpp1, Hpp2. cbn [app].
  split; [lia|]. split; [lia|]. split; [exact Hnm|]. split; [exact Hlen|].
  intros Hunif. eapply Forall_impl; [|exact Hpol].
  intros d [-> | [n ->]].
  - split; unfold Qle; cbn; lia.
  - specialize (Hunif n). rewrite Hu2, Hu1.
    unfold MainPdf2.PAUSE_BETWEEN_SIRENS_SEC. split; nra.
Qed.

(** X17.  [main] counts a document as downloaded when a file of the
    expected name is on the disk after the attempt, whoever wrote it: in a
    loop over documents whose files are all there already, every document
    is counted, whatever the replies to the downloads. *)
Theorem files_of_an_earlier_run_are_counted (token : json) (s : ustring)
    (actes : list json) (n : nat) (w w' : World) (t : json) (n' : nat) :
  (forall acte id, In acte actes -> get acte "id" = Ok id ->
                   on_disk (MainPdf2.pdf_name s id) w) ->
  MainPdf2.download_each token s actes n w = (Done (t, n'), w') ->
  n' = (n + List.length actes)%nat.
Proof.
  intros Hall H. apply download_each_sound in H.
  destruct H as [_ [_ [Hcount _]]]. now apply Hcount.
Qed.

End Totals.

Lemma download_writes_at_most_one_file_witness :
  let w := Scenario.three_errors_then_file in
  let run := MainPdf2.download_acte (T := Latin1.text) (JStr (lit "t0"))
               (lit "123456789") Scenario.statuts 4 w in
  fst run = Done (JStr (lit "t0"))
  /\ exists acte_id, get Scenario.statuts "id" = Ok acte_id.
Proof.
  intros w run.
  assert (E : fst run = Done (JStr (lit "t0"))) by (vm_compute; reflexivity).
  split; [exact E|].
  destruct (@download_writes_at_most_one_file Latin1.text (JStr (lit "t0"))
              (lit "123456789") Scenario.statuts 4 w (snd run)
              (JStr (lit "t0")) (run_returns run E))
    as [acte_id [H _]].
  exists acte_id. exact H.
Defined.

Lemma main_counts_what_it_saved_witness :
  let w := Scenario.one_document in
  let run := MainPdf2.main (T := Latin1.text) Scenario.two_sirens w in
  fst run = Done (Some (1%nat, 1%nat))
  /\ (List.length (Scenario.saved_in (Scenario.events_since w (snd run)))
      <= 1)%nat.
Proof.
  intros w run.
  assert (E : fst run = Done (Some (1%nat, 1%nat)))
    by (vm_compute; reflexivity).
  split; [exact E|].
  exact (proj1 (@main_counts_what_it_saved Latin1.text Scenario.two_sirens
                  w (snd run) 1%nat 1%nat (run_returns run E))).
Defined.

Lemma files_of_an_earlier_run_are_counted_witness :
  let w := Scenario.already_there in
  let run := MainPdf2.download_each (T := Latin1.text) (JStr (lit "t0"))
               (lit "123456789") [Scenario.statuts] 0 w in
  fst run = Done (JStr (lit "t0"), 1%nat)
  /\ 1%nat = (0 + List.length [Scenario.statuts])%nat.
Proof.
  intros w run.
  assert (E : fst run = Done (JStr (lit "t0"), 1%nat))
    by (vm_compute; reflexivity).
  split; [exact E|].
  apply (@files_of_an_earlier_run_are_counted Latin1.text
           (JStr (lit "t0")) (lit "123456789") [Scenario.statuts] 0%nat
           w (snd run) (JStr (lit "t0")) 1%nat).
  - intros acte id [<- | []] Hid. injection Hid as <-.
    vm_compute. reflexivity.
  - exact (run_returns run E).
Defined.

(** ** How long the limiter holds a caller *)

(** X18.  With a random number between 0 and 1, a [min_interval] that is
    not negative and a sleep that does not end early, [RateLimiter.wait]
    returns, never moves the clock back and sleeps at most once.  The
    sleep it asks for is positive, and at most [min_interval + 0.08]
    seconds when the caller arrives no earlier than the limiter's last
    time stamp; a caller that arrives [min_interval + 0.08] seconds or
    more after the last time stamp is not held at all: [wait] does not
    sleep and the clock stays where it was. *)
Theorem wait_asks_for_no_more_sleep_than_needed (g : Group) (w : World) :
  0 <= unif w (drawn w) <= 1 -> 0 <= min_interval (limiter g w) ->
  0 <= lag w (slept w) ->
  let w' := snd (wait g w) in
  fst (wait g w) = Done tt
  /\ clock w <= clock w'
  /\ (Scenario.events_since w w' = []
      \/ exists d,
           Scenario.events_since w w' = [Sleep Pacing d]
           /\ 0 < d
           /\ (last_ts (limiter g w) <= clock w ->
               d <= min_interval (limiter g w) + (8 # 100))
           /\ clock w + d <= clock w')
  /\ (last_ts (limiter g w) + min_interval (limiter g w) + (8 # 100)
      <= clock w ->
      clock w' = clock w /\ trace w' = trace w).
Proof.
  intros Hu Hmi Hl w'.
  destruct (wait_clock g w) as [w1 [E [_ [_ [_ [_ [_ Hck]]]]]]].
  subst w'. rewrite E. cbn [fst snd].
  assert (Hnx : next_ok g w
                <= last_ts (limiter g w) + min_interval (limiter g w)
                   + (8 # 100)) by nra.
  split; [reflexivity|].
  destruct Hck as [[Hlate [Hc [_ Ht]]] | [Hearly [Hc [_ [d [Hd Ht]]]]]].
  - rewrite Hc. split; [apply Qle_refl|]. split.
    + left. apply events_since_app. now rewrite app_nil_r.
    + intros _. now split.
  - split; [rewrite Hc; lra|]. split.
    + right. exists d. split; [now apply events_since_app|].
      rewrite Hd, Hc. split; [lra|]. split; [intros Hlast; lra | lra].
    + intros Hfar. lra.
Qed.

Lemma wait_asks_for_no_more_sleep_than_needed_witness :
  let w := Scenario.world [] 200 40 in
  trace (snd (wait JsonGroup w)) = trace w.
Proof.
  intros w.
  refine (proj2 (proj2 (proj2 (proj2
            (@wait_asks_for_no_more_sleep_than_needed JsonGroup w _ _ _)))
            _)).
  - split; vm_compute; discriminate.
  - vm_compute. discriminate.
  - vm_compute. discriminate.
  - vm_compute. discriminate.
Defined.

(** ** The single-identifier scripts: what they ask and in which order *)

(** No event of [evs] is a request for a listing. *)
Abbreviation listing_free evs :=
  (Forall (fun e => Scenario.is_listing_request e = false) evs).

(** No event of [evs] is a sleep. *)
Abbreviation sleepless evs :=
  (Forall (fun e => match e with Sleep _ _ => False | _ => True end) evs).

Section Emits.
Import Scenario.
Local Open Scope monad_scope.
Variable P : Event -> Prop.

Lemma emits_ret {A} (a : A) : emits P (ret a).
Proof. intros w. exists []. now rewrite app_nil_r. Qed.

Lemma emits_lift {A} (r : res A) : emits P (lift r).
Proof. intros w. exists []. cbn. now rewrite app_nil_r. Qed.

Lemma emits_bind {A B} (m : M A) (k : A -> M B) :
  emits P m -> (forall a, emits P (k a)) -> emits P (bind m k).
Proof.
  intros Hm Hk w. destruct (Hm w) as [evs1 [H1 F1]]. unfold bind.
  destruct (m w) as [[a|c|e] w1]; cbn [snd] in *;
    try (exists evs1; now split).
  destruct (Hk a w1) as [evs2 [H2 F2]]. exists (evs1 ++ evs2).
  split; [now rewrite H2, H1, app_assoc | now apply Forall_app].
Qed.

Lemma emits_http (t : Target) (tok : json) :
  (forall r, P (Request t tok r)) -> emits P (http t tok).
Proof. intros H w. eexists. split; [reflexivity|]. repeat constructor. apply H. Qed.

Lemma emits_login : (forall r, P (Request Login JNull r)) -> emits P login.
Proof.
  intros H w. destruct (login_runs w) as [o [file [E _]]]. rewrite E.
  eexists. split; [reflexivity|]. repeat constructor. apply H.
Qed.

Lemma emits_clear_token : emits P clear_token.
Proof. intros w. exists []. cbn. now rewrite app_nil_r. Qed.

Lemma emits_write_file (name : ustring) (data : list byte) :
  P (Saved name) -> emits P (write_file name data).
Proof. intros H w. eexists. split; [reflexivity|]. now repeat constructor. Qed.

Lemma emits_events {A} (m : M A) (w w' : World) (o : outcome A) evs :
  emits P m -> m w = (o, w') -> trace w' = trace w ++ evs -> Forall P evs.
Proof.
  intros Hm E Ht. destruct (Hm w) as [evs' [Ht' F]]. rewrite E in Ht'.
  cbn [snd] in Ht'. rewrite Ht in Ht'. apply app_inv_head in Ht'. now subst.
Qed.

End Emits.

Section V1.
Context {T : PyText}.
Import Scenario.
Local Open Scope monad_scope.

Lemma download_base64_asks_no_listing (depth : nat) (token acte : json) :
  emits (fun e => is_listing_request e = false)
        (MainPdfJson.download_acte_base64 depth token acte).
Proof.
  revert token. induction depth as [|depth IH]; intros token.
  - apply emits_lift.
  - cbn [MainPdfJson.download_acte_base64].
    apply emits_bind; [apply emits_lift | intros id].
    apply emits_bind; [now apply emits_http | intros resp].
    destruct resp as [status body| |]; try apply emits_ret.
    destruct (status =? 401)%Z.
    + apply emits_bind; [apply emits_clear_token | intros _].
      apply emits_bind; [now apply emits_login | intros new_token].
      destruct (negb (truthy new_token)); [apply emits_ret | apply IH].
    + destruct (is_http_error status); apply emits_ret.
Qed.

Lemma collect_asks_no_listing (depth : nat) (token : json)
    (actes : list json) :
  forall output,
    emits (fun e => is_listing_request e = false)
          (MainPdfJson.collect depth token actes output).
Proof.
  induction actes as [|acte actes IH]; intros output.
  - apply emits_ret.
  - cbn [MainPdfJson.collect].
    apply emits_bind; [apply emits_lift | intros label].
    apply emits_bind; [apply emits_lift | intros id].
    apply emits_bind; [apply download_base64_asks_no_listing | intros b64].
    destruct (negb (truthy b64)); apply IH.
Qed.

Lemma download_asks_no_listing (depth : nat) (token acte : json) :
  emits (fun e => is_listing_request e = false)
        (MainPdf.download_acte depth token acte).
Proof.
  revert token. induction depth as [|depth IH]; intros token.
  - apply emits_lift.
  - cbn [MainPdf.download_acte].
    apply emits_bind; [apply emits_lift | intros id].
    apply emits_bind; [apply emits_lift | intros _].
    apply emits_bind; [now apply emits_http | intros resp].
    destruct resp as [status body| |]; try apply emits_ret.
    destruct (status =? 401)%Z.
    + apply emits_bind; [apply emits_clear_token | intros _].
      apply emits_bind; [now apply emits_login | intros new_token].
      destruct (negb (truthy new_token)); [apply emits_ret | apply IH].
    + destruct (is_http_error status); [apply emits_ret|].
      now apply emits_write_file.
Qed.

Lemma download_all_asks_no_listing (depth : nat) (token : json)
    (actes : list json) :
  emits (fun e => is_listing_request e = false)
        (MainPdf.download_all depth token actes).
Proof.
  induction actes as [|acte actes IH].
  - apply emits_ret.
  - cbn [MainPdf.download_all].
    apply emits_bind; [apply download_asks_no_listing | intros _; exact IH].
Qed.

Lemma get_token_events (w w' : World) (a : json) :
  get_token w = (Done a, w') ->
  exists evs,
    trace w' = trace w ++ evs /\ saved_in evs = [] /\ sleepless evs.
Proof.
  unfold get_token, bind, load_token.
  destruct (truthy _).
  - unfold ret. intros H. injection H as _ <-.
    exists []. rewrite app_nil_r. repeat split. constructor.
  - intros H. destruct (login_runs w) as [o [file [E _]]].
    rewrite E in H. injection H as _ <-. cbn.
    eexists. split; [reflexivity|]. split; [reflexivity|].
    repeat constructor.
Qed.

(** What [fetch_attachments] returns: [None], or the JSON body of the last
    reply of the call, which answered a request for the listing and was
    neither an error nor a 401. *)
Lemma v1_fetch_last (depth : nat) :
  forall token w j w',
    MainPdf.fetch_attachments depth token w = (Done j, w') ->
    exists evs,
      trace w' = trace w ++ evs /\ saved_in evs = [] /\ sleepless evs
      /\ (j = JNull
          \/ exists pre tok status body,
               evs = pre ++ [Request (Attachments MainPdf.siren) tok
                               (Http status body)]
               /\ is_http_error status = false /\ status <> 401%Z
               /\ body_json body = Some j).
Proof.
  induction depth as [|depth IH]; intros token w j w' H.
  - cbn in H. discriminate.
  - cbn [MainPdf.fetch_attachments] in H.
    unfold bind at 1 in H. unfold http at 1 in H.
    set (r := replies w (served w)) in *.
    match type of H with _ ?w0 = _ => set (w1 := w0) in H end.
    assert (Hstop : (Done JNull, w1) = (Done j, w') ->
               exists evs,
                 trace w' = trace w ++ evs /\ saved_in evs = []
                 /\ sleepless evs
                 /\ (j = JNull
                     \/ exists pre tok status body,
                          evs = pre ++ [Request (Attachments MainPdf.siren)
                                          tok (Http status body)]
                          /\ is_http_error status = false /\ status <> 401%Z
                          /\ body_json body = Some j)).
    { intros E. injection E as <- <-. eexists.
      split; [reflexivity|]. split; [reflexivity|].
      split; [repeat constructor | now left]. }
    destruct r as [status body| |] eqn:Er; try (now apply Hstop).
    destruct (status =? 401)%Z eqn:E401.
    + change (bind clear_token ?k w1) with
        (k tt {| replies := replies w1; served := served w1; unif := unif w1;
                 lag := lag w1; slept := slept w1;
                 drawn := drawn w1; clock := clock w1;
                 json_limiter := json_limiter w1;
                 docs_limiter := docs_limiter w1;
                 token_file := None; disk := disk w1; trace := trace w1 |})
        in H.
      cbv beta in H.
      match type of H with bind login _ ?w0 = _ => set (w2 := w0) in H end.
      destruct (login_runs w2) as [o0 [file [El _]]].
      unfold bind in H. rewrite El in H. clear El.
      destruct o0 as [new_token|c|e]; [|discriminate|discriminate].
      destruct (negb (truthy new_token)).
      * unfold ret in H. injection H as <- <-. eexists.
        split; [cbn; rewrite <- app_assoc; reflexivity|].
        split; [reflexivity|]. split; [repeat constructor | now left].
      * apply IH in H. destruct H as [evs [Ht [Hsv [Hsl Hj]]]].
        exists ([Request (Attachments MainPdf.siren) token (Http status body);
                 Request Login JNull (replies w2 (served w2))] ++ evs).
        split; [rewrite Ht; cbn; rewrite <- !app_assoc; reflexivity|].
        split; [exact Hsv|]. split; [repeat constructor; exact Hsl|].
        destruct Hj as [-> | [pre [tok [st [bd [-> Hrest]]]]]];
          [now left | right].
        exists ([Request (Attachments MainPdf.siren) token (Http status body);
                 Request Login JNull (replies w2 (served w2))] ++ pre),
          tok, st, bd.
        split; [now rewrite <- app_assoc | exact Hrest].
    + destruct (is_http_error status) eqn:Eerr; [now apply Hstop|].
      destruct (body_json body) as [j0|] eqn:Ej; [|now apply Hstop].
      unfold ret in H. injection H as <- <-. eexists.
      split; [reflexivity|]. split; [reflexivity|].
      split; [repeat constructor|]. right.
      exists [], token, status, body.
      split; [reflexivity|]. split; [exact Eerr|].
      split; [now apply Z.eqb_neq | exact Ej].
Qed.

Lemma subsequence_length (a b : list json) :
  subsequence a b -> (List.length a <= List.length b)%nat.
Proof.
  revert a. induction b as [|y b IH]; intros a H; simpl in H.
  - subst a. simpl. lia.
  - destruct H as [H | H].
    + apply IH in H. simpl. lia.
    + destruct a as [|x a]; [destruct H|]. destruct H as [_ H].
      apply IH in H. simpl. lia.
Qed.

End V1.

(** ** The entries of the JSON variant *)

Lemma b64encode_empty (data : list byte) :
  MainPdfJson.b64encode data = [] <-> data = [].
Proof.
  split; [|now intros ->].
  destruct data as [|a [|b [|c rest]]]; [reflexivity | | |]; discriminate.
Qed.

(** The entry that [main] writes for [acte]. *)
Abbreviation entry_of acte e :=
  (exists label id,
      MainPdfJson.choose_acte_label acte = Ok label
      /\ get acte "id" = Ok id
      /\ e = JObj [ (lit "siren", JStr MainPdfJson.siren);
                    (lit "typeActe", label);
                    (lit "id", id);
                    (lit "mime", JStr (lit "application/pdf")) ]).

(** The download of [acte] was answered in [evs] by a reply that is no
    error and has a content. *)
Abbreviation fetched_in evs acte :=
  (exists id tok status body,
      get acte "id" = Ok id
      /\ In (Request (Download id) tok (Http status body)) evs
      /\ is_http_error status = false
      /\ content body <> []).

Section JsonEntries.
Context {T : PyText}.
Import Scenario.
Local Open Scope monad_scope.

Lemma subsequence_nil (b : list json) : subsequence [] b.
Proof. induction b as [|y b IH]; simpl; auto. Qed.

(** What [download_acte_base64] returns: [None], or the base64 text of the
    content of the last reply, which answered a request for this document
    and was no error. *)
Lemma download_base64_sound (depth : nat) :
  forall token acte w b w',
    MainPdfJson.download_acte_base64 depth token acte w = (Done b, w') ->
    exists evs,
      trace w' = trace w ++ evs
      /\ saved_in evs = []
      /\ Forall (fun e => match e with Sleep _ _ => False | _ => True end) evs
      /\ (b = JNull
          \/ exists pre tok id status body,
               evs = pre ++ [Request (Download id) tok (Http status body)]
               /\ get acte "id" = Ok id
               /\ is_http_error status = false /\ status <> 401%Z
               /\ b = JStr (MainPdfJson.b64encode (content body))).
Proof.
  induction depth as [|depth IH]; intros token acte w b w' H.
  - cbn in H. discriminate.
  - cbn [MainPdfJson.download_acte_base64] in H.
    bind_cases H; [|discriminate|discriminate].
    apply lift_runs in E. destruct E as [Eid ->]. rename a into id.
    unfold bind at 1 in H. unfold http at 1 in H.
    set (r := replies w (served w)) in *.
    match type of H with _ ?w0 = _ => set (w1 := w0) in H end.
    assert (Ht1 : trace w1 = trace w ++ [Request (Download id) token r])
      by reflexivity.
    assert (Hnull : (Done JNull, w1) = (Done b, w') ->
              exists evs,
                trace w' = trace w ++ evs
                /\ saved_in evs = []
                /\ Forall (fun e => match e with
                                    | Sleep _ _ => False
                                    | _ => True
                                    end) evs
                /\ (b = JNull
                    \/ exists pre tok id0 status body,
                         evs = pre ++ [Request (Download id0) tok
                                         (Http status body)]
                         /\ get acte "id" = Ok id0
                         /\ is_http_error status = false /\ status <> 401%Z
                         /\ b = JStr (MainPdfJson.b64encode (content body)))).
    { intros E. injection E as <- <-. eexists. split; [exact Ht1|].
      split; [reflexivity|]. split; [repeat constructor | now left]. }
    destruct r as [status body| |] eqn:Er; try (now apply Hnull).
    destruct (status =? 401)%Z eqn:E401.
    + change (bind clear_token ?k w1) with
        (k tt {| replies := replies w1; served := served w1; unif := unif w1;
     lag := lag w1; slept := slept w1;
                 drawn := drawn w1; clock := clock w1;
                 json_limiter := json_limiter w1;
                 docs_limiter := docs_limiter w1;
                 token_file := None; disk := disk w1; trace := trace w1 |})
        in H.
      cbv beta in H.
      match type of H with bind login _ ?w0 = _ => set (w2 := w0) in H end.
      destruct (login_runs w2) as [o0 [file [El _]]].
      unfold bind in H. rewrite El in H. clear El.
      destruct o0 as [new_token|c|e]; [|discriminate|discriminate].
      destruct (negb (truthy new_token)).
      * unfold ret in H. injection H as <- <-. eexists.
        split; [cbn; rewrite <- app_assoc; reflexivity|].
        split; [reflexivity|]. split; [repeat constructor | now left].
      * apply IH in H. destruct H as [evs [Ht [Hsv [Hsl Hb]]]].
        exists ([Request (Download id) token (Http status body);
                 Request Login JNull (replies w2 (served w2))] ++ evs).
        split; [rewrite Ht; cbn; now rewrite <- !app_assoc|].
        split; [exact Hsv|]. split; [repeat constructor; exact Hsl|].
        destruct Hb as [-> | [pre [tok [id0 [st [bd [-> Hrest]]]]]]];
          [now left | right].
        exists ([Request (Download id) token (Http status body);
                 Request Login JNull (replies w2 (served w2))] ++ pre),
          tok, id0, st, bd.
        split; [now rewrite <- app_assoc | exact Hrest].
    + destruct (is_http_error status) eqn:Eerr; [now apply Hnull|].
      unfold ret in H. injection H as <- <-. eexists.
      split; [exact Ht1|]. split; [reflexivity|].
      split; [repeat constructor|]. right.
      exists [], token, id, status, body.
      split; [reflexivity|]. split; [exact Eid|]. split; [exact Eerr|].
      split; [|reflexivity]. now apply Z.eqb_neq.
Qed.

(** X19.  [download_acte_base64] returns [None] or the base64 text of the
    content of the last reply of the call, which answered a request for
    this document and was neither an error nor a 401.  The text is empty
    exactly when that content is, and then [main] treats the document as
    one that failed.  The call never sleeps and writes no file. *)
Theorem base64_of_the_last_reply (depth : nat) (token acte : json)
    (w w' : World) (b : json) :
  MainPdfJson.download_acte_base64 depth token acte w = (Done b, w') ->
  let evs := events_since w w' in
  saved_in evs = []
  /\ Forall (fun e => match e with Sleep _ _ => False | _ => True end) evs
  /\ (b = JNull
      \/ exists pre tok id status body,
           evs = pre ++ [Request (Download id) tok (Http status body)]
           /\ get acte "id" = Ok id
           /\ is_http_error status = false /\ status <> 401%Z
           /\ b = JStr (MainPdfJson.b64encode (content body))
           /\ (truthy b = false <-> content body = [])).
Proof.
  intros H evs. apply download_base64_sound in H.
  destruct H as [evs' [Ht [Hsv [Hsl Hb]]]].
  subst evs. rewrite (@events_since_app w w' evs' Ht).
  split; [exact Hsv|]. split; [exact Hsl|].
  destruct Hb as [-> | [pre [tok [id [st [bd [E [Hid [He [H4 ->]]]]]]]]]];
    [now left | right].
  exists pre, tok, id, st, bd. repeat split; try assumption.
  - cbn. destruct (MainPdfJson.b64encode (content bd)) eqn:Eb;
      [intros _; now apply b64encode_empty | discriminate].
  - intros ->. reflexivity.
Qed.

Lemma subsequence_in (a b : list json) (x : json) :
  subsequence a b -> In x a -> In x b.
Proof.
  revert a. induction b as [|y b IH]; intros a Hs Hx; simpl in Hs.
  - subst a. destruct Hx.
  - destruct Hs as [Hs | Hs].
    + right. eapply IH; eassumption.
    + destruct a as [|x0 a]; [destruct Hs|]. destruct Hs as [-> Hs].
      destruct Hx as [-> | Hx]; [now left | right]. eapply IH; eassumption.
Qed.

Lemma collect_kept (depth : nat) (token : json) (actes : list json) :
  forall output w out w',
    MainPdfJson.collect depth token actes output w = (Done out, w') ->
    exists kept entries evs,
      out = output ++ entries
      /\ trace w' = trace w ++ evs
      /\ subsequence kept actes
      /\ Forall2 (fun acte e => entry_of acte e) kept entries
      /\ Forall (fun acte => fetched_in evs acte) kept.
Proof.
  induction actes as [|acte actes IH]; intros output w out w' H.
  - cbn in H. injection H as <- <-. exists [], [], [].
    rewrite !app_nil_r. repeat split; constructor.
  - cbn [MainPdfJson.collect] in H.
    bind_cases H; [|discriminate|discriminate].
    apply lift_runs in E. destruct E as [El ->]. rename a into label.
    bind_cases H; [|discriminate|discriminate].
    apply lift_runs in E. destruct E as [Eid ->]. rename a into id.
    bind_cases H; [|discriminate|discriminate].
    apply download_base64_sound in E.
    destruct E as [evs1 [Ht1 [_ [_ Hb]]]].
    destruct (negb (truthy a)) eqn:Eb.
    + apply IH in H.
      destruct H as [kept [entries [evs2 [-> [Ht2 [Hsub [Hall Hf]]]]]]].
      exists kept, entries, (evs1 ++ evs2). split; [reflexivity|].
      split; [now rewrite Ht2, Ht1, app_assoc|].
      split; [now left|]. split; [exact Hall|].
      eapply Forall_impl; [|exact Hf].
      intros x [i [tok [st [bd [H1 [H2 H3]]]]]]. exists i, tok, st, bd.
      split; [exact H1|]. split; [|exact H3]. apply in_or_app. now right.
    + apply IH in H.
      destruct H as [kept [entries [evs2 [-> [Ht2 [Hsub [Hall Hf]]]]]]].
      eexists (acte :: kept), (_ :: entries), (evs1 ++ evs2).
      split; [now rewrite <- app_assoc|].
      split; [now rewrite Ht2, Ht1, app_assoc|].
      split; [right; now split|].
      split; [constructor; [|exact Hall]; exists label, id; auto|].
      constructor.
      * destruct Hb as [-> | [pre [tok [id0 [st [bd [-> [Hid [He [_ ->]]]]]]]]]];
          [discriminate Eb|].
        exists id0, tok, st, bd. split; [exact Hid|].
        split; [apply in_or_app; left; apply in_or_app; right; now left|].
        split; [exact He|]. intros Hc. rewrite Hc in Eb. discriminate Eb.
      * eapply Forall_impl; [|exact Hf].
        intros x [i [tok [st [bd [H1 [H2 H3]]]]]]. exists i, tok, st, bd.
        split; [exact H1|]. split; [|exact H3]. apply in_or_app. now right.
Qed.

(** X20.  In a run of [main] of the JSON variant that writes its array,
    the listing is the JSON body of the last reply to a request for the
    listing, a reply that is no error; the array has one entry for some of
    the documents that [filter_actes] keeps of that listing, in the order
    of the listing, and nothing else.  A document has an entry only if a
    request for it, made after the listing came, was answered without
    error and with a content.  The entry of a document holds the
    identifier of the script, the document's own id and the label that
    [choose_acte_label] gives, whose normal form contains an allowed
    type. *)
Theorem json_entries_follow_the_listing (depth : nat) (w w' : World)
    (out : list json) :
  MainPdfJson.main depth w = (Done (Some out), w') ->
  exists before tok status body after attachments actes kept,
    events_since w w'
    = before ++ Request (Attachments MainPdfJson.siren) tok (Http status body)
             :: after
    /\ listing_free after
    /\ is_http_error status = false
    /\ body_json body = Some attachments
    /\ MainPdfJson.filter_actes attachments = Ok actes
    /\ subsequence kept actes
    /\ Forall (fun acte => fetched_in after acte) kept
    /\ Forall2 (fun acte e =>
                  entry_of acte e
                  /\ exists label n,
                       MainPdfJson.choose_acte_label acte = Ok label
                       /\ normalize label = Ok n
                       /\ is_allowed_type n = true)
               kept out.
Proof.
  unfold MainPdfJson.main. intros H.
  bind_cases H; [|discriminate|discriminate].
  apply get_token_events in E. destruct E as [evs1 [Ht1 _]].
  destruct (negb (truthy a)); [discriminate|].
  bind_cases H; [|discriminate|discriminate].
  apply v1_fetch_last in E. destruct E as [evs2 [Ht2 [_ [_ Hj]]]].
  destruct (negb (truthy a0)) eqn:Etr; [discriminate|].
  destruct Hj as [-> | [pre [tok [status [body [-> [Herr [_ Hbody]]]]]]]];
    [discriminate Etr|].
  bind_cases H; [|discriminate|discriminate].
  apply lift_runs in E. destruct E as [Ef ->]. rename a1 into actes.
  bind_cases H; [|discriminate|discriminate].
  unfold ret in H. injection H as <- <-.
  pose proof (collect_asks_no_listing depth a actes []) as Hno.
  pose proof E as Ec.
  apply collect_kept in E.
  destruct E as [kept [entries [evs3 [-> [Ht3 [Hsub [Hall Hf]]]]]]].
  assert (Hfree : listing_free evs3)
    by (eapply emits_events; [exact Hno | exact Ec | exact Ht3]).
  exists (evs1 ++ pre), tok, status, body, evs3, a0, actes, kept.
  split.
  { apply events_since_app. rewrite Ht3, Ht2, Ht1, <- !app_assoc.
    reflexivity. }
  split; [exact Hfree|]. split; [exact Herr|]. split; [exact Hbody|].
  split; [exact Ef|]. split; [exact Hsub|]. split; [exact Hf|].
  cbn [app].
  assert (Hkept : forall acte, In acte kept -> MainPdf.keeps acte = Ok true).
  { intros acte Hin. apply (subsequence_in _ _ _ Hsub) in Hin.
    unfold MainPdfJson.filter_actes, MainPdf.filter_actes in Ef.
    destruct (get_or a0 "actes" (JList [])) as [v|]; cbn [res_bind] in Ef;
      [|discriminate].
    destruct (iterate v) as [l|]; cbn [res_bind] in Ef; [|discriminate].
    apply filter_loop_ok in Ef. destruct Ef as [-> _].
    apply filter_In in Hin. destruct Hin as [_ Hk].
    destruct (MainPdf.keeps acte) as [[|]|]; congruence. }
  clear Hsub Hf Ec Hno. induction Hall as [|acte e kept entries He Hall IH];
    constructor.
  - split; [exact He|].
    destruct (label_agrees_with_filter acte (Hkept acte (or_introl eq_refl)))
      as [label [El [Hn _]]].
    destruct (Hn eq_refl) as [n [En Ha]]. now exists label, n.
  - apply IH. intros a1 Hin. apply Hkept. now right.
Qed.

End JsonEntries.

Lemma base64_of_the_last_reply_witness :
  let acte := Scenario.statuts in
  let w := Scenario.world [Http 200 (Scenario.raw_body [])] 200 40 in
  let run := MainPdfJson.download_acte_base64 8 (JStr (lit "t0")) acte w in
  fst run = Done (JStr [])
  /\ Scenario.saved_in (Scenario.events_since w (snd run)) = [].
Proof.
  intros acte w run.
  assert (E : fst run = Done (JStr [])) by (vm_compute; reflexivity).
  split; [exact E|].
  exact (proj1 (@base64_of_the_last_reply 8 (JStr (lit "t0")) acte w
                  (snd run) (JStr []) (run_returns run E))).
Defined.

Lemma json_entries_follow_the_listing_witness :
  let w := Scenario.world
             [ Http 200 (Scenario.ok_body (Scenario.listing [Scenario.statuts]));
               Http 200 (Scenario.raw_body [x25; x50; x44; x46]%byte) ]
             200 40 in
  let run := MainPdfJson.main (T := Latin1.text) 8 w in
  exists out before tok status body after attachments actes,
    fst run = Done (Some out)
    /\ Scenario.events_since w (snd run)
       = before
           ++ Request (Attachments MainPdfJson.siren) tok (Http status body)
           :: after
    /\ body_json body = Some attachments
    /\ MainPdfJson.filter_actes (T := Latin1.text) attachments = Ok actes.
Proof.
  intros w run.
  assert (E : fst run
              = Done (Some [JObj [ (lit "siren", JStr (lit "834816985"));
                                  (lit "typeActe",
                                   JStr (lit "Statuts constitutifs"));
                                  (lit "id", JStr (lit "A1"));
                                  (lit "mime", JStr (lit "application/pdf")) ]]))
    by (vm_compute; reflexivity).
  destruct (@json_entries_follow_the_listing Latin1.text 8 w (snd run) _
              (run_returns run E))
    as [before [tok [status [body [after [attachments [actes [kept
         [Hev [_ [_ [Hb [Hf _]]]]]]]]]]]]].
  eexists. exists before, tok, status, body, after, attachments, actes.
  split; [exact E|]. split; [exact Hev|]. split; [exact Hb | exact Hf].
Defined.

(** ** main_pdf.py: what a run writes and what it costs *)

(** What holds when a download of main_pdf.py that started in [w] with
    [token] ends in [w']. *)
Abbreviation downloaded_once acte token w w' :=
  (exists id evs,
      get acte "id" = Ok id
      /\ trace w' = trace w ++ evs
      /\ sleepless evs
      /\ (exists r rest,
             evs = Request (Download id) token r :: rest
             /\ ((exists body, r = Http 401 body) ->
                 exists r2 rest', rest = Request Login JNull r2 :: rest'))
      /\ ((Scenario.saved_in evs = [] /\ disk w' = disk w)
          \/ exists pre tok status body,
               evs = pre ++ [ Request (Download id) tok (Http status body);
                              Saved (str_of id ++ lit ".pdf") ]
               /\ Scenario.saved_in pre = []
               /\ is_http_error status = false /\ status <> 401%Z
               /\ disk w'
                  = (str_of id ++ lit ".pdf", content body)
                    :: filter (fun f =>
                                 negb (ustring_eqb (fst f)
                                         (str_of id ++ lit ".pdf")))
                              (disk w))).

Section MainPdfRuns.
Context {T : PyText}.
Import Scenario.
Local Open Scope monad_scope.

Lemma v1_download_sound (depth : nat) :
  forall token acte w w',
    MainPdf.download_acte depth token acte w = (Done tt, w') ->
    downloaded_once acte token w w'.
Proof.
  induction depth as [|depth IH]; intros token acte w w' H.
  - cbn in H. discriminate.
  - cbn [MainPdf.download_acte] in H.
    bind_cases H; [|discriminate|discriminate].
    apply lift_runs in E. destruct E as [Eid ->]. rename a into id.
    bind_cases H; [|discriminate|discriminate].
    apply lift_runs in E. destruct E as [_ ->].
    unfold bind at 1 in H. unfold http at 1 in H.
    set (r := replies w (served w)) in *.
    match type of H with _ ?w0 = _ => set (w1 := w0) in H end.
    exists id.
    assert (Hquiet : forall r1,
               r = r1 -> (forall body, r1 <> Http 401 body) ->
               (Done tt, w1) = (Done tt, w') ->
               exists evs,
                 get acte "id" = Ok id
                 /\ trace w' = trace w ++ evs
                 /\ sleepless evs
                 /\ (exists r0 rest,
                        evs = Request (Download id) token r0 :: rest
                        /\ ((exists body, r0 = Http 401 body) ->
                            exists r2 rest',
                              rest = Request Login JNull r2 :: rest'))
                 /\ ((saved_in evs = [] /\ disk w' = disk w)
                     \/ exists pre tok status body,
                          evs = pre ++ [ Request (Download id) tok
                                           (Http status body);
                                         Saved (str_of id ++ lit ".pdf") ]
                          /\ saved_in pre = []
                          /\ is_http_error status = false /\ status <> 401%Z
                          /\ disk w'
                             = (str_of id ++ lit ".pdf", content body)
                               :: filter
                                    (fun f =>
                                       negb (ustring_eqb (fst f)
                                               (str_of id ++ lit ".pdf")))
                                    (disk w))).
    { intros r1 Er1 Hn E. injection E as <-.
      exists [Request (Download id) token r].
      split; [exact Eid|]. split; [reflexivity|].
      split; [repeat constructor|]. split.
      - exists r, []. split; [reflexivity|]. intros [body Hb].
        rewrite Er1 in Hb. now elim (Hn body).
      - left. now split. }
    destruct r as [status body| |] eqn:Er;
      try (eapply Hquiet; [reflexivity | discriminate | exact H]).
    destruct (status =? 401)%Z eqn:E401.
    + apply Z.eqb_eq in E401. subst status.
      change (bind clear_token ?k w1) with
        (k tt {| replies := replies w1; served := served w1; unif := unif w1;
     lag := lag w1; slept := slept w1;
                 drawn := drawn w1; clock := clock w1;
                 json_limiter := json_limiter w1;
                 docs_limiter := docs_limiter w1;
                 token_file := None; disk := disk w1; trace := trace w1 |})
        in H.
      cbv beta in H.
      match type of H with bind login _ ?w0 = _ => set (w2 := w0) in H end.
      destruct (login_runs w2) as [o0 [file [El _]]].
      unfold bind in H. rewrite El in H. clear El.
      destruct o0 as [new_token|c|e]; [|discriminate|discriminate].
      destruct (negb (truthy new_token)).
      * unfold ret in H. injection H as <-.
        exists [Request (Download id) token (Http 401 body);
                Request Login JNull (replies w2 (served w2))].
        split; [exact Eid|].
        split; [cbn; now rewrite <- app_assoc|].
        split; [repeat constructor|]. split.
        -- eexists _, _. split; [reflexivity|]. intros _.
           eexists _, _. reflexivity.
        -- left. now split.
      * apply IH in H.
        destruct H as [id' [evs [Eid' [Ht [Hsl [_ Hres]]]]]].
        rewrite Eid in Eid'. injection Eid' as <-.
        exists ([Request (Download id) token (Http 401 body);
                 Request Login JNull (replies w2 (served w2))] ++ evs).
        split; [exact Eid|].
        split; [rewrite Ht; cbn; now rewrite <- !app_assoc|].
        split; [repeat constructor; exact Hsl|]. split.
        -- eexists _, _. split; [reflexivity|]. intros _.
           eexists _, _. reflexivity.
        -- destruct Hres as [[Hsv Hd]
                            | [pre [tok [st [bd [-> [Hsv Hrest]]]]]]].
           ++ left. split; [exact Hsv | exact Hd].
           ++ right.
              exists ([Request (Download id) token (Http 401 body);
                       Request Login JNull (replies w2 (served w2))] ++ pre),
                tok, st, bd.
              split; [now rewrite <- app_assoc|]. split; [exact Hsv|].
              exact Hrest.
    + destruct (is_http_error status) eqn:Eerr.
      * eapply Hquiet; [reflexivity | | exact H].
        intros b Hb. injection Hb as -> _. discriminate.
      * unfold write_file, log in H. injection H as <-.
        exists [Request (Download id) token (Http status body);
                Saved (str_of id ++ lit ".pdf")].
        split; [exact Eid|].
        split; [cbn; now rewrite <- app_assoc|].
        split; [repeat constructor|]. split.
        -- eexists _, _. split; [reflexivity|]. intros [b Hb].
           injection Hb as -> _. discriminate.
        -- right. exists [], token, status, body.
           split; [reflexivity|]. split; [reflexivity|].
           split; [exact Eerr|]. split; [now apply Z.eqb_neq | reflexivity].
Qed.

Lemma logins_in_app (a b : list Event) :
  logins_in (a ++ b) = (logins_in a + logins_in b)%nat.
Proof.
  unfold logins_in, requests_in.
  now rewrite flat_map_app, filter_app, length_app.
Qed.

(** X22.  [main] of main_pdf.py hands the token it started with to every
    download, also after a download has logged in again: when that token
    is refused (every request that carries it is answered 401), each
    document of the loop costs a login of its own. *)
Theorem a_refused_token_costs_a_login_per_document (depth : nat)
    (token : json) (actes : list json) (w w' : World) :
  MainPdf.download_all depth token actes w = (Done tt, w') ->
  (forall target r,
      In (Request target token r) (events_since w w') ->
      exists body, r = Http 401 body) ->
  (List.length actes <= logins_in (events_since w w'))%nat.
Proof.
  revert w. induction actes as [|acte actes IH]; intros w H Hall.
  - simpl. lia.
  - cbn [MainPdf.download_all] in H.
    bind_cases H; [|discriminate|discriminate]. destruct a.
    apply v1_download_sound in E.
    destruct E as [id [evs1 [_ [Ht1 [_ [[r [rest [-> Hfirst]]] _]]]]]].
    assert (Hext : exists evs2, trace w' = trace w0 ++ evs2).
    { clear - H. revert w0 H. induction actes as [|a actes IHa]; intros w0 H.
      - cbn in H. injection H as <-. exists []. now rewrite app_nil_r.
      - cbn [MainPdf.download_all] in H.
        bind_cases H; [|discriminate|discriminate]. destruct a0.
        apply v1_download_sound in E.
        destruct E as [_ [evs [_ [Ht _]]]].
        destruct (IHa _ H) as [evs2 Ht2]. exists (evs ++ evs2).
        now rewrite Ht2, Ht, app_assoc. }
    destruct Hext as [evs2 Ht2].
    assert (Hevs : events_since w w'
                   = (Request (Download id) token r :: rest) ++ evs2).
    { apply events_since_app. now rewrite Ht2, Ht1, app_assoc. }
    assert (Hevs2 : events_since w0 w' = evs2)
      by now apply events_since_app.
    rewrite Hevs in *. rewrite logins_in_app.
    assert (H1 : (1 <= logins_in (Request (Download id) token r :: rest))%nat).
    { destruct (Hall (Download id) r) as [body Hb]; [now left|].
      destruct Hfirst as [r2 [rest' ->]]; [now exists body|].
      unfold logins_in. cbn. lia. }
    assert (H2 : (List.length actes <= logins_in evs2)%nat).
    { rewrite <- Hevs2. apply IH; [exact H|].
      intros target r0 Hin. rewrite Hevs2 in Hin.
      apply (Hall target r0). apply in_or_app. now right. }
    cbn [List.length]. lia.
Qed.

(** The files a run of the loop writes are those of some of the documents,
    one each, in the order of the documents. *)
Lemma download_all_kept (depth : nat) (token : json) (actes : list json) :
  forall w w',
    MainPdf.download_all depth token actes w = (Done tt, w') ->
    exists evs kept,
      trace w' = trace w ++ evs
      /\ sleepless evs
      /\ subsequence kept actes
      /\ Forall2 (fun acte name =>
                    exists id, get acte "id" = Ok id
                               /\ name = str_of id ++ lit ".pdf")
                 kept (saved_in evs).
Proof.
  induction actes as [|acte actes IH]; intros w w' H.
  - cbn in H. injection H as <-. exists [], []. rewrite app_nil_r.
    repeat split; constructor.
  - cbn [MainPdf.download_all] in H.
    bind_cases H; [|discriminate|discriminate]. destruct a.
    apply v1_download_sound in E.
    destruct E as [id [evs1 [Eid [Ht1 [Hsl1 [_ Hres]]]]]].
    apply IH in H. destruct H as [evs2 [kept [Ht2 [Hsl2 [Hsub Hnm]]]]].
    assert (Hsv : saved_in (evs1 ++ evs2) = saved_in evs1 ++ saved_in evs2)
      by apply flat_map_app.
    destruct Hres as [[Hnone _] | [pre [tok [st [bd [-> [Hpre _]]]]]]].
    + exists (evs1 ++ evs2), kept.
      split; [now rewrite Ht2, Ht1, app_assoc|].
      split; [apply Forall_app; now split|].
      split; [now left|]. rewrite Hsv, Hnone. exact Hnm.
    + exists ((pre ++ [Request (Download id) tok (Http st bd);
                       Saved (str_of id ++ lit ".pdf")]) ++ evs2),
        (acte :: kept).
      split; [rewrite Ht2, Ht1, <- !app_assoc; reflexivity|].
      split; [apply Forall_app; now split|].
      split; [right; now split|]. rewrite Hsv.
      unfold saved_in at 1. rewrite flat_map_app. fold (saved_in pre).
      rewrite Hpre. cbn [flat_map app]. constructor; [|exact Hnm].
      now exists id.
Qed.

(** X21.  A run of [main] of main_pdf.py never sleeps.  When it writes
    files, the listing is the JSON body of the last reply to a request for
    the listing, a reply that is no error, and nothing was written before
    it came; the files are those of some of the documents that
    [filter_actes] keeps of that listing, one file per document and in the
    order of the listing, each named [<id>.pdf] after the id of its
    document. *)
Theorem main_pdf_saves_under_the_document_id (depth : nat) (w w' : World) :
  MainPdf.main depth w = (Done tt, w') ->
  let evs := events_since w w' in
  sleepless evs
  /\ (saved_in evs = []
      \/ exists before tok status body after attachments actes kept,
           evs = before
                   ++ Request (Attachments MainPdf.siren) tok (Http status body)
                   :: after
           /\ listing_free after
           /\ saved_in before = []
           /\ is_http_error status = false
           /\ body_json body = Some attachments
           /\ MainPdf.filter_actes attachments = Ok actes
           /\ subsequence kept actes
           /\ Forall2 (fun acte name =>
                         exists id, get acte "id" = Ok id
                                    /\ name = str_of id ++ lit ".pdf")
                      kept (saved_in evs)
           /\ (List.length (saved_in evs) <= List.length actes)%nat
           /\ Forall (fun name => exists acte id,
                          In acte actes /\ MainPdf.keeps acte = Ok true
                          /\ get acte "id" = Ok id
                          /\ name = str_of id ++ lit ".pdf")
                     (saved_in evs)).
Proof.
  intros H evs. unfold MainPdf.main in H.
  bind_cases H; [|discriminate|discriminate].
  apply get_token_events in E. destruct E as [evs1 [Ht1 [Hsv1 Hsl1]]].
  assert (Hend : forall w1 evs2,
             trace w1 = trace w0 ++ evs2 -> saved_in evs2 = [] ->
             sleepless evs2 ->
             (Done tt, w1) = (Done tt, w') ->
             sleepless evs /\ saved_in evs = []).
  { intros w1 evs2 Ht2 Hsv2 Hsl2 E. injection E as <-.
    assert (Hevs : evs = evs1 ++ evs2).
    { apply events_since_app. now rewrite Ht2, Ht1, app_assoc. }
    rewrite Hevs. split; [apply Forall_app; now split|].
    unfold saved_in in *. now rewrite flat_map_app, Hsv1, Hsv2. }
  destruct (negb (truthy a)).
  { destruct (Hend w0 []) as [H1 H2];
      [now rewrite app_nil_r | reflexivity | constructor | exact H|].
    split; [exact H1 | now left]. }
  bind_cases H; [|discriminate|discriminate].
  apply v1_fetch_last in E. destruct E as [evs2 [Ht2 [Hsv2 [Hsl2 Hj]]]].
  destruct (negb (truthy a0)) eqn:Etr.
  { destruct (Hend w1 evs2) as [H1 H2]; try assumption.
    split; [exact H1 | now left]. }
  destruct Hj as [-> | [pre [tok [status [body [-> [Herr [_ Hbody]]]]]]]];
    [discriminate Etr|].
  bind_cases H; [|discriminate|discriminate].
  apply lift_runs in E. destruct E as [Ef ->]. rename a1 into actes.
  pose proof (download_all_asks_no_listing depth a actes) as Hno.
  pose proof H as Hd.
  apply download_all_kept in H.
  destruct H as [evs3 [kept [Ht3 [Hsl3 [Hsub Hnm]]]]].
  assert (Hfree : listing_free evs3)
    by (eapply emits_events; [exact Hno | exact Hd | exact Ht3]).
  assert (Hevs : evs = (evs1 ++ pre)
                         ++ Request (Attachments MainPdf.siren) tok
                              (Http status body) :: evs3).
  { apply events_since_app. rewrite Ht3, Ht2, Ht1, <- !app_assoc.
    reflexivity. }
  assert (Hpre : saved_in pre = []).
  { unfold saved_in in *. rewrite flat_map_app in Hsv2.
    now apply app_eq_nil in Hsv2. }
  assert (Hsaved : saved_in evs = saved_in evs3).
  { rewrite Hevs. unfold saved_in in *.
    rewrite !flat_map_app, Hsv1, Hpre. reflexivity. }
  split.
  { rewrite Hevs, <- app_assoc.
    apply Forall_app; split; [exact Hsl1|].
    change (Request (Attachments MainPdf.siren) tok (Http status body) :: evs3)
      with ([Request (Attachments MainPdf.siren) tok (Http status body)]
              ++ evs3).
    rewrite app_assoc. apply Forall_app; split; assumption. }
  right. exists (evs1 ++ pre), tok, status, body, evs3, a0, actes, kept.
  split; [exact Hevs|]. split; [exact Hfree|].
  split; [unfold saved_in in *; now rewrite flat_map_app, Hsv1, Hpre|].
  split; [exact Herr|]. split; [exact Hbody|]. split; [exact Ef|].
  split; [exact Hsub|]. rewrite Hsaved. split; [exact Hnm|].
  assert (Hlen : List.length (saved_in evs3) = List.length kept).
  { clear - Hnm. induction Hnm; simpl; congruence. }
  split; [rewrite Hlen; now apply subsequence_length|].
  assert (Hkept : forall acte, In acte kept ->
                               In acte actes /\ MainPdf.keeps acte = Ok true).
  { intros acte Hin. apply (subsequence_in _ _ _ Hsub) in Hin.
    split; [exact Hin|].
    unfold MainPdf.filter_actes in Ef.
    destruct (get_or a0 "actes" (JList [])) as [v|]; cbn [res_bind] in Ef;
      [|discriminate].
    destruct (iterate v) as [l|]; cbn [res_bind] in Ef; [|discriminate].
    apply filter_loop_ok in Ef. destruct Ef as [-> _].
    apply filter_In in Hin. destruct Hin as [_ Hk].
    destruct (MainPdf.keeps acte) as [[|]|]; congruence. }
  clear - Hnm Hkept. induction Hnm as [|acte name kept names [id [Hid Hn]] _ IH];
    constructor.
  - destruct (Hkept acte (or_introl eq_refl)) as [H1 H2].
    now exists acte, id.
  - apply IH. intros a1 Hin. apply Hkept. now right.
Qed.

End MainPdfRuns.

Lemma a_refused_token_costs_a_login_per_document_witness :
  let w := Scenario.world
             [ Scenario.unauthorized; Scenario.logged_in "t1";
               Http 200 (Scenario.raw_body [x25; x50; x44; x46]%byte);
               Scenario.unauthorized; Scenario.logged_in "t2";
               Http 200 (Scenario.raw_body [x25; x50; x44; x46]%byte) ]
             200 40 in
  let run := MainPdf.download_all (T := Latin1.text) 2 (JStr (lit "t0"))
               [Scenario.statuts; Scenario.statuts] w in
  fst run = Done tt
  /\ (2 <= Scenario.logins_in (Scenario.events_since w (snd run)))%nat.
Proof.
  intros w run.
  assert (E : fst run = Done tt) by (vm_compute; reflexivity).
  split; [exact E|].
  apply (@a_refused_token_costs_a_login_per_document Latin1.text 2
           (JStr (lit "t0")) [Scenario.statuts; Scenario.statuts] w (snd run)
           (run_returns run E)).
  intros target r Hin. vm_compute in Hin.
  repeat (destruct Hin as [Hin | Hin];
          [try discriminate Hin; injection Hin as _ <-; now eexists|]).
  destruct Hin.
Defined.

Lemma main_pdf_saves_under_the_document_id_witness :
  let w := Scenario.world
             [ Http 200 (Scenario.ok_body (Scenario.listing [Scenario.statuts]));
               Http 200 (Scenario.raw_body [x25; x50; x44; x46]%byte) ]
             200 40 in
  let run := MainPdf.main (T := Latin1.text) 8 w in
  fst run = Done tt
  /\ Forall (fun e => match e with Sleep _ _ => False | _ => True end)
            (Scenario.events_since w (snd run)).
Proof.
  intros w run.
  assert (E : fst run = Done tt) by (vm_compute; reflexivity).
  split; [exact E|].
  exact (proj1 (@main_pdf_saves_under_the_document_id Latin1.text 8 w
                  (snd run) (run_returns run E))).
Defined.

(** ** Replies that are retried *)

Section ClientErrors.
Import Scenario.
Local Open Scope monad_scope.

Variables (max_attempts : Z) (token : json) (siren : ustring).

(** One attempt of [fetch_attachments] that meets a failed reply: it ends
    the call when it is the last one, and otherwise sleeps the backoff of
    the attempt and goes on with the same token. *)
Lemma fetch_fails_once (todo : nat) (attempt : Z) (w : World) :
  failed (replies w (served w)) = true ->
  (forall n, 0 <= unif w n <= 1) ->
  exists w1 evs,
    trace w1 = trace w ++ evs
    /\ replies w1 = replies w /\ unif w1 = unif w
    /\ served w1 = S (served w)
    /\ List.length (requests_in evs) = 1%nat
    /\ saved_in evs = []
    /\ if (attempt <? max_attempts)%Z then
         MainPdf2.fetch_attempts (S todo) attempt max_attempts token siren w
         = MainPdf2.fetch_attempts todo (attempt + 1) max_attempts token siren
             w1
         /\ exists j,
              backoffs_in evs = [MainPdf2.backoff_at [3; 8; 20]%Z attempt + j]
              /\ 1 # 2 <= j <= 3 # 2
       else
         MainPdf2.fetch_attempts (S todo) attempt max_attempts token siren w
         = (Done (JNull, token), w1)
         /\ backoffs_in evs = [].
Proof.
  intros Hr Hu. cbn [MainPdf2.fetch_attempts].
  match goal with
  | |- context [bind (wait ?g) (fun _ => bind (http ?t ?tok) ?k) w] =>
      destruct (call_step g t tok k w)
        as [w1 [pacing [E [Hr1 [Hu1 [Hs1 [Hd1 [Ht1 Hp]]]]]]]]
  end.
  assert (Hgo :
    match replies w (served w) with
    | Http status body =>
        if (status =? 401)%Z then
          clear_token ;;
          new_token <- login ;;
          if negb (truthy new_token) then ret (JNull, JNull)
          else MainPdf2.fetch_attempts todo (attempt + 1) max_attempts
                 new_token siren
        else if (status =? 429)%Z then sys_exit 2
        else if (status =? 403)%Z then ret (JNull, token)
        else if (500 <=? status)%Z then
          MainPdf2.retry_or [3; 8; 20]%Z (5 # 10) (15 # 10) attempt
            max_attempts
            (MainPdf2.fetch_attempts todo (attempt + 1) max_attempts token
               siren) (JNull, token)
        else if is_http_error status then
          MainPdf2.retry_or [3; 8; 20]%Z (5 # 10) (15 # 10) attempt
            max_attempts
            (MainPdf2.fetch_attempts todo (attempt + 1) max_attempts token
               siren) (JNull, token)
        else match body_json body with
             | Some j => ret (j, token)
             | None =>
                 MainPdf2.retry_or [3; 8; 20]%Z (5 # 10) (15 # 10) attempt
                   max_attempts
                   (MainPdf2.fetch_attempts todo (attempt + 1) max_attempts
                      token siren) (JNull, token)
             end
    | _ =>
        MainPdf2.retry_or [3; 8; 20]%Z (5 # 10) (15 # 10) attempt
          max_attempts
          (MainPdf2.fetch_attempts todo (attempt + 1) max_attempts token
             siren) (JNull, token)
    end w1
    = MainPdf2.retry_or [3; 8; 20]%Z (5 # 10) (15 # 10) attempt max_attempts
        (MainPdf2.fetch_attempts todo (attempt + 1) max_attempts token siren)
        (JNull, token) w1).
  { destruct (replies w (served w)) as [status body| |]; try reflexivity.
    cbn in Hr.
    destruct (status =? 401)%Z eqn:E401;
      [rewrite !andb_false_r in Hr; cbn in Hr;
       apply andb_true_iff in Hr; destruct Hr as [Hlt _];
       apply Z.eqb_eq in E401; apply Z.ltb_lt in Hlt; lia|].
    destruct (status =? 429)%Z eqn:E429;
      [rewrite !andb_false_r in Hr; cbn in Hr;
       apply andb_true_iff in Hr; destruct Hr as [Hlt _];
       apply Z.eqb_eq in E429; apply Z.ltb_lt in Hlt; lia|].
    destruct (status =? 403)%Z eqn:E403;
      [rewrite !andb_false_r in Hr; cbn in Hr;
       apply andb_true_iff in Hr; destruct Hr as [Hlt _];
       apply Z.eqb_eq in E403; apply Z.ltb_lt in Hlt; lia|].
    destruct (500 <=? status)%Z eqn:E500; [reflexivity|].
    destruct (is_http_error status) eqn:Eerr; [reflexivity|].
    destruct (body_json body); [|reflexivity].
    exfalso. cbn in Hr. rewrite !andb_true_r, andb_false_r, orb_false_r in Hr.
    unfold is_http_error in Eerr. apply Z.leb_le in Hr.
    apply Z.leb_gt in E500.
    apply andb_false_iff in Eerr. destruct Eerr as [Eerr|Eerr].
    - apply Z.leb_gt in Eerr. lia.
    - apply Z.ltb_ge in Eerr. lia. }
  rewrite E, Hgo. clear E Hgo.
  destruct (attempt <? max_attempts)%Z eqn:Elt.
  - apply Z.ltb_lt in Elt.
    destruct (@retry_or_sleeps _ [3; 8; 20]%Z (5 # 10) (15 # 10) attempt
                max_attempts
                (MainPdf2.fetch_attempts todo (attempt + 1) max_attempts token
                   siren) (JNull, token) w1 Elt)
      as [w2 [j [E2 [Hr2 [Hu2 [Hs2 [_ [Ht2 Hj]]]]]]]].
    { apply backoff_at_nonneg. repeat constructor; lia. }
    { lra. }
    { lra. }
    { rewrite Hu1. apply Hu. }
    exists w2, (pacing ++ [Request (Attachments siren) token
                             (replies w (served w));
                           Sleep Backoff
                             (MainPdf2.backoff_at [3; 8; 20]%Z attempt + j)]).
    split; [rewrite Ht2, Ht1, <- !app_assoc; reflexivity|].
    split; [congruence|]. split; [congruence|]. split; [congruence|].
    assert (Hj' : 1 # 2 <= j <= 3 # 2) by lra.
    destruct Hp as [-> | [d ->]]; (split; [reflexivity|]);
      (split; [reflexivity|]); (split; [exact E2|]); exists j; now split.
  - exists w1, (pacing ++ [Request (Attachments siren) token
                             (replies w (served w))]).
    split; [exact Ht1|]. split; [exact Hr1|]. split; [exact Hu1|].
    split; [exact Hs1|].
    unfold MainPdf2.retry_or. rewrite Elt.
    destruct Hp as [-> | [d ->]]; repeat split; reflexivity.
Qed.

End ClientErrors.

(** X23.  [fetch_attachments] retries more than server errors: a reply
    with a status of 400 or above other than 401, 403 and 429 (a 404, say),
    a reply whose body is not JSON, a time-out and a connection failure
    all lead to the same backoff and a new attempt.  When the four
    attempts of a call all fail so, the call has sent four requests, slept
    the backoffs 3, 8 and 20 seconds (plus a jitter between 0.5 and 1.5),
    and returns no listing with the token it was given. *)
Theorem client_errors_are_retried_as_well (token : json) (siren : ustring)
    (w : World) :
  (forall n, 0 <= unif w n <= 1) ->
  (forall i, (i < 4)%nat ->
             Scenario.failed (replies w (served w + i)) = true) ->
  exists w',
    MainPdf2.fetch_attachments token siren 4 w = (Done (JNull, token), w')
    /\ List.length (Scenario.requests_in (Scenario.events_since w w')) = 4%nat
    /\ Forall2 (Scenario.jittered (1 # 2) (3 # 2)) [3; 8; 20]
         (Scenario.backoffs_in (Scenario.events_since w w'))
    /\ Scenario.saved_in (Scenario.events_since w w') = [].
Proof.
  intros Hu Hf. unfold MainPdf2.fetch_attachments.
  change (Z.to_nat 4) with 4%nat.
  destruct (@fetch_fails_once 4 token siren 3 1 w)
    as [w1 [evs1 [Ht1 [Hr1 [Hu1 [Hs1 [Hq1 [Hsv1 [E1 [j1 [Hb1 Hj1]]]]]]]]]]].
  { rewrite <- (Nat.add_0_r (served w)). apply Hf. lia. }
  { exact Hu. }
  destruct (@fetch_fails_once 4 token siren 2 2 w1)
    as [w2 [evs2 [Ht2 [Hr2 [Hu2 [Hs2 [Hq2 [Hsv2 [E2 [j2 [Hb2 Hj2]]]]]]]]]]].
  { rewrite Hr1, Hs1. replace (S (served w)) with (served w + 1)%nat by lia.
    apply Hf. lia. }
  { intros n. rewrite Hu1. apply Hu. }
  destruct (@fetch_fails_once 4 token siren 1 3 w2)
    as [w3 [evs3 [Ht3 [Hr3 [Hu3 [Hs3 [Hq3 [Hsv3 [E3 [j3 [Hb3 Hj3]]]]]]]]]]].
  { rewrite Hr2, Hr1, Hs2, Hs1.
    replace (S (S (served w))) with (served w + 2)%nat by lia.
    apply Hf. lia. }
  { intros n. rewrite Hu2, Hu1. apply Hu. }
  destruct (@fetch_fails_once 4 token siren 0 4 w3)
    as [w4 [evs4 [Ht4 [Hr4 [Hu4 [Hs4 [Hq4 [Hsv4 [E4 Hb4]]]]]]]]].
  { rewrite Hr3, Hr2, Hr1, Hs3, Hs2, Hs1.
    replace (S (S (S (served w)))) with (served w + 3)%nat by lia.
    apply Hf. lia. }
  { intros n. rewrite Hu3, Hu2, Hu1. apply Hu. }
  exists w4.
  change (1 + 1)%Z with 2%Z in E1. change (2 + 1)%Z with 3%Z in E2.
  change (3 + 1)%Z with 4%Z in E3.
  rewrite E1, E2, E3, E4. split; [reflexivity|].
  assert (Hevs : Scenario.events_since w w4 = evs1 ++ evs2 ++ evs3 ++ evs4).
  { apply events_since_app. now rewrite Ht4, Ht3, Ht2, Ht1, <- !app_assoc. }
  rewrite Hevs.
  unfold Scenario.requests_in, Scenario.backoffs_in, Scenario.saved_in in *.
  rewrite !flat_map_app, !length_app, Hq1, Hq2, Hq3, Hq4.
  rewrite Hb1, Hb2, Hb3, Hb4, Hsv1, Hsv2, Hsv3, Hsv4.
  split; [reflexivity|]. split; [|reflexivity].
  cbn [app]. repeat constructor.
  - exists j1. split; [exact Hj1 | reflexivity].
  - exists j2. split; [exact Hj2 | reflexivity].
  - exists j3. split; [exact Hj3 | reflexivity].
Qed.

Lemma client_errors_are_retried_as_well_witness :
  exists w',
    MainPdf2.fetch_attachments (JStr (lit "t0")) (lit "123456789") 4
      Scenario.not_found
    = (Done (JNull, JStr (lit "t0")), w').
Proof.
  destruct (@client_errors_are_retried_as_well (JStr (lit "t0"))
              (lit "123456789") Scenario.not_found)
    as [w' [E _]].
  - intros n. split; vm_compute; discriminate.
  - intros i Hi. reflexivity.
  - exists w'. exact E.
Defined.

(** ** The two filters *)

Section TwoFilters.
Context {T : PyText}.
Import Scenario.

Lemma subsequence_filter (f : json -> bool) (l : list json) :
  subsequence (filter f l) l.
Proof.
  induction l as [|a l IH]; simpl; [reflexivity|].
  destruct (f a); [right; now split | now left].
Qed.

(** On a document that the test of main_pdf.py accepts or rejects, the
    test of main_pdf_2.py gives an answer too: the same, unless the
    document is flagged deleted or carries a confidentiality other than
    "public". *)
Lemma keeps2_of_keeps1 (acte : json) (b : bool) :
  MainPdf.keeps acte = Ok b ->
  exists deleted conf,
    get acte "deleted" = Ok deleted
    /\ get acte "confidentiality" = Ok conf
    /\ MainPdf2.keeps acte
       = Ok (if match deleted with JBool true => true | _ => false end
             then false
             else if match conf with
                     | JStr s => negb (ustring_eqb (lower s) (lit "public"))
                     | _ => false
                     end
                  then false else b).
Proof.
  unfold MainPdf.keeps, MainPdf2.keeps. intros H.
  destruct (acte_types acte) as [types|] eqn:Et; cbn [res_bind] in H;
    [|discriminate].
  injection H as <-.
  assert (Hd : exists m, acte = JObj m).
  { unfold acte_types in Et. destruct acte; try discriminate. now eexists. }
  destruct Hd as [m ->]. unfold get, get_or.
  eexists _, _. split; [reflexivity|]. split; [reflexivity|].
  cbn [res_bind].
  destruct (match assoc (lit "deleted") m with Some v => v | None => JNull end)
    as [|[|]|z0|q0|s0|l0|m0]; try reflexivity;
    destruct (match assoc (lit "confidentiality") m with
              | Some v => v
              | None => JNull
              end) as [|b1|z1|q1|s1|l1|m1]; try reflexivity;
    destruct (negb (ustring_eqb (lower s1) (lit "public"))); reflexivity.
Qed.

(** X24.  On a listing that the filter of main_pdf.py can go through, the
    filter of main_pdf_2.py succeeds as well and returns what the other
    returns less the documents flagged [deleted] and those whose
    confidentiality is a string other than "public", case apart: its
    exclusions only remove documents, in place. *)
Theorem the_exclusions_only_remove_documents (attachments : json)
    (out1 : list json) :
  MainPdf.filter_actes attachments = Ok out1 ->
  exists out2,
    MainPdf2.filter_actes attachments = Ok out2
    /\ subsequence out2 out1
    /\ forall a,
         In a out2
         <-> In a out1
             /\ get a "deleted" <> Ok (JBool true)
             /\ forall s, get a "confidentiality" = Ok (JStr s) ->
                          lower s = lit "public".
Proof.
  unfold MainPdf.filter_actes, MainPdf2.filter_actes. intros H.
  destruct (get_or attachments "actes" (JList [])) as [v|];
    cbn [res_bind] in *; [|discriminate].
  destruct (iterate v) as [l|]; cbn [res_bind] in *; [|discriminate].
  destruct (filter_loop_ok _ _ H) as [-> Hall].
  destruct (@filter_loop_total MainPdf2.keeps l) as [out2 E2].
  { intros a Ha. destruct (Hall a Ha) as [b Hb].
    destruct (keeps2_of_keeps1 _ Hb) as [d [c [_ [_ E]]]]. eauto. }
  exists out2. split; [exact E2|].
  destruct (filter_loop_ok _ _ E2) as [-> _].
  assert (Hiff : forall a, In a l ->
             (match MainPdf2.keeps a with Ok true => true | _ => false end
              = true
              <-> match MainPdf.keeps a with Ok true => true | _ => false end
                  = true
                  /\ get a "deleted" <> Ok (JBool true)
                  /\ forall s, get a "confidentiality" = Ok (JStr s) ->
                               lower s = lit "public")).
  { intros a Ha. destruct (Hall a Ha) as [b Hb].
    destruct (keeps2_of_keeps1 _ Hb) as [d [c [Ed [Ec E]]]].
    rewrite E, Hb, Ed, Ec.
    destruct d as [|[|]|z0|q0|s0|l0|m0];
      try (split; [discriminate | intros [_ [Hn _]]; now elim Hn]).
    all: destruct c as [|b1|z1|q1|s|l1|m1];
      try (destruct b; split;
           [ intros _; repeat split; congruence
           | reflexivity
           | discriminate
           | intros [Hb' _]; discriminate Hb' ]).
    all: destruct (ustring_eqb (lower s) (lit "public")) eqn:Es; cbn [negb].
    all: try (apply ustring_eqb_eq in Es).
    all: destruct b; split; try discriminate;
      try (intros [Hb' _]; discriminate Hb').
    all: try (intros _; repeat split; try congruence;
              intros s0 Hs0; injection Hs0 as <-; exact Es).
    all: try reflexivity.
    all: intros [_ [_ Hp]]; specialize (Hp s eq_refl);
      rewrite Hp, ustring_eqb_refl in Es; discriminate Es. }
  split.
  - assert (Hsame : filter (fun a => match MainPdf2.keeps a with
                                     | Ok true => true
                                     | _ => false
                                     end) l
                    = filter (fun a => match MainPdf2.keeps a with
                                       | Ok true => true
                                       | _ => false
                                       end)
                        (filter (fun a => match MainPdf.keeps a with
                                          | Ok true => true
                                          | _ => false
                                          end) l)).
    { clear - Hiff. induction l as [|a l IH]; [reflexivity|]. cbn [filter].
      pose proof (Hiff a (or_introl eq_refl)) as Ha.
      assert (IH' := IH (fun x Hx => Hiff x (or_intror Hx))).
      destruct (match MainPdf.keeps a with Ok true => true | _ => false end)
        eqn:E1.
      - cbn [filter]. now rewrite IH'.
      - destruct (match MainPdf2.keeps a with Ok true => true | _ => false end)
          eqn:E2; [|exact IH'].
        destruct Ha as [Ha _]. destruct (Ha eq_refl) as [Hf _]. discriminate. }
    rewrite Hsame. apply subsequence_filter.
  - intros a. rewrite !filter_In. split.
    + intros [Ha Hk]. destruct (Hiff a Ha) as [H1 _].
      destruct (H1 Hk) as [Hk1 Hrest]. split; [now split | exact Hrest].
    + intros [[Ha Hk1] Hrest]. split; [exact Ha|].
      apply (Hiff a Ha). now split.
Qed.

End TwoFilters.

Lemma the_exclusions_only_remove_documents_witness :
  exists out2,
    MainPdf2.filter_actes (T := Latin1.text)
      (Scenario.listing
         [ Scenario.statuts;
           Scenario.acte_with [(lit "deleted", JBool true)]
             [lit "Statuts constitutifs"] ])
    = Ok out2
    /\ Scenario.subsequence out2
         [ Scenario.statuts;
           Scenario.acte_with [(lit "deleted", JBool true)]
             [lit "Statuts constitutifs"] ].
Proof.
  destruct (@the_exclusions_only_remove_documents Latin1.text
              (Scenario.listing
                 [ Scenario.statuts;
                   Scenario.acte_with [(lit "deleted", JBool true)]
                     [lit "Statuts constitutifs"] ])
              _ eq_refl)
    as [out2 [E [Hs _]]].
  exists out2. split; [exact E | exact Hs].
Defined.
